(** * gofpdi: a shallow embedding of the PDF reader, writer and importer

    The development follows the Go sources file by file:
    - [reader] : the tokenizer, value parser, cross-reference reader,
      object resolution and page queries of the package [reader];
    - [filterPaeth], [isNumeric], [abs] : the helpers of the package [reader];
    - [Writer] : the rewriter of writer.go ([GetPDFBoxDimensions],
      [ImportPage], [writeValue], [PutFormXobjects], [putImportedObjects]);
    - [Importer] : the importer of importer.go;
    - [HashWriter] : the older rewriter that owns the [useHash] switch.

    Go values are modelled as follows.  An [int] is a [Z] (64-bit, wrap-around
    written [wrap64] where an operation can overflow); a [byte] is an [ascii];
    a [string] is a [string]; a [[]byte] is a [list ascii]; a [float64] is a
    primitive binary64 [float]; a [map[int]T] is a [gmap Z T]; a
    [map[string]*PdfValue] is an association list with unique keys, whose
    order stands for one of the iteration orders Go may choose.  A function
    that returns [(T, error)] is a computation in the monad [M]: it ends in
    [Ok] (nil error), [Err] (non-nil error), [Panic] (a run-time panic such
    as a nil dereference or an index out of range) or [Diverge] (the
    recursion budget of the model is used up). *)

From Stdlib Require Import ZArith String Ascii List Lia Bool PrimFloat Uint63.
From stdpp Require Import base gmap strings list.
Import ListNotations.

Local Open Scope string_scope.
Local Open Scope Z_scope.
Local Open Scope list_scope.

(** ** Go base types *)

(** The range of Go's [int] on a 64-bit platform. *)
Definition maxInt : Z := 2 ^ 63 - 1.
Definition minInt : Z := - 2 ^ 63.

(** Two's complement wrap-around of 64-bit arithmetic. *)
Definition wrap64 (z : Z) : Z := (z + 2 ^ 63) mod 2 ^ 64 - 2 ^ 63.

Definition byte_val (c : ascii) : Z := Z.of_N (N_of_ascii c).
Definition byte_of (z : Z) : ascii := ascii_of_N (Z.to_N (z mod 256)).

Definition bytes_of_string (s : string) : list ascii := list_ascii_of_string s.
Definition string_of_bytes (l : list ascii) : string := string_of_list_ascii l.

Definition is_digit (c : ascii) : bool :=
  (48 <=? byte_val c) && (byte_val c <=? 57).

(** [strconv.Atoi]: an optional sign and decimal digits.  The pair is the
    returned [int] and whether the error is nil; on a syntax error the value
    is 0, on a range error it is the nearest bound. *)
Fixpoint digits_val (s : string) (acc : Z) : option Z :=
  match s with
  | EmptyString => Some acc
  | String c rest =>
      if is_digit c then digits_val rest (10 * acc + (byte_val c - 48)) else None
  end.

Definition Atoi (s : string) : Z * bool :=
  match s with
  | EmptyString => (0, false)
  | String c rest =>
      let '(neg, body) :=
        if Ascii.eqb c "-" then (true, rest)
        else if Ascii.eqb c "+" then (false, rest) else (false, s) in
      match body with
      | EmptyString => (0, false)
      | _ =>
          match digits_val body 0 with
          | None => (0, false)
          | Some v =>
              let v' := if neg : bool then - v else v in
              if maxInt <? v' then (maxInt, false)
              else if v' <? minInt then (minInt, false)
              else (v', true)
          end
      end
  end.

(** [fmt.Sprintf("%d", n)]. *)
Fixpoint itoa_go (fuel : nat) (n : Z) (acc : string) : string :=
  match fuel with
  | O => acc
  | S f =>
      let acc' := String (byte_of (48 + n mod 10)) acc in
      if n <? 10 then acc' else itoa_go f (n / 10) acc'
  end.

Definition itoa (z : Z) : string :=
  if z <? 0 then String "-" (itoa_go 20 (- z) "") else itoa_go 20 z "".

(** ** Outcomes of a Go call, and the state monad over them *)

Inductive outcome (St A : Type) : Type :=
| Ok (a : A) (s : St)
| Err (e : string) (s : St)
| Panic
| Diverge.
Arguments Ok {St A} a s.
Arguments Err {St A} e s.
Arguments Panic {St A}.
Arguments Diverge {St A}.

Definition M (St A : Type) : Type := St -> outcome St A.

Definition ret {St A} (a : A) : M St A := fun s => Ok a s.

Definition bind {St A B} (m : M St A) (k : A -> M St B) : M St B :=
  fun s =>
    match m s with
    | Ok a s' => k a s'
    | Err e s' => Err e s'
    | Panic => Panic
    | Diverge => Diverge
    end.

Definition fail {St A} (e : string) : M St A := fun s => Err e s.
Definition panic {St A} : M St A := fun _ => Panic.
Definition diverge {St A} : M St A := fun _ => Diverge.
Definition get {St} : M St St := fun s => Ok s s.
Definition gets {St A} (f : St -> A) : M St A := fun s => Ok (f s) s.
Definition modify {St} (f : St -> St) : M St unit := fun s => Ok tt (f s).

(** The state a call leaves behind: a call that returns, with or without
    an error, leaves a state; a panic or a divergence does not. *)
Definition final {St A} (o : outcome St A) : option St :=
  match o with
  | Ok _ s => Some s
  | Err _ s => Some s
  | Panic => None
  | Diverge => None
  end.

(** A nil pointer that is dereferenced panics. *)
Definition deref {St A} (o : option A) : M St A :=
  match o with Some a => ret a | None => panic end.

Notation "'let*' x := m 'in' k" := (bind m (fun x => k))
  (at level 10, x pattern, m at level 100, k at level 200).
Notation "'do*' m 'in' k" := (bind m (fun _ => k))
  (at level 10, m at level 100, k at level 200).

(** ** Package reader: helpers *)

Definition ch (n : Z) : ascii := byte_of n.
Definition beq (a b : ascii) : bool := Ascii.eqb a b.

(** [string(b)] for a byte [b]: the UTF-8 encoding of the code point [b]. *)
Definition string_of_rune_byte (b : ascii) : string :=
  let v := byte_val b in
  if v <? 128 then String b EmptyString
  else String (byte_of (Z.lor 192 (Z.shiftr v 6)))
         (String (byte_of (Z.lor 128 (Z.land v 63))) EmptyString).

(** [strings.TrimSpace]: the byte length of a white-space rune that starts
    the list (0 when there is none), and of one that ends the reversed list. *)
Definition asciiSpace (c : ascii) : bool :=
  let v := byte_val c in
  (v =? 9) || (v =? 10) || (v =? 11) || (v =? 12) || (v =? 13) || (v =? 32).

Definition leading_space (l : list ascii) : nat :=
  match map byte_val l with
  | c :: r =>
      if asciiSpace (byte_of c) && (c <? 128) then 1%nat
      else match c, r with
           | 194, d :: _ => if (d =? 133) || (d =? 160) then 2%nat else 0%nat
           | 225, 154 :: 128 :: _ => 3%nat
           | 226, 128 :: d :: _ =>
               if ((128 <=? d) && (d <=? 138)) || (d =? 168) || (d =? 169) || (d =? 175)
               then 3%nat else 0%nat
           | 226, 129 :: 159 :: _ => 3%nat
           | 227, 128 :: 128 :: _ => 3%nat
           | _, _ => 0%nat
           end
  | [] => 0%nat
  end.

Definition trailing_space (rl : list ascii) : nat :=
  match map byte_val rl with
  | c :: r =>
      if asciiSpace (byte_of c) && (c <? 128) then 1%nat
      else match c, r with
           | 133, 194 :: _ => 2%nat
           | 160, 194 :: _ => 2%nat
           | 128, 154 :: 225 :: _ => 3%nat
           | 159, 129 :: 226 :: _ => 3%nat
           | 128, 128 :: 227 :: _ => 3%nat
           | d, 128 :: 226 :: _ =>
               if ((128 <=? d) && (d <=? 138)) || (d =? 168) || (d =? 169) || (d =? 175)
               then 3%nat else 0%nat
           | _, _ => 0%nat
           end
  | [] => 0%nat
  end.

Fixpoint trim_left (fuel : nat) (l : list ascii) : list ascii :=
  match fuel with
  | O => l
  | S n => match leading_space l with
           | O => l
           | k => trim_left n (skipn k l)
           end
  end.

Fixpoint trim_right_rev (fuel : nat) (rl : list ascii) : list ascii :=
  match fuel with
  | O => rl
  | S n => match trailing_space rl with
           | O => rl
           | k => trim_right_rev n (skipn k rl)
           end
  end.

Definition TrimSpace (s : string) : string :=
  let l := trim_left (String.length s) (bytes_of_string s) in
  string_of_bytes (rev (trim_right_rev (List.length l) (rev l))).

Definition is_hex_digit (c : ascii) : bool :=
  let v := byte_val c in
  ((48 <=? v) && (v <=? 57)) || ((97 <=? v) && (v <=? 102)) || ((65 <=? v) && (v <=? 70)).

(** The loop [for i, v := range str] of [isNumeric]: [p] and [s] are the
    positions of the last point and exponent seen, [l] the length. *)
Fixpoint isNumeric_loop (str : list ascii) (i p s l : Z) : bool :=
  match str with
  | [] => true
  | v :: rest =>
      if beq v "." then
        if (0 <? p) || (0 <? s) || (i + 1 =? l) then false
        else isNumeric_loop rest (i + 1) i s l
      else if beq v "e" || beq v "E" then
        if (i =? 0) || (0 <? s) || (i + 1 =? l) then false
        else isNumeric_loop rest (i + 1) p i l
      else if negb (is_digit v) then false
      else isNumeric_loop rest (i + 1) p s l
  end.

(** [isNumeric]; [None] is the panic of [str[0]] on a string that
    [TrimSpace] emptied. *)
Definition isNumeric (str : string) : option bool :=
  if String.eqb str "" then Some false
  else
    match bytes_of_string (TrimSpace str) with
    | [] => None
    | c0 :: tl =>
        let signed := beq c0 "-" || beq c0 "+" in
        if signed && (List.length tl =? 0)%nat then Some false
        else
          let str := if signed then tl else c0 :: tl in
          match str with
          | z :: x :: ((_ :: _) as digits) =>
              if beq z "0" && (beq x "x" || beq x "X")
              then Some (forallb is_hex_digit digits)
              else Some (isNumeric_loop str 0 0 0 (Z.of_nat (List.length str)))
          | _ => Some (isNumeric_loop str 0 0 0 (Z.of_nat (List.length str)))
          end
    end.

(** [abs] of the png library: branch-free absolute value on a 64-bit int. *)
Definition intSize : Z := 64.

Definition abs (x : Z) : Z :=
  let m := Z.shiftr x (intSize - 1) in
  wrap64 (Z.lxor x m - m).


(** ** The functions of Go's standard library that the code calls

    They are not part of the repository; the development is parametric in
    them.  [zlib_inflate] is [zlib.NewReader] followed by reading to the end:
    [None] when the header is refused, otherwise the bytes produced and
    whether the stream ended without error. *)
Class GoStd : Type := {
  ParseFloat : string -> float;
  zlib_inflate : list ascii -> option (list ascii * bool);
  zlib_deflate : list ascii -> list ascii;
  sha1_hex : string -> string;
  Sprintf_F : Z -> float -> string;
  math_Cos : float -> float;
  math_Sin : float -> float
}.

(** [float64(n)] for an [int] [n]. *)
Definition float_of_int (z : Z) : float :=
  if z =? minInt then PrimFloat.opp 9223372036854775808%float
  else if z <? 0 then PrimFloat.opp (PrimFloat.of_uint63 (Uint63.of_Z (- z)))
  else PrimFloat.of_uint63 (Uint63.of_Z z).

(** [math.Abs], [math.Min] and [math.Max], with their special cases. *)
Definition math_Abs (x : float) : float := PrimFloat.abs x.

Definition is_neg_inf (x : float) : bool := PrimFloat.is_infinity x && PrimFloat.get_sign x.
Definition is_pos_inf (x : float) : bool := PrimFloat.is_infinity x && negb (PrimFloat.get_sign x).

Definition math_Min (x y : float) : float :=
  if is_neg_inf x || is_neg_inf y then PrimFloat.neg_infinity
  else if PrimFloat.is_nan x || PrimFloat.is_nan y then PrimFloat.nan
  else if PrimFloat.eqb x 0 && PrimFloat.eqb x y then
    (if PrimFloat.get_sign x then x else y)
  else if PrimFloat.ltb x y then x else y.

Definition math_Max (x y : float) : float :=
  if is_pos_inf x || is_pos_inf y then PrimFloat.infinity
  else if PrimFloat.is_nan x || PrimFloat.is_nan y then PrimFloat.nan
  else if PrimFloat.eqb x 0 && PrimFloat.eqb x y then
    (if PrimFloat.get_sign x then y else x)
  else if PrimFloat.ltb y x then x else y.

(** ** Package reader: values *)

Definition PDFTypeNull : Z := 0.
Definition PDFTypeNumeric : Z := 1.
Definition PDFTypeToken : Z := 2.
Definition PDFTypeHex : Z := 3.
Definition PDFTypeString : Z := 4.
Definition PDFTypeDictionary : Z := 5.
Definition PDFTypeArray : Z := 6.
Definition PDFTypeObjDec : Z := 7.
Definition PDFTypeObjRef : Z := 8.
Definition PDFTypeObject : Z := 9.
Definition PDFTypeStream : Z := 10.
Definition PDFTypeBoolean : Z := 11.
Definition PDFTypeReal : Z := 12.

(** The struct [PdfValue].  A nil [*PdfValue] is [None]; a map that is nil
    or empty is the empty list (the code only reads from such maps). *)
#[local] Set Warnings "-register-all".
Inductive PdfValue : Type := mkPdfValue {
  Type_ : Z;
  String_ : string;
  Token : string;
  Int : Z;
  Real : float;
  Bool : bool;
  Dictionary : list (string * PdfValue);
  Array : list PdfValue;
  ID : Z;
  NewID : Z;
  Gen : Z;
  Value : option PdfValue;
  Stream : option PdfValue;
  Bytes : list ascii
}.

(** [&PdfValue{}]. *)
Definition PdfValue0 : PdfValue :=
  mkPdfValue 0 "" "" 0 0%float false [] [] 0 0 0 None None [].

Definition set_Type (t : Z) (v : PdfValue) : PdfValue :=
  mkPdfValue t (String_ v) (Token v) (Int v) (Real v) (Bool v) (Dictionary v)
    (Array v) (ID v) (NewID v) (Gen v) (Value v) (Stream v) (Bytes v).
Definition set_String (x : string) (v : PdfValue) : PdfValue :=
  mkPdfValue (Type_ v) x (Token v) (Int v) (Real v) (Bool v) (Dictionary v)
    (Array v) (ID v) (NewID v) (Gen v) (Value v) (Stream v) (Bytes v).
Definition set_Token (x : string) (v : PdfValue) : PdfValue :=
  mkPdfValue (Type_ v) (String_ v) x (Int v) (Real v) (Bool v) (Dictionary v)
    (Array v) (ID v) (NewID v) (Gen v) (Value v) (Stream v) (Bytes v).
Definition set_Int (x : Z) (v : PdfValue) : PdfValue :=
  mkPdfValue (Type_ v) (String_ v) (Token v) x (Real v) (Bool v) (Dictionary v)
    (Array v) (ID v) (NewID v) (Gen v) (Value v) (Stream v) (Bytes v).
Definition set_Real (x : float) (v : PdfValue) : PdfValue :=
  mkPdfValue (Type_ v) (String_ v) (Token v) (Int v) x (Bool v) (Dictionary v)
    (Array v) (ID v) (NewID v) (Gen v) (Value v) (Stream v) (Bytes v).
Definition set_Bool (x : bool) (v : PdfValue) : PdfValue :=
  mkPdfValue (Type_ v) (String_ v) (Token v) (Int v) (Real v) x (Dictionary v)
    (Array v) (ID v) (NewID v) (Gen v) (Value v) (Stream v) (Bytes v).
Definition set_Dictionary (x : list (string * PdfValue)) (v : PdfValue) : PdfValue :=
  mkPdfValue (Type_ v) (String_ v) (Token v) (Int v) (Real v) (Bool v) x
    (Array v) (ID v) (NewID v) (Gen v) (Value v) (Stream v) (Bytes v).
Definition set_Array (x : list PdfValue) (v : PdfValue) : PdfValue :=
  mkPdfValue (Type_ v) (String_ v) (Token v) (Int v) (Real v) (Bool v) (Dictionary v)
    x (ID v) (NewID v) (Gen v) (Value v) (Stream v) (Bytes v).
Definition set_ID (x : Z) (v : PdfValue) : PdfValue :=
  mkPdfValue (Type_ v) (String_ v) (Token v) (Int v) (Real v) (Bool v) (Dictionary v)
    (Array v) x (NewID v) (Gen v) (Value v) (Stream v) (Bytes v).
Definition set_NewID (x : Z) (v : PdfValue) : PdfValue :=
  mkPdfValue (Type_ v) (String_ v) (Token v) (Int v) (Real v) (Bool v) (Dictionary v)
    (Array v) (ID v) x (Gen v) (Value v) (Stream v) (Bytes v).
Definition set_Gen (x : Z) (v : PdfValue) : PdfValue :=
  mkPdfValue (Type_ v) (String_ v) (Token v) (Int v) (Real v) (Bool v) (Dictionary v)
    (Array v) (ID v) (NewID v) x (Value v) (Stream v) (Bytes v).
Definition set_Value (x : option PdfValue) (v : PdfValue) : PdfValue :=
  mkPdfValue (Type_ v) (String_ v) (Token v) (Int v) (Real v) (Bool v) (Dictionary v)
    (Array v) (ID v) (NewID v) (Gen v) x (Stream v) (Bytes v).
Definition set_Stream (x : option PdfValue) (v : PdfValue) : PdfValue :=
  mkPdfValue (Type_ v) (String_ v) (Token v) (Int v) (Real v) (Bool v) (Dictionary v)
    (Array v) (ID v) (NewID v) (Gen v) (Value v) x (Bytes v).
Definition set_Bytes (x : list ascii) (v : PdfValue) : PdfValue :=
  mkPdfValue (Type_ v) (String_ v) (Token v) (Int v) (Real v) (Bool v) (Dictionary v)
    (Array v) (ID v) (NewID v) (Gen v) (Value v) (Stream v) x.

(** [d[key]] and [d[key] = v] on a dictionary. *)
Fixpoint dict_get (d : list (string * PdfValue)) (key : string) : option PdfValue :=
  match d with
  | [] => None
  | (k, v) :: rest => if String.eqb k key then Some v else dict_get rest key
  end.

Fixpoint dict_set (d : list (string * PdfValue)) (key : string) (v : PdfValue)
  : list (string * PdfValue) :=
  match d with
  | [] => [(key, v)]
  | (k, w) :: rest =>
      if String.eqb k key then (k, v) :: rest else (k, w) :: dict_set rest key v
  end.

Definition dict_has (d : list (string * PdfValue)) (key : string) : bool :=
  match dict_get d key with Some _ => true | None => false end.

(** ** Package reader: the lexical layer

    A [bufio.Reader] is modelled by the bytes it reads from and the offset
    of its next byte, without its read-ahead buffer; [lx_stack] is the
    pushback stack [pr.stack], which every reader shares. *)
Record Lex : Type := mkLex {
  lx_stack : list string;
  lx_data : list ascii;
  lx_pos : Z
}.

Definition lx_rest (l : Lex) : list ascii := skipn (Z.to_nat (lx_pos l)) (lx_data l).
Definition lx_move (d : Z) (l : Lex) : Lex :=
  mkLex (lx_stack l) (lx_data l) (lx_pos l + d).
Definition lx_set_stack (st : list string) (l : Lex) : Lex :=
  mkLex st (lx_data l) (lx_pos l).

(** [r.ReadByte()]: [None] is [io.EOF]. *)
Definition ReadByte : M Lex (option ascii) :=
  fun l => match lx_rest l with
           | [] => Ok None l
           | b :: _ => Ok (Some b) (lx_move 1 l)
           end.

Definition UnreadByte : M Lex unit := modify (lx_move (-1)).

(** [io.ReadFull(r, buf)] with [len(buf) = n]: [None] when fewer than [n]
    bytes are left (the bytes are consumed all the same). *)
Definition ReadFull (n : Z) : M Lex (option (list ascii)) :=
  fun l =>
    let rest := lx_rest l in
    if Z.of_nat (List.length rest) <? n
    then Ok None (lx_move (Z.of_nat (List.length rest)) l)
    else Ok (Some (firstn (Z.to_nat n) rest)) (lx_move n l).

Definition fuel_of (l : Lex) : nat := S (List.length (lx_rest l)).

Fixpoint skipComments_loop (fuel : nat) : M Lex unit :=
  match fuel with
  | O => diverge
  | S n =>
      let* b := ReadByte in
      match b with
      | None => fail "Failed to ReadByte while skipping comments"
      | Some b =>
          if beq b (ch 10) || beq b (ch 13) then
            if beq b (ch 13) then
              let* b2 := ReadByte in
              match b2 with
              | None => fail "Failed to read byte"
              | Some b2 => if negb (beq b2 (ch 10)) then UnreadByte else ret tt
              end
            else ret tt
          else skipComments_loop n
      end
  end.

Definition skipComments : M Lex unit := fun l => skipComments_loop (fuel_of l) l.

Fixpoint skipWhitespace_loop (fuel : nat) : M Lex unit :=
  match fuel with
  | O => diverge
  | S n =>
      let* b := ReadByte in
      match b with
      | None => ret tt
      | Some b =>
          if beq b " " || beq b (ch 10) || beq b (ch 13) || beq b (ch 9)
          then skipWhitespace_loop n
          else UnreadByte
      end
  end.

Definition skipWhitespace : M Lex unit := fun l => skipWhitespace_loop (fuel_of l) l.

Definition is_delim (b : ascii) : bool :=
  beq b " " || beq b "%" || beq b "[" || beq b "]" || beq b "<" || beq b ">"
  || beq b "(" || beq b ")" || beq b (ch 13) || beq b (ch 10) || beq b (ch 9)
  || beq b "/".

(** The labelled loop of [readToken] that collects a plain token. *)
Fixpoint readToken_chars (fuel : nat) (str : string) : M Lex string :=
  match fuel with
  | O => diverge
  | S n =>
      let* b := ReadByte in
      match b with
      | None => fail "Failed to read byte"
      | Some b =>
          if is_delim b then do* UnreadByte in ret str
          else readToken_chars n (str +:+ string_of_rune_byte b)
      end
  end.

Fixpoint readToken_go (fuel : nat) : M Lex string :=
  match fuel with
  | O => diverge
  | S n =>
      let* st := gets lx_stack in
      match st with
      | _ :: _ =>
          do* modify (lx_set_stack (removelast st)) in ret (List.last st "")
      | [] =>
          do* skipWhitespace in
          let* b := ReadByte in
          match b with
          | None => ret ""
          | Some b =>
              if beq b "[" || beq b "]" || beq b "(" || beq b ")" then
                ret (String b "")
              else if beq b "<" || beq b ">" then
                let* nb := ReadByte in
                match nb with
                | None => fail "Failed to read byte"
                | Some nb =>
                    if beq nb b then ret (String b (String nb ""))
                    else do* UnreadByte in ret (String b "")
                end
              else if beq b "%" then
                do* skipComments in readToken_go n
              else
                let* l := get in
                readToken_chars (fuel_of l) (string_of_rune_byte b)
          end
      end
  end.

Definition readToken : M Lex string := fun l => readToken_go (fuel_of l) l.

(** ** Package reader: the value parser *)

Section ReaderValues.
Context `{GoStd}.

(** The loop of the hex-string case: bytes up to the next [>]. *)
Fixpoint readHex_loop (fuel : nat) (s : string) : M Lex string :=
  match fuel with
  | O => diverge
  | S n =>
      let* b := ReadByte in
      match b with
      | None => fail "Failed to read byte"
      | Some b =>
          if negb (beq b ">") then readHex_loop n (s +:+ string_of_rune_byte b)
          else ret s
      end
  end.

(** The loop of the literal-string case: [openBrackets] counts the open
    parentheses, [buf] collects the bytes. *)
Fixpoint readString_loop (fuel : nat) (openBrackets : Z) (buf : list ascii)
  : M Lex (list ascii) :=
  match fuel with
  | O => diverge
  | S n =>
      if negb (0 <? openBrackets) then ret buf
      else
        let* b := ReadByte in
        match b with
        | None => fail "Failed to read byte"
        | Some b =>
            if beq b "\" then
              let* nb := ReadByte in
              match nb with
              | None => fail "Failed to read byte"
              | Some nb => readString_loop n openBrackets (buf ++ [b; nb])
              end
            else
              let openBrackets :=
                if beq b "(" then openBrackets + 1
                else if beq b ")" then openBrackets - 1
                else openBrackets in
              readString_loop n openBrackets
                (if 0 <? openBrackets then buf ++ [b] else buf)
        end
  end.

(** [pr.stack = append(pr.stack, t)]. *)
Definition push_token (t : string) : M Lex unit :=
  modify (fun l => lx_set_stack (lx_stack l ++ [t]) l).

Definition isNumericM (t : string) : M Lex bool := deref (isNumeric t).

(** The default case of [readValue], once [t] is known to be numeric. *)
Definition readNumeric (t : string) (result : PdfValue) : M Lex PdfValue :=
  let number :=
    let '(n, ok) := Atoi t in
    if ok then ret (set_Real (float_of_int n) (set_Int n (set_Type PDFTypeNumeric result)))
    else ret (set_Real (ParseFloat t) (set_Type PDFTypeReal result)) in
  let* t2 := readToken in
  if negb (String.eqb t2 "") then
    let* num2 := isNumericM t2 in
    if num2 then
      let* t3 := readToken in
      if negb (String.eqb t3 "") then
        if String.eqb t3 "obj" then
          ret (set_Gen (fst (Atoi t2)) (set_ID (fst (Atoi t)) (set_Type PDFTypeObjDec result)))
        else if String.eqb t3 "R" then
          ret (set_Gen (fst (Atoi t2)) (set_ID (fst (Atoi t)) (set_Type PDFTypeObjRef result)))
        else
          do* push_token t3 in
          do* push_token t2 in
          number
      else
        do* push_token t2 in
        number
    else
      do* push_token t2 in
      number
  else number.

Fixpoint readValue (fuel : nat) (t : string) {struct fuel} : M Lex PdfValue :=
  match fuel with
  | O => diverge
  | S n =>
      let result := set_Token t (set_Type (-1) PdfValue0) in
      if String.eqb t "<" then
        let* l := get in
        let* s := readHex_loop (fuel_of l) "" in
        ret (set_String s (set_Type PDFTypeHex result))
      else if String.eqb t "<<" then
        readValue_dict n result
      else if String.eqb t "[" then
        readValue_array n result []
      else if String.eqb t "(" then
        let* l := get in
        let* buf := readString_loop (S (fuel_of l)) 1 [] in
        ret (set_String (string_of_bytes buf) (set_Type PDFTypeString result))
      else if String.eqb t "stream" then
        fail "Stream not implemented"
      else
        let result := set_Token t (set_Type PDFTypeToken result) in
        let* num := isNumericM t in
        if num then readNumeric t result
        else if String.eqb t "true" || String.eqb t "false" then
          ret (set_Bool (String.eqb t "true") (set_Type PDFTypeBoolean result))
        else if String.eqb t "null" then
          ret (set_Type PDFTypeNull result)
        else
          ret (set_Token t (set_Type PDFTypeToken result))
  end

(** The loop of the dictionary case; [result] is the value being built. *)
with readValue_dict (fuel : nat) (result : PdfValue) {struct fuel} : M Lex PdfValue :=
  match fuel with
  | O => diverge
  | S n =>
      let* key := readToken in
      if String.eqb key "" then fail "Token is empty"
      else if String.eqb key ">>" then ret (set_Type PDFTypeDictionary result)
      else
        let* newKey := readToken in
        let* value := readValue n newKey in
        if Type_ value =? -1 then ret result
        else if (Type_ value =? PDFTypeToken) && String.eqb (String_ value) ">>" then
          ret (set_Type PDFTypeDictionary
                 (set_Dictionary (dict_set (Dictionary result) key value)
                    (set_Type PDFTypeNull result)))
        else
          readValue_dict n (set_Dictionary (dict_set (Dictionary result) key value) result)
  end

(** The loop of the array case; [tmpResult] collects the elements. *)
with readValue_array (fuel : nat) (result : PdfValue) (tmpResult : list PdfValue)
       {struct fuel} : M Lex PdfValue :=
  match fuel with
  | O => diverge
  | S n =>
      let* key := readToken in
      if String.eqb key "" then fail "Token is empty"
      else if String.eqb key "]" then
        ret (set_Array tmpResult (set_Type PDFTypeArray result))
      else
        let* value := readValue n key in
        if Type_ value =? -1 then ret result
        else readValue_array n result (tmpResult ++ [value])
  end.

End ReaderValues.

(** ** Package reader: the reader and object resolution *)

(** The struct [PdfReader].  The [io.ReadSeeker] [f] is the pair of its
    bytes [f] and its offset [f_pos]. *)
Record PdfReader : Type := mkPdfReader {
  availableBoxes : list string;
  stack : list string;
  trailer : option PdfValue;
  catalog : option PdfValue;
  pages : list (option PdfValue);
  xrefPos : Z;
  xref : gmap Z (gmap Z Z);
  xrefStream : gmap Z (Z * Z);
  f : list ascii;
  f_pos : Z;
  nBytes : Z;
  SourceFile : string;
  curPage : Z;
  alreadyRead : bool;
  pageCount : Z
}.

Definition set_availableBoxes (x : list string) (pr : PdfReader) : PdfReader :=
  mkPdfReader x (stack pr) (trailer pr) (catalog pr) (pages pr) (xrefPos pr) (xref pr)
    (xrefStream pr) (f pr) (f_pos pr) (nBytes pr) (SourceFile pr) (curPage pr)
    (alreadyRead pr) (pageCount pr).
Definition set_stack (x : list string) (pr : PdfReader) : PdfReader :=
  mkPdfReader (availableBoxes pr) x (trailer pr) (catalog pr) (pages pr) (xrefPos pr) (xref pr)
    (xrefStream pr) (f pr) (f_pos pr) (nBytes pr) (SourceFile pr) (curPage pr)
    (alreadyRead pr) (pageCount pr).
Definition set_trailer (x : option PdfValue) (pr : PdfReader) : PdfReader :=
  mkPdfReader (availableBoxes pr) (stack pr) x (catalog pr) (pages pr) (xrefPos pr) (xref pr)
    (xrefStream pr) (f pr) (f_pos pr) (nBytes pr) (SourceFile pr) (curPage pr)
    (alreadyRead pr) (pageCount pr).
Definition set_catalog (x : option PdfValue) (pr : PdfReader) : PdfReader :=
  mkPdfReader (availableBoxes pr) (stack pr) (trailer pr) x (pages pr) (xrefPos pr) (xref pr)
    (xrefStream pr) (f pr) (f_pos pr) (nBytes pr) (SourceFile pr) (curPage pr)
    (alreadyRead pr) (pageCount pr).
Definition set_pages (x : list (option PdfValue)) (pr : PdfReader) : PdfReader :=
  mkPdfReader (availableBoxes pr) (stack pr) (trailer pr) (catalog pr) x (xrefPos pr) (xref pr)
    (xrefStream pr) (f pr) (f_pos pr) (nBytes pr) (SourceFile pr) (curPage pr)
    (alreadyRead pr) (pageCount pr).
Definition set_xrefPos (x : Z) (pr : PdfReader) : PdfReader :=
  mkPdfReader (availableBoxes pr) (stack pr) (trailer pr) (catalog pr) (pages pr) x (xref pr)
    (xrefStream pr) (f pr) (f_pos pr) (nBytes pr) (SourceFile pr) (curPage pr)
    (alreadyRead pr) (pageCount pr).
Definition set_xref (x : gmap Z (gmap Z Z)) (pr : PdfReader) : PdfReader :=
  mkPdfReader (availableBoxes pr) (stack pr) (trailer pr) (catalog pr) (pages pr) (xrefPos pr) x
    (xrefStream pr) (f pr) (f_pos pr) (nBytes pr) (SourceFile pr) (curPage pr)
    (alreadyRead pr) (pageCount pr).
Definition set_xrefStream (x : gmap Z (Z * Z)) (pr : PdfReader) : PdfReader :=
  mkPdfReader (availableBoxes pr) (stack pr) (trailer pr) (catalog pr) (pages pr) (xrefPos pr)
    (xref pr) x (f pr) (f_pos pr) (nBytes pr) (SourceFile pr) (curPage pr)
    (alreadyRead pr) (pageCount pr).
Definition set_f_pos (x : Z) (pr : PdfReader) : PdfReader :=
  mkPdfReader (availableBoxes pr) (stack pr) (trailer pr) (catalog pr) (pages pr) (xrefPos pr)
    (xref pr) (xrefStream pr) (f pr) x (nBytes pr) (SourceFile pr) (curPage pr)
    (alreadyRead pr) (pageCount pr).
Definition set_curPage (x : Z) (pr : PdfReader) : PdfReader :=
  mkPdfReader (availableBoxes pr) (stack pr) (trailer pr) (catalog pr) (pages pr) (xrefPos pr)
    (xref pr) (xrefStream pr) (f pr) (f_pos pr) (nBytes pr) (SourceFile pr) x
    (alreadyRead pr) (pageCount pr).
Definition set_alreadyRead (x : bool) (pr : PdfReader) : PdfReader :=
  mkPdfReader (availableBoxes pr) (stack pr) (trailer pr) (catalog pr) (pages pr) (xrefPos pr)
    (xref pr) (xrefStream pr) (f pr) (f_pos pr) (nBytes pr) (SourceFile pr) (curPage pr)
    x (pageCount pr).
Definition set_pageCount (x : Z) (pr : PdfReader) : PdfReader :=
  mkPdfReader (availableBoxes pr) (stack pr) (trailer pr) (catalog pr) (pages pr) (xrefPos pr)
    (xref pr) (xrefStream pr) (f pr) (f_pos pr) (nBytes pr) (SourceFile pr) (curPage pr)
    (alreadyRead pr) x.

(** Reading through a [bufio.Reader] on [pr.f]: the reader starts at the
    offset of [pr.f], and the offset and the pushback stack are written
    back. *)
Definition onFile {A} (m : M Lex A) : M PdfReader A :=
  fun pr =>
    let back l := set_f_pos (lx_pos l) (set_stack (lx_stack l) pr) in
    match m (mkLex (stack pr) (f pr) (f_pos pr)) with
    | Ok a l => Ok a (back l)
    | Err e l => Err e (back l)
    | Panic => Panic
    | Diverge => Diverge
    end.

(** Reading through a [bufio.Reader] on a byte slice, from offset [pos]:
    only the pushback stack is shared with [pr]; the new offset is returned. *)
Definition onBytes {A} (data : list ascii) (pos : Z) (m : M Lex A) : M PdfReader (A * Z) :=
  fun pr =>
    match m (mkLex (stack pr) data pos) with
    | Ok a l => Ok (a, lx_pos l) (set_stack (lx_stack l) pr)
    | Err e l => Err e (set_stack (lx_stack l) pr)
    | Panic => Panic
    | Diverge => Diverge
    end.

(** [pr.f.Seek(offset, io.SeekStart)]. *)
Definition Seek (offset : Z) : M PdfReader unit :=
  fun pr => if offset <? 0 then Err "negative position" pr
            else Ok tt (set_f_pos offset pr).

(** [pr.f.Seek(offset, io.SeekEnd)]. *)
Definition SeekEnd (offset : Z) : M PdfReader unit :=
  let* data := gets f in
  Seek (Z.of_nat (List.length data) + offset).

(** [binary.BigEndian.Uint32] of the bytes, left-padded with zeros. *)
Definition be_uint (l : list ascii) : Z :=
  fold_left (fun acc b => 256 * acc + byte_val b) l 0.

Definition objref (id gen : Z) : PdfValue :=
  set_Gen gen (set_ID id (set_Type PDFTypeObjRef PdfValue0)).

Section ReaderResolve.
Context `{GoStd}.

(** The loop of [resolveCompressedObject] over the [n] pairs (sub-object id,
    offset) at the head of the object stream. *)
Fixpoint readObjStmIndex (k : nat) (i objectIndex : Z) (data : list ascii) (pos : Z)
    (subObjID subObjPos : Z) : M PdfReader (Z * Z) :=
  match k with
  | O => ret (subObjID, subObjPos)
  | S k' =>
      let* (token, pos) := onBytes data pos readToken in
      let '(_objidx, ok) := Atoi token in
      if negb ok then fail "Failed to convert token into integer" else
      let* (token, pos) := onBytes data pos readToken in
      let '(_objpos, ok) := Atoi token in
      if negb ok then fail "Failed to convert token into integer" else
      if i =? objectIndex
      then readObjStmIndex k' (i + 1) objectIndex data pos _objidx _objpos
      else readObjStmIndex k' (i + 1) objectIndex data pos subObjID subObjPos
  end.

Fixpoint ResolveObject (fuel : nat) (objSpec : PdfValue) {struct fuel}
  : M PdfReader PdfValue :=
  match fuel with
  | O => diverge
  | S n =>
      if negb (Type_ objSpec =? PDFTypeObjRef) then ret objSpec else
      let* xr := gets xref in
      let offset := default 0 (xr !! ID objSpec ≫= fun g => g !! Gen objSpec) in
      match xr !! ID objSpec with
      | None => resolveCompressedObject n objSpec
      | Some _ =>
          let* oldPos := gets f_pos in
          do* Seek offset in
          let* token := onFile readToken in
          let* obj := onFile (readValue n token) in
          if negb (Type_ obj =? PDFTypeObjDec) then
            fail "expected type to be PDF_TYPE_OBJDEC"
          else if negb (ID obj =? ID objSpec) then
            fail "object ID does not match ObjSpec ID"
          else if negb (Gen obj =? Gen objSpec) then
            fail "Object Gen does not match ObjSpec Gen"
          else
          let* token := onFile readToken in
          let* value := onFile (readValue n token) in
          let* token := onFile readToken in
          let result :=
            set_Value (Some value)
              (set_Type PDFTypeObject (set_Gen (Gen obj) (set_ID (ID obj) PdfValue0))) in
          let* (result, token) :=
            if String.eqb token "stream" then
              let result := set_Type PDFTypeStream result in
              do* onFile skipWhitespace in
              let* lengthDict := deref (dict_get (Dictionary value) "/Length") in
              let* length :=
                if Type_ lengthDict =? PDFTypeObjRef then
                  let* lengthDict := ResolveObject n lengthDict in
                  let* lv := deref (Value lengthDict) in
                  ret (Int lv)
                else ret (Int lengthDict) in
              if length <? 0 then panic else
              let* bytes := onFile (ReadFull length) in
              match bytes with
              | None => fail "Failed to read bytes from buffer"
              | Some bytes =>
                  let* token := onFile readToken in
                  if negb (String.eqb token "endstream") then
                    fail "Expected next token to be: endstream"
                  else
                  let* token := onFile readToken in
                  let streamObj := set_Bytes bytes (set_Type PDFTypeStream PdfValue0) in
                  ret (set_Stream (Some streamObj) result, token)
              end
            else ret (result, token) in
          if negb (String.eqb token "endobj") then
            fail "Expected next token to be: endobj"
          else
          do* Seek oldPos in
          ret result
      end
  end

with resolveCompressedObject (fuel : nat) (objSpec : PdfValue) {struct fuel}
  : M PdfReader PdfValue :=
  match fuel with
  | O => diverge
  | S n =>
      let* xs := gets xrefStream in
      match xs !! ID objSpec with
      | None => fail "could not find object ID in xref stream or xref table"
      | Some (objectID, objectIndex) =>
          let compressedObjSpec := objref objectID 0 in
          let* compressedObj := ResolveObject n compressedObjSpec in
          let* cv := deref (Value compressedObj) in
          match dict_get (Dictionary cv) "/Type" with
          | None => fail "could not determine compressed object type"
          | Some ty =>
              if negb (String.eqb (Token ty) "/ObjStm") then
                fail "Expected compressed object type to be /ObjStm"
              else
              let* nv := deref (dict_get (Dictionary cv) "/N") in
              let n_sub := Int nv in
              if n_sub <=? 0 then fail "No sub objects in compressed object" else
              let* fv := deref (dict_get (Dictionary cv) "/First") in
              let first := Int fv in
              let* filter :=
                match dict_get (Dictionary cv) "/Filter" with
                | Some fl =>
                    if negb (String.eqb (Token fl) "/FlateDecode")
                    then fail "Unsupported filter - expected /FlateDecode"
                    else ret (Token fl)
                | None => ret ""
                end in
              let* st := deref (Stream compressedObj) in
              let* data :=
                if String.eqb filter "/FlateDecode" then
                  match zlib_inflate (Bytes st) with
                  | None => panic
                  | Some (out, _) => ret out
                  end
                else ret (Bytes st) in
              let* (subObjID, subObjPos) :=
                readObjStmIndex (Z.to_nat n_sub) 0 objectIndex data 0 0 0 in
              let seekTo := wrap64 (subObjPos + first) in
              let start := if seekTo <? 0 then 0 else seekTo in
              let* (token, pos) := onBytes data start readToken in
              let* (obj, _) := onBytes data pos (readValue n token) in
              ret (set_Value (Some obj)
                     (set_Type PDFTypeObject (set_Gen 0 (set_ID subObjID PdfValue0))))
          end
      end
  end.

End ReaderResolve.

(** ** Package reader: the cross-reference table *)

(** The indices [i, i + step, ...] below [len] of a Go [for] loop. *)
Definition strided (i step len : Z) : list Z :=
  if step <=? 0 then []
  else map (fun k => i + Z.of_nat k * step) (seq 0 (Z.to_nat ((len - i + step - 1) / step))).

(** One round of the inner loop of [filterPaeth]: the state is the row
    [cdat] (updated in place) and the running [a] and [c]; [None] is the
    panic of [pdat[j]] out of range. *)
Definition filterPaeth_step (pdat : list ascii) (st : option (list ascii * Z * Z)) (j : Z)
  : option (list ascii * Z * Z) :=
  match st with
  | None => None
  | Some (cdat, a, c) =>
      match pdat !! Z.to_nat j, cdat !! Z.to_nat j with
      | Some pj, Some cj =>
          let b := byte_val pj in
          let pa := b - c in
          let pb := a - c in
          let pc := abs (pa + pb) in
          let pa := abs pa in
          let pb := abs pb in
          let a := if (pa <=? pb) && (pa <=? pc) then a
                   else if pb <=? pc then b else c in
          let a := a + byte_val cj in
          let a := Z.land a 255 in
          Some (<[Z.to_nat j := byte_of a]> cdat, a, b)
      | _, _ => None
      end
  end.

(** [filterPaeth(cdat, pdat, bytesPerPixel)]; the result is the new
    content of [cdat]. *)
Definition filterPaeth (cdat pdat : list ascii) (bytesPerPixel : Z) : option (list ascii) :=
  fold_left
    (fun (acc : option (list ascii)) (i : Z) =>
       match acc with
       | None => None
       | Some cdat =>
           match fold_left (filterPaeth_step pdat)
                   (strided i bytesPerPixel (Z.of_nat (List.length cdat)))
                   (Some (cdat, 0, 0)) with
           | Some (cdat, _, _) => Some cdat
           | None => None
           end
       end)
    (strided 0 1 bytesPerPixel) (Some cdat).

(** [s[lo:hi]] on a slice of capacity [len s]: [None] is the panic of
    bounds out of range. *)
Definition slice {A} (s : list A) (lo hi : Z) : option (list A) :=
  if (0 <=? lo) && (lo <=? hi) && (hi <=? Z.of_nat (List.length s))
  then Some (firstn (Z.to_nat (hi - lo)) (skipn (Z.to_nat lo) s))
  else None.

(** [s[i]]. *)
Definition index {A} (s : list A) (i : Z) : option A :=
  if i <? 0 then None else s !! Z.to_nat i.

(** [make([]byte, n)]. *)
Definition zeros (n : Z) : list ascii := repeat (ch 0) (Z.to_nat n).

(** [copy(dst, src)]. *)
Definition copy_bytes (dst src : list ascii) : list ascii :=
  firstn (List.length dst) src ++ skipn (List.length src) dst.

(** The body of the row loop of [readXref] up to [objectData]: the row as
    read is [result]; the returned pair is [objectData] and the new
    [prevRow]. *)
Definition xrefRow_decode (paethDecode : bool) (fieldSize : Z) (result prevRow : list ascii)
  : option (list ascii * list ascii) :=
  if paethDecode then
    match filterPaeth result prevRow fieldSize with
    | None => None
    | Some result =>
        let prevRow := copy_bytes prevRow result in
        match slice result 1 fieldSize with
        | None => None
        | Some tail => Some (copy_bytes (zeros fieldSize) tail, prevRow)
        end
    end
  else
    match slice result 0 fieldSize with
    | None => None
    | Some all => Some (copy_bytes (zeros fieldSize) all, prevRow)
    end.

(** The 4-byte buffer [b] after [copy(b[4-middleFieldSize:],
    objectData[1:1+middleFieldSize])], read as a big-endian number. *)
Definition xrefRow_field2 (middleFieldSize : Z) (objectData : list ascii) : option Z :=
  match slice (zeros 4) (4 - middleFieldSize) 4,
        slice objectData 1 (1 + middleFieldSize) with
  | Some dst, Some src =>
      Some (be_uint (zeros (4 - middleFieldSize) ++ copy_bytes dst src))
  | _, _ => None
  end.

(** The rest of the body of the row loop: the entry for object [i]. *)
Definition xrefRow_record (firstFieldSize middleFieldSize : Z) (objectData : list ascii)
    (i : Z) : M PdfReader unit :=
  let* tag := deref (index objectData 0) in
  if byte_val tag =? 1 then
    let* objPos := deref (xrefRow_field2 middleFieldSize objectData) in
    let* g := deref (index objectData (firstFieldSize + middleFieldSize)) in
    let objGen := byte_val g in
    modify (fun pr => set_xref (<[i := {[objGen := objPos]}]> (xref pr)) pr)
  else if byte_val tag =? 2 then
    let* objID := deref (xrefRow_field2 middleFieldSize objectData) in
    let* g := deref (index objectData (firstFieldSize + middleFieldSize)) in
    let objIdx := byte_val g in
    modify (fun pr => set_xrefStream (<[i := (objID, objIdx)]> (xrefStream pr)) pr)
  else ret tt.

(** The row loop of [readXref] over the inflated stream [p]; [record] is
    what the body does with each [objectData]. *)
Fixpoint xrefRows {St} (fuel : nat) (record : list ascii -> Z -> M St unit)
    (paethDecode : bool) (fieldSize : Z) (p prevRow : list ascii) (i : Z) : M St unit :=
  match fuel with
  | O => diverge
  | S n =>
      if (0 <? fieldSize) && (List.length p =? 0)%nat then ret tt
      else if Z.of_nat (List.length p) <? fieldSize then fail "io.ReadFull error"
      else
        let result := firstn (Z.to_nat fieldSize) p in
        let* (objectData, prevRow) := deref (xrefRow_decode paethDecode fieldSize result prevRow) in
        do* record objectData i in
        xrefRows n record paethDecode fieldSize (skipn (Z.to_nat fieldSize) p) prevRow (i + 1)
  end.

Section ReaderXref.
Context `{GoStd}.

(** The token loop of [findXref]. *)
Fixpoint findXref_loop (fuel : nat) : M PdfReader Z :=
  match fuel with
  | O => diverge
  | S n =>
      let* token := onFile readToken in
      if String.eqb token "startxref" then
        let* token := onFile readToken in
        let '(result, ok) := Atoi token in
        if negb ok then fail "Failed to convert xref position into integer"
        else
          do* modify (set_xrefPos result) in
          ret result
      else findXref_loop n
  end.

Definition findXref (fuel : nat) : M PdfReader unit :=
  let* fileSize := gets nBytes in
  let toRead := if fileSize <? 1500 then fileSize else 1500 in
  do* SeekEnd (- toRead) in
  let* result := findXref_loop fuel in
  do* Seek 0 in
  modify (set_xrefPos result).

(** The loop over the [numObject] rows of one subsection of a classic table. *)
Fixpoint readXref_rows (k : nat) (i : Z) : M PdfReader unit :=
  match k with
  | O => ret tt
  | S k' =>
      let* t := onFile readToken in
      let '(objPos, ok) := Atoi t in
      if negb ok then fail "Failed to convert object position to integer" else
      let* t := onFile readToken in
      let '(objGen, ok) := Atoi t in
      if negb ok then fail "Failed to convert object generation to integer" else
      let* objStatus := onFile readToken in
      if negb (String.eqb objStatus "f") && negb (String.eqb objStatus "n") then
        fail "Expected objStatus to be 'n' or 'f'"
      else
        do* modify (fun pr => set_xref (<[i := {[objGen := objPos]}]> (xref pr)) pr) in
        readXref_rows k' (i + 1)
  end.

(** The loop over the subsections, up to the token [trailer]. *)
Fixpoint readXref_sections (fuel : nat) : M PdfReader unit :=
  match fuel with
  | O => diverge
  | S n =>
      let* t := onFile readToken in
      if String.eqb t "trailer" then ret tt else
      let '(startObject, ok) := Atoi t in
      if negb ok then fail "Failed to convert start object to integer" else
      let* t := onFile readToken in
      let '(numObject, ok) := Atoi t in
      if negb ok then fail "Failed to convert num object to integer" else
      do* readXref_rows (Z.to_nat (wrap64 (startObject + numObject) - startObject)) startObject in
      readXref_sections n
  end.

(** The fields [/Columns] and [/Predictor] of [/DecodeParms]. *)
Definition decodeParm (dp : PdfValue) (key : string) : Z :=
  match dict_get (Dictionary dp) key with
  | Some x => Int x
  | None => 0
  end.

Fixpoint readXref (fuel : nat) : M PdfReader unit :=
  match fuel with
  | O => diverge
  | S n =>
      let* xp := gets xrefPos in
      do* Seek xp in
      let* t := onFile readToken in
      if negb (String.eqb t "xref") then
        let* v := onFile (readValue n t) in
        if Type_ v =? PDFTypeObjDec then
          let* t := onFile readToken in
          let* v := onFile (readValue n t) in
          match dict_get (Dictionary v) "/Type" with
          | Some ty =>
              if String.eqb (Token ty) "/XRef" then
                let* paethDecode :=
                  match dict_get (Dictionary v) "/DecodeParms" with
                  | Some dp =>
                      let columns := decodeParm dp "/Columns" in
                      let predictor := decodeParm dp "/Predictor" in
                      if (4 <? columns) || (12 <? predictor)
                      then fail "Unsupported /DecodeParms"
                      else ret true
                  | None => ret false
                  end in
                let* index0 :=
                  match dict_get (Dictionary v) "/Index" with
                  | Some ix =>
                      match Array ix with
                      | i0 :: _ :: _ => ret (Int i0)
                      | _ => fail "Index array does not contain 2 elements"
                      end
                  | None => ret 0
                  end in
                let prevXref :=
                  match dict_get (Dictionary v) "/Prev" with
                  | Some pv => Int pv
                  | None => 0
                  end in
                do* (if dict_has (Dictionary v) "/Root"
                     then modify (set_trailer (Some v)) else ret tt) in
                let startObject := index0 in
                do* onFile skipWhitespace in
                let* lengthDict := deref (dict_get (Dictionary v) "/Length") in
                let* length :=
                  if Type_ lengthDict =? PDFTypeObjRef then
                    let* lengthDict := ResolveObject n lengthDict in
                    let* lv := deref (Value lengthDict) in
                    ret (Int lv)
                  else ret (Int lengthDict) in
                let* t := onFile readToken in
                if negb (String.eqb t "stream") then
                  fail "Expected next token to be: stream" else
                do* onFile skipWhitespace in
                if length <? 0 then panic else
                let* data := onFile (ReadFull length) in
                match data with
                | None => fail "Failed to read bytes from buffer"
                | Some data =>
                    let* t := onFile readToken in
                    if negb (String.eqb t "endstream") then
                      fail "Expected next token to be: endstream" else
                    let* t := onFile readToken in
                    if negb (String.eqb t "endobj") then
                      fail "Expected next token to be: endobj" else
                    match zlib_inflate data with
                    | None => fail "zlib.NewReader error"
                    | Some (_, false) => fail "ioutil.ReadAll error"
                    | Some (p, true) =>
                        let* w := deref (dict_get (Dictionary v) "/W") in
                        let* w0 := deref (index (Array w) 0) in
                        let* w1 := deref (index (Array w) 1) in
                        let* w2 := deref (index (Array w) 2) in
                        let firstFieldSize := Int w0 in
                        let middleFieldSize := Int w1 in
                        let lastFieldSize := Int w2 in
                        let fieldSize :=
                          wrap64 (wrap64 (firstFieldSize + middleFieldSize) + lastFieldSize) in
                        let fieldSize :=
                          if paethDecode then wrap64 (fieldSize + 1) else fieldSize in
                        if fieldSize <? 0 then panic else
                        let prevRow := zeros fieldSize in
                        do* xrefRows (S (List.length p))
                              (xrefRow_record firstFieldSize middleFieldSize)
                              paethDecode fieldSize p prevRow startObject in
                        if 0 <? prevXref then
                          do* modify (set_xrefPos prevXref) in
                          readXref n
                        else ret tt
                    end
                end
              else ret tt
          | None => ret tt
          end
        else fail "Expected xref to start with 'xref'"
      else
        do* readXref_sections n in
        let* t := onFile readToken in
        let* trailer := onFile (readValue n t) in
        do* (if dict_has (Dictionary trailer) "/Root"
             then modify (set_trailer (Some trailer)) else ret tt) in
        match dict_get (Dictionary trailer) "/Prev" with
        | Some tr =>
            do* modify (set_xrefPos (Int tr)) in
            readXref n
        | None => ret tt
        end
  end.

End ReaderXref.

(** ** Package reader: the page tree and the page queries *)

(** A box [map[string]float64]. *)
Abbreviation Box := (gmap string float).

(** [m[key]] on a map of floats: 0 when the key is missing. *)
Definition fget (m : Box) (key : string) : float := default 0%float (m !! key).

Section ReaderPages.
Context `{GoStd}.

(** [pr.ResolveObject(p)] for a pointer [p] that may be nil. *)
Definition ResolveObjectP (fuel : nat) (p : option PdfValue) : M PdfReader PdfValue :=
  let* objSpec := deref p in
  ResolveObject fuel objSpec.

Definition readRoot (fuel : nat) : M PdfReader unit :=
  let* tr := gets trailer in
  let* tr := deref tr in
  let rootObjSpec := dict_get (Dictionary tr) "/Root" in
  fun pr =>
    match ResolveObjectP fuel rootObjSpec pr with
    | Ok c pr' => Ok tt (set_catalog (Some c) pr')
    | Err e pr' => Err e (set_catalog None pr')
    | Panic => Panic
    | Diverge => Diverge
    end.

(** [pr.pages[pr.curPage] = page; pr.curPage++]. *)
Definition addPage (page : PdfValue) : M PdfReader unit :=
  let* cp := gets curPage in
  let* ps := gets pages in
  if (cp <? 0) || (Z.of_nat (List.length ps) <=? cp) then panic else
  modify (fun pr => set_curPage (wrap64 (cp + 1))
                      (set_pages (<[Z.to_nat cp := Some page]> ps) pr)).

Fixpoint readKids (fuel : nat) (kids : PdfValue) (r : Z) {struct fuel} : M PdfReader unit :=
  match fuel with
  | O => diverge
  | S n =>
      (fix loop (l : list PdfValue) : M PdfReader unit :=
         match l with
         | [] => ret tt
         | kid :: rest =>
             let* page := ResolveObject n kid in
             let* pv := deref (Value page) in
             let* ty := deref (dict_get (Dictionary pv) "/Type") in
             let objType := Token ty in
             if String.eqb objType "/Page" then
               do* addPage page in
               loop rest
             else if String.eqb objType "/Pages" then
               let* subKids := ResolveObjectP n (dict_get (Dictionary pv) "/Kids") in
               do* readKids n subKids (r + 1) in
               loop rest
             else fail "Unknown object type.  Expected: /Pages or /Page"
         end) (Array kids)
  end.

Definition readPages (fuel : nat) : M PdfReader unit :=
  let* cat := gets catalog in
  let* cat := deref cat in
  let* cv := deref (Value cat) in
  let* pagesDict := ResolveObjectP fuel (dict_get (Dictionary cv) "/Pages") in
  let* pdv := deref (Value pagesDict) in
  let* kids := ResolveObjectP fuel (dict_get (Dictionary pdv) "/Kids") in
  let* pageCount := ResolveObjectP fuel (dict_get (Dictionary pdv) "/Count") in
  do* modify (set_pageCount (Int pageCount)) in
  if Int pageCount <? 0 then panic else
  do* modify (set_pages (repeat None (Z.to_nat (Int pageCount)))) in
  readKids fuel kids 0.

(** [pr.pages[pageno-1]], after the test [len(pr.pages) < pageno]. *)
Definition pageAt (pageno : Z) : M PdfReader (option PdfValue) :=
  let* ps := gets pages in
  if Z.of_nat (List.length ps) <? pageno then fail "page does not exist"
  else deref (index ps (pageno - 1)).

(** The value a query returns for a resolved object: its [Value] when it
    is an object, the object itself otherwise. *)
Definition valueOf (res : PdfValue) : option PdfValue :=
  if Type_ res =? PDFTypeObject then Value res else Some res.

Definition GetPageResources (fuel : nat) (pageno : Z) : M PdfReader (option PdfValue) :=
  let* p := pageAt pageno in
  let* page := ResolveObjectP fuel p in
  let* pv := deref (Value page) in
  match dict_get (Dictionary pv) "/Resources" with
  | Some rs =>
      let* res := ResolveObject fuel rs in
      ret (valueOf res)
  | None =>
      match dict_get (Dictionary pv) "/Parent" with
      | Some parent =>
          let* res := ResolveObject fuel parent in
          ret (valueOf res)
      | None => ret (Some PdfValue0)
      end
  end.

Fixpoint getPageContent (fuel : nat) (objSpec : PdfValue) {struct fuel}
  : M PdfReader (list PdfValue) :=
  match fuel with
  | O => diverge
  | S n =>
      if Type_ objSpec =? PDFTypeObjRef then
        let* content := ResolveObject n objSpec in
        ret [content]
      else if Type_ objSpec =? PDFTypeArray then
        (fix loop (l : list PdfValue) (contents : list PdfValue) : M PdfReader (list PdfValue) :=
           match l with
           | [] => ret contents
           | x :: rest =>
               let* tmpContents := getPageContent n x in
               loop rest (contents ++ tmpContents)%list
           end) (Array objSpec) []
      else ret []
  end.

(** The loop of [rebuildContentStream] over the filters. *)
Fixpoint applyFilters (filters : list PdfValue) (stream : list ascii) : M PdfReader (list ascii) :=
  match filters with
  | [] => ret stream
  | flt :: rest =>
      if String.eqb (Token flt) "/FlateDecode" then
        match zlib_inflate stream with
        | None => panic
        | Some (out, _) => applyFilters rest out
        end
      else fail "Unspported filter"
  end.

Definition rebuildContentStream (fuel : nat) (content : PdfValue) : M PdfReader (list ascii) :=
  let* cv := deref (Value content) in
  let* filters :=
    match dict_get (Dictionary cv) "/Filter" with
    | Some filter =>
        let* filter :=
          if Type_ filter =? PDFTypeObjRef then
            let* tmpFilter := ResolveObject fuel filter in
            deref (Value tmpFilter)
          else ret filter in
        if Type_ filter =? PDFTypeToken then ret [filter]
        else if Type_ filter =? PDFTypeArray then ret (Array filter)
        else ret []
    | None => ret []
    end in
  let* st := deref (Stream content) in
  applyFilters filters (Bytes st).

(** The loop of [GetContent] over the content streams. *)
Fixpoint GetContent_loop (fuel : nat) (contents : list PdfValue) (buffer : string)
  : M PdfReader string :=
  match contents with
  | [] => ret buffer
  | c :: rest =>
      let* tmpBuffer := rebuildContentStream fuel c in
      GetContent_loop fuel rest (buffer +:+ string_of_bytes tmpBuffer)
  end.

Definition GetContent (fuel : nat) (pageno : Z) : M PdfReader string :=
  let* p := pageAt pageno in
  let* page := deref p in
  let buffer := "" in
  let* pv := deref (Value page) in
  match dict_get (Dictionary pv) "/Contents" with
  | Some cs =>
      let* contents := getPageContent fuel cs in
      GetContent_loop fuel contents buffer
  | None => ret buffer
  end.

Definition GetNumPages : M PdfReader Z :=
  let* n := gets pageCount in
  if n =? 0 then fail "Page count is 0" else ret n.

(** The eight entries that [getPageBox] computes from the array [box]. *)
Definition boxOfArray (box : PdfValue) (k : float) : option Box :=
  match index (Array box) 0, index (Array box) 1, index (Array box) 2, index (Array box) 3 with
  | Some a0, Some a1, Some a2, Some a3 =>
      Some (<["ury" := math_Max (Real a1) (Real a3)]>
           (<["urx" := math_Max (Real a0) (Real a2)]>
           (<["lly" := math_Min (Real a1) (Real a3)]>
           (<["llx" := math_Min (Real a0) (Real a2)]>
           (<["h" := PrimFloat.div (math_Abs (PrimFloat.sub (Real a1) (Real a3))) k]>
           (<["w" := PrimFloat.div (math_Abs (PrimFloat.sub (Real a0) (Real a2))) k]>
           (<["y" := PrimFloat.div (Real a1) k]>
           (<["x" := PrimFloat.div (Real a0) k]> (∅ : Box)))))))))
  | _, _, _, _ => None
  end.

Fixpoint getPageBox (fuel : nat) (page : PdfValue) (boxIndex : string) (k : float)
    {struct fuel} : M PdfReader Box :=
  match fuel with
  | O => diverge
  | S n =>
      let* pv := deref (Value page) in
      match dict_get (Dictionary pv) boxIndex with
      | Some box =>
          let* box :=
            if Type_ box =? PDFTypeObjRef then
              let* tmpBox := ResolveObject n box in
              deref (Value tmpBox)
            else ret box in
          if Type_ box =? PDFTypeArray then deref (boxOfArray box k)
          else fail "Could not get page box"
      | None =>
          match dict_get (Dictionary pv) "/Parent" with
          | Some parent =>
              let* parentObj := ResolveObject n parent in
              getPageBox n parentObj boxIndex k
          | None => ret ∅
          end
      end
  end.

(** The loop of [GetPageBoxes] over [pr.availableBoxes]. *)
Fixpoint GetPageBoxes_loop (fuel : nat) (page : PdfValue) (k : float) (names : list string)
    (result : gmap string Box) : M PdfReader (gmap string Box) :=
  match names with
  | [] => ret result
  | name :: rest =>
      let* box := getPageBox fuel page name k in
      GetPageBoxes_loop fuel page k rest (<[name := box]> result)
  end.

Definition GetPageBoxes (fuel : nat) (pageno : Z) (k : float) : M PdfReader (gmap string Box) :=
  let* p := pageAt pageno in
  let* page := ResolveObjectP fuel p in
  let* names := gets availableBoxes in
  GetPageBoxes_loop fuel page k names ∅.

(** The loop of [GetAllPageBoxes] over the pages [i .. len(pr.pages)]. *)
Fixpoint GetAllPageBoxes_loop (fuel : nat) (k : float) (count : nat) (i : Z)
    (result : gmap Z (gmap string Box)) : M PdfReader (gmap Z (gmap string Box)) :=
  match count with
  | O => ret result
  | S c =>
      let* boxes := GetPageBoxes fuel i k in
      GetAllPageBoxes_loop fuel k c (i + 1) (<[i := boxes]> result)
  end.

Definition GetAllPageBoxes (fuel : nat) (k : float) : M PdfReader (gmap Z (gmap string Box)) :=
  let* ps := gets pages in
  GetAllPageBoxes_loop fuel k (List.length ps) 1 ∅.

Fixpoint _getPageRotation (fuel : nat) (page : option PdfValue) {struct fuel}
  : M PdfReader (option PdfValue) :=
  match fuel with
  | O => diverge
  | S n =>
      let* page := ResolveObjectP n page in
      let* pv := deref (Value page) in
      match dict_get (Dictionary pv) "/Rotate" with
      | Some rot =>
          let* res := ResolveObject n rot in
          ret (valueOf res)
      | None =>
          match dict_get (Dictionary pv) "/Parent" with
          | Some parent =>
              let* res := _getPageRotation n (Some parent) in
              let* res := deref res in
              ret (valueOf res)
          | None => ret (Some (set_Int 0 PdfValue0))
          end
      end
  end.

Definition GetPageRotation (fuel : nat) (pageno : Z) : M PdfReader (option PdfValue) :=
  let* p := pageAt pageno in
  _getPageRotation fuel p.

Definition read (fuel : nat) : M PdfReader unit :=
  let* done := gets alreadyRead in
  if negb done then
    do* findXref fuel in
    do* readXref fuel in
    do* readRoot fuel in
    do* readPages fuel in
    modify (set_alreadyRead true)
  else ret tt.

Definition init (fuel : nat) : M PdfReader unit :=
  do* modify (set_availableBoxes ["/MediaBox"; "/CropBox"; "/BleedBox"; "/TrimBox"; "/ArtBox"]) in
  do* modify (set_xref ∅) in
  do* modify (set_xrefStream ∅) in
  read fuel.

(** [NewPdfReaderFromStream(rs)] for a stream with the bytes [rs]; the
    reader is the final state. *)
Definition NewPdfReaderFromStream (fuel : nat) (rs : list ascii) : outcome PdfReader unit :=
  let length := Z.of_nat (List.length rs) in
  let parser := mkPdfReader [] [] None None [] 0 ∅ ∅ rs length length "" 0 false 0 in
  (do* init fuel in read fuel) parser.

End ReaderPages.

(** ** Package gofpdi: the structs that both writers declare *)

(** The struct [PdfObjectID]. *)
Record PdfObjectID : Type := mkPdfObjectID {
  oid_id : Z;
  oid_hash : string
}.

(** The struct [PdfObject]: [obj_id] is the pointer to its [PdfObjectID]
    (an index into [objIDs], nil is [None]), [obj_buffer] the content of its
    [*bytes.Buffer] (nil is [None]). *)
Record PdfObject : Type := mkPdfObject {
  obj_id : option nat;
  obj_buffer : option (list ascii)
}.

(** ** Package gofpdi: the writer of writer.go *)

Module Writer.

(** The struct [PdfTemplate].  The field [Reader], a pointer to the reader
    that no function reads, is left out; a nil map [Box] is [None]. *)
Record PdfTemplate : Type := mkPdfTemplate {
  tpl_ID : Z;
  tpl_Resources : option PdfValue;
  tpl_Buffer : string;
  tpl_Box : option Box;
  tpl_X : float;
  tpl_Y : float;
  tpl_W : float;
  tpl_H : float;
  tpl_Rotation : Z;
  tpl_N : Z
}.

(** The struct [PdfWriter].  [r] holds the reader that [pw.r] points to;
    [objIDs] is the store of the [PdfObjectID]s allocated by [new], which
    the maps [writtenObjs] and [writtenObjPos] are keyed by; the callback
    [NextObjectID] is a function of the number of calls made so far,
    [nextCalls].  The fields [f], [w] and [result] are never used. *)
Record PdfWriter : Type := mkPdfWriter {
  r : option PdfReader;
  tpls : list PdfTemplate;
  nextOjbID : Z;
  objStack : gmap Z (option PdfValue);
  doOobjStack : gmap Z PdfValue;
  objIDs : list PdfObjectID;
  writtenObjs : gmap nat (list ascii);
  writtenObjPos : gmap nat (gmap Z string);
  currentObj : PdfObject;
  tplIDOffset : Z;
  NextObjectID : option (Z -> Z);
  nextCalls : Z
}.

Definition set_r x (pw : PdfWriter) : PdfWriter :=
  mkPdfWriter x (tpls pw) (nextOjbID pw) (objStack pw) (doOobjStack pw) (objIDs pw)
    (writtenObjs pw) (writtenObjPos pw) (currentObj pw) (tplIDOffset pw)
    (NextObjectID pw) (nextCalls pw).
Definition set_tpls x (pw : PdfWriter) : PdfWriter :=
  mkPdfWriter (r pw) x (nextOjbID pw) (objStack pw) (doOobjStack pw) (objIDs pw)
    (writtenObjs pw) (writtenObjPos pw) (currentObj pw) (tplIDOffset pw)
    (NextObjectID pw) (nextCalls pw).
Definition set_nextOjbID x (pw : PdfWriter) : PdfWriter :=
  mkPdfWriter (r pw) (tpls pw) x (objStack pw) (doOobjStack pw) (objIDs pw)
    (writtenObjs pw) (writtenObjPos pw) (currentObj pw) (tplIDOffset pw)
    (NextObjectID pw) (nextCalls pw).
Definition set_objStack x (pw : PdfWriter) : PdfWriter :=
  mkPdfWriter (r pw) (tpls pw) (nextOjbID pw) x (doOobjStack pw) (objIDs pw)
    (writtenObjs pw) (writtenObjPos pw) (currentObj pw) (tplIDOffset pw)
    (NextObjectID pw) (nextCalls pw).
Definition set_doOobjStack x (pw : PdfWriter) : PdfWriter :=
  mkPdfWriter (r pw) (tpls pw) (nextOjbID pw) (objStack pw) x (objIDs pw)
    (writtenObjs pw) (writtenObjPos pw) (currentObj pw) (tplIDOffset pw)
    (NextObjectID pw) (nextCalls pw).
Definition set_objIDs x (pw : PdfWriter) : PdfWriter :=
  mkPdfWriter (r pw) (tpls pw) (nextOjbID pw) (objStack pw) (doOobjStack pw) x
    (writtenObjs pw) (writtenObjPos pw) (currentObj pw) (tplIDOffset pw)
    (NextObjectID pw) (nextCalls pw).
Definition set_writtenObjs x (pw : PdfWriter) : PdfWriter :=
  mkPdfWriter (r pw) (tpls pw) (nextOjbID pw) (objStack pw) (doOobjStack pw) (objIDs pw)
    x (writtenObjPos pw) (currentObj pw) (tplIDOffset pw)
    (NextObjectID pw) (nextCalls pw).
Definition set_writtenObjPos x (pw : PdfWriter) : PdfWriter :=
  mkPdfWriter (r pw) (tpls pw) (nextOjbID pw) (objStack pw) (doOobjStack pw) (objIDs pw)
    (writtenObjs pw) x (currentObj pw) (tplIDOffset pw)
    (NextObjectID pw) (nextCalls pw).
Definition set_currentObj x (pw : PdfWriter) : PdfWriter :=
  mkPdfWriter (r pw) (tpls pw) (nextOjbID pw) (objStack pw) (doOobjStack pw) (objIDs pw)
    (writtenObjs pw) (writtenObjPos pw) x (tplIDOffset pw)
    (NextObjectID pw) (nextCalls pw).
Definition set_tplIDOffset x (pw : PdfWriter) : PdfWriter :=
  mkPdfWriter (r pw) (tpls pw) (nextOjbID pw) (objStack pw) (doOobjStack pw) (objIDs pw)
    (writtenObjs pw) (writtenObjPos pw) (currentObj pw) x
    (NextObjectID pw) (nextCalls pw).
Definition set_nextCalls x (pw : PdfWriter) : PdfWriter :=
  mkPdfWriter (r pw) (tpls pw) (nextOjbID pw) (objStack pw) (doOobjStack pw) (objIDs pw)
    (writtenObjs pw) (writtenObjPos pw) (currentObj pw) (tplIDOffset pw)
    (NextObjectID pw) x.

Definition SetTplIDOffset (n : Z) : M PdfWriter unit := modify (set_tplIDOffset n).

Definition SetNextObjectID (id : Z) : M PdfWriter unit :=
  modify (set_nextOjbID (wrap64 (id - 1))).

Definition NewPdfWriter : PdfWriter :=
  mkPdfWriter None [] 0 ∅ ∅ [] ∅ ∅ (mkPdfObject None None) 0 None 0.

Definition GetImportedObjects (pw : PdfWriter) : gmap nat (list ascii) := writtenObjs pw.

Definition ClearImportedObjects : M PdfWriter unit := modify (set_writtenObjs ∅).

(** [bx[key]] on a map that may be nil. *)
Definition bget (bx : option Box) (key : string) : float :=
  match bx with Some m => fget m key | None => 0%float end.

(** [len(bx)]. *)
Definition blen (bx : option Box) : nat :=
  match bx with Some m => size m | None => O end.

Definition intersectBox (bx mediabox : option Box) : Box :=
  let newbox : Box := default ∅ bx in
  let newbox :=
    if PrimFloat.ltb (bget bx "lly") (bget mediabox "lly")
    then <["lly" := bget mediabox "lly"]> newbox else newbox in
  let newbox :=
    if PrimFloat.ltb (bget bx "llx") (bget mediabox "llx")
    then <["llx" := bget mediabox "llx"]> newbox else newbox in
  let newbox :=
    if PrimFloat.ltb (bget mediabox "ury") (bget bx "ury")
    then <["ury" := bget mediabox "ury"]> newbox else newbox in
  let newbox :=
    if PrimFloat.ltb (bget mediabox "urx") (bget bx "urx")
    then <["urx" := bget mediabox "urx"]> newbox else newbox in
  let newbox := <["x" := fget newbox "llx"]> newbox in
  let newbox := <["y" := fget newbox "lly"]> newbox in
  let newbox := <["w" := PrimFloat.sub (fget newbox "urx") (fget newbox "llx")]> newbox in
  let newbox := <["h" := PrimFloat.sub (fget newbox "ury") (fget newbox "lly")]> newbox in
  newbox.

(** A call on the reader [pw.r]. *)
Definition onReader {A} (m : M PdfReader A) : M PdfWriter A :=
  fun pw =>
    match r pw with
    | None => Panic
    | Some rd =>
        match m rd with
        | Ok a rd' => Ok a (set_r (Some rd') pw)
        | Err e rd' => Err e (set_r (Some rd') pw)
        | Panic => Panic
        | Diverge => Diverge
        end
    end.

Section WithStd.
Context `{GoStd}.

(** [pb[p][boxname]]. *)
Definition pageBox (pb : gmap Z (gmap string Box)) (p : Z) (boxname : string) : option Box :=
  pb !! p ≫= fun boxes => boxes !! boxname.

Definition GetPDFBoxDimensions (fuel : nat) (p : Z) (boxname : string)
  : M PdfWriter (option Box) :=
  let* numPages := onReader GetNumPages in
  if numPages <? p then fail "cannot get the page number of the PDF" else
  let* pb := onReader (GetAllPageBoxes fuel 1) in
  let bx := pageBox pb p boxname in
  if (blen bx =? 0)%nat then
    if String.eqb boxname "/CropBox" then ret (pageBox pb p "/MediaBox")
    else if String.eqb boxname "/ArtBox" || String.eqb boxname "/BleedBox"
            || String.eqb boxname "/TrimBox"
    then ret (pageBox pb p "/CropBox")
    else fail "could not find the box dimensions for the image"
  else if String.eqb boxname "/MediaBox" then ret bx
  else ret (Some (intersectBox bx (pageBox pb p "/MediaBox"))).

(** The block "Normalize angle" of [ImportPage]: the template after the
    rotation [rotation] of the page has been taken into account. *)
Definition setRotation (rotation : Z) (tpl : PdfTemplate) : PdfTemplate :=
  let angle := Z.rem rotation 360 in
  if negb (angle =? 0) then
    let steps := Z.quot angle 90 in
    let w := tpl_W tpl in
    let h := tpl_H tpl in
    let '(w', h') := if Z.rem steps 2 =? 0 then (w, h) else (h, w) in
    let angle := if angle <? 0 then angle + 360 else angle in
    mkPdfTemplate (tpl_ID tpl) (tpl_Resources tpl) (tpl_Buffer tpl) (tpl_Box tpl)
      (tpl_X tpl) (tpl_Y tpl) w' h' (angle * -1) (tpl_N tpl)
  else tpl.

Definition ImportPage (fuel : nat) (rd : PdfReader) (pageno : Z) (boxName : string)
  : M PdfWriter Z :=
  do* modify (set_r (Some rd)) in
  let* pageResources := onReader (GetPageResources fuel pageno) in
  let* content := onReader (GetContent fuel pageno) in
  let* bx := GetPDFBoxDimensions fuel pageno boxName in
  let tpl := mkPdfTemplate 0 pageResources content bx 0 0 (bget bx "w") (bget bx "h") 0 0 in
  let* rotation := onReader (GetPageRotation fuel pageno) in
  let* rotation := deref rotation in
  let tpl := setRotation (Int rotation) tpl in
  do* modify (fun pw => set_tpls (tpls pw ++ [tpl]) pw) in
  let* ts := gets tpls in
  ret (Z.of_nat (List.length ts) - 1).

Definition shaOfInt (i : Z) : M PdfWriter string :=
  let* rd := gets r in
  let* rd := deref rd in
  ret (sha1_hex (itoa i +:+ "-" +:+ SourceFile rd)).

Definition newObj (objID : Z) (onlyNewObj : bool) : M PdfWriter unit :=
  let* objID :=
    if objID <? 0 then
      let* cb := gets NextObjectID in
      do* match cb with
          | Some g =>
              let* k := gets nextCalls in
              modify (fun pw => set_nextCalls (k + 1) (set_nextOjbID (g k) pw))
          | None => modify (fun pw => set_nextOjbID (wrap64 (nextOjbID pw + 1)) pw)
          end in
      gets nextOjbID
    else ret objID in
  if onlyNewObj then ret tt else
  let* h := shaOfInt objID in
  modify (fun pw =>
    let p := List.length (objIDs pw) in
    set_writtenObjPos (<[p := ∅]> (writtenObjPos pw))
      (set_currentObj (mkPdfObject (Some p) (Some []))
         (set_objIDs (objIDs pw ++ [mkPdfObjectID objID h]) pw))).

Definition endObj : M PdfWriter unit :=
  let* cur := gets currentObj in
  let* buf := deref (obj_buffer cur) in
  let* p := deref (obj_id cur) in
  modify (fun pw => set_writtenObjs (<[p := buf]> (writtenObjs pw)) pw).

(** [pw.currentObj.buffer.WriteString(s)]. *)
Definition WriteString (s : string) : M PdfWriter unit :=
  let* cur := gets currentObj in
  let* buf := deref (obj_buffer cur) in
  modify (set_currentObj (mkPdfObject (obj_id cur) (Some (buf ++ bytes_of_string s)))).

Definition outObjRef (objID : Z) : M PdfWriter unit :=
  let* sha := shaOfInt objID in
  let* cur := gets currentObj in
  let* p := deref (obj_id cur) in
  let* pos := gets writtenObjPos in
  let* m := deref (pos !! p) in
  let* buf := deref (obj_buffer cur) in
  do* modify (set_writtenObjPos (<[p := <[Z.of_nat (List.length buf) := sha]> m]> pos)) in
  do* WriteString (itoa objID) in
  WriteString " 0 R ".

Definition out (s : string) : M PdfWriter unit :=
  do* WriteString s in
  WriteString (String (ch 10) "").

Definition straightOut (s : string) : M PdfWriter unit := WriteString s.

(** The case [PDFTypeObjRef] of [writeValue]. *)
Definition writeObjRef (value : PdfValue) : M PdfWriter unit :=
  let* done := gets doOobjStack in
  do* match done !! ID value with
      | None =>
          do* newObj (-1) true in
          let* n := gets nextOjbID in
          let ref := set_NewID n (objref (ID value) (Gen value)) in
          modify (fun pw =>
            set_doOobjStack (<[ID value := ref]> (doOobjStack pw))
              (set_objStack (<[ID value := Some ref]> (objStack pw)) pw))
      | Some _ => ret tt
      end in
  let* done := gets doOobjStack in
  let* ref := deref (done !! ID value) in
  outObjRef (NewID ref).

Fixpoint writeValue (value : PdfValue) : M PdfWriter unit :=
  match value with
  | mkPdfValue ty str tok i re b dict arr _ _ _ val strm _ =>
      if ty =? PDFTypeToken then straightOut (tok +:+ " ")
      else if ty =? PDFTypeNumeric then straightOut (itoa i +:+ " ")
      else if ty =? PDFTypeReal then straightOut (Sprintf_F 6 re +:+ " ")
      else if ty =? PDFTypeArray then
        do* straightOut "[" in
        do* (fix loop (l : list PdfValue) : M PdfWriter unit :=
               match l with
               | [] => ret tt
               | x :: rest => do* writeValue x in loop rest
               end) arr in
        out "]"
      else if ty =? PDFTypeDictionary then
        do* straightOut "<<" in
        do* (fix loop (l : list (string * PdfValue)) : M PdfWriter unit :=
               match l with
               | [] => ret tt
               | (k, v) :: rest =>
                   do* straightOut (k +:+ " ") in
                   do* writeValue v in
                   loop rest
               end) dict in
        straightOut ">>"
      else if ty =? PDFTypeObjRef then writeObjRef value
      else if ty =? PDFTypeString then straightOut ("(" +:+ str +:+ ")")
      else if ty =? PDFTypeStream then
        do* match val with
            | Some v => writeValue v
            | None => panic
            end in
        do* out "stream" in
        let* st := deref strm in
        do* out (string_of_bytes (Bytes st)) in
        out "endstream"
      else if ty =? PDFTypeHex then straightOut ("<" +:+ str +:+ ">")
      else if ty =? PDFTypeBoolean then
        if b then straightOut "true" else straightOut "false"
      else if ty =? PDFTypeNull then straightOut "null "
      else ret tt
  end.

(** The inner loop [for i := 0; i < 9999; i++] of [putImportedObjects],
    from index [i] for [k] more rounds; the result is [atLeastOne]. *)
Fixpoint putImportedObjects_scan (fuel : nat) (k : nat) (i : Z) (atLeastOne : bool)
  : M PdfWriter bool :=
  match k with
  | O => ret atLeastOne
  | S k' =>
      let* st := gets objStack in
      match default None (st !! i) with
      | None => putImportedObjects_scan fuel k' (i + 1) atLeastOne
      | Some v =>
          let* nObj := onReader (ResolveObject fuel v) in
          do* newObj (NewID v) false in
          do* (if Type_ nObj =? PDFTypeStream then writeValue nObj
               else let* nv := deref (Value nObj) in writeValue nv) in
          do* endObj in
          do* modify (fun pw => set_objStack (<[i := None]> (objStack pw)) pw) in
          putImportedObjects_scan fuel k' (i + 1) true
      end
  end.

(** [putImportedObjects]: the outer loop runs the scan until a scan finds
    nothing. *)
Fixpoint putImportedObjects (fuel : nat) : M PdfWriter unit :=
  match fuel with
  | O => diverge
  | S n =>
      let* atLeastOne := putImportedObjects_scan n (Z.to_nat 9999) 0 false in
      if negb atLeastOne then ret tt else putImportedObjects n
  end.

(** The translation [(tx, ty)] and the rotation [(c, s)] of the matrix of
    a template. *)
Definition tplMatrix (tpl : PdfTemplate) : float * float * float * float :=
  let box := tpl_Box tpl in
  match box with
  | Some _ =>
      let tx := PrimFloat.opp (bget box "llx") in
      let ty := PrimFloat.opp (bget box "lly") in
      if negb (tpl_Rotation tpl =? 0) then
        let angle :=
          PrimFloat.div (PrimFloat.mul (float_of_int (tpl_Rotation tpl)) 0x1.921fb54442d18p+1%float)
            180%float in
        let c := math_Cos angle in
        let s := math_Sin angle in
        if tpl_Rotation tpl =? -90 then (c, s, PrimFloat.opp (bget box "lly"), bget box "urx")
        else if tpl_Rotation tpl =? -180 then (c, s, bget box "urx", bget box "ury")
        else if tpl_Rotation tpl =? -270 then (c, s, bget box "ury", PrimFloat.opp (bget box "llx"))
        else (c, s, tx, ty)
      else (1%float, 0%float, tx, ty)
  | None =>
      (1%float, 0%float,
       PrimFloat.mul (PrimFloat.opp (bget box "x")) 2%float,
       PrimFloat.mul (bget box "y") 2%float)
  end.

(** [a != b] on floats. *)
Definition fneq (a b : float) : bool := negb (PrimFloat.eqb a b).

(** The body of the loop of [PutFormXobjects] for the template of index [i]. *)
Definition putTemplate (fuel : nat) (i : Z) (tpl : PdfTemplate)
    (result : gmap string PdfObjectID) : M PdfWriter (gmap string PdfObjectID) :=
  let filter := "/Filter /FlateDecode " in
  let p := zlib_deflate (bytes_of_string (tpl_Buffer tpl)) in
  do* newObj (-1) false in
  let* cN := gets nextOjbID in
  do* modify (fun pw =>
        set_tpls (<[Z.to_nat i :=
                     mkPdfTemplate (tpl_ID tpl) (tpl_Resources tpl) (tpl_Buffer tpl) (tpl_Box tpl)
                       (tpl_X tpl) (tpl_Y tpl) (tpl_W tpl) (tpl_H tpl) (tpl_Rotation tpl) cN]>
                    (tpls pw)) pw) in
  let* h := shaOfInt cN in
  let* off := gets tplIDOffset in
  let result := <["/GOFPDITPL" +:+ itoa (wrap64 (i + off)) := mkPdfObjectID cN h]> result in
  do* out ("<<" +:+ filter +:+ "/Type /XObject") in
  do* out "/Subtype /Form" in
  do* out "/FormType 1" in
  let box := tpl_Box tpl in
  do* out ("/BBox [" +:+ Sprintf_F 2 (bget box "llx") +:+ " " +:+ Sprintf_F 2 (bget box "lly")
           +:+ " " +:+ Sprintf_F 2 (PrimFloat.add (bget box "urx") (tpl_X tpl))
           +:+ " " +:+ Sprintf_F 2 (PrimFloat.sub (bget box "ury") (tpl_Y tpl)) +:+ "]") in
  let '(c, s, tx, ty) := tplMatrix tpl in
  do* (if fneq c 1 || fneq s 0 || fneq tx 0 || fneq ty 0 then
         out ("/Matrix [" +:+ Sprintf_F 5 c +:+ " " +:+ Sprintf_F 5 s +:+ " "
              +:+ Sprintf_F 5 (PrimFloat.opp s) +:+ " " +:+ Sprintf_F 5 c +:+ " "
              +:+ Sprintf_F 5 tx +:+ " " +:+ Sprintf_F 5 ty +:+ "]")
       else ret tt) in
  do* out "/Resources " in
  match tpl_Resources tpl with
  | None => fail "Template resources are empty"
  | Some res =>
      do* writeValue res in
      let* nN := gets nextOjbID in
      do* modify (set_nextOjbID cN) in
      do* out ("/Length " +:+ itoa (Z.of_nat (List.length p)) +:+ " >>") in
      do* out "stream" in
      do* out (string_of_bytes p) in
      do* out "endstream" in
      do* endObj in
      do* modify (set_nextOjbID nN) in
      do* putImportedObjects fuel in
      ret result
  end.

(** The loop of [PutFormXobjects] over the templates from index [i] on. *)
Fixpoint PutFormXobjects_loop (fuel : nat) (k : nat) (i : Z)
    (result : gmap string PdfObjectID) : M PdfWriter (gmap string PdfObjectID) :=
  match k with
  | O => ret result
  | S k' =>
      let* ts := gets tpls in
      let* tpl := deref (index ts i) in
      let* result := putTemplate fuel i tpl result in
      PutFormXobjects_loop fuel k' (i + 1) result
  end.

Definition PutFormXobjects (fuel : nat) (reader : PdfReader)
  : M PdfWriter (gmap string PdfObjectID) :=
  do* modify (set_r (Some reader)) in
  let* ts := gets tpls in
  PutFormXobjects_loop fuel (List.length ts) 0 ∅.

End WithStd.
End Writer.

(** ** Package gofpdi: the importer of importer.go *)

Module Importer.

(** The struct [TplInfo]; the field [Writer] always points to the writer of
    the importer and is left out. *)
Record TplInfo : Type := mkTplInfo {
  ti_SourceFile : string;
  ti_TemplateID : Z
}.

(** The struct [Importer].  [imp.reader] and [imp.writer.r] point to the
    same reader from the first call that hands the reader to the writer;
    the model keeps the two copies equal at the end of every such call. *)
Record Importer : Type := mkImporter {
  reader : option PdfReader;
  writer : Writer.PdfWriter;
  tplMap : gmap Z TplInfo;
  tplN : Z;
  importedPages : gmap Z Z
}.

Definition set_reader x (imp : Importer) : Importer :=
  mkImporter x (writer imp) (tplMap imp) (tplN imp) (importedPages imp).
Definition set_writer x (imp : Importer) : Importer :=
  mkImporter (reader imp) x (tplMap imp) (tplN imp) (importedPages imp).
Definition set_tplMap x (imp : Importer) : Importer :=
  mkImporter (reader imp) (writer imp) x (tplN imp) (importedPages imp).
Definition set_tplN x (imp : Importer) : Importer :=
  mkImporter (reader imp) (writer imp) (tplMap imp) x (importedPages imp).
Definition set_importedPages x (imp : Importer) : Importer :=
  mkImporter (reader imp) (writer imp) (tplMap imp) (tplN imp) x.

Definition NewImporter : Importer :=
  mkImporter None Writer.NewPdfWriter ∅ 0 ∅.

(** A call on [imp.writer] that does not take the reader. *)
Definition onWriter {A} (m : M Writer.PdfWriter A) : M Importer A :=
  fun imp =>
    match m (writer imp) with
    | Ok a pw => Ok a (set_writer pw imp)
    | Err e pw => Err e (set_writer pw imp)
    | Panic => Panic
    | Diverge => Diverge
    end.

(** A call [imp.writer.m(imp.reader, ...)]: the writer keeps the reader in
    [pw.r] and works on it. *)
Definition onWriterWith {A} (m : PdfReader -> M Writer.PdfWriter A) : M Importer A :=
  fun imp =>
    let sync pw := set_reader (Writer.r pw) (set_writer pw imp) in
    match reader imp with
    | None => Panic
    | Some rd =>
        match m rd (writer imp) with
        | Ok a pw => Ok a (sync pw)
        | Err e pw => Err e (sync pw)
        | Panic => Panic
        | Diverge => Diverge
        end
    end.

(** A call on [imp.reader]. *)
Definition onReader {A} (m : M PdfReader A) : M Importer A :=
  fun imp =>
    match reader imp with
    | None => Panic
    | Some rd =>
        match m rd with
        | Ok a rd' => Ok a (set_reader (Some rd') imp)
        | Err e rd' => Err e (set_reader (Some rd') imp)
        | Panic => Panic
        | Diverge => Diverge
        end
    end.

Section WithStd.
Context `{GoStd}.

Definition SetSourceStream (fuel : nat) (rs : list ascii) : M Importer unit :=
  fun imp =>
    match NewPdfReaderFromStream fuel rs with
    | Ok _ pr =>
        let imp := set_reader (Some pr) imp in
        onWriter (Writer.SetTplIDOffset (tplN imp)) imp
    | Err e _ => Err e (set_reader None imp)
    | Panic => Panic
    | Diverge => Diverge
    end.

Definition GetNumPages : M Importer Z := onReader GetNumPages.

Definition GetPageSizes (fuel : nat) : M Importer (gmap Z (gmap string Box)) :=
  onReader (GetAllPageBoxes fuel 1).

Definition ImportPage (fuel : nat) (pageno : Z) (box : string) : M Importer Z :=
  let* cache := gets importedPages in
  match cache !! pageno with
  | Some t => ret t
  | None =>
      let* res := onWriterWith (fun rd => Writer.ImportPage fuel rd pageno box) in
      let* tplN := gets tplN in
      do* modify (fun imp => set_tplMap (<[tplN := mkTplInfo "" res]> (tplMap imp)) imp) in
      do* modify (set_tplN (wrap64 (tplN + 1))) in
      do* modify (fun imp => set_importedPages (<[pageno := tplN]> (importedPages imp)) imp) in
      ret tplN
  end.

Definition SetNextObjectID (objID : Z) : M Importer unit :=
  onWriter (Writer.SetNextObjectID objID).

Definition PutFormXobjects (fuel : nat) : M Importer (gmap string Z) :=
  let* tplNamesIds := onWriterWith (fun rd => Writer.PutFormXobjects fuel rd) in
  ret (oid_id <$> tplNamesIds).

(** [GetImportedObjects]: the emitted bytes by object id.  The loop ranges
    over the objects in the order of their allocation (Go leaves the order
    open; it matters only when two objects carry the same id). *)
Definition GetImportedObjects (imp : Importer) : gmap Z (list ascii) :=
  let pw := writer imp in
  fold_left
    (fun res p =>
       match Writer.objIDs pw !! p, Writer.GetImportedObjects pw !! p with
       | Some o, Some bytes => <[oid_id o := bytes]> res
       | _, _ => res
       end)
    (seq 0 (List.length (Writer.objIDs pw))) ∅.

End WithStd.
End Importer.

(** ** Package gofpdi: the older writer, which owns the hash mode

    This is the writer that declares [useHash], [SetUseHash] and
    [GetImportedObjHashPos].  Its reader is the reader above ([resolveObject]
    and [sourceFile] are [ResolveObject] and [SourceFile]). *)

Module HashWriter.

(** The struct [PdfTemplate] of this writer: it has the field [Boxes];
    the field [Reader], which no function reads, is left out as in
    [Writer.PdfTemplate]. *)
Record PdfTemplate : Type := mkPdfTemplate {
  tpl_ID : Z;
  tpl_Resources : option PdfValue;
  tpl_Buffer : string;
  tpl_Box : option Box;
  tpl_Boxes : gmap string Box;
  tpl_X : float;
  tpl_Y : float;
  tpl_W : float;
  tpl_H : float;
  tpl_Rotation : Z;
  tpl_N : Z
}.

(** The struct [PdfWriter] of this writer; [objIDs] is the store of the
    allocated [PdfObjectID]s, as in [Writer.PdfWriter].  The fields [f],
    [w], [m], [offsets], [offset] and [result] are never used. *)
Record PdfWriter : Type := mkPdfWriter {
  r : option PdfReader;
  k : float;
  tpls : list PdfTemplate;
  n : Z;
  objStack : gmap Z (option PdfValue);
  doOobjStack : gmap Z PdfValue;
  objIDs : list PdfObjectID;
  writtenObjs : gmap nat (list ascii);
  writtenObjPos : gmap nat (gmap Z string);
  currentObj : PdfObject;
  currentObjID : Z;
  tplIDOffset : Z;
  useHash : bool
}.

Definition set_r x (pw : PdfWriter) : PdfWriter :=
  mkPdfWriter x (k pw) (tpls pw) (n pw) (objStack pw) (doOobjStack pw) (objIDs pw)
    (writtenObjs pw) (writtenObjPos pw) (currentObj pw) (currentObjID pw)
    (tplIDOffset pw) (useHash pw).
Definition set_k x (pw : PdfWriter) : PdfWriter :=
  mkPdfWriter (r pw) x (tpls pw) (n pw) (objStack pw) (doOobjStack pw) (objIDs pw)
    (writtenObjs pw) (writtenObjPos pw) (currentObj pw) (currentObjID pw)
    (tplIDOffset pw) (useHash pw).
Definition set_tpls x (pw : PdfWriter) : PdfWriter :=
  mkPdfWriter (r pw) (k pw) x (n pw) (objStack pw) (doOobjStack pw) (objIDs pw)
    (writtenObjs pw) (writtenObjPos pw) (currentObj pw) (currentObjID pw)
    (tplIDOffset pw) (useHash pw).
Definition set_n x (pw : PdfWriter) : PdfWriter :=
  mkPdfWriter (r pw) (k pw) (tpls pw) x (objStack pw) (doOobjStack pw) (objIDs pw)
    (writtenObjs pw) (writtenObjPos pw) (currentObj pw) (currentObjID pw)
    (tplIDOffset pw) (useHash pw).
Definition set_objStack x (pw : PdfWriter) : PdfWriter :=
  mkPdfWriter (r pw) (k pw) (tpls pw) (n pw) x (doOobjStack pw) (objIDs pw)
    (writtenObjs pw) (writtenObjPos pw) (currentObj pw) (currentObjID pw)
    (tplIDOffset pw) (useHash pw).
Definition set_doOobjStack x (pw : PdfWriter) : PdfWriter :=
  mkPdfWriter (r pw) (k pw) (tpls pw) (n pw) (objStack pw) x (objIDs pw)
    (writtenObjs pw) (writtenObjPos pw) (currentObj pw) (currentObjID pw)
    (tplIDOffset pw) (useHash pw).
Definition set_objIDs x (pw : PdfWriter) : PdfWriter :=
  mkPdfWriter (r pw) (k pw) (tpls pw) (n pw) (objStack pw) (doOobjStack pw) x
    (writtenObjs pw) (writtenObjPos pw) (currentObj pw) (currentObjID pw)
    (tplIDOffset pw) (useHash pw).
Definition set_writtenObjs x (pw : PdfWriter) : PdfWriter :=
  mkPdfWriter (r pw) (k pw) (tpls pw) (n pw) (objStack pw) (doOobjStack pw) (objIDs pw)
    x (writtenObjPos pw) (currentObj pw) (currentObjID pw)
    (tplIDOffset pw) (useHash pw).
Definition set_writtenObjPos x (pw : PdfWriter) : PdfWriter :=
  mkPdfWriter (r pw) (k pw) (tpls pw) (n pw) (objStack pw) (doOobjStack pw) (objIDs pw)
    (writtenObjs pw) x (currentObj pw) (currentObjID pw)
    (tplIDOffset pw) (useHash pw).
Definition set_currentObj x (pw : PdfWriter) : PdfWriter :=
  mkPdfWriter (r pw) (k pw) (tpls pw) (n pw) (objStack pw) (doOobjStack pw) (objIDs pw)
    (writtenObjs pw) (writtenObjPos pw) x (currentObjID pw)
    (tplIDOffset pw) (useHash pw).
Definition set_currentObjID x (pw : PdfWriter) : PdfWriter :=
  mkPdfWriter (r pw) (k pw) (tpls pw) (n pw) (objStack pw) (doOobjStack pw) (objIDs pw)
    (writtenObjs pw) (writtenObjPos pw) (currentObj pw) x
    (tplIDOffset pw) (useHash pw).
Definition set_tplIDOffset x (pw : PdfWriter) : PdfWriter :=
  mkPdfWriter (r pw) (k pw) (tpls pw) (n pw) (objStack pw) (doOobjStack pw) (objIDs pw)
    (writtenObjs pw) (writtenObjPos pw) (currentObj pw) (currentObjID pw)
    x (useHash pw).
Definition set_useHash x (pw : PdfWriter) : PdfWriter :=
  mkPdfWriter (r pw) (k pw) (tpls pw) (n pw) (objStack pw) (doOobjStack pw) (objIDs pw)
    (writtenObjs pw) (writtenObjPos pw) (currentObj pw) (currentObjID pw)
    (tplIDOffset pw) x.

Definition SetTplIDOffset (n : Z) : M PdfWriter unit := modify (set_tplIDOffset n).
Definition SetUseHash (b : bool) : M PdfWriter unit := modify (set_useHash b).
Definition SetNextObjectID (id : Z) : M PdfWriter unit := modify (set_n (wrap64 (id - 1))).

(** [NewPdfWriter("")]: the zero writer after [init]. *)
Definition NewPdfWriter : PdfWriter :=
  mkPdfWriter None 1 [] 0 ∅ ∅ [] ∅ ∅ (mkPdfObject None None) 0 0 false.

Definition GetImportedObjects (pw : PdfWriter) : gmap nat (list ascii) := writtenObjs pw.
Definition GetImportedObjHashPos (pw : PdfWriter) : gmap nat (gmap Z string) := writtenObjPos pw.
Definition ClearImportedObjects : M PdfWriter unit := modify (set_writtenObjs ∅).

Definition bget := Writer.bget.
Definition fneq := Writer.fneq.

Definition onReader {A} (m : M PdfReader A) : M PdfWriter A :=
  fun pw =>
    match r pw with
    | None => Panic
    | Some rd =>
        match m rd with
        | Ok a rd' => Ok a (set_r (Some rd') pw)
        | Err e rd' => Err e (set_r (Some rd') pw)
        | Panic => Panic
        | Diverge => Diverge
        end
    end.

Section WithStd.
Context `{GoStd}.

Definition shaOfInt (i : Z) : M PdfWriter string :=
  let* rd := gets r in
  let* rd := deref rd in
  ret (sha1_hex (itoa i +:+ "-" +:+ SourceFile rd)).

Definition newObj (objID : Z) (onlyNewObj : bool) : M PdfWriter unit :=
  let* objID :=
    if objID <? 0 then
      do* modify (fun pw => set_n (wrap64 (n pw + 1)) pw) in
      gets n
    else ret objID in
  if negb onlyNewObj then
    do* modify (set_currentObjID objID) in
    let* h := shaOfInt objID in
    modify (fun pw =>
      let p := List.length (objIDs pw) in
      set_writtenObjPos (<[p := ∅]> (writtenObjPos pw))
        (set_currentObj (mkPdfObject (Some p) (Some []))
           (set_objIDs (objIDs pw ++ [mkPdfObjectID objID h]) pw)))
  else ret tt.

(** [pw.currentObj.buffer.WriteString(s)]. *)
Definition WriteString (s : string) : M PdfWriter unit :=
  let* cur := gets currentObj in
  let* buf := deref (obj_buffer cur) in
  modify (set_currentObj (mkPdfObject (obj_id cur) (Some (buf ++ bytes_of_string s)))).

Definition out (s : string) : M PdfWriter unit :=
  do* WriteString s in
  WriteString (String (ch 10) "").

Definition straightOut (s : string) : M PdfWriter unit := WriteString s.

Definition endObj : M PdfWriter unit :=
  do* out "endobj" in
  let* cur := gets currentObj in
  let* buf := deref (obj_buffer cur) in
  let* p := deref (obj_id cur) in
  do* modify (fun pw => set_writtenObjs (<[p := buf]> (writtenObjs pw)) pw) in
  modify (set_currentObjID (-1)).

Definition outObjRef (objID : Z) : M PdfWriter unit :=
  let* sha := shaOfInt objID in
  let* cur := gets currentObj in
  let* p := deref (obj_id cur) in
  let* pos := gets writtenObjPos in
  let* m := deref (pos !! p) in
  let* buf := deref (obj_buffer cur) in
  do* modify (set_writtenObjPos (<[p := <[Z.of_nat (List.length buf) := sha]> m]> pos)) in
  let* hashMode := gets useHash in
  do* (if hashMode then WriteString sha else WriteString (itoa objID)) in
  WriteString " 0 R ".

(** The case [PDFTypeObjRef] of [writeValue]. *)
Definition writeObjRef (value : PdfValue) : M PdfWriter unit :=
  let* done := gets doOobjStack in
  do* match done !! ID value with
      | None =>
          do* newObj (-1) true in
          let* n := gets n in
          let ref := set_NewID n (objref (ID value) (Gen value)) in
          modify (fun pw =>
            set_doOobjStack (<[ID value := ref]> (doOobjStack pw))
              (set_objStack (<[ID value := Some ref]> (objStack pw)) pw))
      | Some _ => ret tt
      end in
  let* done := gets doOobjStack in
  let* ref := deref (done !! ID value) in
  outObjRef (NewID ref).

Fixpoint writeValue (value : PdfValue) : M PdfWriter unit :=
  match value with
  | mkPdfValue ty str tok i re b dict arr _ _ _ val strm _ =>
      if ty =? PDFTypeToken then straightOut (tok +:+ " ")
      else if ty =? PDFTypeNumeric then straightOut (itoa i +:+ " ")
      else if ty =? PDFTypeReal then straightOut (Sprintf_F 6 re +:+ " ")
      else if ty =? PDFTypeArray then
        do* straightOut "[" in
        do* (fix loop (l : list PdfValue) : M PdfWriter unit :=
               match l with
               | [] => ret tt
               | x :: rest => do* writeValue x in loop rest
               end) arr in
        out "]"
      else if ty =? PDFTypeDictionary then
        do* straightOut "<<" in
        do* (fix loop (l : list (string * PdfValue)) : M PdfWriter unit :=
               match l with
               | [] => ret tt
               | (k, v) :: rest =>
                   do* straightOut (k +:+ " ") in
                   do* writeValue v in
                   loop rest
               end) dict in
        straightOut ">>"
      else if ty =? PDFTypeObjRef then writeObjRef value
      else if ty =? PDFTypeString then straightOut ("(" +:+ str +:+ ")")
      else if ty =? PDFTypeStream then
        do* match val with
            | Some v => writeValue v
            | None => panic
            end in
        do* out "stream" in
        let* st := deref strm in
        do* out (string_of_bytes (Bytes st)) in
        out "endstream"
      else if ty =? PDFTypeHex then straightOut ("<" +:+ str +:+ ">")
      else if ty =? PDFTypeBoolean then
        if b then straightOut "true" else straightOut "false"
      else if ty =? PDFTypeNull then straightOut "null "
      else ret tt
  end.

Fixpoint putImportedObjects_scan (fuel : nat) (c : nat) (i : Z) (atLeastOne : bool)
  : M PdfWriter bool :=
  match c with
  | O => ret atLeastOne
  | S c' =>
      let* st := gets objStack in
      match default None (st !! i) with
      | None => putImportedObjects_scan fuel c' (i + 1) atLeastOne
      | Some v =>
          let* nObj := onReader (ResolveObject fuel v) in
          do* newObj (NewID v) false in
          do* (if Type_ nObj =? PDFTypeStream then writeValue nObj
               else let* nv := deref (Value nObj) in writeValue nv) in
          do* endObj in
          do* modify (fun pw => set_objStack (<[i := None]> (objStack pw)) pw) in
          putImportedObjects_scan fuel c' (i + 1) true
      end
  end.

Fixpoint putImportedObjects (fuel : nat) : M PdfWriter unit :=
  match fuel with
  | O => diverge
  | S f =>
      let* atLeastOne := putImportedObjects_scan f (Z.to_nat 9999) 0 false in
      if negb atLeastOne then ret tt else putImportedObjects f
  end.

(** The rotation [(c, s)] and the translation [(tx, ty)], before the
    scaling by [pw.k]. *)
Definition tplMatrix (tpl : PdfTemplate) : float * float * float * float :=
  let box := tpl_Box tpl in
  match box with
  | Some _ =>
      let tx := PrimFloat.opp (bget box "llx") in
      let ty := PrimFloat.opp (bget box "lly") in
      if negb (tpl_Rotation tpl =? 0) then
        let angle :=
          PrimFloat.div (PrimFloat.mul (float_of_int (tpl_Rotation tpl)) 0x1.921fb54442d18p+1%float)
            180%float in
        let c := math_Cos angle in
        let s := math_Sin angle in
        if tpl_Rotation tpl =? -90 then (c, s, PrimFloat.opp (bget box "lly"), bget box "urx")
        else if tpl_Rotation tpl =? -180 then (c, s, bget box "urx", bget box "ury")
        else if tpl_Rotation tpl =? -270 then (c, s, bget box "ury", PrimFloat.opp (bget box "llx"))
        else (c, s, tx, ty)
      else (1%float, 0%float, tx, ty)
  | None =>
      (1%float, 0%float,
       PrimFloat.mul (PrimFloat.opp (bget box "x")) 2%float,
       PrimFloat.mul (bget box "y") 2%float)
  end.

Definition putTemplate (fuel : nat) (i : Z) (tpl : PdfTemplate)
    (result : gmap string PdfObjectID) : M PdfWriter (gmap string PdfObjectID) :=
  let filter := "/Filter /FlateDecode " in
  let p := zlib_deflate (bytes_of_string (tpl_Buffer tpl)) in
  do* newObj (-1) false in
  let* cN := gets n in
  do* modify (fun pw =>
        set_tpls (<[Z.to_nat i :=
                     mkPdfTemplate (tpl_ID tpl) (tpl_Resources tpl) (tpl_Buffer tpl) (tpl_Box tpl)
                       (tpl_Boxes tpl) (tpl_X tpl) (tpl_Y tpl) (tpl_W tpl) (tpl_H tpl)
                       (tpl_Rotation tpl) cN]>
                    (tpls pw)) pw) in
  let* h := shaOfInt cN in
  let* off := gets tplIDOffset in
  let result := <["/GOFPDITPL" +:+ itoa (wrap64 (i + off)) := mkPdfObjectID cN h]> result in
  do* out ("<<" +:+ filter +:+ "/Type /XObject") in
  do* out "/Subtype /Form" in
  do* out "/FormType 1" in
  let box := tpl_Box tpl in
  let* k := gets k in
  do* out ("/BBox [" +:+ Sprintf_F 2 (PrimFloat.mul (bget box "llx") k)
           +:+ " " +:+ Sprintf_F 2 (PrimFloat.mul (bget box "lly") k)
           +:+ " " +:+ Sprintf_F 2 (PrimFloat.mul (PrimFloat.add (bget box "urx") (tpl_X tpl)) k)
           +:+ " " +:+ Sprintf_F 2 (PrimFloat.mul (PrimFloat.sub (bget box "ury") (tpl_Y tpl)) k)
           +:+ "]") in
  let '(c, s, tx, ty) := tplMatrix tpl in
  let tx := PrimFloat.mul tx k in
  let ty := PrimFloat.mul ty k in
  do* (if fneq c 1 || fneq s 0 || fneq tx 0 || fneq ty 0 then
         out ("/Matrix [" +:+ Sprintf_F 5 c +:+ " " +:+ Sprintf_F 5 s +:+ " "
              +:+ Sprintf_F 5 (PrimFloat.opp s) +:+ " " +:+ Sprintf_F 5 c +:+ " "
              +:+ Sprintf_F 5 tx +:+ " " +:+ Sprintf_F 5 ty +:+ "]")
       else ret tt) in
  do* out "/Resources " in
  match tpl_Resources tpl with
  | None => fail "Template resources are empty"
  | Some res =>
      do* writeValue res in
      let* nN := gets n in
      do* modify (set_n cN) in
      do* out ("/Length " +:+ itoa (Z.of_nat (List.length p)) +:+ " >>") in
      do* out "stream" in
      do* out (string_of_bytes p) in
      do* out "endstream" in
      do* endObj in
      do* modify (set_n nN) in
      do* putImportedObjects fuel in
      ret result
  end.

Fixpoint PutFormXobjects_loop (fuel : nat) (c : nat) (i : Z)
    (result : gmap string PdfObjectID) : M PdfWriter (gmap string PdfObjectID) :=
  match c with
  | O => ret result
  | S c' =>
      let* ts := gets tpls in
      let* tpl := deref (index ts i) in
      let* result := putTemplate fuel i tpl result in
      PutFormXobjects_loop fuel c' (i + 1) result
  end.

Definition PutFormXobjects (fuel : nat) (reader : PdfReader)
  : M PdfWriter (gmap string PdfObjectID) :=
  do* modify (set_r (Some reader)) in
  let* ts := gets tpls in
  PutFormXobjects_loop fuel (List.length ts) 0 ∅.

End WithStd.
End HashWriter.

(** ** The hash mode seen from the importer

    [PutFormXobjectsUnordered] is the method of the importer of that name,
    on the writer: it switches the writer to hash mode and emits.  The calls
    [wcall] are the ways in which the importer changes this writer when all
    emission goes through it.  [WAddTemplate] stands for [ImportPage]: of
    the writer, [ImportPage] sets [k] to 1 and, when it succeeds, appends
    one template, which is left open here (a call that fails changes
    nothing, as [k] is 1 from [init] on). *)
Section HashMode.
Context `{GoStd}.

Definition PutFormXobjectsUnordered (fuel : nat) (reader : PdfReader)
  : M HashWriter.PdfWriter (gmap string string) :=
  do* HashWriter.SetUseHash true in
  let* tplNamesIds := HashWriter.PutFormXobjects fuel reader in
  ret (oid_hash <$> tplNamesIds).

Inductive wcall : Type :=
| WAddTemplate (tpl : HashWriter.PdfTemplate)
| WSetNextObjectID (id : Z)
| WSetTplIDOffset (n : Z)
| WClearImportedObjects
| WPutFormXobjectsUnordered (fuel : nat) (reader : PdfReader).

Definition after_wcall (c : wcall) (pw : HashWriter.PdfWriter) : option HashWriter.PdfWriter :=
  match c with
  | WAddTemplate tpl =>
      Some (HashWriter.set_tpls (HashWriter.tpls pw ++ [tpl]) (HashWriter.set_k 1 pw))
  | WSetNextObjectID id => final (HashWriter.SetNextObjectID id pw)
  | WSetTplIDOffset n => final (HashWriter.SetTplIDOffset n pw)
  | WClearImportedObjects => final (HashWriter.ClearImportedObjects pw)
  | WPutFormXobjectsUnordered fuel reader => final (PutFormXobjectsUnordered fuel reader pw)
  end.

Fixpoint after_wcalls (cs : list wcall) (pw : HashWriter.PdfWriter)
  : option HashWriter.PdfWriter :=
  match cs with
  | [] => Some pw
  | c :: rest =>
      match after_wcall c pw with
      | Some pw' => after_wcalls rest pw'
      | None => None
      end
  end.

End HashMode.

(** ** Stand-ins for the library functions, for concrete runs

    [stdStub] is an instance of [GoStd] used to run the model on concrete
    documents: the codec is the identity, the hash is a fixed-width hex
    rendering, and reals are printed through their integer part.  Nothing
    that is proved for every instance depends on it. *)

Definition hex_digit (n : Z) : ascii :=
  if n <? 10 then byte_of (48 + n) else byte_of (87 + n).

Fixpoint hex_fixed (width : nat) (n : Z) : string :=
  match width with
  | O => ""
  | S w => hex_fixed w (n / 16) +:+ String (hex_digit (n mod 16)) ""
  end.

Definition stub_hash (s : string) : string :=
  hex_fixed 40 (fold_left (fun acc c => (acc * 257 + byte_val c) mod 2 ^ 160)
                  (bytes_of_string s) 7).

Definition stub_trunc (x : float) : Z :=
  let '(m, e) := PrimFloat.frshiftexp (PrimFloat.abs x) in
  let z := Uint63.to_Z (PrimFloat.normfr_mantissa m) in
  let sh := Uint63.to_Z e - 2101 - 53 in
  let mag := if 0 <=? sh then Z.shiftl z sh else Z.shiftr z (- sh) in
  if PrimFloat.get_sign x then - mag else mag.

#[local] Instance stdStub : GoStd := {|
  ParseFloat := fun s => float_of_int (fst (Atoi s));
  zlib_inflate := fun l => Some (l, true);
  zlib_deflate := fun l => l;
  sha1_hex := stub_hash;
  Sprintf_F := fun _ x => itoa (stub_trunc x);
  math_Cos := fun x => x;
  math_Sin := fun x => x
|}.

(** ** Concrete documents and readers for the runs *)

(** A one-page document: the page is rotated by 90 degrees, its font is the
    indirect object 5, and the length of its content stream is the indirect
    object 6. *)
Definition sample_pdf : string :=
"%PDF-1.4
1 0 obj
<< /Type /Catalog /Pages 2 0 R >>
endobj
2 0 obj
<< /Type /Pages /Kids [3 0 R] /Count 1 /MediaBox [0 0 200 100] >>
endobj
3 0 obj
<< /Type /Page /Parent 2 0 R /Resources << /Font << /F1 5 0 R >> >> /Contents 4 0 R /Rotate 90 >>
endobj
4 0 obj
<< /Length 6 0 R >>
stream
0 0 m S

endstream
endobj
5 0 obj
<< /Type /Font /Subtype /Type1 /BaseFont /Helvetica >>
endobj
6 0 obj
8
endobj
xref
0 1
0000000000 65535 f 
1 1
0000000009 00000 n 
2 1
0000000058 00000 n 
3 1
0000000139 00000 n 
4 1
0000000252 00000 n 
5 1
0000000313 00000 n 
6 1
0000000383 00000 n 
trailer
<< /Size 7 /Root 1 0 R >>
startxref
400
%%EOF
".


(** Values built by hand. *)
Definition name_value (t : string) : PdfValue := set_Token t (set_Type PDFTypeToken PdfValue0).
Definition int_value (n : Z) : PdfValue :=
  set_Real (float_of_int n) (set_Int n (set_Type PDFTypeNumeric PdfValue0)).
Definition array_value (l : list PdfValue) : PdfValue :=
  set_Array l (set_Type PDFTypeArray PdfValue0).
Definition dict_value (d : list (string * PdfValue)) : PdfValue :=
  set_Dictionary d (set_Type PDFTypeDictionary PdfValue0).
Definition object_value (id : Z) (v : PdfValue) : PdfValue :=
  set_Value (Some v) (set_Type PDFTypeObject (set_ID id PdfValue0)).

(** A reader whose only page has a [/Type] and a [/MediaBox] but no
    [/Contents]. *)
Definition blank_page_dict : PdfValue :=
  dict_value [("/Type", name_value "/Page");
              ("/MediaBox", array_value (map int_value [0; 0; 200; 100]))].

Definition blank_reader : PdfReader :=
  mkPdfReader ["/MediaBox"; "/CropBox"; "/BleedBox"; "/TrimBox"; "/ArtBox"] [] None None
    [Some (object_value 3 blank_page_dict)] 0 ∅ ∅ [] 0 0 "" 1 true 1.


(** ** Sequences of calls on an importer *)

(** The methods of [Importer] that change the importer. *)
Inductive call : Type :=
| CallSetSourceStream (fuel : nat) (rs : list ascii)
| CallGetNumPages
| CallGetPageSizes (fuel : nat)
| CallImportPage (fuel : nat) (pageno : Z) (box : string)
| CallSetNextObjectID (objID : Z)
| CallPutFormXobjects (fuel : nat).

Section Calls.
Context `{GoStd}.

Definition after_call (c : call) (imp : Importer.Importer) : option Importer.Importer :=
  match c with
  | CallSetSourceStream fuel rs => final (Importer.SetSourceStream fuel rs imp)
  | CallGetNumPages => final (Importer.GetNumPages imp)
  | CallGetPageSizes fuel => final (Importer.GetPageSizes fuel imp)
  | CallImportPage fuel pageno box => final (Importer.ImportPage fuel pageno box imp)
  | CallSetNextObjectID objID => final (Importer.SetNextObjectID objID imp)
  | CallPutFormXobjects fuel => final (Importer.PutFormXobjects fuel imp)
  end.

Fixpoint after_calls (cs : list call) (imp : Importer.Importer) : option Importer.Importer :=
  match cs with
  | [] => Some imp
  | c :: rest =>
      match after_call c imp with
      | Some imp' => after_calls rest imp'
      | None => None
      end
  end.

End Calls.

(** ** The importer on the sample document

    [sample_imp0] is the importer after [SetSourceStream] on the sample
    document, [sample_imp1] after the import of page 1, [sample_imp2] after
    the emission and a second import of the same page (the lemmas on the
    runs check each of them against the model). *)
Definition sample_calls : list call :=
  [CallPutFormXobjects 100; CallImportPage 100 1 "/TrimBox"].

Definition sample_imp0 : Importer.Importer :=
  Eval vm_compute in
    match @Importer.SetSourceStream stdStub 1000 (bytes_of_string sample_pdf)
            Importer.NewImporter with
    | Ok _ imp => imp
    | _ => Importer.NewImporter
    end.

Definition sample_imp1 : Importer.Importer :=
  Eval vm_compute in
    match @Importer.ImportPage stdStub 100 1 "/MediaBox" sample_imp0 with
    | Ok _ imp => imp
    | _ => Importer.NewImporter
    end.

Definition sample_imp2 : Importer.Importer :=
  Eval vm_compute in
    default Importer.NewImporter (@after_calls stdStub sample_calls sample_imp1).

(** The reader of the sample document, and the writer after the import of
    its page 1 (whose [/Rotate] is 90) with the box [/MediaBox]. *)
Definition sample_reader : PdfReader :=
  Eval vm_compute in default blank_reader (Importer.reader sample_imp0).

Definition sample_pw1 : Writer.PdfWriter :=
  Eval vm_compute in
    match @Writer.ImportPage stdStub 100 sample_reader 1 "/MediaBox" Writer.NewPdfWriter with
    | Ok _ pw => pw
    | _ => Writer.NewPdfWriter
    end.

(** The content stream of the sample document (object 4, whose [/Length]
    is itself a reference), resolved with the stream at offset 17. *)
Definition sample_reader17 : PdfReader := set_f_pos 17 sample_reader.

Definition sample_obj4 : PdfValue :=
  Eval vm_compute in
    match @ResolveObject stdStub 50 (objref 4 0) sample_reader17 with
    | Ok v _ => v
    | _ => PdfValue0
    end.

Definition sample_reader17' : PdfReader :=
  Eval vm_compute in
    match @ResolveObject stdStub 50 (objref 4 0) sample_reader17 with
    | Ok _ pr => pr
    | _ => sample_reader17
    end.

(** ** PNG predictors, for the statements on the cross-reference rows

    The definitions of this section are written from the PNG specification
    (filter types 2, Up, and 4, Paeth), not from the code: they say how a
    producer encodes a byte matrix, so that the decoding loop of [readXref]
    can be compared with them. *)

(** From the PNG specification: the Paeth predictor of left [a], above [b]
    and upper left [c]. *)
Definition png_PaethPredictor (a b c : Z) : Z :=
  let p := a + b - c in
  let pa := Z.abs (p - a) in
  let pb := Z.abs (p - b) in
  let pc := Z.abs (p - c) in
  if (pa <=? pb) && (pa <=? pc) then a
  else if pb <=? pc then b
  else c.

(** The byte [bpp] positions to the left of position [j] of [row], or 0. *)
Definition png_left (bpp : nat) (row : list ascii) (j : nat) : Z :=
  if (j <? bpp)%nat then 0 else byte_val (nth (j - bpp) row (ch 0)).

(** From the PNG specification: the row [raw] filtered with type 4, with
    [prior] the unfiltered row above and [bpp] the bytes per pixel. *)
Definition png_paeth_encode_row (bpp : nat) (prior raw : list ascii) : list ascii :=
  map (fun j =>
         byte_of (byte_val (nth j raw (ch 0))
                  - png_PaethPredictor (png_left bpp raw j)
                      (byte_val (nth j prior (ch 0))) (png_left bpp prior j)))
      (seq 0 (List.length raw)).

(** From the PNG specification: the row [raw] reconstructed from the
    filtered row [enc] (type 4): each byte is the filtered byte plus the
    predictor of the reconstructed neighbours, modulo 256. *)
Fixpoint png_paeth_decode_row (bpp : nat) (prior : list ascii) (enc : list ascii)
    (done : list ascii) : list ascii :=
  match enc with
  | [] => done
  | e :: rest =>
      let j := List.length done in
      let x := byte_of (byte_val e
                        + png_PaethPredictor (png_left bpp done j)
                            (byte_val (nth j prior (ch 0))) (png_left bpp prior j)) in
      png_paeth_decode_row bpp prior rest (done ++ [x])
  end.

(** From the PNG specification: the row [raw] filtered with type 2. *)
Definition png_up_encode_row (prior raw : list ascii) : list ascii :=
  zip_with (fun x b => byte_of (byte_val x - byte_val b)) raw prior.

(** A byte matrix as a predictor stream: every row is filtered against the
    unfiltered row above it (zeros above the first) and prefixed with its
    tag byte. *)
Fixpoint png_encode_rows (filter : list ascii -> list ascii -> list ascii)
    (prior : list ascii) (rows : list (ascii * list ascii)) : list ascii :=
  match rows with
  | [] => []
  | (tag, raw) :: rest => tag :: filter prior raw ++ png_encode_rows filter raw rest
  end.

(** The row loop of [readXref] run for its [objectData] only: the rows in
    the order in which the loop hands them to the recording of entries. *)
Definition collectRow (objectData : list ascii) (i : Z) : M (list (list ascii)) unit :=
  modify (fun acc => acc ++ [objectData]).

Definition xrefRows_data (paethDecode : bool) (fieldSize : Z) (p : list ascii)
  : outcome (list (list ascii)) unit :=
  xrefRows (S (List.length p)) collectRow paethDecode fieldSize p (zeros fieldSize) 0 [].

(** The entries that the row loop records in an empty reader, from object
    [start] on. *)
Definition xrefRows_entries (paethDecode : bool) (w1 w2 w3 : Z) (p : list ascii) (start : Z)
  : outcome PdfReader unit :=
  let fieldSize := w1 + w2 + w3 + (if paethDecode then 1 else 0) in
  xrefRows (S (List.length p)) (xrefRow_record w1 w2) paethDecode fieldSize p
    (zeros fieldSize) start
    (mkPdfReader [] [] None None [] 0 ∅ ∅ [] 0 0 "" 0 false 0).

(** A matrix of one row: an in-use object at offset 5, generation 0. *)
Definition one_row : list (ascii * list ascii) := [(ch 4, [ch 1; ch 5; ch 0])].

(** A matrix of three rows of three bytes, tagged with the filter type Up. *)
Definition three_rows : list (ascii * list ascii) :=
  [(ch 2, [ch 1; ch 5; ch 0]); (ch 2, [ch 1; ch 200; ch 0]); (ch 2, [ch 2; ch 3; ch 1])].

(** ** Predicates of the statements on the hash mode *)

Section HashPredicates.
Context `{GoStd}.

(** The forty bytes of [buf] from offset [off] are the hash [ref], which
    is a hash that [sha1_hex] produced. *)
Definition hash_at (buf : list ascii) (off : Z) (ref : string) : Prop :=
  String.length ref = 40%nat /\
  (exists s, ref = sha1_hex s) /\
  0 <= off /\
  take 40 (drop (Z.to_nat off) buf) = bytes_of_string ref.

End HashPredicates.

(** The invariants of the hash-mode writer.  [pos_inv]: every recorded
    position of an emitted object holds its hash; objects not yet allocated
    are not emitted; the current object is allocated.  [open_inv]: moreover
    the writer is in hash mode and the current object is being written: it
    is not emitted yet and its recorded positions hold their hashes in its
    buffer. *)
Section HashInvariants.
Context `{GoStd}.
Import HashWriter.

Definition pos_inv (pw : PdfWriter) : Prop :=
  (forall p bytes m off ref,
      writtenObjs pw !! p = Some bytes -> writtenObjPos pw !! p = Some m ->
      m !! off = Some ref -> hash_at bytes off ref) /\
  (forall p, (List.length (objIDs pw) <= p)%nat -> writtenObjs pw !! p = None) /\
  (forall p, obj_id (currentObj pw) = Some p -> (p < List.length (objIDs pw))%nat).

Definition hash_inv (pw : PdfWriter) : Prop := pos_inv pw /\ useHash pw = true.

Definition open_inv (pw : PdfWriter) : Prop :=
  pos_inv pw /\ useHash pw = true /\
  exists p buf,
    currentObj pw = mkPdfObject (Some p) (Some buf) /\
    writtenObjs pw !! p = None /\
    forall m off ref,
      writtenObjPos pw !! p = Some m -> m !! off = Some ref -> hash_at buf off ref.

End HashInvariants.

(** ** Devices of the proofs *)

(** The tokens that [readToken] returns from a text. *)
Definition lex_of (s : string) : Lex := mkLex [] (bytes_of_string s) 0.

Fixpoint tokens (n : nat) (l : Lex) : list string :=
  match n with
  | O => []
  | S k => match readToken l with
           | Ok t l' => t :: tokens k l'
           | _ => ["<error>"]
           end
  end.

(** The byte that the loop of [readXref] reconstructs: the byte above plus
    the filtered byte, modulo 256. *)
Definition up_byte (c p : ascii) : ascii := byte_of (Z.land (byte_val p + byte_val c) 255).

(** [triple P m Q E]: from a state in [P], [m] ends in [Q] when it returns
    without error and in [E] when it returns an error. *)
Definition triple {St A} (P : St -> Prop) (m : M St A) (Q : A -> St -> Prop)
    (E : St -> Prop) : Prop :=
  forall s, P s ->
    match m s with
    | Ok a s' => Q a s'
    | Err _ s' => E s'
    | Panic => True
    | Diverge => True
    end.

(** An induction principle for [PdfValue] that reaches the values nested
    in the dictionary, the array and the two pointers. *)
Section PdfValueInduction.
Variable P : PdfValue -> Prop.
Hypothesis Hmk :
  forall ty str tok i re b dict arr id nid gen val strm bytes,
    Forall (fun kv : string * PdfValue => P kv.2) dict ->
    Forall P arr ->
    (forall v, val = Some v -> P v) ->
    (forall v, strm = Some v -> P v) ->
    P (mkPdfValue ty str tok i re b dict arr id nid gen val strm bytes).

Fixpoint PdfValue_nested_ind (v : PdfValue) : P v :=
  match v with
  | mkPdfValue ty str tok i re b dict arr id nid gen val strm bytes =>
      Hmk ty str tok i re b dict arr id nid gen val strm bytes
        ((fix go (l : list (string * PdfValue)) : Forall (fun kv => P kv.2) l :=
            match l with
            | [] => @List.Forall_nil _ _
            | (k, x) :: rest =>
                @List.Forall_cons _ (fun kv => P kv.2) (k, x) rest
                  (PdfValue_nested_ind x) (go rest)
            end) dict)
        ((fix go (l : list PdfValue) : Forall P l :=
            match l with
            | [] => @List.Forall_nil _ _
            | x :: rest => @List.Forall_cons _ P x rest (PdfValue_nested_ind x) (go rest)
            end) arr)
        (match val as o return (forall v, o = Some v -> P v) with
         | Some x => fun v e => eq_ind x P (PdfValue_nested_ind x) v (Some_inj _ _ e)
         | None => fun v e => False_ind _ (eq_ind None (fun o => match o with
                                                                | Some _ => False
                                                                | None => True
                                                                end) I _ e)
         end)
        (match strm as o return (forall v, o = Some v -> P v) with
         | Some x => fun v e => eq_ind x P (PdfValue_nested_ind x) v (Some_inj _ _ e)
         | None => fun v e => False_ind _ (eq_ind None (fun o => match o with
                                                                | Some _ => False
                                                                | None => True
                                                                end) I _ e)
         end)
  end.
End PdfValueInduction.

(** A string of lowercase hexadecimal digits. *)
Definition is_lower_hex_digit (c : ascii) : bool :=
  let n := byte_val c in
  ((48 <=? n) && (n <=? 57)) || ((97 <=? n) && (n <=? 102)).

Definition lower_hex (s : string) : bool :=
  forallb is_lower_hex_digit (bytes_of_string s).

(** ** The hash mode on the sample document

    [sample_htpl] is the template of page 1 of the sample document for the
    older writer; [sample_hw] is this writer after the template is added
    and emitted in hash mode. *)
Definition sample_htpl : HashWriter.PdfTemplate :=
  Eval vm_compute in
    match Writer.tpls sample_pw1 with
    | t :: _ =>
        HashWriter.mkPdfTemplate (Writer.tpl_ID t) (Writer.tpl_Resources t)
          (Writer.tpl_Buffer t) (Writer.tpl_Box t) ∅ (Writer.tpl_X t) (Writer.tpl_Y t)
          (Writer.tpl_W t) (Writer.tpl_H t) (Writer.tpl_Rotation t) (Writer.tpl_N t)
    | [] => HashWriter.mkPdfTemplate 0 None "" None ∅ 0 0 0 0 0 0
    end.

Definition sample_wcalls : list wcall :=
  [WAddTemplate sample_htpl; WPutFormXobjectsUnordered 100 sample_reader].

Definition sample_hw : HashWriter.PdfWriter :=
  Eval vm_compute in
    default HashWriter.NewPdfWriter
      (@after_wcalls stdStub sample_wcalls HashWriter.NewPdfWriter).

Definition sample_hbytes : list ascii :=
  Eval vm_compute in default [] (HashWriter.GetImportedObjects sample_hw !! 0%nat).

Definition sample_hpos : gmap Z string :=
  Eval vm_compute in default ∅ (HashWriter.GetImportedObjHashPos sample_hw !! 0%nat).

(** ** Further documents for the runs *)

(** A one-page document whose font is the indirect object 9999. *)
Definition far_pdf : string :=
"%PDF-1.4
1 0 obj
<< /Type /Catalog /Pages 2 0 R >>
endobj
2 0 obj
<< /Type /Pages /Kids [3 0 R] /Count 1 /MediaBox [0 0 200 100] >>
endobj
3 0 obj
<< /Type /Page /Parent 2 0 R /Resources << /Font << /F1 9999 0 R >> >> /Contents 4 0 R >>
endobj
4 0 obj
<< /Length 8 >>
stream
0 0 m S

endstream
endobj
9999 0 obj
<< /Type /Font /Subtype /Type1 /BaseFont /Helvetica >>
endobj
xref
0 1
0000000000 65535 f 
1 1
0000000009 00000 n 
2 1
0000000058 00000 n 
3 1
0000000139 00000 n 
4 1
0000000244 00000 n 
9999 1
0000000301 00000 n 
trailer
<< /Size 10000 /Root 1 0 R >>
startxref
374
%%EOF
".

(** A document in two revisions: the page, object 3, has the media box
    [0 0 100 100] in the first revision and [0 0 200 200] in the second,
    which also adds the object 4 and is longer than the 1500 bytes that
    [findXref] searches; its cross-reference table points to the first one
    with [/Prev]. *)
Definition revised_pdf : string :=
"%PDF-1.4
1 0 obj
<< /Type /Catalog /Pages 2 0 R >>
endobj
2 0 obj
<< /Type /Pages /Kids [3 0 R] /Count 1 >>
endobj
3 0 obj
<< /Type /Page /Parent 2 0 R /MediaBox [0 0 100 100] >>
endobj
xref
0 1
0000000000 65535 f 
1 1
0000000009 00000 n 
2 1
0000000058 00000 n 
3 1
0000000115 00000 n 
trailer
<< /Size 4 /Root 1 0 R >>
startxref
186
%%EOF
3 0 obj
<< /Type /Page /Parent 2 0 R /MediaBox [0 0 200 200] >>
endobj
4 0 obj
<< /Producer (second revision) >>
% revision two revision two revision two revision two revision two 00
% revision two revision two revision two revision two revision two 01
% revision two revision two revision two revision two revision two 02
% revision two revision two revision two revision two revision two 03
% revision two revision two revision two revision two revision two 04
% revision two revision two revision two revision two revision two 05
% revision two revision two revision two revision two revision two 06
% revision two revision two revision two revision two revision two 07
% revision two revision two revision two revision two revision two 08
% revision two revision two revision two revision two revision two 09
% revision two revision two revision two revision two revision two 10
% revision two revision two revision two revision two revision two 11
% revision two revision two revision two revision two revision two 12
% revision two revision two revision two revision two revision two 13
% revision two revision two revision two revision two revision two 14
% revision two revision two revision two revision two revision two 15
% revision two revision two revision two revision two revision two 16
% revision two revision two revision two revision two revision two 17
% revision two revision two revision two revision two revision two 18
% revision two revision two revision two revision two revision two 19
% revision two revision two revision two revision two revision two 20
% revision two revision two revision two revision two revision two 21
% revision two revision two revision two revision two revision two 22
% revision two revision two revision two revision two revision two 23
endobj
xref
3 2
0000000341 00000 n 
0000000412 00000 n 
trailer
<< /Size 5 /Root 1 0 R /Info 4 0 R /Prev 186 >>
startxref
2141
%%EOF
".

(** A one-page document whose page has a media box and no other box. *)
Definition plain_pdf : string :=
"%PDF-1.4
1 0 obj
<< /Type /Catalog /Pages 2 0 R >>
endobj
2 0 obj
<< /Type /Pages /Kids [3 0 R] /Count 1 >>
endobj
3 0 obj
<< /Type /Page /Parent 2 0 R /MediaBox [0 0 200 100] >>
endobj
xref
0 1
0000000000 65535 f 
1 1
0000000009 00000 n 
2 1
0000000058 00000 n 
3 1
0000000115 00000 n 
trailer
<< /Size 4 /Root 1 0 R >>
startxref
186
%%EOF
".

(** The reader of a document, read with the stand-ins. *)
Definition reader_of (doc : string) : PdfReader :=
  match @NewPdfReaderFromStream stdStub 1000 (bytes_of_string doc) with
  | Ok _ pr => pr
  | _ => blank_reader
  end.

(** The value that a computation returns, if it returns without error. *)
Definition returned {St A} (o : outcome St A) : option A :=
  match o with
  | Ok a _ => Some a
  | _ => None
  end.

(** The parser that [NewPdfReaderFromStream] builds for a stream with the
    bytes [rs], before [init] and [read]. *)
Definition stream_parser (rs : list ascii) : PdfReader :=
  let length := Z.of_nat (List.length rs) in
  mkPdfReader [] [] None None [] 0 ∅ ∅ rs length length "" 0 false 0.

(** What a run leaves in [xrefPos], and the entry that it leaves for the
    object [id] in the cross-reference table. *)
Definition xrefPos_after {A} (o : outcome PdfReader A) : option Z :=
  match final o with
  | Some pr => Some (xrefPos pr)
  | None => None
  end.

Definition xref_after {A} (o : outcome PdfReader A) (id : Z) : option (gmap Z Z) :=
  match final o with
  | Some pr => xref pr !! id
  | None => None
  end.

(** The integers of an array of numbers. *)
Definition ints_of (v : PdfValue) : list Z := map Int (Array v).

(** The entry [key] of the dictionary of an object. *)
Definition entry_of (obj : PdfValue) (key : string) : option PdfValue :=
  Value obj ≫= fun v => dict_get (Dictionary v) key.

(** The hash recorded for the offset [off] of the object [p]. *)
Definition recorded_at (pw : Writer.PdfWriter) (p : nat) (off : Z) : option string :=
  match Writer.writtenObjPos pw !! p with
  | Some m => m !! off
  | None => None
  end.

(** The source id and the new id of the reference that is pending at the
    index [i] of the object stack. *)
Definition pending_at (pw : Writer.PdfWriter) (i : Z) : option (Z * Z) :=
  match Writer.objStack pw !! i with
  | Some (Some v) => Some (ID v, NewID v)
  | _ => None
  end.

(** Width and height of the box [name] among the boxes of a page. *)
Definition size_of (boxes : option (gmap string Box)) (name : string) : option (float * float) :=
  match boxes with
  | Some bs =>
      match bs !! name with
      | Some box => Some (fget box "w", fget box "h")
      | None => None
      end
  | None => None
  end.

(** *** The document with the far object

    [far_imp1] is the importer after the import of page 1 of [far_pdf],
    [far_imp] after the emission that follows. *)
Definition far_calls : list call :=
  [CallSetSourceStream 1000 (bytes_of_string far_pdf); CallImportPage 100 1 "/MediaBox"].

Definition far_imp1 : Importer.Importer :=
  Eval vm_compute in
    default Importer.NewImporter (@after_calls stdStub far_calls Importer.NewImporter).

Definition far_names : gmap string Z :=
  Eval vm_compute in
    default ∅ (returned (@Importer.PutFormXobjects stdStub 100 far_imp1)).

Definition far_imp : Importer.Importer :=
  Eval vm_compute in
    default Importer.NewImporter (final (@Importer.PutFormXobjects stdStub 100 far_imp1)).

Definition far_template : list ascii :=
  Eval vm_compute in default [] (Importer.GetImportedObjects far_imp !! 1).

(** *** The document in two revisions *)
Definition revised_reader : PdfReader := Eval vm_compute in reader_of revised_pdf.

Definition revised_page : PdfValue :=
  Eval vm_compute in
    default PdfValue0 (returned (@ResolveObject stdStub 100 (objref 3 0) revised_reader)).

(** *** The document with a media box only *)
Definition plain_reader : PdfReader := Eval vm_compute in reader_of plain_pdf.

Definition plain_pw : Writer.PdfWriter := Writer.set_r (Some plain_reader) Writer.NewPdfWriter.

Definition plain_media : Box :=
  Eval vm_compute in
    match returned (@Writer.GetPDFBoxDimensions stdStub 100 1 "/MediaBox" plain_pw) with
    | Some (Some box) => box
    | _ => ∅
    end.

(** ** A page turned by 45 degrees *)

(** A one-page document whose page has [/Rotate 45]. *)
Definition skew_pdf : string :=
"%PDF-1.4
1 0 obj
<< /Type /Catalog /Pages 2 0 R >>
endobj
2 0 obj
<< /Type /Pages /Kids [3 0 R] /Count 1 >>
endobj
3 0 obj
<< /Type /Page /Parent 2 0 R /MediaBox [0 0 200 100] /Rotate 45 >>
endobj
xref
0 1
0000000000 65535 f 
1 1
0000000009 00000 n 
2 1
0000000058 00000 n 
3 1
0000000115 00000 n 
trailer
<< /Size 4 /Root 1 0 R >>
startxref
197
%%EOF
".

Definition skew_reader : PdfReader :=
  Eval vm_compute in
    match @NewPdfReaderFromStream stdStub 1000 (bytes_of_string skew_pdf) with
    | Ok _ pr => pr
    | _ => stream_parser []
    end.

Definition skew_pw1 : Writer.PdfWriter :=
  Eval vm_compute in
    match @Writer.ImportPage stdStub 100 skew_reader 1 "/MediaBox" Writer.NewPdfWriter with
    | Ok _ pw => pw
    | _ => Writer.NewPdfWriter
    end.

(** The [/Rotate] value that [GetPageRotation] returns for a page, 0 when
    the call fails. *)
Definition rotate_of (fuel : nat) (pageno : Z) (rd : PdfReader) : Z :=
  match @GetPageRotation stdStub fuel pageno rd with
  | Ok (Some rot) _ => Int rot
  | _ => 0
  end.

(** ** A cross-reference stream with Paeth rows *)

(** A one-page document whose cross-reference table is a stream: its rows
    are filtered with the PNG filter of type 4, Paeth.  [paeth_head] is the
    document up to the stream data, [paeth_tail] what follows the data. *)
Definition paeth_head : string :=
"%PDF-1.5
1 0 obj
<< /Type /Catalog /Pages 2 0 R >>
endobj
2 0 obj
<< /Type /Pages /Kids [3 0 R] /Count 1 >>
endobj
3 0 obj
<< /Type /Page /Parent 2 0 R /MediaBox [0 0 200 100] >>
endobj
4 0 obj
<< /Type /XRef /Size 5 /Root 1 0 R /W [1 2 1] /Index [0 5] /DecodeParms << /Columns 4 /Predictor 12 >> /Length 25 >>
stream
".

Definition paeth_tail : string :=
"
endstream
endobj
startxref
186
%%EOF
".

(** The table of the document: one row for each of the objects 0 to 4,
    with the type, the two bytes of the offset and the generation. *)
Definition paeth_table : list (ascii * list ascii) :=
  [(ch 4, [ch 0; ch 0; ch 0; ch 0]);
   (ch 4, [ch 1; ch 0; ch 9; ch 0]);
   (ch 4, [ch 1; ch 0; ch 58; ch 0]);
   (ch 4, [ch 1; ch 0; ch 115; ch 0]);
   (ch 4, [ch 1; ch 0; ch 186; ch 0])].

(** The stream data: the rows of the table, encoded as PNG defines the
    Paeth filter for samples of one byte. *)
Definition paeth_rows : list ascii :=
  Eval vm_compute in png_encode_rows (png_paeth_encode_row 1) (zeros 4) paeth_table.

Definition paeth_pdf : list ascii :=
  bytes_of_string paeth_head ++ paeth_rows ++ bytes_of_string paeth_tail.

(** The same table with the rows encoded by the PNG filter of type 2, Up,
    and the document around them. *)
Definition up_rows : list ascii :=
  Eval vm_compute in
    png_encode_rows png_up_encode_row (zeros 4) (map (fun row => (ch 2, row.2)) paeth_table).

Definition up_pdf : list ascii :=
  bytes_of_string paeth_head ++ up_rows ++ bytes_of_string paeth_tail.

(** PNG reconstruction of [n] Paeth rows of [w] bytes, each behind its tag
    (the PNG definition, not the reader's code). *)
Fixpoint png_paeth_decode_rows (bpp w : nat) (prior enc : list ascii) (n : nat)
  : list (list ascii) :=
  match n, enc with
  | S n', _ :: rest =>
      let row := png_paeth_decode_row bpp prior (take w rest) [] in
      row :: png_paeth_decode_rows bpp w row (drop w rest) n'
  | _, _ => []
  end.

(** The reader after [findXref] and [readXref] on [paeth_pdf]. *)
Definition paeth_table_read : PdfReader :=
  Eval vm_compute in
    match (do* findXref 1000 in @readXref stdStub 1000) (stream_parser paeth_pdf) with
    | Ok _ pr => pr
    | _ => stream_parser []
    end.

(** The reader that [NewPdfReaderFromStream] leaves on [paeth_pdf]. *)
Definition paeth_reader : PdfReader :=
  Eval vm_compute in
    match final (@NewPdfReaderFromStream stdStub 1000 paeth_pdf) with
    | Some pr => pr
    | None => stream_parser []
    end.

Definition up_reader : PdfReader :=
  Eval vm_compute in
    match final (@NewPdfReaderFromStream stdStub 1000 up_pdf) with
    | Some pr => pr
    | None => stream_parser []
    end.

(** The entries of the table of a reader for the objects [ids]. *)
Definition xref_entries (pr : PdfReader) (ids : list Z) : list (option (list (Z * Z))) :=
  map (fun id => map_to_list <$> xref pr !! id) ids.

(** ** The hash mode as the importer hands it out (importer.go)

    [GetImportedObjectsUnordered] and [GetImportedObjHashPos] of the
    importer range over a map of the writer, whose keys are the pointers to
    the allocated [PdfObjectID]s, and store each value under the hash of its
    key: [for pdfObjID, v := range m { res[pdfObjID.hash] = v }].  Go leaves
    the order in which [range] visits the keys open; [order] is that order,
    an enumeration of the keys ([range_order]).  A key visited later
    replaces the value of an earlier key with the same hash. *)
Definition rekey_by_hash {V} (ids : list PdfObjectID) (m : gmap nat V) (order : list nat)
  : gmap string V :=
  fold_left (fun res p =>
               match ids !! p, m !! p with
               | Some pdfObjID, Some v => <[oid_hash pdfObjID := v]> res
               | _, _ => res
               end) order ∅.

Definition range_order {V} (m : gmap nat V) (order : list nat) : Prop :=
  order ≡ₚ (map_to_list m).*1.

Module HashImporter.

Definition GetImportedObjectsUnordered (order : list nat) (pw : HashWriter.PdfWriter)
  : gmap string (list ascii) :=
  rekey_by_hash (HashWriter.objIDs pw) (HashWriter.GetImportedObjects pw) order.

Definition GetImportedObjHashPos (order : list nat) (pw : HashWriter.PdfWriter)
  : gmap string (gmap Z string) :=
  rekey_by_hash (HashWriter.objIDs pw) (HashWriter.GetImportedObjHashPos pw) order.

End HashImporter.

(** The sample writer after the object counter is set back to 2 and the
    template is emitted once more. *)
Definition clash_wcalls : list wcall :=
  sample_wcalls ++ [WSetNextObjectID 2; WPutFormXobjectsUnordered 100 sample_reader].

Definition clash_hw : HashWriter.PdfWriter :=
  Eval vm_compute in
    default HashWriter.NewPdfWriter
      (@after_wcalls stdStub clash_wcalls HashWriter.NewPdfWriter).

(** ** Notions for the statements on the tokenizer *)

(** The white space that [skipWhitespace] skips. *)
Definition is_space (b : ascii) : bool :=
  beq b " " || beq b (ch 10) || beq b (ch 13) || beq b (ch 9).

(** The bytes that are returned as tokens of their own, or start a
    comment: a plain token cannot start with one of them. *)
Definition is_special (b : ascii) : bool :=
  beq b "[" || beq b "]" || beq b "(" || beq b ")" || beq b "<" || beq b ">" || beq b "%".

(** The text that the loop of [readToken] collects from the bytes [w],
    starting from [str]: every byte is appended as [string(b)]. *)
Definition token_text (str : string) (w : list ascii) : string :=
  fold_left (fun s b => s +:+ string_of_rune_byte b) w str.

(** A lexer on the bytes [data] at offset [pos] with the pushback stack
    [st]. *)
Definition lex_at (st : list string) (data : list ascii) (pos : nat) : Lex :=
  mkLex st data (Z.of_nat pos).

(** The next [k] tokens that [readToken] returns from the state [l]; the
    list ends early when a call fails. *)
Fixpoint next_tokens (k : nat) (l : Lex) : list string :=
  match k with
  | O => []
  | S k' =>
      match readToken l with
      | Ok t l' => t :: next_tokens k' l'
      | _ => []
      end
  end.

(** A lexer in front of [ 612 792]], after the token [0] was read. *)
Definition look_lex : Lex := lex_at [] (bytes_of_string "0 612 792]") 1.

Definition look_val : PdfValue :=
  Eval vm_compute in
    match @readValue stdStub 1 "0" look_lex with
    | Ok v _ => v
    | _ => PdfValue0
    end.

Definition look_lex' : Lex :=
  Eval vm_compute in
    match @readValue stdStub 1 "0" look_lex with
    | Ok _ l => l
    | _ => look_lex
    end.

(** ** Notions for the statements on the reader *)

(** [reader_frame pr0 pr]: the reader [pr] differs from [pr0] at most in
    the offset of the byte stream and in the pushback stack. *)
Definition reader_frame (pr0 pr : PdfReader) : Prop :=
  set_f_pos (f_pos pr0) (set_stack (stack pr0) pr) = pr0.

(** The state in which a call ends, when it returns. *)
Definition ends_in {St A} (o : outcome St A) (P : St -> Prop) : Prop :=
  match o with
  | Ok _ s => P s
  | Err _ s => P s
  | Panic => True
  | Diverge => True
  end.

(** The boxes of page 1 of the document with a media box only. *)
Definition plain_boxes : gmap string Box :=
  Eval vm_compute in default ∅ (returned (@GetPageBoxes stdStub 100 1 1%float plain_reader)).

Definition plain_reader' : PdfReader :=
  Eval vm_compute in
    default plain_reader (final (@GetPageBoxes stdStub 100 1 1%float plain_reader)).

(** The error that a computation returns. *)
Definition error_of {St A} (o : outcome St A) : string :=
  match o with
  | Err e _ => e
  | _ => ""
  end.

(** The import of page 2 of the sample document, which has one page. *)
Definition sample_fail_err : string :=
  Eval vm_compute in error_of (@Importer.ImportPage stdStub 100 2 "/MediaBox" sample_imp0).

Definition sample_fail_imp : Importer.Importer :=
  Eval vm_compute in
    default sample_imp0 (final (@Importer.ImportPage stdStub 100 2 "/MediaBox" sample_imp0)).

(** ** Notions for the statements on the emission of writer.go *)

Section EmissionNotions.
Context `{GoStd}.

(** At offset [off] of [buf] stands the reference to the object [n], that
    is its decimal number followed by [ 0 R ], and [ref] is the hash that
    [shaOfInt] gives for [n]. *)
Definition ref_at (buf : list ascii) (off : Z) (ref : string) (n : Z) : Prop :=
  0 <= off /\
  (exists src, ref = sha1_hex (itoa n +:+ "-" +:+ src)) /\
  take (String.length (itoa n +:+ " 0 R ")) (drop (Z.to_nat off) buf)
  = bytes_of_string (itoa n +:+ " 0 R ").

(** [n] is the new number that the writer gave to a source object. *)
Definition known (pw : Writer.PdfWriter) (n : Z) : Prop :=
  exists id v, Writer.doOobjStack pw !! id = Some v /\ NewID v = n.

(** An object with the number [n] is among the emitted objects. *)
Definition emitted (pw : Writer.PdfWriter) (n : Z) : Prop :=
  exists p o,
    Writer.objIDs pw !! p = Some o /\ oid_id o = n /\
    is_Some (Writer.writtenObjs pw !! p).

(** Every position recorded in [m] holds, in [buf], a reference to a
    number that the writer gave out. *)
Definition refs_in (pw : Writer.PdfWriter) (buf : list ascii) (m : gmap Z string) : Prop :=
  forall off ref, m !! off = Some ref -> exists n, ref_at buf off ref n /\ known pw n.

(** The invariant of the writer between two objects. *)
Definition emit_inv (pw : Writer.PdfWriter) : Prop :=
  (forall p bytes m,
      Writer.writtenObjs pw !! p = Some bytes -> Writer.writtenObjPos pw !! p = Some m ->
      refs_in pw bytes m) /\
  (forall p, (List.length (Writer.objIDs pw) <= p)%nat -> Writer.writtenObjs pw !! p = None) /\
  (forall p, obj_id (Writer.currentObj pw) = Some p ->
             (p < List.length (Writer.objIDs pw))%nat) /\
  (forall id v, Writer.objStack pw !! id = Some (Some v) ->
                Writer.doOobjStack pw !! id = Some v) /\
  (forall id v, Writer.doOobjStack pw !! id = Some v ->
                ID v = id /\
                (Writer.objStack pw !! id = Some (Some v) \/ NewID v < 0 \/
                 emitted pw (NewID v))) /\
  (Writer.tpls pw = [] -> Writer.doOobjStack pw = ∅).

(** The source object that is being emitted, if any, is still pending. *)
Definition held (pw : Writer.PdfWriter) (h : option (Z * PdfValue)) : Prop :=
  match h with
  | Some (i, v) => Writer.objStack pw !! i = Some (Some v)
  | None => True
  end.

(** The number of the object, when it is known to be [n]. *)
Definition has_number (n : option Z) (o : PdfObjectID) : Prop :=
  match n with
  | Some k => oid_id o = k
  | None => True
  end.

(** The invariant while an object is written (the one with the number
    [n], when [n] is given). *)
Definition open_obj (n : option Z) (h : option (Z * PdfValue)) (pw : Writer.PdfWriter)
  : Prop :=
  emit_inv pw /\ Writer.tpls pw <> [] /\ held pw h /\
  exists p buf o,
    Writer.currentObj pw = mkPdfObject (Some p) (Some buf) /\
    Writer.objIDs pw !! p = Some o /\ has_number n o /\
    Writer.writtenObjs pw !! p = None /\
    (forall m, Writer.writtenObjPos pw !! p = Some m -> refs_in pw buf m).

(** An object with the number [n], when [n] is given, is emitted. *)
Definition emitted_if (pw : Writer.PdfWriter) (n : option Z) : Prop :=
  match n with
  | Some k => emitted pw k
  | None => True
  end.

(** The invariant between two objects, while templates are emitted. *)
Definition closed_obj (pw : Writer.PdfWriter) : Prop :=
  emit_inv pw /\ Writer.tpls pw <> [].

(** No source object with an id from 0 to 9998 is pending. *)
Definition none_pending (pw : Writer.PdfWriter) : Prop :=
  forall j, 0 <= j < 9999 -> default None (Writer.objStack pw !! j) = None.

(** The invariants read the fields [objStack], [doOobjStack], [objIDs],
    [writtenObjs], [writtenObjPos], [currentObj] and whether [tpls] is
    empty. *)
Definition same_core (pw pw' : Writer.PdfWriter) : Prop :=
  Writer.objStack pw' = Writer.objStack pw /\ Writer.doOobjStack pw' = Writer.doOobjStack pw /\
  Writer.objIDs pw' = Writer.objIDs pw /\ Writer.writtenObjs pw' = Writer.writtenObjs pw /\
  Writer.writtenObjPos pw' = Writer.writtenObjPos pw /\ Writer.currentObj pw' = Writer.currentObj pw /\
  (Writer.tpls pw = [] <-> Writer.tpls pw' = []).

End EmissionNotions.

(** The calls that lead to [sample_imp1], and the emission that follows:
    the names of the templates, the importer, the bytes of the template and
    its map of positions. *)
Definition sample_setup : list call :=
  [CallSetSourceStream 1000 (bytes_of_string sample_pdf); CallImportPage 100 1 "/MediaBox"].

Definition sample_put_names : gmap string Z :=
  Eval vm_compute in
    match @Importer.PutFormXobjects stdStub 100 sample_imp1 with
    | Ok names _ => names
    | _ => ∅
    end.

Definition sample_put_imp : Importer.Importer :=
  Eval vm_compute in
    match @Importer.PutFormXobjects stdStub 100 sample_imp1 with
    | Ok _ imp => imp
    | _ => Importer.NewImporter
    end.

Definition sample_put_template : list ascii :=
  Eval vm_compute in
    default [] (Writer.GetImportedObjects (Importer.writer sample_put_imp) !! 0%nat).

Definition sample_put_pos : gmap Z string :=
  Eval vm_compute in
    default ∅ (Writer.writtenObjPos (Importer.writer sample_put_imp) !! 0%nat).

(** The calls that lead to [far_imp], and the map of positions of its
    template. *)
Definition far_run : list call := far_calls ++ [CallPutFormXobjects 100].

Definition far_pos : gmap Z string :=
  Eval vm_compute in default ∅ (Writer.writtenObjPos (Importer.writer far_imp) !! 0%nat).

(** ** What the emission keeps *)

(** From [pw] to [pw'] the allocated identifiers are kept and so are the
    emitted objects. *)
Definition grows (pw pw' : Writer.PdfWriter) : Prop :=
  (exists more, Writer.objIDs pw' = Writer.objIDs pw ++ more) /\
  (forall p, is_Some (Writer.writtenObjs pw !! p) -> is_Some (Writer.writtenObjs pw' !! p)).

(** Moreover the offset of the template names and the number of templates
    are the same. *)
Definition steady (pw pw' : Writer.PdfWriter) : Prop :=
  grows pw pw' /\
  Writer.tplIDOffset pw' = Writer.tplIDOffset pw /\
  List.length (Writer.tpls pw') = List.length (Writer.tpls pw).

(** Every state that [m] returns in, with or without error, is related to
    the state [m] started in. *)
Definition keeps {St A} (R : St -> St -> Prop) (m : M St A) : Prop :=
  forall s,
    match m s with
    | Ok _ s' => R s s'
    | Err _ s' => R s s'
    | Panic => True
    | Diverge => True
    end.

(** The name that [PutFormXobjects] gives to the template of index [i]. *)
Definition template_name (off i : Z) : string := "/GOFPDITPL" +:+ itoa (wrap64 (i + off)).

(** The names given so far: each of them carries the identifier of an
    emitted object, and the templates of the indices below [hi] have their
    names. *)
Definition names_ok (off hi : Z) (result : gmap string PdfObjectID) (pw : Writer.PdfWriter)
  : Prop :=
  (forall name o, result !! name = Some o -> emitted pw (oid_id o)) /\
  (forall j, 0 <= j < hi -> is_Some (result !! template_name off j)).

(** What the loop of [PutFormXobjects] keeps: the offset of the names, the
    number of templates, and the names given so far. *)
Definition loop_inv (off : Z) (n : nat) (hi : Z) (result : gmap string PdfObjectID)
    (pw : Writer.PdfWriter) : Prop :=
  Writer.tplIDOffset pw = off /\ List.length (Writer.tpls pw) = n /\
  names_ok off hi result pw.

(** A second import and a second emission after [sample_put_imp]. *)
Definition sample_again : list call :=
  [CallImportPage 100 1 "/TrimBox"; CallPutFormXobjects 100].

Definition sample_again_imp : Importer.Importer :=
  Eval vm_compute in
    default Importer.NewImporter (@after_calls stdStub sample_again sample_put_imp).

(** The template counter of the importer is the number of templates of
    its writer. *)
Definition numbered (imp : Importer.Importer) : Prop :=
  Importer.tplN imp
  = wrap64 (Z.of_nat (List.length (Writer.tpls (Importer.writer imp)))).

(** ** Notions for the statements on strings *)

(** The bytes of a literal string between its outer parentheses: bytes
    other than parentheses and backslashes, a backslash with the byte that
    follows it, and nested parentheses that are balanced. *)
Inductive balanced : list ascii -> Prop :=
| balanced_nil : balanced []
| balanced_byte (b : ascii) (s : list ascii) :
    beq b "\" = false -> beq b "(" = false -> beq b ")" = false ->
    balanced s -> balanced (b :: s)
| balanced_escape (nb : ascii) (s : list ascii) :
    balanced s -> balanced ("\"%char :: nb :: s)
| balanced_nested (s1 s2 : list ascii) :
    balanced s1 -> balanced s2 -> balanced ("("%char :: s1 ++ ")"%char :: s2).

(** The writer holds a reader that is [rd0] up to the offset and the
    pushback stack. *)
Definition holds_frame (rd0 : PdfReader) (pw : Writer.PdfWriter) : Prop :=
  exists rd, Writer.r pw = Some rd /\ reader_frame rd0 rd.

(** * Properties *)
(** ** Sanity checks of the helpers *)

Example isNumeric_ex :
  map isNumeric ["12"; "-1.5"; "+"; "5."; ".5"; "1e5"; "0x1F"; "0xG1"; "obj"; "1.2.3"; ""]
  = map Some [true; true; false; false; true; true; true; false; false; false; false].
Proof. vm_compute. reflexivity. Qed.
Example Atoi_ex : map Atoi ["12"; "-7"; "+3"; "1.5"; ""; "99999999999999999999"]
  = [(12, true); (-7, true); (3, true); (0, false); (0, false); (maxInt, false)].
Proof. vm_compute. reflexivity. Qed.
Example itoa_ex : map itoa [0; 7; 10; -305; 9999] = ["0"; "7"; "10"; "-305"; "9999"].
Proof. vm_compute. reflexivity. Qed.
Example abs_ex : map abs [5; -5; 0; -255] = [5; 5; 0; 255].
Proof. vm_compute. reflexivity. Qed.


Example readToken_ex :
  tokens 12 (lex_of "1 0 obj<</Type/Page /K[3 0 R]>> % c
endobj ")
  = ["1"; "0"; "obj"; "<<"; "/Type"; "/Page"; "/K"; "["; "3"; "0"; "R"; "]"].
Proof. vm_compute. reflexivity. Qed.

(** ** Reasoning about computations in [M] *)

Lemma bind_Ok {St A B} (m : M St A) (k : A -> M St B) s b s' :
  bind m k s = Ok b s' -> exists a s1, m s = Ok a s1 /\ k a s1 = Ok b s'.
Proof.
  unfold bind. destruct (m s) as [a s1| | |]; try discriminate. eauto.
Qed.

Lemma ret_Ok {St A} (a b : A) (s s' : St) : ret a s = Ok b s' -> a = b /\ s = s'.
Proof. unfold ret. intros [= -> ->]. auto. Qed.

Lemma gets_Ok {St A} (g : St -> A) (b : A) (s s' : St) :
  gets g s = Ok b s' -> b = g s /\ s' = s.
Proof. unfold gets. intros [= <- <-]. auto. Qed.

Lemma modify_Ok {St} (g : St -> St) u (s s' : St) : modify g s = Ok u s' -> s' = g s.
Proof. unfold modify. intros [= _ <-]. auto. Qed.

Lemma deref_Ok {St A} (o : option A) (a : A) (s s' : St) :
  deref o s = Ok a s' -> o = Some a /\ s' = s.
Proof. destruct o; cbn; [intros [= -> ->]; auto | discriminate]. Qed.

Lemma fail_Ok {St A} e (a : A) (s s' : St) : fail e s = Ok a s' -> False.
Proof. discriminate. Qed.

Lemma panic_Ok {St A} (a : A) (s s' : St) : panic s = Ok a s' -> False.
Proof. discriminate. Qed.

Lemma diverge_Ok {St A} (a : A) (s s' : St) : diverge s = Ok a s' -> False.
Proof. discriminate. Qed.

(** One step of inversion of a successful computation [H : m s = Ok a s']. *)
Ltac inv_ok_step H :=
  lazymatch type of H with
  | bind _ _ _ = Ok _ _ =>
      let a := fresh "a" in let s := fresh "s" in
      let H1 := fresh "Hm" in
      apply bind_Ok in H; destruct H as (a & s & H1 & H)
  | ret _ _ = Ok _ _ => apply ret_Ok in H; destruct H; subst
  | gets _ _ = Ok _ _ => apply gets_Ok in H; destruct H; subst
  | modify _ _ = Ok _ _ => apply modify_Ok in H; subst
  | deref _ _ = Ok _ _ => apply deref_Ok in H; destruct H; subst
  | fail _ _ = Ok _ _ => destruct (fail_Ok _ _ _ _ H)
  | panic _ = Ok _ _ => destruct (panic_Ok _ _ _ H)
  | diverge _ = Ok _ _ => destruct (diverge_Ok _ _ _ H)
  | Ok _ _ = Ok _ _ => injection H as ? ?; subst
  | Err _ _ = Ok _ _ => discriminate H
  | Panic = Ok _ _ => discriminate H
  | Diverge = Ok _ _ => discriminate H
  end.

(** Inversion of every successful computation among the hypotheses. *)
Ltac inv_ok :=
  repeat match goal with
    | H : bind _ _ _ = Ok _ _ |- _ => inv_ok_step H
    | H : ret _ _ = Ok _ _ |- _ => inv_ok_step H
    | H : gets _ _ = Ok _ _ |- _ => inv_ok_step H
    | H : modify _ _ = Ok _ _ |- _ => inv_ok_step H
    | H : deref _ _ = Ok _ _ |- _ => inv_ok_step H
    | H : fail _ _ = Ok _ _ |- _ => inv_ok_step H
    | H : panic _ = Ok _ _ |- _ => inv_ok_step H
    | H : diverge _ = Ok _ _ |- _ => inv_ok_step H
    | H : Ok _ _ = Ok _ _ |- _ => inv_ok_step H
    | H : Err _ _ = Ok _ _ |- _ => inv_ok_step H
    | H : Panic = Ok _ _ |- _ => inv_ok_step H
    | H : Diverge = Ok _ _ |- _ => inv_ok_step H
    end.

(** ** C10: a page without [/Contents] has the empty content *)

Section GetContentFacts.
Context `{GoStd}.

Lemma pageAt_Ok (pr : PdfReader) (pageno : Z) (p : option PdfValue) :
  1 <= pageno ->
  pages pr !! Z.to_nat (pageno - 1) = Some p ->
  pageAt pageno pr = Ok p pr.
Proof.
  intros Hlo Hp. unfold pageAt, bind, gets.
  pose proof (lookup_lt_Some _ _ _ Hp) as Hlt.
  destruct (Z.ltb_spec (Z.of_nat (List.length (pages pr))) pageno) as [Hbad|_]; [lia|].
  unfold index. destruct (Z.ltb_spec (pageno - 1) 0); [lia|].
  rewrite Hp. reflexivity.
Qed.

(** C10.  For every page number [pageno >= 1] whose entry in the page list
    is a page object with a dictionary that has no [/Contents] key,
    [GetContent] returns the empty string with a nil error, whatever the
    recursion budget, and leaves the reader as it was. *)
Theorem GetContent_missing_contents :
  forall (fuel : nat) (pr : PdfReader) (pageno : Z) (page pv : PdfValue),
    1 <= pageno ->
    pages pr !! Z.to_nat (pageno - 1) = Some (Some page) ->
    Value page = Some pv ->
    dict_get (Dictionary pv) "/Contents" = None ->
    GetContent fuel pageno pr = Ok "" pr.
Proof.
  intros fuel pr pageno page pv Hlo Hp Hv Hc.
  unfold GetContent, bind. rewrite (pageAt_Ok pr pageno _ Hlo Hp).
  cbn. rewrite Hv. cbn. rewrite Hc. reflexivity.
Qed.

End GetContentFacts.

Lemma GetContent_missing_contents_witness :
  @GetContent stdStub 0 1 blank_reader = Ok "" blank_reader.
Proof.
  apply (@GetContent_missing_contents stdStub 0 blank_reader 1
           (object_value 3 blank_page_dict) blank_page_dict);
    [lia | reflexivity | reflexivity | reflexivity].
Defined.

(** ** C9: the importer caches imported pages by page number *)

Section ImportCache.
Context `{GoStd}.
Import Importer.

Lemma final_onWriter {A} (m : M Writer.PdfWriter A) imp imp' :
  final (onWriter m imp) = Some imp' -> importedPages imp' = importedPages imp.
Proof.
  unfold onWriter. destruct (m (writer imp)); cbn; intros [= <-]; reflexivity.
Qed.

Lemma final_onWriterWith {A} (m : PdfReader -> M Writer.PdfWriter A) imp imp' :
  final (onWriterWith m imp) = Some imp' -> importedPages imp' = importedPages imp.
Proof.
  unfold onWriterWith. destruct (reader imp); cbn; [|discriminate].
  destruct (m _ (writer imp)); cbn; intros [= <-]; reflexivity.
Qed.

Lemma final_onReader {A} (m : M PdfReader A) imp imp' :
  final (onReader m imp) = Some imp' -> importedPages imp' = importedPages imp.
Proof.
  unfold onReader. destruct (reader imp); cbn; [|discriminate].
  destruct (m _); cbn; intros [= <-]; reflexivity.
Qed.

Lemma final_bind_ret {St A B} (m : M St A) (g : A -> B) s s' :
  final ((let* a := m in ret (g a)) s) = Some s' -> final (m s) = Some s'.
Proof. unfold bind. destruct (m s); cbn; auto. Qed.

(** A page that is in the cache is answered from the cache. *)
Lemma ImportPage_hit fuel pageno box imp t :
  importedPages imp !! pageno = Some t ->
  ImportPage fuel pageno box imp = Ok t imp.
Proof. intros Hc. unfold ImportPage, bind, gets. rewrite Hc. reflexivity. Qed.

(** A successful import leaves its page in the cache. *)
Lemma ImportPage_records fuel pageno box imp t imp' :
  ImportPage fuel pageno box imp = Ok t imp' ->
  importedPages imp' !! pageno = Some t.
Proof.
  unfold ImportPage, bind at 1, gets. intros Hrun.
  destruct (importedPages imp !! pageno) as [t0|] eqn:Hc.
  - inv_ok_step Hrun. exact Hc.
  - inv_ok. cbn. apply lookup_insert_eq.
Qed.

(** No call removes or changes an entry of the cache. *)
Lemma after_call_keeps c imp imp' pageno t :
  after_call c imp = Some imp' ->
  importedPages imp !! pageno = Some t ->
  importedPages imp' !! pageno = Some t.
Proof.
  intros Hc Hp. destruct c as [fuel rs| |fuel|fuel q box|objID|fuel];
    unfold after_call in Hc.
  - unfold SetSourceStream in Hc.
    destruct (NewPdfReaderFromStream fuel rs); cbn in Hc; try discriminate;
      injection Hc as <-; exact Hp.
  - apply final_onReader in Hc. rewrite Hc. exact Hp.
  - apply final_onReader in Hc. rewrite Hc. exact Hp.
  - unfold ImportPage, bind at 1, gets in Hc.
    destruct (importedPages imp !! q) as [t0|] eqn:Hq.
    + cbn in Hc. injection Hc as <-. exact Hp.
    + unfold bind at 1 in Hc.
      destruct (onWriterWith _ imp) as [res imp1|e imp1| |] eqn:Hw; try discriminate.
      * assert (Hk : importedPages imp1 = importedPages imp)
          by (eapply final_onWriterWith; rewrite Hw; reflexivity).
        cbn in Hc. injection Hc as <-. cbn.
        rewrite lookup_insert_ne; [rewrite Hk; exact Hp|].
        intros ->. rewrite Hq in Hp. discriminate.
      * assert (Hk : importedPages imp1 = importedPages imp)
          by (eapply final_onWriterWith; rewrite Hw; reflexivity).
        cbn in Hc. injection Hc as <-. rewrite Hk. exact Hp.
  - apply final_onWriter in Hc. rewrite Hc. exact Hp.
  - unfold PutFormXobjects in Hc. apply final_bind_ret in Hc.
    apply final_onWriterWith in Hc. rewrite Hc. exact Hp.
Qed.

Lemma after_calls_keeps cs imp imp' pageno t :
  after_calls cs imp = Some imp' ->
  importedPages imp !! pageno = Some t ->
  importedPages imp' !! pageno = Some t.
Proof.
  revert imp. induction cs as [|c cs IH]; intros imp Hcs Hp; cbn in Hcs.
  - injection Hcs as <-. exact Hp.
  - destruct (after_call c imp) as [imp1|] eqn:Hc; [|discriminate].
    eapply IH; [exact Hcs|]. eapply after_call_keeps; eauto.
Qed.

(** C9.  After a successful [ImportPage(pageno, box)], and after any
    further calls on the importer, [ImportPage] with the same page number
    and any box name returns the template number of the first call and
    leaves the importer as it is: no template is appended and the template
    counter does not move. *)
Theorem ImportPage_cached :
  forall (fuel : nat) (pageno : Z) (box : string) (imp imp1 : Importer) (t : Z)
         (cs : list call) (imp2 : Importer) (fuel' : nat) (box' : string),
    ImportPage fuel pageno box imp = Ok t imp1 ->
    after_calls cs imp1 = Some imp2 ->
    ImportPage fuel' pageno box' imp2 = Ok t imp2.
Proof.
  intros fuel pageno box imp imp1 t cs imp2 fuel' box' Hfirst Hcs.
  apply ImportPage_hit.
  eapply after_calls_keeps; [exact Hcs|].
  eapply ImportPage_records; exact Hfirst.
Qed.

End ImportCache.


Lemma ImportPage_cached_witness :
  @Importer.SetSourceStream stdStub 1000 (bytes_of_string sample_pdf) Importer.NewImporter
    = Ok tt sample_imp0 /\
  @Importer.ImportPage stdStub 100 1 "/MediaBox" sample_imp0 = Ok 0 sample_imp1 /\
  @after_calls stdStub sample_calls sample_imp1 = Some sample_imp2 /\
  @Importer.ImportPage stdStub 0 1 "/CropBox" sample_imp2 = Ok 0 sample_imp2.
Proof.
  assert (H0 : @Importer.SetSourceStream stdStub 1000 (bytes_of_string sample_pdf)
                 Importer.NewImporter = Ok tt sample_imp0)
    by (vm_compute; reflexivity).
  assert (H1 : @Importer.ImportPage stdStub 100 1 "/MediaBox" sample_imp0 = Ok 0 sample_imp1)
    by (vm_compute; reflexivity).
  assert (H2 : @after_calls stdStub sample_calls sample_imp1 = Some sample_imp2)
    by (vm_compute; reflexivity).
  split; [exact H0|]. split; [exact H1|]. split; [exact H2|].
  exact (@ImportPage_cached stdStub 100 1 "/MediaBox" sample_imp0 sample_imp1 0
           sample_calls sample_imp2 0 "/CropBox" H1 H2).
Defined.

(** ** The block "Normalize angle" of [ImportPage] *)

Section Rotation.
Context `{GoStd}.
Import Writer.

(** The rotation that the block "Normalize angle" stores for a page
    rotation [rot]: the negated remainder in [0, 360). *)
Lemma setRotation_Rotation (rot : Z) (tpl : PdfTemplate) :
  tpl_Rotation tpl = 0 ->
  tpl_Rotation (setRotation rot tpl) = - (rot mod 360).
Proof.
  intros H0. unfold setRotation.
  pose proof (Z.rem_mod_eq_0 rot 360 ltac:(lia)) as Hz.
  destruct (Z.eqb_spec (Z.rem rot 360) 0) as [He|Hne]; cbn [negb].
  - rewrite H0. apply Hz in He. lia.
  - destruct (Z.rem (Z.quot (Z.rem rot 360) 90) 2 =? 0); cbn [tpl_Rotation];
      destruct (Z.ltb_spec (Z.rem rot 360) 0);
      Z.to_euclidean_division_equations; lia.
Qed.

Lemma rem2_odd (a : Z) : (Z.rem a 2 =? 0) = negb (Z.odd a).
Proof.
  rewrite <- Z.negb_even. rewrite negb_involutive.
  destruct (Z.eqb_spec (Z.rem a 2) 0) as [He|Hne].
  - symmetry. apply Z.even_spec. apply Z.rem_mod_eq_0 in He; [|lia].
    exists (a / 2). Z.to_euclidean_division_equations; lia.
  - symmetry. apply not_true_is_false. intros Hev. apply Hne.
    apply Z.even_spec in Hev as [k ->]. apply Z.rem_mod_eq_0; [lia|].
    Z.to_euclidean_division_equations; lia.
Qed.

(** Width and height are exchanged exactly when the number of 90-degree
    steps of the remainder is odd. *)
Lemma setRotation_size (rot : Z) (tpl : PdfTemplate) :
  (tpl_W (setRotation rot tpl), tpl_H (setRotation rot tpl)) =
  if Z.odd (Z.quot (Z.rem rot 360) 90) then (tpl_H tpl, tpl_W tpl)
  else (tpl_W tpl, tpl_H tpl).
Proof.
  unfold setRotation.
  destruct (Z.eqb_spec (Z.rem rot 360) 0) as [He|Hne]; cbn [negb].
  - rewrite He. reflexivity.
  - rewrite rem2_odd. destruct (Z.odd _); reflexivity.
Qed.

Lemma setRotation_Box (rot : Z) (tpl : PdfTemplate) :
  tpl_Box (setRotation rot tpl) = tpl_Box tpl.
Proof. unfold setRotation. destruct (negb _); [destruct (_ =? _)|]; reflexivity. Qed.

Lemma onReader_Ok_tpls {A} (m : M PdfReader A) pw a pw' :
  onReader m pw = Ok a pw' ->
  tpls pw' = tpls pw /\ exists rd rd', r pw = Some rd /\ m rd = Ok a rd'.
Proof.
  unfold onReader. destruct (r pw) as [rd|]; [|discriminate].
  destruct (m rd) as [a' rd'| | |] eqn:Hm; try discriminate.
  intros [= <- <-]. eauto.
Qed.

Lemma GetPDFBoxDimensions_tpls fuel p boxname pw bx pw' :
  GetPDFBoxDimensions fuel p boxname pw = Ok bx pw' -> tpls pw' = tpls pw.
Proof.
  unfold GetPDFBoxDimensions. intros Hrun.
  inv_ok_step Hrun. apply onReader_Ok_tpls in Hm as [Ht1 _].
  destruct (a <? p); [inv_ok|].
  inv_ok_step Hrun. apply onReader_Ok_tpls in Hm as [Ht2 _].
  repeat match type of Hrun with
         | (if ?c then _ else _) _ = _ => destruct c
         end; inv_ok; congruence.
Qed.

(** What a successful [ImportPage] appends. *)
Lemma ImportPage_appends fuel rd pageno boxName pw n pw' :
  ImportPage fuel rd pageno boxName pw = Ok n pw' ->
  exists res content bx rot rdA rdB,
    GetPageRotation fuel pageno rdA = Ok (Some rot) rdB /\
    tpls pw' = tpls pw ++
      [setRotation (Int rot)
         (mkPdfTemplate 0 res content bx 0 0 (bget bx "w") (bget bx "h") 0 0)] /\
    n = Z.of_nat (List.length (tpls pw)).
Proof.
  unfold ImportPage. intros Hrun.
  inv_ok_step Hrun. inv_ok_step Hm.
  inv_ok_step Hrun. apply onReader_Ok_tpls in Hm as [Ht1 _].
  inv_ok_step Hrun. apply onReader_Ok_tpls in Hm as [Ht2 _].
  inv_ok_step Hrun. apply GetPDFBoxDimensions_tpls in Hm as Ht3.
  inv_ok_step Hrun. apply onReader_Ok_tpls in Hm0 as [Ht4 (rdA & rdB & _ & Hrot)].
  inv_ok.
  eexists _, _, _, _, rdA, rdB. split; [exact Hrot|].
  cbn [tpls set_tpls] in *. rewrite Ht4, Ht3, Ht2, Ht1. cbn [tpls set_r].
  split; [reflexivity|].
  rewrite length_app. cbn. lia.
Qed.

End Rotation.

(** ** C7 and C8: object resolution *)

Lemma Seek_Ok (offset : Z) (pr pr' : PdfReader) u :
  Seek offset pr = Ok u pr' -> pr' = set_f_pos offset pr.
Proof. unfold Seek. destruct (offset <? 0); [discriminate|]. intros [= _ <-]. reflexivity. Qed.

Lemma onBytes_Ok_f_pos {A} data pos (m : M Lex A) (pr pr' : PdfReader) a :
  onBytes data pos m pr = Ok a pr' -> f_pos pr' = f_pos pr.
Proof.
  unfold onBytes. destruct (m _); try discriminate. intros [= _ <-]. reflexivity.
Qed.

(** Inversion of a successful run through branches and seeks. *)
Ltac inv_run :=
  repeat first
    [ progress inv_ok
    | match goal with
      | H : Seek _ _ = Ok _ _ |- _ => apply Seek_Ok in H; subst
      | H : (if ?c then _ else _) _ = Ok _ _ |- _ => destruct c eqn:?
      | H : (match ?x with _ => _ end) _ = Ok _ _ |- _ => destruct x eqn:?
      end ].

Section Resolution.
Context `{GoStd}.

Lemma readObjStmIndex_f_pos k i objectIndex data pos a b pr res pr' :
  readObjStmIndex k i objectIndex data pos a b pr = Ok res pr' ->
  f_pos pr' = f_pos pr.
Proof.
  revert i pos a b pr. induction k as [|k IH]; intros i pos a b pr Hrun; cbn in Hrun.
  - inv_ok. reflexivity.
  - inv_run;
      repeat match goal with
        | Hb : onBytes _ _ _ _ = Ok _ _ |- _ => apply onBytes_Ok_f_pos in Hb
        | Hb : readObjStmIndex _ _ _ _ _ _ _ _ = Ok _ _ |- _ => apply IH in Hb
        end;
      congruence.
Qed.

(** The type of a resolved reference, and the restored offset, for both
    resolution functions at once. *)
Lemma resolve_facts (fuel : nat) :
  (forall objSpec pr v pr',
      ResolveObject fuel objSpec pr = Ok v pr' ->
      f_pos pr' = f_pos pr /\
      (Type_ objSpec = PDFTypeObjRef ->
       Type_ v = PDFTypeObject \/ Type_ v = PDFTypeStream)) /\
  (forall objSpec pr v pr',
      resolveCompressedObject fuel objSpec pr = Ok v pr' ->
      f_pos pr' = f_pos pr /\ Type_ v = PDFTypeObject).
Proof.
  induction fuel as [|n [IHr IHc]]; [split; intros; discriminate|].
  split; intros objSpec pr v pr' Hrun.
  - cbn [ResolveObject] in Hrun.
    destruct (Z.eqb_spec (Type_ objSpec) PDFTypeObjRef) as [Hty|Hty]; cbn [negb] in Hrun.
    + inv_ok_step Hrun. inv_ok_step Hm.
      destruct (xref pr !! ID objSpec) eqn:Hx.
      * inv_run;
          repeat match goal with
            | Hp : (_, _) = (_, _) |- _ => injection Hp as <- <-
            end;
          (split; [reflexivity | intros _; cbn; auto]).
      * apply IHc in Hrun as [Hp Ht]. auto.
    + inv_ok. split; [reflexivity | intros Hc; contradiction].
  - cbn [resolveCompressedObject] in Hrun.
    inv_run;
      repeat match goal with
        | Hp : (_, _) = (_, _) |- _ => injection Hp as <- <-
        | Hb : onBytes _ _ _ _ = Ok _ _ |- _ => apply onBytes_Ok_f_pos in Hb
        | Hb : readObjStmIndex _ _ _ _ _ _ _ _ = Ok _ _ |- _ =>
            apply readObjStmIndex_f_pos in Hb
        | Hb : ResolveObject n _ _ = Ok _ _ |- _ => apply IHr in Hb as [? _]
        end;
      (split; [congruence | reflexivity]).
Qed.

(** C8.  Every call of [ResolveObject] that returns without error leaves
    the offset of the byte stream where it was at entry. *)
Theorem ResolveObject_restores_position :
  forall (fuel : nat) (objSpec : PdfValue) (pr : PdfReader) (v : PdfValue) (pr' : PdfReader),
    ResolveObject fuel objSpec pr = Ok v pr' ->
    f_pos pr' = f_pos pr.
Proof.
  intros fuel objSpec pr v pr' Hrun.
  exact (proj1 (proj1 (resolve_facts fuel) objSpec pr v pr' Hrun)).
Qed.

(** C7.  When [ResolveObject] resolves [objSpec] to [v], resolving [v]
    again returns [v] and changes nothing; and when [objSpec] is an indirect
    reference, [v] is an object or a stream, never a reference. *)
Theorem ResolveObject_idempotent :
  forall (fuel : nat) (objSpec : PdfValue) (pr : PdfReader) (v : PdfValue) (pr' : PdfReader),
    ResolveObject fuel objSpec pr = Ok v pr' ->
    (forall fuel', ResolveObject (S fuel') v pr' = Ok v pr') /\
    (Type_ objSpec = PDFTypeObjRef -> Type_ v <> PDFTypeObjRef).
Proof.
  intros fuel objSpec pr v pr' Hrun.
  assert (Hty : Type_ v <> PDFTypeObjRef).
  { destruct (Z.eq_dec (Type_ objSpec) PDFTypeObjRef) as [Hr|Hr].
    - destruct (proj2 (proj1 (resolve_facts fuel) objSpec pr v pr' Hrun) Hr) as [-> | ->];
        discriminate.
    - destruct fuel as [|n]; [discriminate|]. cbn [ResolveObject] in Hrun.
      destruct (Z.eqb_spec (Type_ objSpec) PDFTypeObjRef); [contradiction|].
      cbn [negb] in Hrun. inv_ok. exact Hr. }
  split; [|auto].
  intros fuel'. cbn [ResolveObject].
  destruct (Z.eqb_spec (Type_ v) PDFTypeObjRef); [contradiction|]. reflexivity.
Qed.

End Resolution.

Lemma ResolveObject_restores_position_witness :
  @ResolveObject stdStub 50 (objref 4 0) sample_reader17 = Ok sample_obj4 sample_reader17' /\
  f_pos sample_reader17' = f_pos sample_reader17.
Proof.
  assert (H1 : @ResolveObject stdStub 50 (objref 4 0) sample_reader17
               = Ok sample_obj4 sample_reader17') by (vm_compute; reflexivity).
  split; [exact H1|].
  exact (@ResolveObject_restores_position stdStub 50 (objref 4 0) sample_reader17
           sample_obj4 sample_reader17' H1).
Defined.

Lemma ResolveObject_idempotent_witness :
  @ResolveObject stdStub 50 (objref 4 0) sample_reader17 = Ok sample_obj4 sample_reader17' /\
  (forall fuel', @ResolveObject stdStub (S fuel') sample_obj4 sample_reader17'
                 = Ok sample_obj4 sample_reader17') /\
  (Type_ (objref 4 0) = PDFTypeObjRef -> Type_ sample_obj4 <> PDFTypeObjRef).
Proof.
  assert (H1 : @ResolveObject stdStub 50 (objref 4 0) sample_reader17
               = Ok sample_obj4 sample_reader17') by (vm_compute; reflexivity).
  split; [exact H1|].
  exact (@ResolveObject_idempotent stdStub 50 (objref 4 0) sample_reader17
           sample_obj4 sample_reader17' H1).
Defined.

(** The resolved content stream of the sample document: a stream of 8
    bytes, read after its length was resolved from object 6. *)
Example sample_obj4_stream :
  Type_ sample_obj4 = PDFTypeStream /\
  (Bytes <$> Stream sample_obj4) = Some (bytes_of_string "0 0 m S
") /\
  f_pos sample_reader17' = 17.
Proof. vm_compute. auto. Qed.

(** ** C5: the predictor rows of a cross-reference stream *)

Lemma byte_val_range (c : ascii) : 0 <= byte_val c < 256.
Proof.
  unfold byte_val. pose proof (N_ascii_bounded c) as Hb. lia.
Qed.

Lemma byte_of_val (c : ascii) : byte_of (byte_val c) = c.
Proof.
  unfold byte_of. pose proof (byte_val_range c) as Hr.
  rewrite Z.mod_small by lia. unfold byte_val. rewrite N2Z.id.
  apply ascii_N_embedding.
Qed.

Lemma byte_val_of (z : Z) : byte_val (byte_of z) = z mod 256.
Proof.
  unfold byte_val, byte_of.
  pose proof (Z.mod_pos_bound z 256 ltac:(lia)) as Hm.
  rewrite N_ascii_embedding by lia. lia.
Qed.

Lemma byte_of_mod (z : Z) : byte_of (z mod 256) = byte_of z.
Proof. unfold byte_of. rewrite Z.mod_mod by lia. reflexivity. Qed.

Lemma land_255 (z : Z) : Z.land z 255 = z mod 256.
Proof. change 255 with (Z.ones 8). rewrite Z.land_ones by lia. reflexivity. Qed.

Lemma wrap64_small (z : Z) : - 2 ^ 63 <= z < 2 ^ 63 -> wrap64 z = z.
Proof. intros Hz. unfold wrap64. rewrite Z.mod_small by lia. lia. Qed.

(** The branch-free [abs] is the absolute value on every [int] but the
    least one. *)
Lemma abs_spec (x : Z) : - 2 ^ 63 < x < 2 ^ 63 -> abs x = Z.abs x.
Proof.
  intros Hx. unfold abs, intSize. change (64 - 1) with 63.
  rewrite Z.shiftr_div_pow2 by lia.
  destruct (Z.lt_ge_cases x 0) as [Hneg|Hpos].
  - replace (x / 2 ^ 63) with (-1) by (Z.to_euclidean_division_equations; lia).
    rewrite Z.lxor_m1_r. unfold Z.lnot.
    rewrite wrap64_small by lia. lia.
  - rewrite Z.div_small by lia. rewrite Z.lxor_0_r.
    rewrite wrap64_small by lia. lia.
Qed.


Lemma strided_unit (n : nat) : strided 0 1 (Z.of_nat n) = map Z.of_nat (seq 0 n).
Proof.
  unfold strided. cbn [Z.leb Z.compare].
  replace ((Z.of_nat n - 0 + 1 - 1) / 1) with (Z.of_nat n)
    by (rewrite Z.div_1_r; lia).
  rewrite Nat2Z.id. apply map_ext. intros k. lia.
Qed.

Lemma strided_single (i n : Z) : 0 <= i < n -> strided i n n = [i].
Proof.
  intros Hi. unfold strided.
  destruct (Z.leb_spec n 0); [lia|].
  replace ((n - i + n - 1) / n) with 1 by (Z.to_euclidean_division_equations; nia).
  change (Z.to_nat 1) with 1%nat. cbn [seq map]. f_equal. lia.
Qed.

(** One round of [filterPaeth] without left neighbours picks the byte above. *)
Lemma filterPaeth_step_up (pdat cdat : list ascii) (j : nat) (pj cj : ascii) :
  pdat !! j = Some pj -> cdat !! j = Some cj ->
  filterPaeth_step pdat (Some (cdat, 0, 0)) (Z.of_nat j)
  = Some (<[j := up_byte cj pj]> cdat, Z.land (byte_val pj + byte_val cj) 255, byte_val pj).
Proof.
  intros Hp Hc. unfold filterPaeth_step, up_byte. rewrite Nat2Z.id, Hp, Hc.
  pose proof (byte_val_range pj) as Hr.
  rewrite !Z.sub_0_r, Z.add_0_r.
  rewrite !abs_spec by lia. rewrite (Z.abs_eq (byte_val pj)) by lia.
  change (Z.abs 0) with 0.
  destruct (Z.leb_spec (byte_val pj) 0) as [Hz|Hnz]; cbn [andb].
  - rewrite Z.leb_refl. replace (byte_val pj) with 0 by lia. reflexivity.
  - destruct (Z.leb_spec 0 (byte_val pj)); [reflexivity|lia].
Qed.

(** With [bytesPerPixel] the length of the row, [filterPaeth] adds the row
    above byte by byte: this is the reconstruction of the PNG filter Up. *)
Lemma filterPaeth_row_length (cdat pdat : list ascii) :
  List.length pdat = List.length cdat ->
  filterPaeth cdat pdat (Z.of_nat (List.length cdat)) = Some (zip_with up_byte cdat pdat).
Proof.
  intros Hlen. unfold filterPaeth. rewrite strided_unit.
  set (F := fun (acc : option (list ascii)) (i : Z) => _).
  assert (Hk : forall k, (k <= List.length cdat)%nat ->
             fold_left F (map Z.of_nat (seq 0 k)) (Some cdat)
             = Some (zip_with up_byte (take k cdat) (take k pdat) ++ drop k cdat)).
  { induction k as [|k IH]; intros Hle.
    - cbn. rewrite drop_0. reflexivity.
    - rewrite seq_S, map_app, fold_left_app, IH by lia. cbn [map fold_left Nat.add].
      destruct (lookup_lt_is_Some_2 cdat k ltac:(lia)) as [ck Hck].
      destruct (lookup_lt_is_Some_2 pdat k ltac:(lia)) as [pk Hpk].
      set (ck' := zip_with up_byte (take k cdat) (take k pdat) ++ drop k cdat).
      assert (Hzl : List.length (zip_with up_byte (take k cdat) (take k pdat)) = k)
        by (rewrite length_zip_with, !length_take; lia).
      assert (Hl' : List.length ck' = List.length cdat).
      { unfold ck'. rewrite length_app, Hzl, length_drop. lia. }
      assert (Hc' : ck' !! k = Some ck).
      { unfold ck'. rewrite lookup_app_r by lia. rewrite Hzl, Nat.sub_diag.
        rewrite lookup_drop, Nat.add_0_r. exact Hck. }
      unfold F at 1. rewrite Hl'.
      rewrite strided_single by lia. cbn [fold_left].
      rewrite (filterPaeth_step_up pdat ck' k pk ck Hpk Hc').
      f_equal. unfold ck'.
      rewrite (take_S_r cdat k ck Hck), (take_S_r pdat k pk Hpk).
      rewrite zip_with_app by (rewrite !length_take; lia).
      cbn [zip_with]. rewrite <- app_assoc. cbn [app].
      rewrite insert_app_r_alt by lia. rewrite Hzl, Nat.sub_diag.
      rewrite (drop_S cdat ck k Hck). reflexivity. }
  rewrite Hk by lia.
  rewrite drop_all, app_nil_r, firstn_all.
  rewrite <- Hlen, firstn_all. reflexivity.
Qed.

Lemma zeros_length (n : nat) : List.length (zeros (Z.of_nat n)) = n.
Proof. unfold zeros. rewrite repeat_length. lia. Qed.

Lemma zeros_S (n : nat) : zeros (Z.of_nat (S n)) = ch 0 :: zeros (Z.of_nat n).
Proof. unfold zeros. rewrite !Nat2Z.id. reflexivity. Qed.

Lemma copy_bytes_same (dst src : list ascii) :
  List.length dst = List.length src -> copy_bytes dst src = src.
Proof.
  intros Hl. unfold copy_bytes. rewrite Hl, firstn_all, <- Hl, skipn_all, app_nil_r.
  reflexivity.
Qed.

(** Decoding undoes the PNG filter Up, byte by byte. *)
Lemma up_byte_encode (x b : ascii) :
  up_byte (byte_of (byte_val x - byte_val b)) b = x.
Proof.
  unfold up_byte. rewrite byte_val_of, land_255.
  rewrite Zplus_mod_idemp_r.
  replace (byte_val b + (byte_val x - byte_val b)) with (byte_val x) by lia.
  rewrite byte_of_mod. apply byte_of_val.
Qed.

Lemma up_decode_encode (raw prior : list ascii) :
  List.length prior = List.length raw ->
  zip_with up_byte (png_up_encode_row prior raw) prior = raw.
Proof.
  unfold png_up_encode_row. revert prior.
  induction raw as [|x raw IH]; intros [|b prior] Hl; try discriminate; [reflexivity|].
  cbn. rewrite up_byte_encode, IH by (cbn in Hl; lia). reflexivity.
Qed.

Lemma png_up_encode_row_length (raw prior : list ascii) :
  List.length prior = List.length raw ->
  List.length (png_up_encode_row prior raw) = List.length raw.
Proof. intros Hl. unfold png_up_encode_row. rewrite length_zip_with. lia. Qed.

(** The body of the row loop on a row of [w] data bytes behind its tag:
    [objectData] is the reconstructed row (and one trailing zero), whatever
    the tag byte is. *)
Lemma xrefRow_decode_up (w : nat) (tag t : ascii) (enc prior : list ascii) :
  List.length enc = w -> List.length prior = w ->
  xrefRow_decode true (Z.of_nat (S w)) (tag :: enc) (t :: prior)
  = Some (zip_with up_byte enc prior ++ [ch 0], up_byte tag t :: zip_with up_byte enc prior).
Proof.
  intros He Hp. unfold xrefRow_decode.
  replace (Z.of_nat (S w)) with (Z.of_nat (List.length (tag :: enc))) at 1
    by (cbn [List.length]; lia).
  rewrite filterPaeth_row_length by (cbn [List.length]; lia).
  cbn [zip_with].
  assert (Hz : List.length (zip_with up_byte enc prior) = w)
    by (rewrite length_zip_with; lia).
  rewrite copy_bytes_same by (cbn [List.length]; lia).
  unfold slice. cbn [List.length]. rewrite Hz.
  destruct (Z.leb_spec 0 1); [|lia].
  destruct (Z.leb_spec 1 (Z.of_nat (S w))); [|lia].
  destruct (Z.leb_spec (Z.of_nat (S w)) (Z.of_nat (S w))); [|lia].
  cbn [andb]. change (Z.to_nat 1) with 1%nat. cbn [skipn].
  replace (Z.to_nat (Z.of_nat (S w) - 1)) with w by lia.
  rewrite (firstn_all2 (zip_with up_byte enc prior)) by lia.
  f_equal. f_equal.
  unfold copy_bytes. rewrite zeros_length, Hz.
  rewrite firstn_all2 by lia. f_equal.
  rewrite zeros_S. unfold zeros. rewrite Nat2Z.id.
  clear. induction w as [|w IH]; [reflexivity|]. cbn [repeat skipn] in *. exact IH.
Qed.

Lemma png_encode_rows_up_length (w : nat) (prior : list ascii)
    (rows : list (ascii * list ascii)) :
  List.length prior = w ->
  Forall (fun row => List.length row.2 = w) rows ->
  List.length (png_encode_rows png_up_encode_row prior rows) = (List.length rows * S w)%nat.
Proof.
  intros Hp Hrows. revert prior Hp.
  induction Hrows as [|[tag raw] rows Hr _ IH]; intros prior Hp; [reflexivity|].
  cbn [png_encode_rows List.length]. rewrite length_app.
  rewrite png_up_encode_row_length by (cbn in Hr; lia).
  rewrite IH by exact Hr. cbn in Hr. lia.
Qed.

(** The row loop on the Up encoding of a matrix, from any previous row
    whose data bytes are the row above. *)
Lemma xrefRows_up (w : nat) (rows : list (ascii * list ascii)) :
  Forall (fun row => List.length row.2 = w) rows ->
  forall (fuel : nat) (prior : list ascii) (t : ascii) (i : Z) (acc : list (list ascii)),
    (List.length rows < fuel)%nat ->
    List.length prior = w ->
    xrefRows fuel collectRow true (Z.of_nat (S w))
      (png_encode_rows png_up_encode_row prior rows) (t :: prior) i acc
    = Ok tt (acc ++ map (fun row => row.2 ++ [ch 0]) rows).
Proof.
  induction 1 as [|[tag raw] rows Hr Hrows IH]; intros fuel prior t i acc Hfuel Hp.
  - destruct fuel as [|n]; [cbn in Hfuel; lia|].
    cbn [xrefRows png_encode_rows List.length map].
    destruct (Z.ltb_spec 0 (Z.of_nat (S w))); [|lia].
    cbn. rewrite app_nil_r. reflexivity.
  - destruct fuel as [|n]; [cbn in Hfuel; lia|].
    cbn [snd] in Hr.
    assert (Hel : List.length (png_up_encode_row prior raw) = w)
      by (rewrite png_up_encode_row_length; lia).
    cbn [xrefRows png_encode_rows].
    set (p := tag :: png_up_encode_row prior raw ++ png_encode_rows png_up_encode_row raw rows).
    assert (Hpl : (S w <= List.length p)%nat)
      by (unfold p; cbn [List.length]; rewrite length_app; lia).
    destruct (List.length p =? 0)%nat eqn:Hz; [apply Nat.eqb_eq in Hz; lia|].
    rewrite andb_false_r.
    destruct (Z.ltb_spec (Z.of_nat (List.length p)) (Z.of_nat (S w))); [lia|].
    rewrite Nat2Z.id.
    assert (Hfirst : firstn (S w) p = tag :: png_up_encode_row prior raw).
    { unfold p. cbn [firstn]. f_equal. rewrite <- Hel at 1. apply take_app_length. }
    assert (Hrest : skipn (S w) p = png_encode_rows png_up_encode_row raw rows).
    { unfold p. cbn [skipn]. rewrite <- Hel at 1. apply drop_app_length. }
    rewrite Hfirst, Hrest.
    rewrite (xrefRow_decode_up w tag t _ prior Hel Hp).
    rewrite up_decode_encode by lia.
    unfold bind at 1. cbn [deref ret].
    unfold bind at 1. unfold collectRow at 1. cbn [modify].
    rewrite IH by (cbn in Hfuel; lia).
    rewrite <- app_assoc. reflexivity.
Qed.

(** X23. The row loop of the xref-stream path of [readXref], taken on
    bytes that are already inflated and with the row width given.  It calls
    [filterPaeth] with the whole row (tag byte included) as one pixel, so
    no byte has a left or an upper-left neighbour and each byte is
    reconstructed as the filtered byte plus the byte above, modulo 256,
    which is the PNG filter Up.  Hence for every byte matrix with rows of
    [w] bytes, encoded row by row with the PNG filter Up behind any tag
    bytes, the loop hands the original rows (each followed by one zero
    byte) to the recording of entries, in order. *)
Theorem xrefRows_up_roundtrip :
  forall (w : nat) (rows : list (ascii * list ascii)),
    Forall (fun row => List.length row.2 = w) rows ->
    xrefRows_data true (Z.of_nat (S w))
      (png_encode_rows png_up_encode_row (zeros (Z.of_nat w)) rows)
    = Ok tt (map (fun row => row.2 ++ [ch 0]) rows).
Proof.
  intros w rows Hrows. unfold xrefRows_data.
  rewrite zeros_S.
  rewrite (xrefRows_up w rows Hrows _ (zeros (Z.of_nat w)) (ch 0) 0 []).
  - reflexivity.
  - rewrite (png_encode_rows_up_length w) by (auto using zeros_length). nia.
  - apply zeros_length.
Qed.

Lemma xrefRows_up_roundtrip_witness :
  Forall (fun row : ascii * list ascii => List.length row.2 = 3%nat) three_rows /\
  xrefRows_data true (Z.of_nat 4)
    (png_encode_rows png_up_encode_row (zeros (Z.of_nat 3)) three_rows)
  = Ok tt (map (fun row => row.2 ++ [ch 0]) three_rows).
Proof.
  assert (H : Forall (fun row : ascii * list ascii => List.length row.2 = 3%nat) three_rows)
    by (repeat constructor).
  split; [exact H|].
  exact (xrefRows_up_roundtrip 3 three_rows H).
Defined.

(** A matrix of one row, (1, 5, 0): an in-use object at offset 5 with
    generation 0.  Its PNG Paeth encoding with one byte per pixel is the
    tag 4 and the bytes (1, 4, 251), which the PNG reconstruction maps back
    to (1, 5, 0); the row loop of [readXref] returns (1, 4, 251) instead,
    and records offset 4 under generation 251. *)
Lemma xrefRows_paeth_one_row :
  png_encode_rows (png_paeth_encode_row 1) (zeros 3) one_row = [ch 4; ch 1; ch 4; ch 251] /\
  png_paeth_decode_row 1 (zeros 3) [ch 1; ch 4; ch 251] [] = [ch 1; ch 5; ch 0] /\
  xrefRows_data true 4 (png_encode_rows (png_paeth_encode_row 1) (zeros 3) one_row)
    = Ok tt [[ch 1; ch 4; ch 251; ch 0]] /\
  xrefRows_data true 4 (png_encode_rows (png_paeth_encode_row 1) (zeros 3) one_row)
    <> Ok tt (map (fun row => row.2 ++ [ch 0]) one_row) /\
  match xrefRows_entries true 1 1 1
          (png_encode_rows (png_paeth_encode_row 1) (zeros 3) one_row) 7 with
  | Ok _ pr => xref pr !! 7
  | _ => None
  end = Some {[251 := 4]}.
Proof.
  split; [vm_compute; reflexivity|].
  split; [vm_compute; reflexivity|].
  split; [vm_compute; reflexivity|].
  split; [vm_compute; discriminate|].
  vm_compute. reflexivity.
Qed.

(** C5. The reader on [paeth_pdf], a document of 381 bytes whose
    cross-reference table is a stream with [/W [1 2 1]] and
    [/DecodeParms << /Columns 4 /Predictor 12 >>].  The stream data
    [paeth_rows] is the PNG Paeth encoding (filter type 4, one byte per
    sample) of the table [paeth_table], which places the objects 1 to 4 at
    the offsets 9, 58, 115 and 186 where they are, and the PNG
    reconstruction gives the table back from it; inflation is the identity
    of [stdStub].  [findXref] finds the stream at 186.  [readXref] takes
    the rows, of 1 + 2 + 1 + 1 bytes each, through [filterPaeth] with the
    row length as [bytesPerPixel] and records object 1 at offset 65289
    under generation 247, object 2 at 65338 under 189, object 3 at 65395
    under 131 and object 4 at 65466 under 16; what the row loop hands over
    is each filtered row plus the row above, not the table.
    [NewPdfReaderFromStream] ends with an error and these entries.  The
    same document with the rows encoded by the filter Up, [up_pdf], is read
    without error and with the entries of the table. *)
Theorem readXref_paeth_rows_misread :
  paeth_rows = png_encode_rows (png_paeth_encode_row 1) (zeros 4) paeth_table /\
  paeth_rows = map ch [4; 0; 0; 0; 0;  4; 1; 255; 9; 247;  4; 0; 0; 49; 198;
                       4; 0; 0; 57; 198;  4; 0; 0; 71; 141] /\
  png_paeth_decode_rows 1 4 (zeros 4) paeth_rows 5 = map snd paeth_table /\
  List.length paeth_pdf = 381%nat /\
  map (fun off => string_of_bytes (take 7 (drop off paeth_pdf))) [9; 58; 115; 186]%nat
    = ["1 0 obj"; "2 0 obj"; "3 0 obj"; "4 0 obj"] /\
  xrefPos_after (findXref 1000 (stream_parser paeth_pdf)) = Some 186 /\
  (do* findXref 1000 in @readXref stdStub 1000) (stream_parser paeth_pdf)
    = Ok tt paeth_table_read /\
  xref_entries paeth_table_read [0; 1; 2; 3; 4]
    = [None; Some [(247, 65289)]; Some [(189, 65338)]; Some [(131, 65395)];
       Some [(16, 65466)]] /\
  xrefRows_data true 5 paeth_rows
    = Ok tt (map (map ch) [[0; 0; 0; 0; 0]; [1; 255; 9; 247; 0]; [1; 255; 58; 189; 0];
                           [1; 255; 115; 131; 0]; [1; 255; 186; 16; 0]]) /\
  @NewPdfReaderFromStream stdStub 1000 paeth_pdf
    = Err "object ID does not match ObjSpec ID" paeth_reader /\
  xref_entries paeth_reader [0; 1; 2; 3; 4]
    = [None; Some [(247, 65289)]; Some [(189, 65338)]; Some [(131, 65395)];
       Some [(16, 65466)]] /\
  up_rows = png_encode_rows png_up_encode_row (zeros 4)
              (map (fun row => (ch 2, row.2)) paeth_table) /\
  @NewPdfReaderFromStream stdStub 1000 up_pdf = Ok tt up_reader /\
  xref_entries up_reader [0; 1; 2; 3; 4]
    = [None; Some [(0, 9)]; Some [(0, 58)]; Some [(0, 115)]; Some [(0, 186)]].
Proof. repeat split; vm_compute; reflexivity. Qed.

(** ** C6: the positions of the hashes in hash mode *)


Lemma triple_bind {St A B} (P : St -> Prop) (m : M St A) (Q : A -> St -> Prop)
    (k : A -> M St B) (R : B -> St -> Prop) (E : St -> Prop) :
  triple P m Q E -> (forall a, triple (Q a) (k a) R E) -> triple P (bind m k) R E.
Proof.
  intros Hm Hk s HP. unfold bind. specialize (Hm s HP).
  destruct (m s) as [a s'|e s'| |]; auto. apply (Hk a s' Hm).
Qed.

Lemma triple_ret {St A} (P : St -> Prop) (a : A) (Q : A -> St -> Prop) (E : St -> Prop) :
  (forall s, P s -> Q a s) -> triple P (ret a) Q E.
Proof. intros HQ s HP. cbn. auto. Qed.

Lemma triple_gets {St A} (P : St -> Prop) (g : St -> A) (Q : A -> St -> Prop)
    (E : St -> Prop) :
  (forall s, P s -> Q (g s) s) -> triple P (gets g) Q E.
Proof. intros HQ s HP. cbn. auto. Qed.

Lemma triple_modify {St} (P : St -> Prop) (g : St -> St) (Q : unit -> St -> Prop)
    (E : St -> Prop) :
  (forall s, P s -> Q tt (g s)) -> triple P (modify g) Q E.
Proof. intros HQ s HP. cbn. auto. Qed.

Lemma triple_deref {St A} (P : St -> Prop) (o : option A) (Q : A -> St -> Prop)
    (E : St -> Prop) :
  (forall a s, o = Some a -> P s -> Q a s) -> triple P (deref o) Q E.
Proof. intros HQ s HP. destruct o; cbn; auto. Qed.

Lemma triple_fail {St A} (P : St -> Prop) e (Q : A -> St -> Prop) (E : St -> Prop) :
  (forall s, P s -> E s) -> triple P (fail e) Q E.
Proof. intros HE s HP. cbn. auto. Qed.

Lemma triple_panic {St A} (P : St -> Prop) (Q : A -> St -> Prop) (E : St -> Prop) :
  triple P (@panic St A) Q E.
Proof. intros s HP. exact I. Qed.

Lemma triple_diverge {St A} (P : St -> Prop) (Q : A -> St -> Prop) (E : St -> Prop) :
  triple P (@diverge St A) Q E.
Proof. intros s HP. exact I. Qed.

Lemma triple_weaken {St A} (P P' : St -> Prop) (m : M St A) (Q Q' : A -> St -> Prop)
    (E E' : St -> Prop) :
  triple P' m Q' E' ->
  (forall s, P s -> P' s) -> (forall a s, Q' a s -> Q a s) -> (forall s, E' s -> E s) ->
  triple P m Q E.
Proof.
  intros Hm HP HQ HE s Hs. specialize (Hm s (HP s Hs)).
  destruct (m s); auto.
Qed.


Lemma bytes_of_string_length (s : string) :
  List.length (bytes_of_string s) = String.length s.
Proof. induction s as [|c s IH]; cbn; [reflexivity|]. f_equal. exact IH. Qed.

Section HashPositions.
Context `{GoStd}.
Hypothesis sha_len : forall s, String.length (sha1_hex s) = 40%nat.
Import HashWriter.

(** A hash that is in place stays in place when the buffer grows. *)
Lemma hash_at_app (buf more : list ascii) (off : Z) (ref : string) :
  hash_at buf off ref -> hash_at (buf ++ more) off ref.
Proof.
  intros (Hlen & Hsha & Hoff & Htake). split; [|split; [|split]]; auto.
  assert (Hl : List.length (take 40 (drop (Z.to_nat off) buf)) = 40%nat)
    by (rewrite Htake, bytes_of_string_length; exact Hlen).
  rewrite length_take, length_drop in Hl.
  rewrite drop_app_le by lia.
  rewrite take_app_le by (rewrite length_drop; lia).
  exact Htake.
Qed.

(** A hash written at the end of the buffer is in place. *)
Lemma hash_at_end (buf more : list ascii) (x : string) :
  hash_at (buf ++ bytes_of_string (sha1_hex x) ++ more)
    (Z.of_nat (List.length buf)) (sha1_hex x).
Proof.
  split; [|split; [|split]]; [apply sha_len | eauto | lia |].
  rewrite Nat2Z.id, drop_app_length.
  rewrite take_app_le by (rewrite bytes_of_string_length, sha_len; lia).
  apply firstn_all2. rewrite bytes_of_string_length, sha_len. lia.
Qed.

Lemma open_inv_hash_inv (pw : PdfWriter) : open_inv pw -> hash_inv pw.
Proof. intros (HJ & Hh & _). split; assumption. Qed.

(** Writing to the buffer keeps the invariant of an open object. *)
Lemma triple_WriteString (s : string) (E : PdfWriter -> Prop) :
  triple open_inv (WriteString s) (fun _ => open_inv) E.
Proof.
  intros pw ((H1 & H2 & H3) & Hh & p & buf & Hcur & Hw & Hgood).
  unfold WriteString, bind, gets, deref, modify, ret. rewrite Hcur. cbn.
  split; [|split; [exact Hh|]].
  - split; [|split]; cbn; auto.
    intros q [= <-]. apply H3. rewrite Hcur. reflexivity.
  - exists p, (buf ++ bytes_of_string s). cbn.
    split; [reflexivity|]. split; [exact Hw|].
    intros m off ref Hm Href. apply hash_at_app. eauto.
Qed.

Lemma triple_out (s : string) (E : PdfWriter -> Prop) :
  triple open_inv (out s) (fun _ => open_inv) E.
Proof.
  unfold out. eapply triple_bind; [apply triple_WriteString|].
  intros ?. apply triple_WriteString.
Qed.

Lemma triple_straightOut (s : string) (E : PdfWriter -> Prop) :
  triple open_inv (straightOut s) (fun _ => open_inv) E.
Proof. apply triple_WriteString. Qed.

(** [shaOfInt] changes nothing and returns a hash. *)
Lemma triple_shaOfInt (P : PdfWriter -> Prop) (i : Z) (E : PdfWriter -> Prop) :
  triple P (shaOfInt i) (fun sha pw => P pw /\ exists x, sha = sha1_hex x) E.
Proof.
  intros pw HP. unfold shaOfInt, bind, gets, deref, ret.
  destruct (r pw); cbn; eauto.
Qed.

(** In hash mode, a reference is recorded at the offset at which its hash
    is then written. *)
Lemma triple_outObjRef (objID : Z) (E : PdfWriter -> Prop) :
  triple open_inv (outObjRef objID) (fun _ => open_inv) E.
Proof.
  intros pw ((H1 & H2 & H3) & Hh & p & buf & Hcur & Hw & Hgood).
  destruct pw as [r0 k0 tpls0 n0 ostack dstack ids wobjs wpos cur coid toff uh].
  cbn in *. subst cur uh.
  unfold outObjRef, shaOfInt, WriteString, bind, gets, deref, modify, ret. cbn.
  destruct r0 as [rd|]; cbn; [|exact I].
  destruct (wpos !! p) as [m|] eqn:Hm; cbn; [|exact I].
  split; [|split; [reflexivity|]].
  - split; [|split]; cbn; auto.
    intros q bytes m' off ref Hq Hm' Href.
    destruct (decide (q = p)) as [->|Hne]; [congruence|].
    rewrite lookup_insert_ne in Hm' by congruence. eauto.
  - eexists p, _. cbn. split; [reflexivity|]. split; [exact Hw|].
    intros m' off ref Hm' Href. rewrite lookup_insert_eq in Hm'.
    injection Hm' as <-.
    destruct (decide (off = Z.of_nat (List.length buf))) as [->|Hne].
    + rewrite lookup_insert_eq in Href. injection Href as <-.
      rewrite <- app_assoc. apply hash_at_end.
    + rewrite lookup_insert_ne in Href by congruence.
      apply hash_at_app, hash_at_app. eauto.
Qed.

(** Reserving an id changes the counter only. *)
Lemma triple_newObj_reserve (P : PdfWriter -> Prop) (objID : Z) (E : PdfWriter -> Prop) :
  (forall pw x, P pw -> P (set_n x pw)) ->
  triple P (newObj objID true) (fun _ => P) E.
Proof.
  intros Hn pw HP. unfold newObj, bind, gets, modify, ret.
  destruct (objID <? 0); cbn; auto.
Qed.

Lemma open_inv_set_n (pw : PdfWriter) (x : Z) : open_inv pw -> open_inv (set_n x pw).
Proof. intros Hopen. exact Hopen. Qed.

Lemma hash_inv_set_n (pw : PdfWriter) (x : Z) : hash_inv pw -> hash_inv (set_n x pw).
Proof. intros Hinv. exact Hinv. Qed.

(** Starting an object: a fresh identifier, an empty buffer, no position. *)
Lemma triple_newObj_start (objID : Z) (E : PdfWriter -> Prop) :
  triple hash_inv (newObj objID false) (fun _ => open_inv) E.
Proof.
  intros pw ((H1 & H2 & H3) & Hh).
  destruct pw as [r0 k0 tpls0 n0 ostack dstack ids wobjs wpos cur coid toff uh].
  cbn in *. subst uh.
  unfold newObj, shaOfInt, bind, gets, deref, modify, ret.
  destruct (objID <? 0); cbn; (destruct r0 as [rd|]; cbn; [|exact I]).
  all: split; [|split; [reflexivity|]].
  all: try (split; [|split]; cbn;
            [ intros q bytes m off ref Hq Hm Href;
              destruct (decide (q = List.length ids)) as [->|Hne];
              [ rewrite H2 in Hq by lia; discriminate
              | rewrite lookup_insert_ne in Hm by congruence; eauto ]
            | intros q Hq; apply H2; rewrite length_app in Hq; cbn in Hq; lia
            | intros q [= <-]; rewrite length_app; cbn; lia ]).
  all: eexists _, _; cbn; split; [reflexivity|]; split; [apply H2; lia|];
    intros m off ref Hm Href; rewrite lookup_insert_eq in Hm;
    injection Hm as <-; rewrite lookup_empty in Href; discriminate.
Qed.

(** Ending an object: its buffer is emitted under its identifier. *)
Lemma triple_endObj (E : PdfWriter -> Prop) :
  triple open_inv endObj (fun _ => hash_inv) E.
Proof.
  unfold endObj. eapply triple_bind; [apply triple_out|]. intros ?.
  intros pw ((H1 & H2 & H3) & Hh & p & buf & Hcur & Hw & Hgood).
  destruct pw as [r0 k0 tpls0 n0 ostack dstack ids wobjs wpos cur coid toff uh].
  cbn in *. subst cur uh.
  unfold bind, gets, deref, modify, ret. cbn.
  split; [|reflexivity]. split; [|split]; cbn; auto.
  - intros q bytes m off ref Hq Hm Href.
    destruct (decide (q = p)) as [->|Hne].
    + rewrite lookup_insert_eq in Hq. injection Hq as <-. eauto.
    + rewrite lookup_insert_ne in Hq by congruence. eauto.
  - intros q Hq. specialize (H3 p eq_refl).
    rewrite lookup_insert_ne by lia. auto.
Qed.

(** A call on the reader changes the reader only. *)
Lemma triple_onReader {A} (P : PdfWriter -> Prop) (m : M PdfReader A) :
  (forall pw x, P pw -> P (set_r x pw)) ->
  triple P (onReader m) (fun _ => P) P.
Proof.
  intros Hr pw HP. unfold onReader.
  destruct (r pw) as [rd|]; [|exact I].
  destruct (m rd); auto.
Qed.

Ltac tbind Q := eapply (triple_bind _ _ (fun _ => Q)); [|intros ?].

Ltac topen :=
  lazymatch goal with
  | |- triple _ (bind _ _) _ _ =>
      eapply (triple_bind _ _ (fun _ => open_inv)); [topen | intros ?; topen]
  | |- triple _ (out _) _ _ => apply triple_out
  | |- triple _ (straightOut _) _ _ => apply triple_straightOut
  | |- triple _ (gets _) _ _ => apply triple_gets; intros ? Hopen; exact Hopen
  | |- triple _ (modify _) _ _ => apply triple_modify; intros ? Hopen; exact Hopen
  | |- triple _ (ret _) _ _ => apply triple_ret; intros ? Hopen; exact Hopen
  | |- triple _ (deref _) _ _ => apply triple_deref; intros ? ? _ Hopen; exact Hopen
  | |- triple _ panic _ _ => apply triple_panic
  | |- triple _ (if ?c then _ else _) _ _ => destruct c; topen
  | _ => idtac
  end.

(** Writing a reference allocates the new number of an object not seen
    before and writes the reference. *)
Lemma triple_writeObjRef (value : PdfValue) (E : PdfWriter -> Prop) :
  triple open_inv (writeObjRef value) (fun _ => open_inv) E.
Proof.
  unfold writeObjRef.
  eapply (triple_bind _ _ (fun _ => open_inv)); [topen|]. intros done.
  tbind open_inv.
  { destruct (done !! ID value); [topen|].
    tbind open_inv; [|topen].
    apply triple_newObj_reserve. intros pw x Hopen. exact Hopen. }
  topen. apply triple_outObjRef.
Qed.

Lemma triple_writeValue (v : PdfValue) :
  forall E, triple open_inv (writeValue v) (fun _ => open_inv) E.
Proof.
  induction v as [ty str tok i re b dict arr id nid gen val strm bytes Hdict Harr Hval Hstrm]
    using PdfValue_nested_ind.
  intros E. cbn [writeValue].
  repeat match goal with
         | |- triple _ (if ?c =? ?d then _ else _) _ _ => destruct (c =? d)
         end; topen.
  - induction Harr as [|x rest Hx Hrest IH]; [topen|].
    tbind open_inv; [apply Hx|apply IH].
  - induction Hdict as [|[key x] rest Hx Hrest IH]; [topen|].
    tbind open_inv; [apply triple_straightOut|].
    tbind open_inv; [apply Hx|apply IH].
  - apply triple_writeObjRef.
  - destruct val as [x|]; [|apply triple_panic]. apply Hval. reflexivity.
Qed.

Lemma hash_inv_pos_inv (pw : PdfWriter) : hash_inv pw -> pos_inv pw.
Proof. intros (Hpos & _). exact Hpos. Qed.

Lemma open_inv_pos_inv (pw : PdfWriter) : open_inv pw -> pos_inv pw.
Proof. intros (Hpos & _). exact Hpos. Qed.

Ltac thash :=
  lazymatch goal with
  | |- triple _ (gets _) _ _ => apply triple_gets; intros ? Hinv; exact Hinv
  | |- triple _ (modify _) _ _ => apply triple_modify; intros ? Hinv; exact Hinv
  | |- triple _ (ret _) _ _ => apply triple_ret; intros ? Hinv; exact Hinv
  | |- triple _ (deref _) _ _ => apply triple_deref; intros ? ? _ Hinv; exact Hinv
  | _ => idtac
  end.

(** One pass over the object stack emits each pending object. *)
Lemma triple_putImportedObjects_scan (fuel c : nat) :
  forall (i : Z) (atLeastOne : bool),
    triple hash_inv (putImportedObjects_scan fuel c i atLeastOne)
      (fun _ => hash_inv) pos_inv.
Proof.
  induction c as [|c IH]; intros i atLeastOne; cbn [putImportedObjects_scan]; [thash|].
  eapply (triple_bind _ _ (fun _ => hash_inv)); [thash|]. intros st.
  destruct (default None (st !! i)) as [v|]; [|apply IH].
  eapply (triple_bind _ _ (fun _ => hash_inv)).
  { eapply triple_weaken.
    - apply (triple_onReader hash_inv). intros pw x Hinv. exact Hinv.
    - auto.
    - cbn. auto.
    - apply hash_inv_pos_inv. }
  intros nObj.
  tbind open_inv; [apply triple_newObj_start|].
  tbind open_inv.
  { destruct (Type_ nObj =? PDFTypeStream); [apply triple_writeValue|].
    eapply (triple_bind _ _ (fun _ => open_inv)); [topen|].
    intros nv. apply triple_writeValue. }
  tbind hash_inv; [apply triple_endObj|].
  tbind hash_inv; [thash|].
  apply IH.
Qed.

Lemma triple_putImportedObjects (fuel : nat) :
  triple hash_inv (putImportedObjects fuel) (fun _ => hash_inv) pos_inv.
Proof.
  induction fuel as [|fuel IH]; cbn [putImportedObjects]; [apply triple_diverge|].
  eapply (triple_bind _ _ (fun _ => hash_inv));
    [apply triple_putImportedObjects_scan|].
  intros atLeastOne. destruct atLeastOne; cbn [negb]; [apply IH|thash].
Qed.

(** A template is emitted as one object, followed by its dependencies. *)
Lemma triple_putTemplate (fuel : nat) (i : Z) (tpl : PdfTemplate)
    (result : gmap string PdfObjectID) :
  triple hash_inv (putTemplate fuel i tpl result) (fun _ => hash_inv) pos_inv.
Proof.
  unfold putTemplate.
  tbind open_inv; [apply triple_newObj_start|].
  eapply (triple_bind _ _ (fun _ => open_inv)); [topen|]. intros cN.
  tbind open_inv; [topen|].
  eapply (triple_bind _ _ (fun _ => open_inv)).
  { eapply triple_weaken.
    - apply (triple_shaOfInt open_inv).
    - auto.
    - cbn. intros ? ? (Hopen & _). exact Hopen.
    - eauto. }
  intros h.
  eapply (triple_bind _ _ (fun _ => open_inv)); [topen|]. intros off.
  do 3 (tbind open_inv; [apply triple_out|]).
  eapply (triple_bind _ _ (fun _ => open_inv)); [topen|]. intros k0.
  tbind open_inv; [apply triple_out|].
  destruct (tplMatrix tpl) as [[[c s] tx] ty].
  tbind open_inv; [topen|].
  tbind open_inv; [apply triple_out|].
  destruct (tpl_Resources tpl) as [res|].
  2:{ apply triple_fail. apply open_inv_pos_inv. }
  tbind open_inv; [apply triple_writeValue|].
  eapply (triple_bind _ _ (fun _ => open_inv)); [topen|]. intros nN.
  tbind open_inv; [topen|].
  do 4 (tbind open_inv; [apply triple_out|]).
  tbind hash_inv; [apply triple_endObj|].
  tbind hash_inv; [thash|].
  tbind hash_inv; [apply triple_putImportedObjects|].
  thash.
Qed.

Lemma triple_PutFormXobjects_loop (fuel c : nat) :
  forall (i : Z) (result : gmap string PdfObjectID),
    triple hash_inv (PutFormXobjects_loop fuel c i result) (fun _ => hash_inv) pos_inv.
Proof.
  induction c as [|c IH]; intros i result; cbn [PutFormXobjects_loop]; [thash|].
  eapply (triple_bind _ _ (fun _ => hash_inv)); [thash|]. intros ts.
  eapply (triple_bind _ _ (fun _ => hash_inv)); [thash|]. intros tpl.
  eapply (triple_bind _ _ (fun _ => hash_inv)); [apply triple_putTemplate|].
  intros result'. apply IH.
Qed.

Lemma triple_PutFormXobjects (fuel : nat) (reader : PdfReader) :
  triple hash_inv (PutFormXobjects fuel reader) (fun _ => hash_inv) pos_inv.
Proof.
  unfold PutFormXobjects.
  tbind hash_inv; [thash|].
  eapply (triple_bind _ _ (fun _ => hash_inv)); [thash|]. intros ts.
  apply triple_PutFormXobjects_loop.
Qed.

(** The emission in hash mode keeps the recorded positions right, whether
    it succeeds or returns an error. *)
Lemma triple_PutFormXobjectsUnordered (fuel : nat) (reader : PdfReader) :
  triple pos_inv (PutFormXobjectsUnordered fuel reader) (fun _ => pos_inv) pos_inv.
Proof.
  unfold PutFormXobjectsUnordered, SetUseHash.
  tbind hash_inv.
  { apply triple_modify. intros pw Hpos. split; [exact Hpos|reflexivity]. }
  eapply (triple_bind _ _ (fun _ => hash_inv)); [apply triple_PutFormXobjects|].
  intros names. apply triple_ret. apply hash_inv_pos_inv.
Qed.

Lemma pos_inv_NewPdfWriter : pos_inv NewPdfWriter.
Proof.
  split; [|split]; cbn.
  - intros p bytes m off ref Hp. rewrite lookup_empty in Hp. discriminate.
  - intros p _. apply lookup_empty.
  - intros p Hp. discriminate.
Qed.

Lemma pos_inv_after_wcall (c : wcall) (pw pw' : PdfWriter) :
  pos_inv pw -> after_wcall c pw = Some pw' -> pos_inv pw'.
Proof.
  intros Hpos Hc. destruct c as [tpl|id|x| |fuel reader];
    [cbn in Hc; injection Hc as <- ..|unfold after_wcall in Hc].
  - exact Hpos.
  - exact Hpos.
  - exact Hpos.
  - destruct Hpos as (H1 & H2 & H3).
    split; [|split]; cbn.
    + intros p bytes m off ref Hp. rewrite lookup_empty in Hp. discriminate.
    + intros p _. apply lookup_empty.
    + exact H3.
  - pose proof (triple_PutFormXobjectsUnordered fuel reader pw Hpos) as Ht.
    destruct (PutFormXobjectsUnordered fuel reader pw); cbn in Hc;
      try discriminate; injection Hc as <-; exact Ht.
Qed.

Lemma pos_inv_after_wcalls (cs : list wcall) :
  forall pw pw', pos_inv pw -> after_wcalls cs pw = Some pw' -> pos_inv pw'.
Proof.
  induction cs as [|c cs IH]; intros pw pw' Hpos Hcs; cbn in Hcs.
  - injection Hcs as <-. exact Hpos.
  - destruct (after_wcall c pw) as [pw1|] eqn:Hc; [|discriminate].
    eapply IH; [|exact Hcs]. eapply pos_inv_after_wcall; eauto.
Qed.

End HashPositions.

Lemma string_app_length (a b : string) :
  String.length (a +:+ b) = (String.length a + String.length b)%nat.
Proof. induction a as [|c a IH]; simpl; [reflexivity|]. f_equal. exact IH. Qed.

Lemma bytes_of_string_app (a b : string) :
  bytes_of_string (a +:+ b) = bytes_of_string a ++ bytes_of_string b.
Proof. induction a as [|c a IH]; simpl; [reflexivity|]. f_equal. exact IH. Qed.

Lemma hex_fixed_length (w : nat) : forall n, String.length (hex_fixed w n) = w.
Proof.
  induction w as [|w IH]; intros n; cbn [hex_fixed]; [reflexivity|].
  rewrite string_app_length, IH. cbn. lia.
Qed.

Lemma hex_digit_lower (n : Z) : 0 <= n < 16 -> is_lower_hex_digit (hex_digit n) = true.
Proof.
  intros Hn. unfold is_lower_hex_digit, hex_digit.
  destruct (n <? 10) eqn:Hlt; rewrite byte_val_of, Z.mod_small by lia; lia.
Qed.

Lemma hex_fixed_lower (w : nat) : forall n, lower_hex (hex_fixed w n) = true.
Proof.
  induction w as [|w IH]; intros n; cbn [hex_fixed]; [reflexivity|].
  unfold lower_hex in *. rewrite bytes_of_string_app, forallb_app, IH. cbn.
  rewrite hex_digit_lower; [reflexivity|]. apply Z.mod_pos_bound. lia.
Qed.

Lemma stub_hash_spec (s : string) :
  String.length (stub_hash s) = 40%nat /\ lower_hex (stub_hash s) = true.
Proof. unfold stub_hash. split; [apply hex_fixed_length|apply hex_fixed_lower]. Qed.

(** What the importer stores under a hash comes from an allocated object
    with that hash. *)
Lemma rekey_by_hash_lookup {V} (ids : list PdfObjectID) (m : gmap nat V)
    (order : list nat) (h : string) (v : V) :
  rekey_by_hash ids m order !! h = Some v ->
  exists p pdfObjID,
    ids !! p = Some pdfObjID /\ oid_hash pdfObjID = h /\ m !! p = Some v.
Proof.
  unfold rekey_by_hash.
  assert (Hgen : forall (res : gmap string V),
             (forall h v, res !! h = Some v ->
                exists p pdfObjID,
                  ids !! p = Some pdfObjID /\ oid_hash pdfObjID = h /\ m !! p = Some v) ->
             forall h v,
               fold_left (fun res p =>
                            match ids !! p, m !! p with
                            | Some pdfObjID, Some v => <[oid_hash pdfObjID := v]> res
                            | _, _ => res
                            end) order res !! h = Some v ->
               exists p pdfObjID,
                 ids !! p = Some pdfObjID /\ oid_hash pdfObjID = h /\ m !! p = Some v).
  { induction order as [|q order IH]; intros res Hres h' v' Hl; cbn in Hl.
    - apply Hres. exact Hl.
    - eapply IH; [|exact Hl]. clear Hl h' v'. intros h' v' Hl.
      destruct (ids !! q) as [o|] eqn:Ho; [|apply Hres; exact Hl].
      destruct (m !! q) as [w|] eqn:Hw; [|apply Hres; exact Hl].
      destruct (decide (oid_hash o = h')) as [He|Hne].
      + rewrite <- He, lookup_insert_eq in Hl. injection Hl as <-. eauto.
      + rewrite lookup_insert_ne in Hl by exact Hne. apply Hres. exact Hl. }
  apply Hgen. intros h' v' Hl. rewrite lookup_empty in Hl. discriminate.
Qed.

(** Objects with distinct hashes: a hash names one allocated object. *)
Lemma hash_names_one (ids : list PdfObjectID) (p q : nat) (a b : PdfObjectID) :
  NoDup (oid_hash <$> ids) ->
  ids !! p = Some a -> ids !! q = Some b -> oid_hash a = oid_hash b -> p = q.
Proof.
  intros Hnd Hp Hq Heq.
  eapply NoDup_lookup; [exact Hnd| |].
  - rewrite list_lookup_fmap, Hp. reflexivity.
  - rewrite list_lookup_fmap, Hq. cbn. rewrite Heq. reflexivity.
Qed.




(** ** C1: objects beyond the range of the emission loop *)

(** C1.  The run of the importer on [far_pdf], whose page has the font
    [9999 0 R] in its resources: [PutFormXobjects] returns without error;
    the template is emitted as object 1 and holds the reference [2 0 R] at
    the recorded offset 111; no object 2 is emitted, the only emitted
    object is the template; and the font, with its new number 2, is still
    on the object stack, which the loop [for i := 0; i < 9999; i++] never
    reaches at index 9999. *)
Theorem PutFormXobjects_far_object_not_emitted :
  @after_calls stdStub far_calls Importer.NewImporter = Some far_imp1 /\
  @Importer.PutFormXobjects stdStub 100 far_imp1 = Ok far_names far_imp /\
  far_names !! "/GOFPDITPL0" = Some 1 /\
  Importer.GetImportedObjects far_imp !! 1 = Some far_template /\
  recorded_at (Importer.writer far_imp) 0 111 = Some (@sha1_hex stdStub "2-") /\
  take 6 (drop 111 far_template) = bytes_of_string "2 0 R " /\
  Importer.GetImportedObjects far_imp !! 2 = None /\
  dom (Importer.GetImportedObjects far_imp) = {[1]} /\
  pending_at (Importer.writer far_imp) 9999 = Some (9999, 2).
Proof. repeat split; vm_compute; reflexivity. Qed.

(** ** C2: a cross-reference table in two revisions *)

(** C2.  The reader of [revised_pdf], a document of 2267 bytes in two
    revisions.  [NewPdfReaderFromStream] runs [init] and [read] on the
    parser of the stream.  [findXref], which searches the last 1500 bytes,
    finds the table of the second revision, at 2141.  This table, read on
    its own, gives object 3 the offset 341, where the page with the media
    box [0 0 200 200] is, and object 4 the offset 412.  The whole read
    follows [/Prev 186] to the table of the first revision, whose row for
    object 3 replaces the entry: in the reader, object 4 has the offset 412
    of the second table and object 3 the offset 115 of the first.  Resolving
    object 3 then returns the page of the first revision, with the media
    box [0 0 100 100], and so does [GetPageBoxes]. *)
Theorem readXref_older_entry_overwrites :
  (forall fuel rs,
      @NewPdfReaderFromStream stdStub fuel rs
      = (do* init fuel in read fuel) (stream_parser rs)) /\
  List.length (bytes_of_string revised_pdf) = 2267%nat /\
  xrefPos_after (findXref 1000 (stream_parser (bytes_of_string revised_pdf))) = Some 2141 /\
  string_of_bytes (take 104 (drop 2141 (bytes_of_string revised_pdf)))
  = "xref
3 2
0000000341 00000 n 
0000000412 00000 n 
trailer
<< /Size 5 /Root 1 0 R /Info 4 0 R /Prev 186 >>" /\
  xref_after (readXref_sections 100
                (set_f_pos 2146 (stream_parser (bytes_of_string revised_pdf)))) 3
  = Some {[0 := 341]} /\
  string_of_bytes (take 63 (drop 341 (bytes_of_string revised_pdf)))
  = "3 0 obj
<< /Type /Page /Parent 2 0 R /MediaBox [0 0 200 200] >>" /\
  string_of_bytes (take 63 (drop 115 (bytes_of_string revised_pdf)))
  = "3 0 obj
<< /Type /Page /Parent 2 0 R /MediaBox [0 0 100 100] >>" /\
  @NewPdfReaderFromStream stdStub 1000 (bytes_of_string revised_pdf) = Ok tt revised_reader /\
  xref revised_reader !! 4 = Some {[0 := 412]} /\
  xref revised_reader !! 3 = Some {[0 := 115]} /\
  returned (@ResolveObject stdStub 100 (objref 3 0) revised_reader) = Some revised_page /\
  ints_of <$> entry_of revised_page "/MediaBox" = Some [0; 0; 100; 100] /\
  size_of (returned (@GetPageBoxes stdStub 100 1 1 revised_reader)) "/MediaBox"
  = Some (100%float, 100%float).
Proof.
  split; [reflexivity|].
  repeat split; vm_compute; reflexivity.
Qed.

(** ** C3: the box of a page that has a media box only *)

(** C3.  The writer on [plain_pdf], whose page has [/MediaBox [0 0 200 100]]
    and no other box: for [/MediaBox] and [/CropBox],
    [GetPDFBoxDimensions] returns the media box; for [/BleedBox],
    [/TrimBox] and [/ArtBox] it returns the crop box of the page as
    [GetAllPageBoxes] gives it, which is the empty map, with no error. *)
Theorem GetPDFBoxDimensions_no_second_fallback :
  returned (@Writer.GetPDFBoxDimensions stdStub 100 1 "/MediaBox" plain_pw)
  = Some (Some plain_media) /\
  map (fget plain_media) ["llx"; "lly"; "urx"; "ury"; "w"; "h"]
  = [0; 0; 200; 100; 200; 100]%float /\
  returned (@Writer.GetPDFBoxDimensions stdStub 100 1 "/CropBox" plain_pw)
  = Some (Some plain_media) /\
  returned (@Writer.GetPDFBoxDimensions stdStub 100 1 "/BleedBox" plain_pw)
  = Some (Some ∅) /\
  returned (@Writer.GetPDFBoxDimensions stdStub 100 1 "/TrimBox" plain_pw)
  = Some (Some ∅) /\
  returned (@Writer.GetPDFBoxDimensions stdStub 100 1 "/ArtBox" plain_pw)
  = Some (Some ∅) /\
  (∅ : Box) <> plain_media.
Proof.
  repeat split; try (vm_compute; reflexivity).
  intros Heq. apply (f_equal (fun m : Box => m !! "w")) in Heq.
  vm_compute in Heq. discriminate.
Qed.

(** * Further properties of the code *)

(** ** The helpers of the package [reader] *)

(** X1.  [abs] is the absolute value on every 64-bit [int] but the least
    one, which it returns unchanged (the negation overflows). *)
Theorem abs_absolute_value (x : Z) :
  minInt <= x <= maxInt ->
  abs x = if x =? minInt then minInt else Z.abs x.
Proof.
  intros Hx. unfold minInt, maxInt in *.
  destruct (Z.eqb_spec x (- 2 ^ 63)) as [->|Hne].
  - vm_compute. reflexivity.
  - apply abs_spec. lia.
Qed.

Lemma abs_absolute_value_witness :
  abs (-255) = 255 /\ abs minInt = minInt.
Proof.
  split.
  - apply (abs_absolute_value (-255)). unfold minInt, maxInt. lia.
  - apply (abs_absolute_value minInt). unfold minInt, maxInt. lia.
Defined.

(** ** The tokenizer *)

Lemma lx_rest_at (st : list string) (data : list ascii) (pos : nat) :
  lx_rest (lex_at st data pos) = drop pos data.
Proof. unfold lx_rest, lex_at. cbn. rewrite Nat2Z.id. reflexivity. Qed.

Lemma lx_move_at (st : list string) (data : list ascii) (pos k : nat) :
  lx_move (Z.of_nat k) (lex_at st data pos) = lex_at st data (pos + k).
Proof. unfold lx_move, lex_at. cbn. f_equal. lia. Qed.

Lemma ReadByte_at (st : list string) (data : list ascii) (pos : nat) :
  ReadByte (lex_at st data pos)
  = match data !! pos with
    | Some b => Ok (Some b) (lex_at st data (S pos))
    | None => Ok None (lex_at st data pos)
    end.
Proof.
  unfold ReadByte. rewrite lx_rest_at.
  destruct (data !! pos) as [b|] eqn:Hb.
  - rewrite (drop_S _ _ _ Hb). unfold lx_move, lex_at. cbn. do 2 f_equal. lia.
  - rewrite drop_ge by (apply lookup_ge_None; exact Hb). reflexivity.
Qed.

Lemma UnreadByte_at (st : list string) (data : list ascii) (pos : nat) :
  UnreadByte (lex_at st data (S pos)) = Ok tt (lex_at st data pos).
Proof. unfold UnreadByte, modify, lx_move, lex_at. cbn. do 2 f_equal. lia. Qed.

Lemma fuel_of_at (st : list string) (data : list ascii) (pos : nat) :
  fuel_of (lex_at st data pos) = S (List.length data - pos).
Proof. unfold fuel_of. rewrite lx_rest_at, length_drop. reflexivity. Qed.

(** [skipWhitespace] stops in front of the first byte that is not white
    space, or at the end of the input. *)
Lemma skipWhitespace_loop_at (st : list string) (data : list ascii) (k : nat) :
  forall (pos fuel : nat),
    (k < fuel)%nat ->
    (forall i, (pos <= i < pos + k)%nat -> exists b, data !! i = Some b /\ is_space b = true) ->
    (forall b, data !! (pos + k)%nat = Some b -> is_space b = false) ->
    skipWhitespace_loop fuel (lex_at st data pos) = Ok tt (lex_at st data (pos + k)).
Proof.
  induction k as [|k IH]; intros pos fuel Hfuel Hws Hend.
  - destruct fuel as [|fuel]; [lia|]. cbn [skipWhitespace_loop]. unfold bind.
    rewrite ReadByte_at. rewrite Nat.add_0_r in *.
    destruct (data !! pos) as [b|] eqn:Hb; [|reflexivity].
    specialize (Hend b eq_refl). unfold is_space in Hend. rewrite Hend.
    apply UnreadByte_at.
  - destruct fuel as [|fuel]; [lia|]. cbn [skipWhitespace_loop]. unfold bind.
    rewrite ReadByte_at.
    destruct (Hws pos ltac:(lia)) as (b & Hb & Hsp). rewrite Hb.
    unfold is_space in Hsp. rewrite Hsp.
    replace (pos + S k)%nat with (S pos + k)%nat by lia.
    apply IH; [lia| |].
    + intros i Hi. apply Hws. lia.
    + intros b' Hb'. apply Hend. replace (pos + S k)%nat with (S pos + k)%nat by lia.
      exact Hb'.
Qed.

Lemma readToken_chars_at (st : list string) (data : list ascii) (w : list ascii) :
  forall (pos fuel : nat) (str : string) (d : ascii),
    (List.length w < fuel)%nat ->
    (forall i b, w !! i = Some b -> data !! (pos + i)%nat = Some b /\ is_delim b = false) ->
    data !! (pos + List.length w)%nat = Some d ->
    is_delim d = true ->
    readToken_chars fuel str (lex_at st data pos)
    = Ok (token_text str w) (lex_at st data (pos + List.length w)).
Proof.
  induction w as [|b w IH]; intros pos fuel str d Hfuel Hw Hd Hdelim.
  - destruct fuel as [|fuel]; [cbn in Hfuel; lia|].
    cbn [readToken_chars]. unfold bind. rewrite ReadByte_at.
    cbn [List.length] in *. rewrite Nat.add_0_r in *. rewrite Hd, Hdelim.
    rewrite UnreadByte_at. reflexivity.
  - destruct fuel as [|fuel]; [cbn in Hfuel; lia|].
    cbn [readToken_chars]. unfold bind. rewrite ReadByte_at.
    destruct (Hw 0%nat b eq_refl) as [Hb Hnd]. rewrite Nat.add_0_r in Hb.
    rewrite Hb, Hnd. cbn [List.length] in *.
    replace (pos + S (List.length w))%nat with (S pos + List.length w)%nat in * by lia.
    apply (IH (S pos) fuel _ d); [lia| |exact Hd|exact Hdelim].
    intros i b' Hi. replace (S pos + i)%nat with (pos + S i)%nat by lia.
    apply (Hw (S i) b'). exact Hi.
Qed.

Lemma lookup_in_parts (pre ws : list ascii) (rest : list ascii) (i : nat) :
  (pre ++ ws ++ rest) !! (List.length pre + List.length ws + i)%nat = rest !! i.
Proof.
  rewrite <- Nat.add_assoc, lookup_app_r by lia.
  replace (List.length pre + (List.length ws + i) - List.length pre)%nat
    with (List.length ws + i)%nat by lia.
  rewrite lookup_app_r by lia. f_equal. lia.
Qed.

Lemma lookup_in_ws (pre ws : list ascii) (rest : list ascii) (i : nat) :
  (List.length pre <= i < List.length pre + List.length ws)%nat ->
  (pre ++ ws ++ rest) !! i = ws !! (i - List.length pre)%nat.
Proof.
  intros Hi. rewrite lookup_app_r by lia. rewrite lookup_app_l by lia. reflexivity.
Qed.

Lemma skipWhitespace_at (st : list string) (pre ws rest : list ascii) :
  Forall (fun b => is_space b = true) ws ->
  (forall b, head rest = Some b -> is_space b = false) ->
  skipWhitespace (lex_at st (pre ++ ws ++ rest) (List.length pre))
  = Ok tt (lex_at st (pre ++ ws ++ rest) (List.length pre + List.length ws)).
Proof.
  intros Hws Hrest. unfold skipWhitespace. rewrite fuel_of_at.
  apply skipWhitespace_loop_at.
  - rewrite !length_app. lia.
  - intros i Hi. rewrite lookup_in_ws by lia.
    destruct (ws !! (i - List.length pre)%nat) as [b|] eqn:Hb.
    + exists b. split; [reflexivity|].
      exact (Forall_lookup_1 _ _ _ _ Hws Hb).
    + apply lookup_ge_None in Hb. lia.
  - intros b Hb.
    replace (List.length pre + List.length ws)%nat
      with (List.length pre + List.length ws + 0)%nat in Hb by lia.
    rewrite lookup_in_parts in Hb. apply Hrest. destruct rest; [discriminate|exact Hb].
Qed.

Lemma is_delim_not_space (b : ascii) : is_delim b = false -> is_space b = false.
Proof.
  unfold is_delim, is_space. intros Hd.
  repeat (apply orb_false_elim in Hd as [Hd ?]).
  repeat (apply orb_false_intro); assumption.
Qed.

(** The plain-token case of [readToken], for any recursion budget. *)
Lemma readToken_go_plain (fuel : nat) (pre ws w tail : list ascii) (c d : ascii) :
  Forall (fun b => is_space b = true) ws ->
  is_space c = false -> is_special c = false ->
  Forall (fun b => is_delim b = false) w ->
  is_delim d = true ->
  readToken_go (S fuel) (lex_at [] (pre ++ ws ++ c :: w ++ d :: tail) (List.length pre))
  = Ok (token_text (string_of_rune_byte c) w)
       (lex_at [] (pre ++ ws ++ c :: w ++ d :: tail)
          (List.length pre + List.length ws + 1 + List.length w)).
Proof.
  intros Hws Hc Hsp Hw Hd.
  set (data := pre ++ ws ++ c :: w ++ d :: tail).
  cbn [readToken_go]. unfold bind, gets. cbn [lx_stack lex_at].
  unfold data at 1. rewrite skipWhitespace_at; [|exact Hws|intros b [= <-]; exact Hc].
  fold data. rewrite ReadByte_at.
  assert (Hat : forall i, data !! (List.length pre + List.length ws + i)%nat
                          = (c :: w ++ d :: tail) !! i)
    by (intros i; apply lookup_in_parts).
  pose proof (Hat 0%nat) as H0. rewrite Nat.add_0_r in H0. rewrite H0. cbn [lookup list_lookup].
  unfold is_special in Hsp.
  repeat (apply orb_false_elim in Hsp as [Hsp ?]).
  repeat match goal with Hx : beq c _ = false |- _ => rewrite Hx; clear Hx end.
  cbn [orb]. unfold get. rewrite fuel_of_at.
  replace (List.length pre + List.length ws + 1 + List.length w)%nat
    with (S (List.length pre + List.length ws) + List.length w)%nat by lia.
  apply (readToken_chars_at [] data w _ _ _ d).
  - unfold data. rewrite !length_app. cbn [List.length]. rewrite length_app. cbn. lia.
  - intros i b Hb. split.
    + replace (S (List.length pre + List.length ws) + i)%nat
        with (List.length pre + List.length ws + S i)%nat by lia.
      rewrite Hat, lookup_cons.
      rewrite lookup_app_l by (eapply lookup_lt_Some; exact Hb). exact Hb.
    + exact (Forall_lookup_1 _ _ _ _ Hw Hb).
  - replace (S (List.length pre + List.length ws) + List.length w)%nat
      with (List.length pre + List.length ws + S (List.length w))%nat by lia.
    rewrite Hat, lookup_cons. rewrite lookup_app_r by lia.
    replace (List.length w - List.length w)%nat with 0%nat by lia. reflexivity.
  - exact Hd.
Qed.

(** X2.  Maximal munch: with an empty pushback stack, in front of white
    space [ws], a plain token (a first byte [c] that is neither white space
    nor one of [[ ] ( ) < > %], then bytes [w] none of which is a delimiter)
    and a delimiter [d], [readToken] returns the text of [c :: w] and leaves
    the reader in front of [d]. *)
Theorem readToken_plain (pre ws w tail : list ascii) (c d : ascii) :
  Forall (fun b => is_space b = true) ws ->
  is_space c = false -> is_special c = false ->
  Forall (fun b => is_delim b = false) w ->
  is_delim d = true ->
  readToken (lex_at [] (pre ++ ws ++ c :: w ++ d :: tail) (List.length pre))
  = Ok (token_text (string_of_rune_byte c) w)
       (lex_at [] (pre ++ ws ++ c :: w ++ d :: tail)
          (List.length pre + List.length ws + 1 + List.length w)).
Proof.
  intros Hws Hc Hsp Hw Hd. unfold readToken. rewrite fuel_of_at.
  apply readToken_go_plain; assumption.
Qed.

Lemma readToken_plain_witness :
  readToken (lex_at [] (bytes_of_string "<<  /Type/Page") 2)
  = Ok "/Type" (lex_at [] (bytes_of_string "<<  /Type/Page") 9).
Proof.
  apply (readToken_plain (bytes_of_string "<<") (bytes_of_string "  ")
           (bytes_of_string "Type") (bytes_of_string "Page") "/"%char "/"%char).
  - repeat constructor.
  - reflexivity.
  - reflexivity.
  - repeat constructor.
  - reflexivity.
Defined.

Lemma readToken_chars_end (st : list string) (data : list ascii) (w : list ascii) :
  forall (pos fuel : nat) (str : string),
    (List.length w < fuel)%nat ->
    (forall i b, w !! i = Some b -> data !! (pos + i)%nat = Some b /\ is_delim b = false) ->
    data !! (pos + List.length w)%nat = None ->
    readToken_chars fuel str (lex_at st data pos)
    = Err "Failed to read byte" (lex_at st data (pos + List.length w)).
Proof.
  induction w as [|b w IH]; intros pos fuel str Hfuel Hw Hd.
  - destruct fuel as [|fuel]; [cbn in Hfuel; lia|].
    cbn [readToken_chars]. unfold bind. rewrite ReadByte_at.
    cbn [List.length] in *. rewrite Nat.add_0_r in *. rewrite Hd. reflexivity.
  - destruct fuel as [|fuel]; [cbn in Hfuel; lia|].
    cbn [readToken_chars]. unfold bind. rewrite ReadByte_at.
    destruct (Hw 0%nat b eq_refl) as [Hb Hnd]. rewrite Nat.add_0_r in Hb.
    rewrite Hb, Hnd. cbn [List.length] in *.
    replace (pos + S (List.length w))%nat with (S pos + List.length w)%nat in * by lia.
    apply (IH (S pos) fuel _); [lia| |exact Hd].
    intros i b' Hi. replace (S pos + i)%nat with (pos + S i)%nat by lia.
    apply (Hw (S i) b'). exact Hi.
Qed.

(** When only white space is left, [readToken] returns the empty token
    at the end of the input. *)
Lemma readToken_blank_tail (pre ws : list ascii) :
  Forall (fun b => is_space b = true) ws ->
  readToken (lex_at [] (pre ++ ws) (List.length pre))
  = Ok "" (lex_at [] (pre ++ ws) (List.length pre + List.length ws)).
Proof.
  intros Hws.
  unfold readToken. rewrite fuel_of_at. cbn [readToken_go]. unfold bind, gets.
  cbn [lx_stack lex_at].
  rewrite <- (app_nil_r ws) at 1 2.
  rewrite skipWhitespace_at; [|exact Hws|intros b [=]].
  rewrite app_nil_r. rewrite ReadByte_at.
  rewrite (proj2 (lookup_ge_None _ _)) by (rewrite length_app; lia).
  reflexivity.
Qed.

(** X3.  At the end of the input: when only white space is left,
    [readToken] returns the empty token with a nil error; a plain token that
    runs to the end of the input, with no delimiter after it, is an error
    (the token is not returned). *)
Theorem readToken_end_of_input (pre ws : list ascii) :
  Forall (fun b => is_space b = true) ws ->
  readToken (lex_at [] (pre ++ ws) (List.length pre))
  = Ok "" (lex_at [] (pre ++ ws) (List.length pre + List.length ws)) /\
  forall (c : ascii) (w : list ascii),
    is_space c = false -> is_special c = false ->
    Forall (fun b => is_delim b = false) w ->
    exists e,
      readToken (lex_at [] (pre ++ ws ++ c :: w) (List.length pre))
      = Err e
          (lex_at [] (pre ++ ws ++ c :: w)
             (List.length pre + List.length ws + 1 + List.length w)).
Proof.
  intros Hws. split.
  - apply readToken_blank_tail. exact Hws.
  - intros c w Hc Hsp Hw. exists "Failed to read byte".
    set (data := pre ++ ws ++ c :: w).
    unfold readToken. rewrite fuel_of_at. cbn [readToken_go]. unfold bind, gets.
    cbn [lx_stack lex_at].
    unfold data at 1. rewrite skipWhitespace_at; [|exact Hws|intros b [= <-]; exact Hc].
    fold data. rewrite ReadByte_at.
    assert (Hat : forall i, data !! (List.length pre + List.length ws + i)%nat
                            = (c :: w) !! i)
      by (intros i; apply lookup_in_parts).
    pose proof (Hat 0%nat) as H0. rewrite Nat.add_0_r in H0. rewrite H0.
    cbn [lookup list_lookup].
    unfold is_special in Hsp.
    repeat (apply orb_false_elim in Hsp as [Hsp ?]).
    repeat match goal with Hx : beq c _ = false |- _ => rewrite Hx; clear Hx end.
    cbn [orb]. unfold get. rewrite fuel_of_at.
    replace (List.length pre + List.length ws + 1 + List.length w)%nat
      with (S (List.length pre + List.length ws) + List.length w)%nat by lia.
    apply (readToken_chars_end [] data w).
    + unfold data. rewrite !length_app. cbn [List.length]. lia.
    + intros i b Hb. split.
      * replace (S (List.length pre + List.length ws) + i)%nat
          with (List.length pre + List.length ws + S i)%nat by lia.
        rewrite Hat, lookup_cons. exact Hb.
      * exact (Forall_lookup_1 _ _ _ _ Hw Hb).
    + replace (S (List.length pre + List.length ws) + List.length w)%nat
        with (List.length pre + List.length ws + S (List.length w))%nat by lia.
      rewrite Hat, lookup_cons. apply lookup_ge_None. lia.
Qed.

Lemma readToken_end_of_input_witness :
  readToken (lex_at [] (bytes_of_string "%%EOF  ") 5)
  = Ok "" (lex_at [] (bytes_of_string "%%EOF  ") 7) /\
  exists e, readToken (lex_at [] (bytes_of_string "startxref 412") 9)
            = Err e (lex_at [] (bytes_of_string "startxref 412") 13).
Proof.
  split.
  - apply (proj1 (readToken_end_of_input (bytes_of_string "%%EOF") (bytes_of_string "  ")
                    ltac:(repeat constructor))).
  - apply (proj2 (readToken_end_of_input (bytes_of_string "startxref") (bytes_of_string " ")
                    ltac:(repeat constructor)) "4"%char (bytes_of_string "12"));
      [reflexivity | reflexivity | repeat constructor].
Defined.

(** [skipWhitespace] and [skipComments] only move forward. *)
Lemma skipWhitespace_loop_lands (st : list string) (data : list ascii) (fuel : nat) :
  forall pos, (List.length data - pos < fuel)%nat ->
    exists pos', (pos <= pos')%nat /\
      skipWhitespace_loop fuel (lex_at st data pos) = Ok tt (lex_at st data pos').
Proof.
  induction fuel as [|fuel IH]; intros pos Hfuel; [lia|].
  cbn [skipWhitespace_loop]. unfold bind. rewrite ReadByte_at.
  destruct (data !! pos) as [b|] eqn:Hb.
  - destruct (beq b " " || beq b (ch 10) || beq b (ch 13) || beq b (ch 9)).
    + pose proof (lookup_lt_Some _ _ _ Hb).
      destruct (IH (S pos) ltac:(lia)) as (pos' & Hle & Hrun).
      exists pos'. split; [lia|exact Hrun].
    + exists pos. split; [lia|apply UnreadByte_at].
  - exists pos. split; [lia|reflexivity].
Qed.

Lemma skipComments_loop_lands (st : list string) (data : list ascii) (fuel : nat) :
  forall pos, (List.length data - pos < fuel)%nat ->
    (exists pos', (pos < pos')%nat /\
       skipComments_loop fuel (lex_at st data pos) = Ok tt (lex_at st data pos')) \/
    (exists e l, skipComments_loop fuel (lex_at st data pos) = Err e l).
Proof.
  induction fuel as [|fuel IH]; intros pos Hfuel; [lia|].
  cbn [skipComments_loop]. unfold bind. rewrite ReadByte_at.
  destruct (data !! pos) as [b|] eqn:Hb; [|right; eauto].
  pose proof (lookup_lt_Some _ _ _ Hb).
  destruct (beq b (ch 10) || beq b (ch 13)).
  - destruct (beq b (ch 13)).
    + rewrite ReadByte_at. destruct (data !! S pos) as [b2|]; [|right; eauto].
      destruct (negb (beq b2 (ch 10))).
      * left. exists (S pos). split; [lia|apply UnreadByte_at].
      * left. exists (S (S pos)). split; [lia|reflexivity].
    + left. exists (S pos). split; [lia|reflexivity].
  - destruct (IH (S pos) ltac:(lia)) as [(pos' & Hlt & Hrun)|Herr].
    + left. exists pos'. split; [lia|exact Hrun].
    + right. exact Herr.
Qed.

(** The recursion budget of [readToken] does not matter once it exceeds
    the number of bytes left. *)
Lemma readToken_go_fuel (data : list ascii) (n : nat) :
  forall (m pos : nat) (st : list string),
    (List.length data - pos < n)%nat -> (List.length data - pos < m)%nat ->
    readToken_go n (lex_at st data pos) = readToken_go m (lex_at st data pos).
Proof.
  induction n as [|n IH]; intros m pos st' Hn Hm; [lia|].
  destruct m as [|m]; [lia|].
  cbn [readToken_go]. unfold bind, gets. cbn [lx_stack lex_at].
  destruct st' as [|t st']; [|reflexivity].
  unfold skipWhitespace. rewrite fuel_of_at.
  destruct (skipWhitespace_loop_lands [] data (S (List.length data - pos)) pos ltac:(lia))
    as (pos1 & Hle & ->).
  rewrite ReadByte_at. destruct (data !! pos1) as [b|] eqn:Hb; [|reflexivity].
  pose proof (lookup_lt_Some _ _ _ Hb).
  destruct (beq b "[" || beq b "]" || beq b "(" || beq b ")"); [reflexivity|].
  destruct (beq b "<" || beq b ">"); [reflexivity|].
  destruct (beq b "%"); [|reflexivity].
  unfold skipComments. rewrite fuel_of_at.
  destruct (skipComments_loop_lands [] data (S (List.length data - S pos1)) (S pos1)
              ltac:(lia)) as [(pos2 & Hlt & ->)|(e & l & ->)]; [|reflexivity].
  apply IH; lia.
Qed.

Lemma skipComments_loop_line (st : list string) (data : list ascii) (cm : list ascii) :
  forall (pos fuel : nat),
    (List.length cm < fuel)%nat ->
    (forall i b, cm !! i = Some b ->
       data !! (pos + i)%nat = Some b /\ beq b (ch 10) = false /\ beq b (ch 13) = false) ->
    data !! (pos + List.length cm)%nat = Some (ch 10) ->
    skipComments_loop fuel (lex_at st data pos)
    = Ok tt (lex_at st data (pos + List.length cm + 1)).
Proof.
  induction cm as [|b cm IH]; intros pos fuel Hfuel Hcm Hnl.
  - destruct fuel as [|fuel]; [cbn in Hfuel; lia|].
    cbn [skipComments_loop]. unfold bind. rewrite ReadByte_at.
    cbn [List.length] in *. rewrite Nat.add_0_r in *. rewrite Hnl.
    cbn. do 2 f_equal. lia.
  - destruct fuel as [|fuel]; [cbn in Hfuel; lia|].
    cbn [skipComments_loop]. unfold bind. rewrite ReadByte_at.
    destruct (Hcm 0%nat b eq_refl) as (Hb & H10 & H13). rewrite Nat.add_0_r in Hb.
    rewrite Hb, H10, H13. cbn [orb List.length] in *.
    replace (pos + S (List.length cm) + 1)%nat with (S pos + List.length cm + 1)%nat by lia.
    apply IH; [lia| |].
    + intros i b' Hi. replace (S pos + i)%nat with (pos + S i)%nat by lia.
      apply (Hcm (S i) b'). exact Hi.
    + replace (S pos + List.length cm)%nat with (pos + S (List.length cm))%nat by lia.
      exact Hnl.
Qed.

(** X4.  Comments are skipped: with an empty pushback stack, in front of
    white space, a [%], bytes without a line end and a line feed,
    [readToken] returns what it returns after the line feed. *)
Theorem readToken_comment (pre ws cm rest : list ascii) :
  Forall (fun b => is_space b = true) ws ->
  Forall (fun b => beq b (ch 10) = false /\ beq b (ch 13) = false) cm ->
  readToken (lex_at [] (pre ++ ws ++ "%"%char :: cm ++ ch 10 :: rest) (List.length pre))
  = readToken (lex_at [] (pre ++ ws ++ "%"%char :: cm ++ ch 10 :: rest)
                 (List.length pre + List.length ws + 1 + List.length cm + 1)).
Proof.
  intros Hws Hcm.
  set (data := pre ++ ws ++ "%"%char :: cm ++ ch 10 :: rest).
  assert (Hlen : List.length data
                 = (List.length pre + List.length ws + 1 + List.length cm + 1
                    + List.length rest)%nat).
  { unfold data. rewrite !length_app. cbn [List.length]. rewrite length_app.
    cbn [List.length]. lia. }
  unfold readToken at 1. rewrite fuel_of_at. cbn [readToken_go]. unfold bind, gets.
  cbn [lx_stack lex_at].
  unfold data at 1. rewrite skipWhitespace_at; [|exact Hws|intros b [= <-]; reflexivity].
  fold data. rewrite ReadByte_at.
  assert (Hat : forall i, data !! (List.length pre + List.length ws + i)%nat
                          = ("%"%char :: cm ++ ch 10 :: rest) !! i)
    by (intros i; apply lookup_in_parts).
  pose proof (Hat 0%nat) as H0. rewrite Nat.add_0_r in H0. rewrite H0.
  cbn [lookup list_lookup].
  change (beq "%" "[" || beq "%" "]" || beq "%" "(" || beq "%" ")") with false.
  change (beq "%" "<" || beq "%" ">") with false.
  change (beq "%" "%") with true. cbn match.
  unfold skipComments. rewrite fuel_of_at.
  rewrite (skipComments_loop_line [] data cm).
  - replace (S (List.length pre + List.length ws) + List.length cm + 1)%nat
      with (List.length pre + List.length ws + 1 + List.length cm + 1)%nat by lia.
    unfold readToken. rewrite fuel_of_at. apply readToken_go_fuel; lia.
  - lia.
  - intros i b Hb.
    replace (S (List.length pre + List.length ws) + i)%nat
      with (List.length pre + List.length ws + S i)%nat by lia.
    rewrite Hat, lookup_cons.
    rewrite lookup_app_l by (eapply lookup_lt_Some; exact Hb).
    split; [exact Hb|]. exact (Forall_lookup_1 _ _ _ _ Hcm Hb).
  - replace (S (List.length pre + List.length ws) + List.length cm)%nat
      with (List.length pre + List.length ws + S (List.length cm))%nat by lia.
    rewrite Hat, lookup_cons. rewrite lookup_app_r by lia.
    replace (List.length cm - List.length cm)%nat with 0%nat by lia. reflexivity.
Qed.

Lemma readToken_comment_witness :
  readToken (lex_at [] (bytes_of_string "1 % a comment
0 obj") 1)
  = readToken (lex_at [] (bytes_of_string "1 % a comment
0 obj") 14).
Proof.
  apply (readToken_comment (bytes_of_string "1") (bytes_of_string " ")
           (bytes_of_string " a comment") (bytes_of_string "0 obj")).
  - repeat constructor.
  - repeat constructor.
Defined.

(** ** [isNumeric] and the value parser *)

Lemma bytes_of_string_of_bytes (l : list ascii) : bytes_of_string (string_of_bytes l) = l.
Proof. apply list_ascii_of_string_of_list_ascii. Qed.

Lemma is_digit_cases (c : ascii) :
  is_digit c = true ->
  c = "0"%char \/ c = "1"%char \/ c = "2"%char \/ c = "3"%char \/ c = "4"%char \/
  c = "5"%char \/ c = "6"%char \/ c = "7"%char \/ c = "8"%char \/ c = "9"%char.
Proof.
  destruct c as [[] [] [] [] [] [] [] []]; vm_compute; intros Hd;
    try discriminate Hd; tauto.
Qed.

Lemma asciiSpace_cases (c : ascii) :
  asciiSpace c = true ->
  c = ch 9 \/ c = ch 10 \/ c = ch 11 \/ c = ch 12 \/ c = ch 13 \/ c = " "%char.
Proof.
  destruct c as [[] [] [] [] [] [] [] []]; vm_compute; intros Hd;
    try discriminate Hd; tauto.
Qed.

Ltac digit_cases H :=
  apply is_digit_cases in H;
  destruct H as [->|[->|[->|[->|[->|[->|[->|[->|[->| ->]]]]]]]]].

(** A digit or a sign starts no white space, and a digit ends none. *)
Lemma leading_space_plain (c : ascii) (rest : list ascii) :
  is_digit c = true \/ c = "-"%char \/ c = "+"%char ->
  leading_space (c :: rest) = 0%nat.
Proof.
  intros [Hd|[->| ->]]; [|reflexivity..].
  digit_cases Hd; reflexivity.
Qed.

Lemma trailing_space_digit (c : ascii) (rest : list ascii) :
  is_digit c = true -> trailing_space (c :: rest) = 0%nat.
Proof.
  intros Hd. unfold trailing_space. cbn [map].
  destruct (map byte_val rest) as [|r1 r];
    digit_cases Hd; try reflexivity; cbv beta iota;
    repeat match goal with
           | |- context [match ?x with _ => _ end] => is_var x; destruct x
           end; reflexivity.
Qed.

Lemma trim_left_none (fuel : nat) (l : list ascii) :
  leading_space l = 0%nat -> trim_left fuel l = l.
Proof. intros Hl. destruct fuel; cbn [trim_left]; [reflexivity|]. rewrite Hl. reflexivity. Qed.

Lemma trim_right_rev_none (fuel : nat) (l : list ascii) :
  trailing_space l = 0%nat -> trim_right_rev fuel l = l.
Proof.
  intros Hl. destruct fuel; cbn [trim_right_rev]; [reflexivity|]. rewrite Hl. reflexivity.
Qed.

Lemma isNumeric_loop_digits (ds : list ascii) :
  Forall (fun c => is_digit c = true) ds ->
  forall i p s l, isNumeric_loop ds i p s l = true.
Proof.
  induction 1 as [|c ds Hc Hds IH]; intros i p s l; cbn [isNumeric_loop]; [reflexivity|].
  rewrite Hc. digit_cases Hc; cbn; apply IH.
Qed.

Lemma TrimSpace_number (sign ds : list ascii) :
  sign = [] \/ sign = ["-"%char] \/ sign = ["+"%char] ->
  ds <> [] ->
  Forall (fun c => is_digit c = true) ds ->
  TrimSpace (string_of_bytes (sign ++ ds)) = string_of_bytes (sign ++ ds).
Proof.
  intros Hsign Hne Hds. unfold TrimSpace. rewrite bytes_of_string_of_bytes.
  assert (Hlead : leading_space (sign ++ ds) = 0%nat).
  { destruct ds as [|d ds]; [contradiction|]. inversion Hds; subst.
    destruct Hsign as [->|[->| ->]]; cbn [app]; apply leading_space_plain; auto. }
  rewrite trim_left_none by exact Hlead.
  assert (Htrail : trailing_space (rev (sign ++ ds)) = 0%nat).
  { destruct (exists_last Hne) as (ds' & d & ->).
    rewrite app_assoc, rev_unit. apply trailing_space_digit.
    apply Forall_app in Hds as [_ Hd]. inversion Hd; subst. assumption. }
  rewrite trim_right_rev_none by exact Htrail.
  rewrite rev_involutive. reflexivity.
Qed.

(** X5.  [isNumeric] accepts every decimal integer: a string of one or
    more digits, with or without a sign in front. *)
Theorem isNumeric_decimal (sign ds : list ascii) :
  sign = [] \/ sign = ["-"%char] \/ sign = ["+"%char] ->
  ds <> [] ->
  Forall (fun c => is_digit c = true) ds ->
  isNumeric (string_of_bytes (sign ++ ds)) = Some true.
Proof.
  intros Hsign Hne Hds. unfold isNumeric.
  rewrite (TrimSpace_number sign ds Hsign Hne Hds), bytes_of_string_of_bytes.
  destruct ds as [|d ds]; [contradiction|].
  assert (Hstr : string_of_bytes (sign ++ d :: ds) <> "")
    by (destruct Hsign as [->|[->| ->]]; discriminate).
  apply String.eqb_neq in Hstr. rewrite Hstr.
  pose proof Hds as Hall. inversion Hds as [|? ? Hd Hrest]; subst.
  assert (Hd_sign : beq d "-" || beq d "+" = false).
  { clear -Hd. digit_cases Hd; reflexivity. }
  assert (Hbody : match d :: ds with
                  | z :: x :: (_ :: _) as digits =>
                      if beq z "0" && (beq x "x" || beq x "X")
                      then Some (forallb is_hex_digit digits)
                      else Some (isNumeric_loop (d :: ds) 0 0 0
                                   (Z.of_nat (List.length (d :: ds))))
                  | _ => Some (isNumeric_loop (d :: ds) 0 0 0
                                 (Z.of_nat (List.length (d :: ds))))
                  end = Some true).
  { destruct ds as [|x [|y ds]]; try (rewrite isNumeric_loop_digits by exact Hall; reflexivity).
    assert (Hx : beq x "x" || beq x "X" = false).
    { inversion Hrest as [|? ? Hxd _]; subst. clear -Hxd. digit_cases Hxd; reflexivity. }
    rewrite Hx, andb_false_r. rewrite isNumeric_loop_digits by exact Hall. reflexivity. }
  destruct Hsign as [->|[->| ->]]; cbn [app].
  - rewrite Hd_sign. cbn [andb]. exact Hbody.
  - cbn [beq Ascii.eqb]. cbn. exact Hbody.
  - cbn. exact Hbody.
Qed.

Lemma isNumeric_decimal_witness :
  isNumeric "-2048" = Some true.
Proof.
  apply (isNumeric_decimal ["-"%char] (bytes_of_string "2048")).
  - right. left. reflexivity.
  - discriminate.
  - repeat constructor.
Defined.

Lemma leading_space_blank (c : ascii) (rest : list ascii) :
  asciiSpace c = true -> leading_space (c :: rest) = 1%nat.
Proof.
  intros Hc. apply asciiSpace_cases in Hc.
  destruct Hc as [->|[->|[->|[->|[->| ->]]]]]; reflexivity.
Qed.

Lemma trim_left_blank (l : list ascii) :
  Forall (fun c => asciiSpace c = true) l ->
  forall fuel, (List.length l <= fuel)%nat -> trim_left fuel l = [].
Proof.
  induction 1 as [|c l Hc Hl IH]; intros fuel Hfuel.
  - destruct fuel; reflexivity.
  - destruct fuel as [|fuel]; [cbn in Hfuel; lia|].
    cbn [trim_left]. rewrite (leading_space_blank c l Hc).
    cbn [skipn]. apply IH. cbn in Hfuel. lia.
Qed.

Lemma bytes_of_string_length' (s : string) :
  List.length (bytes_of_string s) = String.length s.
Proof. induction s as [|c s IH]; cbn; [reflexivity|]. f_equal. exact IH. Qed.

(** On a string that is not empty and holds white space only, [isNumeric]
    panics: [TrimSpace] empties the string and [str[0]] is out of range. *)
Lemma isNumeric_blank (t : string) :
  t <> "" ->
  Forall (fun c => asciiSpace c = true) (bytes_of_string t) ->
  isNumeric t = None.
Proof.
  intros Hne Hblank. unfold isNumeric.
  apply String.eqb_neq in Hne. rewrite Hne.
  unfold TrimSpace.
  rewrite (trim_left_blank _ Hblank) by (rewrite bytes_of_string_length'; lia).
  reflexivity.
Qed.

Section BlankToken.
Context `{GoStd}.

(** X6.  A token that is not empty and holds only ASCII white space,
    which [strings.TrimSpace] removes: tab, line feed, vertical tab, form
    feed, carriage return and space (such as a lone form feed, which
    [readToken] returns as a token because it is neither white space nor a
    delimiter for it) makes [readValue] panic: [isNumeric] indexes the
    trimmed, empty string. *)
Theorem readValue_blank_token_panics (fuel : nat) (t : string) (l : Lex) :
  t <> "" ->
  Forall (fun c => asciiSpace c = true) (bytes_of_string t) ->
  readValue (S fuel) t l = Panic.
Proof.
  intros Hne Hblank.
  assert (Hfirst : exists c rest, t = String c rest /\ asciiSpace c = true).
  { destruct t as [|c rest]; [contradiction|]. exists c, rest. split; [reflexivity|].
    inversion Hblank; subst. assumption. }
  destruct Hfirst as (c & rest & -> & Hc).
  cbn [readValue].
  assert (Hkw : forall kw, In kw ["<"; "<<"; "["; "("; "stream"] ->
                           String.eqb (String c rest) kw = false).
  { intros kw Hkw. apply String.eqb_neq. intros Heq.
    apply asciiSpace_cases in Hc.
    cbn in Hkw.
    destruct Hkw as [<-|[<-|[<-|[<-|[<-|[]]]]]]; injection Heq as -> _;
      destruct Hc as [Hc|[Hc|[Hc|[Hc|[Hc|Hc]]]]]; discriminate Hc. }
  rewrite !Hkw by (cbn; tauto).
  unfold bind, isNumericM. rewrite (isNumeric_blank _ Hne Hblank). reflexivity.
Qed.

End BlankToken.

Lemma readValue_blank_token_panics_witness :
  readToken (lex_at [] [" "%char; ch 12; " "%char] 0)
  = Ok (String (ch 12) "") (lex_at [] [" "%char; ch 12; " "%char] 2) /\
  @readValue stdStub 1 (String (ch 12) "") (lex_at [] [" "%char; ch 12; " "%char] 2) = Panic.
Proof.
  split; [vm_compute; reflexivity|].
  apply (@readValue_blank_token_panics stdStub 0 (String (ch 12) "")).
  - discriminate.
  - repeat constructor.
Defined.

(** ** The lookahead of the value parser *)

Lemma string_app_not_empty (a b : string) : b <> "" -> a +:+ b <> "".
Proof. intros Hb. destruct a; [exact Hb|discriminate]. Qed.

Lemma string_of_rune_byte_not_empty (b : ascii) : string_of_rune_byte b <> "".
Proof. unfold string_of_rune_byte. destruct (byte_val b <? 128); discriminate. Qed.

Lemma readToken_chars_inv (st : list string) (data : list ascii) (fuel : nat) :
  forall (pos : nat) (str t : string) (l1 : Lex),
    readToken_chars fuel str (lex_at st data pos) = Ok t l1 ->
    str <> "" ->
    t <> "" /\ exists pos1, l1 = lex_at st data pos1.
Proof.
  induction fuel as [|fuel IH]; intros pos str t l1 Hrun Hstr; [discriminate|].
  cbn [readToken_chars] in Hrun. unfold bind in Hrun. rewrite ReadByte_at in Hrun.
  destruct (data !! pos) as [b|]; [|discriminate].
  destruct (is_delim b).
  - rewrite UnreadByte_at in Hrun. injection Hrun as <- <-. split; [exact Hstr|eauto].
  - apply IH in Hrun; [exact Hrun|].
    destruct str; [contradiction|discriminate].
Qed.

(** What [readToken] leaves behind: a token popped from the stack leaves
    the input where it was; a token read from the input leaves the stack
    empty, and the empty token is returned at the end of the input only. *)
Lemma readToken_go_inv (data : list ascii) (n : nat) :
  forall (pos : nat) (t : string) (l1 : Lex),
    readToken_go n (lex_at [] data pos) = Ok t l1 ->
    exists pos1, l1 = lex_at [] data pos1 /\ (t = "" -> data !! pos1 = None).
Proof.
  induction n as [|n IH]; intros pos t l1 Hrun; [discriminate|].
  cbn [readToken_go] in Hrun. unfold bind, gets in Hrun. cbn [lx_stack lex_at] in Hrun.
  unfold skipWhitespace in Hrun. rewrite fuel_of_at in Hrun.
  destruct (skipWhitespace_loop_lands [] data (S (List.length data - pos)) pos ltac:(lia))
    as (pos1 & Hle & Hws).
  rewrite Hws in Hrun. rewrite ReadByte_at in Hrun.
  destruct (data !! pos1) as [b|] eqn:Hb.
  - destruct (beq b "[" || beq b "]" || beq b "(" || beq b ")").
    { injection Hrun as <- <-. exists (S pos1). split; [reflexivity|discriminate]. }
    destruct (beq b "<" || beq b ">").
    { rewrite ReadByte_at in Hrun. destruct (data !! S pos1) as [nb|]; [|discriminate].
      destruct (beq nb b).
      - injection Hrun as <- <-. exists (S (S pos1)). split; [reflexivity|discriminate].
      - rewrite UnreadByte_at in Hrun. injection Hrun as <- <-.
        exists (S pos1). split; [reflexivity|discriminate]. }
    destruct (beq b "%").
    { unfold skipComments in Hrun. rewrite fuel_of_at in Hrun.
      destruct (skipComments_loop_lands [] data (S (List.length data - S pos1)) (S pos1)
                  ltac:(lia)) as [(pos2 & Hlt & Hc)|(e & l & Hc)];
        rewrite Hc in Hrun; [|discriminate].
      apply IH in Hrun. exact Hrun. }
    unfold get in Hrun.
    apply readToken_chars_inv in Hrun as [Hne (pos2 & ->)];
      [|apply string_of_rune_byte_not_empty].
    exists pos2. split; [reflexivity|]. intros ->. contradiction.
  - injection Hrun as <- <-. exists pos1. split; [reflexivity|]. intros _. exact Hb.
Qed.

Lemma removelast_snoc {A} (l : list A) (x : A) : removelast (l ++ [x]) = l.
Proof. apply removelast_last. Qed.

Lemma last_snoc {A} (l : list A) (x d : A) : List.last (l ++ [x]) d = x.
Proof. apply last_last. Qed.

Lemma readToken_pop (st : list string) (t : string) (data : list ascii) (pos : nat) :
  readToken (lex_at (st ++ [t]) data pos) = Ok t (lex_at st data pos).
Proof.
  unfold readToken. rewrite fuel_of_at. cbn [readToken_go]. unfold bind, gets, modify.
  cbn [lx_stack lex_at].
  destruct (st ++ [t]) as [|s st'] eqn:Hst; [destruct st; discriminate|].
  rewrite <- Hst. rewrite last_snoc. unfold lx_set_stack. cbn.
  rewrite removelast_snoc. reflexivity.
Qed.

Lemma readToken_inv (st : list string) (data : list ascii) (pos : nat) (t : string)
    (l1 : Lex) :
  readToken (lex_at st data pos) = Ok t l1 ->
  (exists st', st = st' ++ [t] /\ l1 = lex_at st' data pos) \/
  (st = [] /\ exists pos1, l1 = lex_at [] data pos1 /\ (t = "" -> data !! pos1 = None)).
Proof.
  intros Hrun. induction st as [|t' st' _] using rev_ind.
  - right. split; [reflexivity|]. unfold readToken in Hrun.
    apply readToken_go_inv in Hrun. exact Hrun.
  - left. rewrite readToken_pop in Hrun. injection Hrun as <- <-. eauto.
Qed.

(** At the end of the input, with an empty stack, [readToken] keeps
    returning the empty token. *)
Lemma readToken_at_end (data : list ascii) (pos : nat) :
  data !! pos = None ->
  readToken (lex_at [] data pos) = Ok "" (lex_at [] data pos).
Proof.
  intros Hend. unfold readToken. rewrite fuel_of_at. cbn [readToken_go].
  unfold bind, gets. cbn [lx_stack lex_at]. unfold skipWhitespace. rewrite fuel_of_at.
  cbn [skipWhitespace_loop]. unfold bind. rewrite ReadByte_at, Hend. cbn.
  rewrite ReadByte_at, Hend. reflexivity.
Qed.

Lemma next_tokens_at_end (data : list ascii) (pos : nat) (k : nat) :
  data !! pos = None ->
  next_tokens k (lex_at [] data pos) = repeat "" k.
Proof.
  intros Hend. induction k as [|k IH]; [reflexivity|].
  cbn [next_tokens repeat]. rewrite (readToken_at_end _ _ Hend). f_equal. exact IH.
Qed.

Lemma next_tokens_same (l l' : Lex) :
  readToken l' = readToken l -> forall k, next_tokens k l' = next_tokens k l.
Proof. intros Heq [|k]; [reflexivity|]. cbn [next_tokens]. rewrite Heq. reflexivity. Qed.

Lemma readToken_shape (st : list string) (data : list ascii) (pos : nat) (t : string)
    (l1 : Lex) :
  Forall (fun s => s <> "") st ->
  readToken (lex_at st data pos) = Ok t l1 ->
  exists st1 pos1,
    l1 = lex_at st1 data pos1 /\ Forall (fun s => s <> "") st1 /\
    (t = "" -> st1 = [] /\ data !! pos1 = None).
Proof.
  intros Hst Hrun.
  destruct (readToken_inv _ _ _ _ _ Hrun) as [(st' & -> & ->)|(-> & pos1 & -> & Hend)].
  - apply Forall_app in Hst as [Hst' Ht]. exists st', pos. split; [reflexivity|].
    split; [exact Hst'|]. intros ->. inversion Ht; subst. contradiction.
  - exists [], pos1. split; [reflexivity|]. split; [constructor|]. auto.
Qed.

Section Lookahead.
Context `{GoStd}.

(** X7.  Reading a number consumes nothing of what follows it: when
    [readValue] is given a numeric token and returns a number (not a
    reference [n g R] or an object header [n g obj]), the tokens that
    [readToken] returns afterwards are the tokens it would have returned
    before the call; the one or two tokens read ahead are pushed back in
    order.  (No token of the pushback stack is empty: the code pushes none.) *)
Theorem readValue_number_lookahead (fuel : nat) (t : string) (st : list string)
    (data : list ascii) (pos : nat) (v : PdfValue) (l' : Lex) :
  Forall (fun s => s <> "") st ->
  isNumeric t = Some true ->
  readValue (S fuel) t (lex_at st data pos) = Ok v l' ->
  Type_ v <> PDFTypeObjRef -> Type_ v <> PDFTypeObjDec ->
  forall k, next_tokens k l' = next_tokens k (lex_at st data pos).
Proof.
  intros Hst Hnum Hrun Href Hdec.
  assert (Hkw : forall kw, In kw ["<"; "<<"; "["; "("; "stream"] -> String.eqb t kw = false).
  { intros kw Hkw. apply String.eqb_neq. intros ->. cbn in Hkw.
    destruct Hkw as [<-|[<-|[<-|[<-|[<-|[]]]]]]; vm_compute in Hnum; discriminate. }
  cbn [readValue] in Hrun. rewrite !Hkw in Hrun by (cbn; tauto).
  unfold bind at 1 in Hrun. unfold isNumericM in Hrun. rewrite Hnum in Hrun.
  cbn [deref ret] in Hrun. unfold readNumeric in Hrun.
  set (number := let '(n, ok) := Atoi t in _) in Hrun.
  assert (Hnumber : forall l0 v0 l0', number l0 = Ok v0 l0' -> l0' = l0).
  { intros l0 v0 l0'. unfold number.
    destruct (Atoi t) as [n0 [|]]; unfold ret; intros Heq; injection Heq as _ <-;
      reflexivity. }
  unfold bind at 1 in Hrun.
  destruct (readToken (lex_at st data pos)) as [t2 l1| | |] eqn:Ht2; try discriminate.
  destruct (readToken_shape _ _ _ _ _ Hst Ht2) as (st1 & pos1 & -> & Hst1 & Hend1).
  destruct (String.eqb_spec t2 "") as [->|Hne2]; cbn [negb] in Hrun.
  { apply Hnumber in Hrun as ->. destruct (Hend1 eq_refl) as [-> Hend].
    intros [|k]; [reflexivity|].
    cbn [next_tokens]. rewrite Ht2, (readToken_at_end _ _ Hend).
    reflexivity. }
  unfold bind at 1 in Hrun. unfold isNumericM in Hrun.
  destruct (isNumeric t2) as [[|]|]; cbn [deref ret panic] in Hrun; try discriminate.
  2:{ unfold bind, push_token, modify in Hrun. cbn in Hrun.
      apply Hnumber in Hrun as ->. apply next_tokens_same.
      change (lx_set_stack (st1 ++ [t2]) (lex_at st1 data pos1))
        with (lex_at (st1 ++ [t2]) data pos1).
      rewrite readToken_pop, Ht2. reflexivity. }
  unfold bind at 1 in Hrun.
  destruct (readToken (lex_at st1 data pos1)) as [t3 l2| | |] eqn:Ht3; try discriminate.
  destruct (readToken_shape _ _ _ _ _ Hst1 Ht3) as (st2 & pos2 & -> & Hst2 & Hend2).
  destruct (String.eqb_spec t3 "") as [->|Hne3]; cbn [negb] in Hrun.
  { unfold bind, push_token, modify in Hrun. cbn in Hrun.
    apply Hnumber in Hrun as ->. destruct (Hend2 eq_refl) as [-> Hend].
    change (lx_set_stack ([] ++ [t2]) (lex_at [] data pos2))
      with (lex_at ([] ++ [t2]) data pos2).
    intros [|k]; [reflexivity|].
    cbn [next_tokens]. rewrite readToken_pop, Ht2. f_equal.
    rewrite (next_tokens_at_end _ _ _ Hend).
    destruct k as [|k]; [reflexivity|].
    cbn [next_tokens repeat]. rewrite Ht3. f_equal. symmetry.
    apply next_tokens_at_end. exact Hend. }
  destruct (String.eqb t3 "obj").
  { injection Hrun as <- _. exfalso. apply Hdec. reflexivity. }
  destruct (String.eqb t3 "R").
  { injection Hrun as <- _. exfalso. apply Href. reflexivity. }
  unfold bind, push_token, modify in Hrun. cbn in Hrun.
  apply Hnumber in Hrun as ->.
  change (lx_set_stack ((st2 ++ [t3]) ++ [t2])
            (lx_set_stack (st2 ++ [t3]) (lex_at st2 data pos2)))
    with (lex_at ((st2 ++ [t3]) ++ [t2]) data pos2).
  intros [|k]; [reflexivity|].
  cbn [next_tokens]. rewrite readToken_pop, Ht2. apply f_equal.
  apply next_tokens_same. rewrite readToken_pop, Ht3. reflexivity.
Qed.

End Lookahead.

Lemma readValue_number_lookahead_witness :
  @readValue stdStub 1 "0" look_lex = Ok look_val look_lex' /\
  lx_stack look_lex' = ["792"; "612"] /\
  forall k, next_tokens k look_lex' = next_tokens k look_lex.
Proof.
  assert (Hrun : @readValue stdStub 1 "0" look_lex = Ok look_val look_lex')
    by (vm_compute; reflexivity).
  split; [exact Hrun|]. split; [reflexivity|].
  apply (@readValue_number_lookahead stdStub 0 "0" [] (bytes_of_string "0 612 792]") 1
           look_val look_lex').
  - constructor.
  - reflexivity.
  - exact Hrun.
  - discriminate.
  - discriminate.
Defined.

(** ** The reader: what the queries leave unchanged *)

Ltac fstep P :=
  lazymatch goal with
  | |- triple _ (bind _ _) _ _ => eapply (triple_bind P _ (fun _ => P)); [|intros ?]
  | |- triple _ (ret _) _ _ => apply triple_ret; intros ? Hfr; exact Hfr
  | |- triple _ (gets _) _ _ => apply triple_gets; intros ? Hfr; exact Hfr
  | |- triple _ (deref _) _ _ => apply triple_deref; intros ? ? _ Hfr; exact Hfr
  | |- triple _ (fail _) _ _ => apply triple_fail; intros ? Hfr; exact Hfr
  | |- triple _ panic _ _ => apply triple_panic
  | |- triple _ diverge _ _ => apply triple_diverge
  | |- triple _ (if ?c then _ else _) _ _ => destruct c
  | |- triple _ (match ?x with _ => _ end) _ _ => destruct x
  end.

Lemma triple_ends_in {St A} (P : St -> Prop) (m : M St A) :
  triple P m (fun _ => P) P <-> forall s, P s -> ends_in (m s) P.
Proof.
  unfold triple, ends_in. split; intros Ht s Hs; specialize (Ht s Hs);
    destruct (m s); exact Ht.
Qed.

Lemma reader_frame_refl (pr : PdfReader) : reader_frame pr pr.
Proof. destruct pr. reflexivity. Qed.

Lemma reader_frame_moved (pr0 pr : PdfReader) (st : list string) (pos : Z) :
  reader_frame pr0 pr -> reader_frame pr0 (set_f_pos pos (set_stack st pr)).
Proof. unfold reader_frame. intros <-. destruct pr. reflexivity. Qed.

Lemma reader_frame_stack (pr0 pr : PdfReader) (st : list string) :
  reader_frame pr0 pr -> reader_frame pr0 (set_stack st pr).
Proof. unfold reader_frame. intros <-. destruct pr. reflexivity. Qed.

Lemma reader_frame_pos (pr0 pr : PdfReader) (pos : Z) :
  reader_frame pr0 pr -> reader_frame pr0 (set_f_pos pos pr).
Proof. unfold reader_frame. intros <-. destruct pr. reflexivity. Qed.

Lemma frame_onFile {A} (pr0 : PdfReader) (m : M Lex A) :
  triple (reader_frame pr0) (onFile m) (fun _ => reader_frame pr0) (reader_frame pr0).
Proof.
  intros pr Hfr. unfold onFile. destruct (m _); auto using reader_frame_moved.
Qed.

Lemma frame_onBytes {A} (pr0 : PdfReader) (data : list ascii) (pos : Z) (m : M Lex A) :
  triple (reader_frame pr0) (onBytes data pos m) (fun _ => reader_frame pr0)
    (reader_frame pr0).
Proof.
  intros pr Hfr. unfold onBytes. destruct (m _); auto using reader_frame_stack.
Qed.

Lemma frame_Seek (pr0 : PdfReader) (offset : Z) :
  triple (reader_frame pr0) (Seek offset) (fun _ => reader_frame pr0) (reader_frame pr0).
Proof.
  intros pr Hfr. unfold Seek. destruct (offset <? 0); auto using reader_frame_pos.
Qed.

Create HintDb frame.
#[local] Hint Resolve frame_onFile frame_onBytes frame_Seek : frame.

Section ReaderFrame.
Context `{GoStd}.

Lemma frame_readObjStmIndex (pr0 : PdfReader) (k : nat) :
  forall i objectIndex data pos a b,
    triple (reader_frame pr0) (readObjStmIndex k i objectIndex data pos a b)
      (fun _ => reader_frame pr0) (reader_frame pr0).
Proof.
  induction k as [|k IH]; intros i objectIndex data pos a b; cbn [readObjStmIndex];
    repeat (fstep (reader_frame pr0)); auto with frame.
Qed.

Lemma frame_resolve (pr0 : PdfReader) (fuel : nat) :
  (forall objSpec,
      triple (reader_frame pr0) (ResolveObject fuel objSpec)
        (fun _ => reader_frame pr0) (reader_frame pr0)) /\
  (forall objSpec,
      triple (reader_frame pr0) (resolveCompressedObject fuel objSpec)
        (fun _ => reader_frame pr0) (reader_frame pr0)).
Proof.
  induction fuel as [|n [IHr IHc]]; [split; intros; apply triple_diverge|].
  split; intros objSpec.
  - cbn [ResolveObject].
    repeat (fstep (reader_frame pr0)); auto using frame_readObjStmIndex with frame.
  - cbn [resolveCompressedObject].
    repeat (fstep (reader_frame pr0)); auto using frame_readObjStmIndex with frame.
Qed.

Lemma frame_ResolveObject (pr0 : PdfReader) (fuel : nat) (objSpec : PdfValue) :
  triple (reader_frame pr0) (ResolveObject fuel objSpec)
    (fun _ => reader_frame pr0) (reader_frame pr0).
Proof. apply frame_resolve. Qed.

Lemma frame_ResolveObjectP (pr0 : PdfReader) (fuel : nat) (p : option PdfValue) :
  triple (reader_frame pr0) (ResolveObjectP fuel p)
    (fun _ => reader_frame pr0) (reader_frame pr0).
Proof.
  unfold ResolveObjectP. repeat (fstep (reader_frame pr0)). apply frame_ResolveObject.
Qed.

Lemma frame_pageAt (pr0 : PdfReader) (pageno : Z) :
  triple (reader_frame pr0) (pageAt pageno) (fun _ => reader_frame pr0) (reader_frame pr0).
Proof. unfold pageAt. repeat (fstep (reader_frame pr0)). Qed.

Lemma frame_getPageBox (pr0 : PdfReader) (fuel : nat) :
  forall page boxIndex k,
    triple (reader_frame pr0) (getPageBox fuel page boxIndex k)
      (fun _ => reader_frame pr0) (reader_frame pr0).
Proof.
  induction fuel as [|n IH]; intros page boxIndex k; [apply triple_diverge|].
  cbn [getPageBox]. repeat (fstep (reader_frame pr0)); auto using frame_ResolveObject.
Qed.

Lemma frame_GetPageBoxes_loop (pr0 : PdfReader) (fuel : nat) (page : PdfValue) (k : float)
    (names : list string) :
  forall result,
    triple (reader_frame pr0) (GetPageBoxes_loop fuel page k names result)
      (fun _ => reader_frame pr0) (reader_frame pr0).
Proof.
  induction names as [|name names IH]; intros result; cbn [GetPageBoxes_loop];
    repeat (fstep (reader_frame pr0)); auto using frame_getPageBox.
Qed.

Lemma frame_GetPageBoxes (pr0 : PdfReader) (fuel : nat) (pageno : Z) (k : float) :
  triple (reader_frame pr0) (GetPageBoxes fuel pageno k)
    (fun _ => reader_frame pr0) (reader_frame pr0).
Proof.
  unfold GetPageBoxes. repeat (fstep (reader_frame pr0));
    auto using frame_pageAt, frame_ResolveObjectP, frame_GetPageBoxes_loop.
Qed.

Lemma frame_GetAllPageBoxes_loop (pr0 : PdfReader) (fuel : nat) (k : float) (count : nat) :
  forall i result,
    triple (reader_frame pr0) (GetAllPageBoxes_loop fuel k count i result)
      (fun _ => reader_frame pr0) (reader_frame pr0).
Proof.
  induction count as [|c IH]; intros i result; cbn [GetAllPageBoxes_loop];
    repeat (fstep (reader_frame pr0)); auto using frame_GetPageBoxes.
Qed.

Lemma frame_GetAllPageBoxes (pr0 : PdfReader) (fuel : nat) (k : float) :
  triple (reader_frame pr0) (GetAllPageBoxes fuel k)
    (fun _ => reader_frame pr0) (reader_frame pr0).
Proof.
  unfold GetAllPageBoxes. repeat (fstep (reader_frame pr0)).
  apply frame_GetAllPageBoxes_loop.
Qed.

Lemma frame_getPageRotation (pr0 : PdfReader) (fuel : nat) :
  forall page,
    triple (reader_frame pr0) (_getPageRotation fuel page)
      (fun _ => reader_frame pr0) (reader_frame pr0).
Proof.
  induction fuel as [|n IH]; intros page; [apply triple_diverge|].
  cbn [_getPageRotation]. repeat (fstep (reader_frame pr0));
    auto using frame_ResolveObject, frame_ResolveObjectP.
Qed.

Lemma frame_GetPageRotation (pr0 : PdfReader) (fuel : nat) (pageno : Z) :
  triple (reader_frame pr0) (GetPageRotation fuel pageno)
    (fun _ => reader_frame pr0) (reader_frame pr0).
Proof.
  unfold GetPageRotation. repeat (fstep (reader_frame pr0));
    auto using frame_pageAt, frame_getPageRotation.
Qed.

Lemma frame_GetPageResources (pr0 : PdfReader) (fuel : nat) (pageno : Z) :
  triple (reader_frame pr0) (GetPageResources fuel pageno)
    (fun _ => reader_frame pr0) (reader_frame pr0).
Proof.
  unfold GetPageResources. repeat (fstep (reader_frame pr0));
    auto using frame_pageAt, frame_ResolveObject, frame_ResolveObjectP.
Qed.

Lemma frame_getPageContent (pr0 : PdfReader) (fuel : nat) :
  forall objSpec,
    triple (reader_frame pr0) (getPageContent fuel objSpec)
      (fun _ => reader_frame pr0) (reader_frame pr0).
Proof.
  induction fuel as [|n IH]; intros objSpec; [apply triple_diverge|].
  cbn [getPageContent].
  destruct (Type_ objSpec =? PDFTypeObjRef).
  { repeat (fstep (reader_frame pr0)). apply frame_ResolveObject. }
  destruct (Type_ objSpec =? PDFTypeArray); [|repeat (fstep (reader_frame pr0))].
  generalize (@nil PdfValue) as contents.
  induction (Array objSpec) as [|x rest IHl]; intros contents.
  - repeat (fstep (reader_frame pr0)).
  - eapply (triple_bind _ _ (fun _ => reader_frame pr0)); [apply IH|].
    intros tmp. apply IHl.
Qed.

Lemma frame_applyFilters (pr0 : PdfReader) (filters : list PdfValue) :
  forall stream,
    triple (reader_frame pr0) (applyFilters filters stream)
      (fun _ => reader_frame pr0) (reader_frame pr0).
Proof.
  induction filters as [|flt rest IH]; intros stream; cbn [applyFilters];
    repeat (fstep (reader_frame pr0)); auto.
Qed.

Lemma frame_rebuildContentStream (pr0 : PdfReader) (fuel : nat) (content : PdfValue) :
  triple (reader_frame pr0) (rebuildContentStream fuel content)
    (fun _ => reader_frame pr0) (reader_frame pr0).
Proof.
  unfold rebuildContentStream. repeat (fstep (reader_frame pr0));
    auto using frame_ResolveObject, frame_applyFilters.
Qed.

Lemma frame_GetContent_loop (pr0 : PdfReader) (fuel : nat) (contents : list PdfValue) :
  forall buffer,
    triple (reader_frame pr0) (GetContent_loop fuel contents buffer)
      (fun _ => reader_frame pr0) (reader_frame pr0).
Proof.
  induction contents as [|c rest IH]; intros buffer; cbn [GetContent_loop];
    repeat (fstep (reader_frame pr0)); auto using frame_rebuildContentStream.
Qed.

Lemma frame_GetContent (pr0 : PdfReader) (fuel : nat) (pageno : Z) :
  triple (reader_frame pr0) (GetContent fuel pageno)
    (fun _ => reader_frame pr0) (reader_frame pr0).
Proof.
  unfold GetContent. repeat (fstep (reader_frame pr0));
    auto using frame_pageAt, frame_getPageContent, frame_GetContent_loop.
Qed.

Lemma frame_GetNumPages (pr0 : PdfReader) :
  triple (reader_frame pr0) GetNumPages (fun _ => reader_frame pr0) (reader_frame pr0).
Proof. unfold GetNumPages. repeat (fstep (reader_frame pr0)). Qed.

(** X8.  [ResolveObject] changes nothing of the reader but the offset of
    the byte stream and the pushback stack, whether it returns an object or
    an error: the cross-reference tables, the trailer, the catalog and the
    page list are never written. *)
Theorem ResolveObject_frame (fuel : nat) (objSpec : PdfValue) (pr : PdfReader) :
  ends_in (ResolveObject fuel objSpec pr) (reader_frame pr).
Proof.
  apply (proj1 (triple_ends_in (reader_frame pr) (ResolveObject fuel objSpec))).
  - apply frame_ResolveObject.
  - apply reader_frame_refl.
Qed.

(** X9.  The page queries [GetNumPages], [GetPageResources], [GetContent],
    [GetPageBoxes], [GetAllPageBoxes] and [GetPageRotation] are read-only in
    the same sense: whether they return a result or an error, the reader
    differs afterwards at most in the offset of the byte stream and in the
    pushback stack. *)
Theorem page_queries_frame (fuel : nat) (pageno : Z) (k : float) (pr : PdfReader) :
  ends_in (GetNumPages pr) (reader_frame pr) /\
  ends_in (GetPageResources fuel pageno pr) (reader_frame pr) /\
  ends_in (GetContent fuel pageno pr) (reader_frame pr) /\
  ends_in (GetPageBoxes fuel pageno k pr) (reader_frame pr) /\
  ends_in (GetAllPageBoxes fuel k pr) (reader_frame pr) /\
  ends_in (GetPageRotation fuel pageno pr) (reader_frame pr).
Proof.
  repeat split.
  - apply (proj1 (triple_ends_in _ _) (frame_GetNumPages pr)), reader_frame_refl.
  - apply (proj1 (triple_ends_in _ _) (frame_GetPageResources pr fuel pageno)),
      reader_frame_refl.
  - apply (proj1 (triple_ends_in _ _) (frame_GetContent pr fuel pageno)), reader_frame_refl.
  - apply (proj1 (triple_ends_in _ _) (frame_GetPageBoxes pr fuel pageno k)),
      reader_frame_refl.
  - apply (proj1 (triple_ends_in _ _) (frame_GetAllPageBoxes pr fuel k)), reader_frame_refl.
  - apply (proj1 (triple_ends_in _ _) (frame_GetPageRotation pr fuel pageno)),
      reader_frame_refl.
Qed.

End ReaderFrame.

(** ** The reader: bounds and missing entries *)

Section ReaderEdges.
Context `{GoStd}.

Lemma pageAt_beyond (pr : PdfReader) (pageno : Z) :
  Z.of_nat (List.length (pages pr)) < pageno ->
  exists e, pageAt pageno pr = Err e pr.
Proof.
  intros Hbig. unfold pageAt, bind, gets.
  destruct (Z.ltb_spec (Z.of_nat (List.length (pages pr))) pageno); [|lia].
  eexists. reflexivity.
Qed.

Lemma pageAt_not_positive (pr : PdfReader) (pageno : Z) :
  pageno <= 0 -> pageAt pageno pr = Panic.
Proof.
  intros Hneg. unfold pageAt, bind, gets.
  destruct (Z.ltb_spec (Z.of_nat (List.length (pages pr))) pageno); [lia|].
  unfold index. destruct (Z.ltb_spec (pageno - 1) 0); [reflexivity|lia].
Qed.

(** X10.  The page number of a query is checked against the upper bound
    only: a page number beyond the last page is an error that leaves the
    reader as it was, and a page number of zero or less panics (the index
    [pageno-1] is negative), in [GetPageResources], [GetContent],
    [GetPageBoxes] and [GetPageRotation] alike. *)
Theorem page_number_bounds (fuel : nat) (pageno : Z) (k : float) (pr : PdfReader) :
  (Z.of_nat (List.length (pages pr)) < pageno ->
   (exists e, GetPageResources fuel pageno pr = Err e pr) /\
   (exists e, GetContent fuel pageno pr = Err e pr) /\
   (exists e, GetPageBoxes fuel pageno k pr = Err e pr) /\
   (exists e, GetPageRotation fuel pageno pr = Err e pr)) /\
  (pageno <= 0 ->
   GetPageResources fuel pageno pr = Panic /\
   GetContent fuel pageno pr = Panic /\
   GetPageBoxes fuel pageno k pr = Panic /\
   GetPageRotation fuel pageno pr = Panic).
Proof.
  split.
  - intros Hbig. destruct (pageAt_beyond pr pageno Hbig) as (e & He).
    unfold GetPageResources, GetContent, GetPageBoxes, GetPageRotation, bind.
    rewrite He. repeat split; eexists; reflexivity.
  - intros Hneg. pose proof (pageAt_not_positive pr pageno Hneg) as Hp.
    unfold GetPageResources, GetContent, GetPageBoxes, GetPageRotation, bind.
    rewrite Hp. repeat split; reflexivity.
Qed.

(** X11.  A reference to an object that is in neither the
    cross-reference table nor the table of compressed objects is an error,
    and the reader is left as it was. *)
Theorem ResolveObject_unknown_object (fuel : nat) (objSpec : PdfValue) (pr : PdfReader) :
  Type_ objSpec = PDFTypeObjRef ->
  xref pr !! ID objSpec = None ->
  xrefStream pr !! ID objSpec = None ->
  exists e, ResolveObject (S (S fuel)) objSpec pr = Err e pr.
Proof.
  intros Hty Hx Hs. cbn [ResolveObject resolveCompressedObject].
  rewrite Hty. cbn [Z.eqb negb Pos.eqb PDFTypeObjRef]. unfold bind, gets.
  rewrite Hx. cbn. rewrite Hs. eexists. reflexivity.
Qed.

(** X12.  A reference that is resolved through the cross-reference table
    yields an object that carries the id and the generation of the
    reference (the header at the offset is checked against them) and a
    value; it has a stream exactly when its type is [PDFTypeStream]. *)
Theorem ResolveObject_direct (fuel : nat) (objSpec : PdfValue) (pr : PdfReader)
    (v : PdfValue) (pr' : PdfReader) (g : gmap Z Z) :
  Type_ objSpec = PDFTypeObjRef ->
  xref pr !! ID objSpec = Some g ->
  ResolveObject fuel objSpec pr = Ok v pr' ->
  ID v = ID objSpec /\ Gen v = Gen objSpec /\ is_Some (Value v) /\
  (Type_ v = PDFTypeStream <-> is_Some (Stream v)).
Proof.
  intros Hty Hx Hrun. destruct fuel as [|n]; [discriminate|].
  cbn [ResolveObject] in Hrun. rewrite Hty in Hrun. cbn [Z.eqb Pos.eqb negb PDFTypeObjRef] in Hrun.
  inv_ok_step Hrun. inv_ok_step Hm. rewrite Hx in Hrun.
  inv_run;
    repeat match goal with
      | Hp : (_, _) = (_, _) |- _ => injection Hp as <- <-
      | Hc : negb (_ =? _) = false |- _ => apply negb_false_iff, Z.eqb_eq in Hc
      end;
    cbn; (split; [congruence|]); (split; [congruence|]); (split; [eauto|]);
    split; intros Hs; try discriminate; try (inversion Hs; discriminate);
    eauto.
Qed.

Lemma reader_frame_boxes (pr0 pr : PdfReader) :
  reader_frame pr0 pr -> availableBoxes pr = availableBoxes pr0.
Proof. unfold reader_frame. intros <-. reflexivity. Qed.

Lemma GetPageBoxes_loop_keys (fuel : nat) (page : PdfValue) (k : float)
    (names : list string) :
  forall result pr boxes pr',
    GetPageBoxes_loop fuel page k names result pr = Ok boxes pr' ->
    forall name, is_Some (boxes !! name) <-> In name names \/ is_Some (result !! name).
Proof.
  induction names as [|n names IH]; intros result pr boxes pr' Hrun name;
    cbn [GetPageBoxes_loop] in Hrun.
  - inv_ok. cbn. tauto.
  - inv_ok_step Hrun. apply IH with (name := name) in Hrun. rewrite Hrun. cbn [In].
    destruct (decide (n = name)) as [->|Hne].
    + rewrite lookup_insert_eq. split; [auto|intros _; right; eauto].
    + rewrite lookup_insert_ne by exact Hne. tauto.
Qed.

(** X13.  [GetPageBoxes] returns one entry for every name of
    [availableBoxes] and no other: a box that neither the page nor its
    ancestors define is present as well. *)
Theorem GetPageBoxes_keys (fuel : nat) (pageno : Z) (k : float) (pr : PdfReader)
    (boxes : gmap string Box) (pr' : PdfReader) :
  GetPageBoxes fuel pageno k pr = Ok boxes pr' ->
  forall name, is_Some (boxes !! name) <-> In name (availableBoxes pr).
Proof.
  intros Hrun name. unfold GetPageBoxes in Hrun.
  inv_ok_step Hrun. inv_ok_step Hrun. inv_ok_step Hrun. inv_ok_step Hm1.
  assert (Hs : s = pr).
  { unfold pageAt in Hm. inv_run. reflexivity. }
  subst s.
  pose proof (frame_ResolveObjectP pr fuel a pr (reader_frame_refl pr)) as Hfr.
  rewrite Hm0 in Hfr. apply reader_frame_boxes in Hfr. rewrite <- Hfr.
  apply GetPageBoxes_loop_keys with (name := name) in Hrun.
  rewrite Hrun, lookup_empty. split; [intros [Hin|[? Hx]]; [exact Hin|discriminate]|auto].
Qed.

End ReaderEdges.

Lemma page_number_bounds_witness :
  Z.of_nat (List.length (pages sample_reader)) < 2 /\
  (exists e, @GetContent stdStub 100 2 sample_reader = Err e sample_reader) /\
  @GetContent stdStub 100 0 sample_reader = Panic.
Proof.
  assert (Hbig : Z.of_nat (List.length (pages sample_reader)) < 2) by (vm_compute; reflexivity).
  split; [exact Hbig|]. split.
  - exact (proj1 (proj2 (proj1 (@page_number_bounds stdStub 100 2 1%float sample_reader) Hbig))).
  - exact (proj1 (proj2 (proj2 (@page_number_bounds stdStub 100 0 1%float sample_reader)
                           ltac:(lia)))).
Defined.

Lemma ResolveObject_unknown_object_witness :
  exists e, @ResolveObject stdStub 2 (objref 99 0) sample_reader = Err e sample_reader.
Proof.
  apply (@ResolveObject_unknown_object stdStub 0 (objref 99 0) sample_reader);
    vm_compute; reflexivity.
Defined.

Lemma ResolveObject_direct_witness :
  ID sample_obj4 = 4 /\ Gen sample_obj4 = 0 /\ is_Some (Value sample_obj4) /\
  (Type_ sample_obj4 = PDFTypeStream <-> is_Some (Stream sample_obj4)).
Proof.
  assert (Hx : xref sample_reader17 !! ID (objref 4 0) = Some {[0 := 252]})
    by (vm_compute; reflexivity).
  assert (Hrun : @ResolveObject stdStub 50 (objref 4 0) sample_reader17
                 = Ok sample_obj4 sample_reader17') by (vm_compute; reflexivity).
  exact (@ResolveObject_direct stdStub 50 (objref 4 0) sample_reader17 sample_obj4
           sample_reader17' _ eq_refl Hx Hrun).
Defined.

Lemma GetPageBoxes_keys_witness :
  (is_Some (plain_boxes !! "/TrimBox")
   <-> In "/TrimBox" ["/MediaBox"; "/CropBox"; "/BleedBox"; "/TrimBox"; "/ArtBox"]) /\
  (is_Some (plain_boxes !! "/Rotate")
   <-> In "/Rotate" ["/MediaBox"; "/CropBox"; "/BleedBox"; "/TrimBox"; "/ArtBox"]).
Proof.
  assert (Hrun : @GetPageBoxes stdStub 100 1 1%float plain_reader = Ok plain_boxes plain_reader')
    by (vm_compute; reflexivity).
  split.
  - exact (@GetPageBoxes_keys stdStub 100 1 1%float plain_reader plain_boxes plain_reader' Hrun
             "/TrimBox").
  - exact (@GetPageBoxes_keys stdStub 100 1 1%float plain_reader plain_boxes plain_reader' Hrun
             "/Rotate").
Defined.

(** ** The writer and the importer: a failed import *)

Lemma bind_Err {St A B} (m : M St A) (k : A -> M St B) (s s' : St) (e : string) :
  bind m k s = Err e s' ->
  m s = Err e s' \/ exists a s1, m s = Ok a s1 /\ k a s1 = Err e s'.
Proof.
  unfold bind. destruct (m s) as [a s1|e1 s1| |]; try discriminate.
  - intros Hk. right. eauto.
  - intros [= -> ->]. left. reflexivity.
Qed.

Section FailedImport.
Context `{GoStd}.

Lemma tpls_onReader {A} (T : list Writer.PdfTemplate) (m : M PdfReader A) :
  triple (fun pw => Writer.tpls pw = T) (Writer.onReader m)
    (fun _ pw => Writer.tpls pw = T) (fun pw => Writer.tpls pw = T).
Proof.
  intros pw Hpw. unfold Writer.onReader. destruct (Writer.r pw); [|exact I].
  destruct (m _); try exact I; exact Hpw.
Qed.

Lemma tpls_GetPDFBoxDimensions (T : list Writer.PdfTemplate) (fuel : nat) (p : Z)
    (boxname : string) :
  triple (fun pw => Writer.tpls pw = T) (Writer.GetPDFBoxDimensions fuel p boxname)
    (fun _ pw => Writer.tpls pw = T) (fun pw => Writer.tpls pw = T).
Proof.
  unfold Writer.GetPDFBoxDimensions.
  repeat (fstep (fun pw => Writer.tpls pw = T)); apply tpls_onReader.
Qed.

(** A call of the writer's [ImportPage] that fails appends no template;
    one that returns appends one template and returns its index. *)
Lemma tpls_ImportPage (T : list Writer.PdfTemplate) (fuel : nat) (rd : PdfReader)
    (pageno : Z) (boxName : string) :
  triple (fun pw => Writer.tpls pw = T) (Writer.ImportPage fuel rd pageno boxName)
    (fun res pw => res = Z.of_nat (List.length T) /\
                   exists tpl, Writer.tpls pw = T ++ [tpl])
    (fun pw => Writer.tpls pw = T).
Proof.
  unfold Writer.ImportPage.
  eapply (triple_bind _ _ (fun _ pw => Writer.tpls pw = T)).
  { apply triple_modify. intros pw Hpw. exact Hpw. }
  intros _.
  eapply (triple_bind _ _ (fun _ pw => Writer.tpls pw = T)); [apply tpls_onReader|].
  intros res.
  eapply (triple_bind _ _ (fun _ pw => Writer.tpls pw = T)); [apply tpls_onReader|].
  intros content.
  eapply (triple_bind _ _ (fun _ pw => Writer.tpls pw = T));
    [apply tpls_GetPDFBoxDimensions|].
  intros bx.
  eapply (triple_bind _ _ (fun _ pw => Writer.tpls pw = T)); [apply tpls_onReader|].
  intros rot.
  eapply (triple_bind _ _ (fun _ pw => Writer.tpls pw = T)).
  { apply triple_deref. auto. }
  intros rot'.
  intros pw Hpw. cbn. rewrite Hpw. split; [rewrite length_app; cbn; lia|eauto].
Qed.

(** An import that fails: what it leaves. *)
Lemma ImportPage_Err (fuel : nat) (pageno : Z) (box : string)
    (imp : Importer.Importer) (e : string) (imp' : Importer.Importer) :
  Importer.ImportPage fuel pageno box imp = Err e imp' ->
  Importer.importedPages imp' = Importer.importedPages imp /\
  Importer.tplN imp' = Importer.tplN imp /\
  Importer.tplMap imp' = Importer.tplMap imp /\
  Writer.tpls (Importer.writer imp') = Writer.tpls (Importer.writer imp).
Proof.
  unfold Importer.ImportPage. intros Hrun.
  apply bind_Err in Hrun as [Hrun|(cache & s1 & Hg & Hrun)]; [discriminate|].
  injection Hg as <- <-.
  destruct (Importer.importedPages imp !! pageno); [discriminate|].
  apply bind_Err in Hrun as [Hrun|(res & s1 & _ & Hrun)].
  - unfold Importer.onWriterWith in Hrun.
    destruct (Importer.reader imp) as [rd|]; [|discriminate].
    pose proof (tpls_ImportPage _ fuel rd pageno box (Importer.writer imp) eq_refl) as Ht.
    destruct (Writer.ImportPage fuel rd pageno box (Importer.writer imp)); try discriminate.
    injection Hrun as _ <-. cbn. auto.
  - discriminate.
Qed.

(** X14.  An import that fails leaves no trace in the importer: the page
    is not entered in the cache, the template counter and the template map
    are unchanged, and the writer has no new template. *)
Theorem ImportPage_failure (fuel : nat) (pageno : Z) (box : string)
    (imp : Importer.Importer) (e : string) (imp' : Importer.Importer) :
  Importer.ImportPage fuel pageno box imp = Err e imp' ->
  Importer.importedPages imp' = Importer.importedPages imp /\
  Importer.tplN imp' = Importer.tplN imp /\
  Importer.tplMap imp' = Importer.tplMap imp /\
  Writer.tpls (Importer.writer imp') = Writer.tpls (Importer.writer imp).
Proof. apply ImportPage_Err. Qed.

End FailedImport.

Lemma ImportPage_failure_witness :
  @Importer.ImportPage stdStub 100 2 "/MediaBox" sample_imp0
  = Err sample_fail_err sample_fail_imp /\
  Importer.importedPages sample_fail_imp = Importer.importedPages sample_imp0 /\
  Importer.tplN sample_fail_imp = Importer.tplN sample_imp0 /\
  Importer.tplMap sample_fail_imp = Importer.tplMap sample_imp0 /\
  Writer.tpls (Importer.writer sample_fail_imp) = Writer.tpls (Importer.writer sample_imp0).
Proof.
  assert (Hrun : @Importer.ImportPage stdStub 100 2 "/MediaBox" sample_imp0
                 = Err sample_fail_err sample_fail_imp) by (vm_compute; reflexivity).
  split; [exact Hrun|].
  exact (@ImportPage_failure stdStub 100 2 "/MediaBox" sample_imp0 sample_fail_err
           sample_fail_imp Hrun).
Defined.

(** ** The emission of writer.go: recorded positions and closure *)

Section Emission.
Context `{GoStd}.
Import Writer.

Lemma ref_at_app (buf more : list ascii) (off : Z) (ref : string) (n : Z) :
  ref_at buf off ref n -> ref_at (buf ++ more) off ref n.
Proof.
  intros (Hoff & Hsha & Htake). split; [exact Hoff|]. split; [exact Hsha|].
  assert (Hl : List.length (take (String.length (itoa n +:+ " 0 R "))
                              (drop (Z.to_nat off) buf))
               = String.length (itoa n +:+ " 0 R "))
    by (rewrite Htake; apply bytes_of_string_length).
  rewrite length_take, length_drop in Hl.
  assert (Hk : (0 < String.length (itoa n +:+ " 0 R "))%nat)
    by (rewrite string_app_length; cbn; lia).
  rewrite drop_app_le by lia.
  rewrite take_app_le by (rewrite length_drop; lia).
  exact Htake.
Qed.

Lemma ref_at_end (buf : list ascii) (n : Z) (src : string) :
  ref_at ((buf ++ bytes_of_string (itoa n)) ++ bytes_of_string " 0 R ")
    (Z.of_nat (List.length buf)) (sha1_hex (itoa n +:+ "-" +:+ src)) n.
Proof.
  split; [lia|]. split; [eauto|].
  rewrite Nat2Z.id, <- app_assoc, drop_app_length, <- bytes_of_string_app.
  apply firstn_all2. apply Nat.eq_le_incl, bytes_of_string_length.
Qed.

Lemma refs_in_app (pw : PdfWriter) (buf more : list ascii) (m : gmap Z string) :
  refs_in pw buf m -> refs_in pw (buf ++ more) m.
Proof.
  intros Hm off ref Href. destruct (Hm off ref Href) as (n & Hat & Hk).
  exists n. split; [apply ref_at_app; exact Hat|exact Hk].
Qed.

Lemma emit_inv_core (pw pw' : PdfWriter) :
  same_core pw pw' -> emit_inv pw -> emit_inv pw'.
Proof.
  intros (E1 & E2 & E3 & E4 & E5 & E6 & E7) (H1 & H2 & H3 & H4 & H5 & H6).
  unfold emit_inv, refs_in, known, emitted in *.
  rewrite E1, E2, E3, E4, E5, E6. repeat split; auto.
  - apply H5; assumption.
  - apply H5; assumption.
  - intros Ht. apply H6, E7, Ht.
Qed.

Lemma open_obj_core (n : option Z) (h : option (Z * PdfValue)) (pw pw' : PdfWriter) :
  same_core pw pw' -> open_obj n h pw -> open_obj n h pw'.
Proof.
  intros Hc (Hinv & Ht & Hh & p & buf & o & Hcur & Ho & Hn & Hw & Hpos).
  pose proof (emit_inv_core _ _ Hc Hinv) as Hinv'.
  destruct Hc as (E1 & E2 & E3 & E4 & E5 & E6 & E7).
  split; [exact Hinv'|]. split; [rewrite <- E7; exact Ht|].
  split; [destruct h as [[i v]|]; cbn in *; [rewrite E1; exact Hh|exact I]|].
  exists p, buf, o. unfold refs_in, known in *. rewrite E2, E3, E4, E5, E6. auto.
Qed.

Lemma open_obj_emit_inv (n : option Z) (h : option (Z * PdfValue)) (pw : PdfWriter) :
  open_obj n h pw -> emit_inv pw.
Proof. intros (Hinv & _). exact Hinv. Qed.

Lemma closed_obj_emit_inv (pw : PdfWriter) : closed_obj pw -> emit_inv pw.
Proof. intros (Hinv & _). exact Hinv. Qed.

Ltac core_step :=
  apply triple_modify; intros ? Hopen;
  first [ eapply open_obj_core; [|exact Hopen]
        | eapply emit_inv_core; [|exact Hopen] ];
  repeat split; auto.

(** Writing to the buffer keeps the invariant of an open object. *)
Lemma emit_WriteString (n : option Z) (h : option (Z * PdfValue)) (s : string)
    (E : PdfWriter -> Prop) :
  triple (open_obj n h) (WriteString s) (fun _ => open_obj n h) E.
Proof.
  intros pw ((H1 & H2 & H3 & H4 & H5 & H6) & Ht & Hh & p & buf & o & Hcur & Ho & Hn & Hw
             & Hpos).
  destruct pw as [r0 tpls0 nid ostack dstack ids wobjs wpos cur toff cb calls].
  cbn in *. subst cur.
  unfold WriteString, bind, gets, deref, modify, ret. cbn.
  split; [|split; [exact Ht|split; [destruct h as [[i v]|]; exact Hh|]]].
  - unfold emit_inv. cbn. repeat split; auto.
    + apply H5; assumption.
    + apply H5; assumption.
  - exists p, (buf ++ bytes_of_string s), o. cbn.
    repeat split; auto. intros m Hm. apply refs_in_app. exact (Hpos m Hm).
Qed.

Lemma emit_out (n : option Z) (h : option (Z * PdfValue)) (s : string) (E : PdfWriter -> Prop) :
  triple (open_obj n h) (out s) (fun _ => open_obj n h) E.
Proof.
  unfold out. eapply triple_bind; [apply emit_WriteString|].
  intros ?. apply emit_WriteString.
Qed.

Lemma emit_straightOut (n : option Z) (h : option (Z * PdfValue)) (s : string)
    (E : PdfWriter -> Prop) :
  triple (open_obj n h) (straightOut s) (fun _ => open_obj n h) E.
Proof. apply emit_WriteString. Qed.

Lemma known_refs_in (pw pw' : PdfWriter) (buf : list ascii) (m : gmap Z string) :
  (forall k, known pw k -> known pw' k) -> refs_in pw buf m -> refs_in pw' buf m.
Proof.
  intros Hk Hm off ref Href. destruct (Hm off ref Href) as (k & Hat & Hkn).
  exists k. split; [exact Hat|apply Hk; exact Hkn].
Qed.

(** A reference is recorded at the offset at which its number is then
    written. *)
Lemma emit_outObjRef (n : option Z) (h : option (Z * PdfValue)) (k : Z) (E : PdfWriter -> Prop) :
  triple (fun pw => open_obj n h pw /\ known pw k) (outObjRef k)
    (fun _ => open_obj n h) E.
Proof.
  intros pw (((H1 & H2 & H3 & H4 & H5 & H6) & Ht & Hh & p & buf & o & Hcur & Ho & Hn & Hw
              & Hpos) & Hk).
  destruct pw as [r0 tpls0 nid ostack dstack ids wobjs wpos cur toff cb calls].
  cbn in *. subst cur.
  unfold outObjRef, shaOfInt, WriteString, bind, gets, deref, modify, ret. cbn.
  destruct r0 as [rd|]; cbn; [|exact I].
  destruct (wpos !! p) as [m|] eqn:Hm; cbn; [|exact I].
  split; [|split; [exact Ht|split; [destruct h as [[i v]|]; exact Hh|]]].
  - unfold emit_inv. cbn. repeat split; auto.
    + intros q bytes m' Hq Hm'.
      destruct (decide (q = p)) as [->|Hne]; [congruence|].
      rewrite lookup_insert_ne in Hm' by congruence. exact (H1 q bytes m' Hq Hm').
    + apply H5; assumption.
    + apply H5; assumption.
  - exists p, ((buf ++ bytes_of_string (itoa k)) ++ bytes_of_string " 0 R "), o. cbn.
    repeat split; auto.
    intros m'. rewrite lookup_insert_eq. intros [= <-] off ref Href.
    destruct (decide (off = Z.of_nat (List.length buf))) as [->|Hne].
    + rewrite lookup_insert_eq in Href. injection Href as <-.
      exists k. split; [apply ref_at_end|exact Hk].
    + rewrite lookup_insert_ne in Href by congruence.
      destruct (Hpos m eq_refl off ref Href) as (k' & Hat & Hk').
      exists k'. split; [|exact Hk']. apply ref_at_app, ref_at_app. exact Hat.
Qed.

(** Reserving a number changes the counter only. *)
Lemma newObj_reserve_run (pw : PdfWriter) :
  exists pw', newObj (-1) true pw = Ok tt pw' /\ same_core pw pw'.
Proof.
  unfold newObj, bind, gets, modify, ret. cbn [Z.ltb Z.compare].
  destruct (NextObjectID pw); eexists; (split; [reflexivity|]);
    unfold same_core; cbn; tauto.
Qed.

Lemma emit_newObj_reserve (n : option Z) (h : option (Z * PdfValue)) (E : PdfWriter -> Prop) :
  triple (open_obj n h) (newObj (-1) true) (fun _ => open_obj n h) E.
Proof.
  intros pw Hopen. destruct (newObj_reserve_run pw) as (pw' & -> & Hcore).
  eapply open_obj_core; eassumption.
Qed.

(** The reference to a source object: the object gets a new number when
    it is seen for the first time, and the number is written. *)
Lemma emit_writeObjRef (n : option Z) (h : option (Z * PdfValue)) (value : PdfValue)
    (E : PdfWriter -> Prop) :
  triple (open_obj n h) (writeObjRef value) (fun _ => open_obj n h) E.
Proof.
  unfold writeObjRef.
  eapply (triple_bind _ _ (fun done pw => open_obj n h pw /\ done = doOobjStack pw)).
  { apply triple_gets. auto. }
  intros done.
  eapply (triple_bind _ _
            (fun _ pw => open_obj n h pw /\ is_Some (doOobjStack pw !! ID value))).
  { destruct (done !! ID value) as [ref|] eqn:Hdone.
    - apply triple_ret. intros pw [Hopen ->]. split; [exact Hopen|eauto].
    - eapply (triple_bind _ _
                (fun _ pw => open_obj n h pw /\ doOobjStack pw !! ID value = None)).
      { intros pw [Hopen ->]. destruct (newObj_reserve_run pw) as (pw' & -> & Hcore).
        split; [eapply open_obj_core; eassumption|].
        destruct Hcore as (_ & -> & _). exact Hdone. }
      intros _.
      eapply (triple_bind _ _
                (fun k pw => open_obj n h pw /\ doOobjStack pw !! ID value = None)).
      { apply triple_gets. auto. }
      intros k. apply triple_modify.
      intros pw (((H1 & H2 & H3 & H4 & H5 & H6) & Ht & Hh & p & buf & o & Hcur & Ho & Hn
                  & Hw & Hpos) & Hnew).
      set (ref := set_NewID k (objref (ID value) (Gen value))).
      assert (Hknown : forall x, known pw x ->
                known (set_doOobjStack (<[ID value := ref]> (doOobjStack pw))
                         (set_objStack (<[ID value := Some ref]> (objStack pw)) pw)) x).
      { intros x (id & v & Hv & Hx). exists id, v. cbn. split; [|exact Hx].
        rewrite lookup_insert_ne by congruence. exact Hv. }
      assert (Hemitted : forall x, emitted pw x ->
                emitted (set_doOobjStack (<[ID value := ref]> (doOobjStack pw))
                           (set_objStack (<[ID value := Some ref]> (objStack pw)) pw)) x).
      { intros x Hx. exact Hx. }
      split.
      + split; [|split; [exact Ht|split]].
        * unfold emit_inv. cbn. split; [|split; [|split; [|split; [|split]]]].
          -- intros q bytes m Hq Hm. eapply known_refs_in; [exact Hknown|].
             exact (H1 q bytes m Hq Hm).
          -- exact H2.
          -- exact H3.
          -- intros id v Hv. destruct (decide (id = ID value)) as [->|Hne].
             ++ rewrite lookup_insert_eq in Hv. injection Hv as <-.
                apply lookup_insert_eq.
             ++ rewrite lookup_insert_ne in Hv by congruence.
                rewrite lookup_insert_ne by congruence. apply H4. exact Hv.
          -- intros id v Hv. destruct (decide (id = ID value)) as [->|Hne].
             ++ rewrite lookup_insert_eq in Hv. injection Hv as <-.
                split; [reflexivity|]. left. apply lookup_insert_eq.
             ++ rewrite lookup_insert_ne in Hv by congruence.
                rewrite lookup_insert_ne by congruence.
                destruct (H5 id v Hv) as [Hid [Hp|He]]; auto.
          -- intros Hnil. contradiction.
        * destruct h as [[i v]|]; [|exact I]. cbn in *.
          destruct (decide (i = ID value)) as [->|Hne].
          -- apply H4 in Hh. congruence.
          -- rewrite lookup_insert_ne by congruence. exact Hh.
        * exists p, buf, o. cbn. repeat split; auto.
          intros m Hm. eapply known_refs_in; [exact Hknown|]. exact (Hpos m Hm).
      + cbn. rewrite lookup_insert_eq. eauto. }
  intros _.
  eapply (triple_bind _ _
            (fun done pw => open_obj n h pw /\ done = doOobjStack pw
                            /\ is_Some (doOobjStack pw !! ID value))).
  { apply triple_gets. intros pw [Hopen Hsome]. auto. }
  intros done'.
  eapply (triple_bind _ _ (fun ref pw => open_obj n h pw /\ known pw (NewID ref))).
  { apply triple_deref. intros ref pw Href (Hopen & -> & _).
    split; [exact Hopen|]. exists (ID value), ref. auto. }
  intros ref. apply emit_outObjRef.
Qed.

Ltac estep n h :=
  lazymatch goal with
  | |- triple _ (bind _ _) _ _ =>
      eapply (triple_bind _ _ (fun _ => open_obj n h)); [|intros ?]
  | |- triple _ (out _) _ _ => apply emit_out
  | |- triple _ (straightOut _) _ _ => apply emit_straightOut
  | |- triple _ (gets _) _ _ => apply triple_gets; intros ? Hopen; exact Hopen
  | |- triple _ (ret _) _ _ => apply triple_ret; intros ? Hopen; exact Hopen
  | |- triple _ (deref _) _ _ => apply triple_deref; intros ? ? _ Hopen; exact Hopen
  | |- triple _ panic _ _ => apply triple_panic
  | |- triple _ (if ?c then _ else _) _ _ => destruct c
  end.

Lemma emit_writeValue (n : option Z) (h : option (Z * PdfValue)) (v : PdfValue) :
  forall E, triple (open_obj n h) (writeValue v) (fun _ => open_obj n h) E.
Proof.
  induction v as [ty str tok i re b dict arr id nid gen val strm bytes Hdict Harr Hval Hstrm]
    using PdfValue_nested_ind.
  intros E. cbn [writeValue].
  repeat match goal with
         | |- triple _ (if ?c =? ?d then _ else _) _ _ => destruct (c =? d)
         end; repeat (estep n h).
  - induction Harr as [|x rest Hx Hrest IH]; [repeat (estep n h)|].
    eapply (triple_bind _ _ (fun _ => open_obj n h)); [apply Hx|intros ?; apply IH].
  - induction Hdict as [|[key x] rest Hx Hrest IH]; [repeat (estep n h)|].
    eapply (triple_bind _ _ (fun _ => open_obj n h)); [apply emit_straightOut|intros ?].
    eapply (triple_bind _ _ (fun _ => open_obj n h)); [apply Hx|intros ?; apply IH].
  - apply emit_writeObjRef.
  - destruct val as [x|]; [|apply triple_panic]. apply Hval. reflexivity.
Qed.

(** Starting an object: a new identifier, an empty buffer, an empty map
    of positions.  The identifier carries the number [objID] unless it is
    negative, in which case a new number is taken, which is the value of
    the counter [nextOjbID] then. *)
Lemma emit_newObj_start (objID : Z) (h : option (Z * PdfValue)) (E : PdfWriter -> Prop) :
  triple (fun pw => closed_obj pw /\ held pw h) (newObj objID false)
    (fun _ pw => open_obj (Some (if objID <? 0 then nextOjbID pw else objID)) h pw) E.
Proof.
  assert (Hstart : forall k pw,
            closed_obj pw /\ held pw h ->
            match (let* hh := shaOfInt k in
                   modify (fun pw =>
                     let p := List.length (objIDs pw) in
                     set_writtenObjPos (<[p := ∅]> (writtenObjPos pw))
                       (set_currentObj (mkPdfObject (Some p) (Some []))
                          (set_objIDs (objIDs pw ++ [mkPdfObjectID k hh]) pw)))) pw with
            | Ok _ pw' => open_obj (Some k) h pw' /\ nextOjbID pw' = nextOjbID pw
            | Err _ pw' => E pw'
            | _ => True
            end).
  { intros k pw (((H1 & H2 & H3 & H4 & H5 & H6) & Ht) & Hh).
    destruct pw as [r0 tpls0 nid ostack dstack ids wobjs wpos cur toff cb calls].
    cbn in *. unfold shaOfInt, bind, gets, deref, modify, ret. cbn.
    destruct r0 as [rd|]; cbn; [|exact I].
    assert (Hemitted : forall x,
              emitted (mkPdfWriter (Some rd) tpls0 nid ostack dstack ids wobjs wpos cur toff
                         cb calls) x ->
              emitted (mkPdfWriter (Some rd) tpls0 nid ostack dstack
                         (ids ++ [mkPdfObjectID k
                                    (sha1_hex (itoa k +:+ "-" +:+ SourceFile rd))])
                         wobjs (<[List.length ids := ∅]> wpos)
                         (mkPdfObject (Some (List.length ids)) (Some [])) toff cb calls) x).
    { intros x (p & o & Ho & Hx & Hw). exists p, o. cbn in *.
      split; [|auto]. rewrite lookup_app_l by (eapply lookup_lt_Some; exact Ho). exact Ho. }
    split; [|reflexivity].
    split; [|split; [exact Ht|split; [destruct h as [[i v]|]; exact Hh|]]].
    - unfold emit_inv. cbn. split; [|split; [|split; [|split; [|split]]]].
      + intros q bytes m Hq Hm.
        destruct (decide (q = List.length ids)) as [->|Hne].
        * rewrite H2 in Hq by lia. discriminate.
        * rewrite lookup_insert_ne in Hm by congruence. exact (H1 q bytes m Hq Hm).
      + intros q Hq. apply H2. rewrite length_app in Hq. cbn in Hq. lia.
      + intros q [= <-]. rewrite length_app. cbn. lia.
      + exact H4.
      + intros id v Hv. destruct (H5 id v Hv) as [Hidv [Hp|[Hneg|He]]]; auto.
      + exact H6.
    - eexists _, _, _. cbn. split; [reflexivity|].
      split; [rewrite lookup_app_r by lia; rewrite Nat.sub_diag; reflexivity|].
      split; [reflexivity|]. split; [apply H2; lia|].
      intros m. rewrite lookup_insert_eq. intros [= <-] off ref Href.
      rewrite lookup_empty in Href. discriminate. }
  intros pw Hpre. unfold newObj. unfold bind at 1.
  destruct (Z.ltb_spec objID 0) as [Hlt|Hge].
  - destruct (newObj_reserve_run pw) as (pw' & Hres & Hcore).
    unfold newObj in Hres. cbn [Z.ltb Z.compare] in Hres.
    unfold bind at 1 in Hres.
    destruct ((let* cb := gets NextObjectID in _) pw) as [k pw1| | |] eqn:Hk;
      try discriminate.
    injection Hres as <-. cbn [negb].
    assert (Hnext : k = nextOjbID pw1).
    { apply bind_Ok in Hk as (cb & s1 & _ & Hk).
      apply bind_Ok in Hk as (u & s2 & _ & Hk).
      apply gets_Ok in Hk as [Hk1 Hk2]. subst. reflexivity. }
    assert (Hpre1 : closed_obj pw1 /\ held pw1 h).
    { destruct Hpre as [[Hinv Ht] Hh]. destruct Hcore as (E1 & E2 & E3 & E4 & E5 & E6 & E7).
      split; [split|].
      * eapply emit_inv_core; [|exact Hinv]. unfold same_core. auto 10.
      * rewrite <- E7. exact Ht.
      * destruct h as [[i v]|]; cbn in *; [rewrite E1; exact Hh|exact I]. }
    pose proof (Hstart k pw1 Hpre1) as Hrun.
    destruct ((let* hh := shaOfInt k in _) pw1) as [u pw2|e pw2| |]; try exact Hrun.
    destruct Hrun as [Hopen Hsame]. rewrite Hsame, <- Hnext. exact Hopen.
  - cbn [ret negb]. pose proof (Hstart objID pw Hpre) as Hrun.
    destruct ((let* hh := shaOfInt objID in _) pw) as [u pw2|e pw2| |]; try exact Hrun.
    apply Hrun.
Qed.

Lemma open_obj_forget (k : Z) (h : option (Z * PdfValue)) (pw : PdfWriter) :
  open_obj (Some k) h pw -> open_obj None h pw.
Proof.
  intros (Hinv & Ht & Hh & p & buf & o & Hcur & Ho & _ & Hw & Hpos).
  split; [exact Hinv|]. split; [exact Ht|]. split; [exact Hh|].
  exists p, buf, o. cbn. auto.
Qed.

(** Ending an object: its buffer is emitted under its identifier. *)
Lemma emit_endObj (n : option Z) (h : option (Z * PdfValue)) (E : PdfWriter -> Prop) :
  triple (open_obj n h) endObj (fun _ pw => closed_obj pw /\ held pw h /\ emitted_if pw n) E.
Proof.
  intros pw ((H1 & H2 & H3 & H4 & H5 & H6) & Ht & Hh & p & buf & o & Hcur & Ho & Hn & Hw
             & Hpos).
  destruct pw as [r0 tpls0 nid ostack dstack ids wobjs wpos cur toff cb calls].
  cbn in *. subst cur.
  unfold endObj, bind, gets, deref, modify, ret. cbn.
  assert (Hemitted : forall x,
            emitted (mkPdfWriter r0 tpls0 nid ostack dstack ids wobjs wpos
                       (mkPdfObject (Some p) (Some buf)) toff cb calls) x ->
            emitted (mkPdfWriter r0 tpls0 nid ostack dstack ids (<[p := buf]> wobjs) wpos
                       (mkPdfObject (Some p) (Some buf)) toff cb calls) x).
  { intros x (q & o' & Ho' & Hx & Hq). exists q, o'. cbn in *.
    split; [exact Ho'|]. split; [exact Hx|].
    destruct (decide (q = p)) as [->|Hne];
      [rewrite lookup_insert_eq; eauto|rewrite lookup_insert_ne by congruence; exact Hq]. }
  split; [split; [|exact Ht]|split; [destruct h as [[i v]|]; exact Hh|]].
  - unfold emit_inv. cbn. split; [|split; [|split; [|split; [|split]]]].
    + intros q bytes m Hq Hm.
      destruct (decide (q = p)) as [->|Hne].
      * rewrite lookup_insert_eq in Hq. injection Hq as <-. exact (Hpos m Hm).
      * rewrite lookup_insert_ne in Hq by congruence. exact (H1 q bytes m Hq Hm).
    + intros q Hq. specialize (H3 p eq_refl). rewrite lookup_insert_ne by lia. auto.
    + exact H3.
    + exact H4.
    + intros id v Hv. destruct (H5 id v Hv) as [Hidv [Hp|[Hneg|He]]]; auto.
    + exact H6.
  - destruct n as [k|]; [|exact I]. exists p, o. cbn in *.
    split; [exact Ho|]. split; [exact Hn|].
    rewrite lookup_insert_eq. eauto.
Qed.

(** A call on the reader changes the reader only. *)
Lemma emit_onReader {A} (P : PdfWriter -> Prop) (m : M PdfReader A) :
  (forall pw x, P pw -> P (set_r x pw)) ->
  triple P (onReader m) (fun _ => P) P.
Proof.
  intros Hr pw HP. unfold onReader.
  destruct (r pw) as [rd|]; [|exact I].
  destruct (m rd); auto.
Qed.

Lemma closed_held_set_r (h : option (Z * PdfValue)) (pw : PdfWriter) (x : option PdfReader) :
  closed_obj pw /\ held pw h -> closed_obj (set_r x pw) /\ held (set_r x pw) h.
Proof.
  intros [[Hinv Ht] Hh]. split; [split; [|exact Ht]|destruct h as [[i v]|]; exact Hh].
  eapply emit_inv_core; [|exact Hinv]. unfold same_core. cbn. tauto.
Qed.

(** The object of index [i] leaves the object stack when it is emitted. *)
Lemma emit_drop_pending (i : Z) (v : PdfValue) (pw : PdfWriter) :
  closed_obj pw -> held pw (Some (i, v)) ->
  emitted_if pw (if NewID v <? 0 then None else Some (NewID v)) ->
  closed_obj (set_objStack (<[i := None]> (objStack pw)) pw).
Proof.
  intros [(H1 & H2 & H3 & H4 & H5 & H6) Ht] Hh He. cbn in Hh.
  split; [|exact Ht].
  unfold emit_inv. cbn. split; [|split; [|split; [|split; [|split]]]].
  - exact H1.
  - exact H2.
  - exact H3.
  - intros id w Hw. destruct (decide (id = i)) as [->|Hne].
    + rewrite lookup_insert_eq in Hw. discriminate.
    + rewrite lookup_insert_ne in Hw by congruence. apply H4. exact Hw.
  - intros id w Hw. destruct (H5 id w Hw) as [Hidw Hor]. split; [exact Hidw|].
    destruct (decide (id = i)) as [->|Hne].
    + right. apply H4 in Hh. rewrite Hh in Hw. injection Hw as <-.
      destruct (Z.ltb_spec (NewID v) 0); [left; assumption|right; exact He].
    + rewrite lookup_insert_ne by congruence. exact Hor.
  - exact H6.
Qed.

(** What the emission keeps: the identifiers, the emitted objects, the
    offset of the template names and the number of templates. *)
Lemma grows_refl (pw : PdfWriter) : grows pw pw.
Proof. split; [exists []; rewrite app_nil_r; reflexivity|auto]. Qed.

Lemma grows_trans (a b c : PdfWriter) : grows a b -> grows b c -> grows a c.
Proof.
  intros [[m1 H1] K1] [[m2 H2] K2]. split; [|auto].
  exists (m1 ++ m2). rewrite H2, H1, app_assoc. reflexivity.
Qed.

Lemma steady_refl (pw : PdfWriter) : steady pw pw.
Proof. split; [apply grows_refl|auto]. Qed.

Lemma steady_trans (a b c : PdfWriter) : steady a b -> steady b c -> steady a c.
Proof.
  intros (G1 & O1 & T1) (G2 & O2 & T2).
  split; [eapply grows_trans; eassumption|]. split; congruence.
Qed.

Lemma emitted_grows (pw pw' : PdfWriter) (n : Z) :
  grows pw pw' -> emitted pw n -> emitted pw' n.
Proof.
  intros [[more Hids] Hw] (p & o & Ho & Hn & Hp). exists p, o.
  split; [|auto]. rewrite Hids. apply lookup_app_l_Some. exact Ho.
Qed.

Lemma keeps_bind {A B} (m : M PdfWriter A) (k : A -> M PdfWriter B) :
  keeps steady m -> (forall a, keeps steady (k a)) -> keeps steady (bind m k).
Proof.
  intros Hm Hk s. unfold bind. specialize (Hm s).
  destruct (m s) as [a s1|e s1| |]; auto.
  specialize (Hk a s1). destruct (k a s1); auto; eapply steady_trans; eassumption.
Qed.

Lemma keeps_ret {A} (a : A) : keeps steady (ret a : M PdfWriter A).
Proof. intros s. apply steady_refl. Qed.

Lemma keeps_gets {A} (g : PdfWriter -> A) : keeps steady (gets g).
Proof. intros s. apply steady_refl. Qed.

Lemma keeps_deref {A} (o : option A) : keeps steady (deref o : M PdfWriter A).
Proof. intros s. destruct o; cbn; [apply steady_refl|exact I]. Qed.

Lemma keeps_fail {A} (e : string) : keeps steady (fail e : M PdfWriter A).
Proof. intros s. apply steady_refl. Qed.

Lemma keeps_modify (g : PdfWriter -> PdfWriter) :
  (forall pw, steady pw (g pw)) -> keeps steady (modify g).
Proof. intros Hg s. apply Hg. Qed.

Lemma keeps_onReader {A} (m : M PdfReader A) : keeps steady (onReader m).
Proof.
  intros pw. unfold onReader. destruct (r pw) as [rd|]; [|exact I].
  destruct (m rd); try exact I; destruct pw; unfold steady, grows; cbn;
    (split; [split; [exists []; rewrite app_nil_r; reflexivity|auto]|split; reflexivity]).
Qed.

Ltac steady_field :=
  let pw := fresh "pw" in
  intros pw; destruct pw; unfold steady, grows; cbn;
  split; [split; [exists []; rewrite app_nil_r; reflexivity|auto]|split; reflexivity].

Create HintDb keeps.

Ltac kstep :=
  lazymatch goal with
  | |- keeps _ (bind _ _) => apply keeps_bind; [|intros ?]
  | |- keeps _ (ret _) => apply keeps_ret
  | |- keeps _ (gets _) => apply keeps_gets
  | |- keeps _ (deref _) => apply keeps_deref
  | |- keeps _ (fail _) => apply keeps_fail
  | |- keeps _ panic => intros ?; exact I
  | |- keeps _ diverge => intros ?; exact I
  | |- keeps _ (onReader _) => apply keeps_onReader
  | |- keeps _ (modify _) => apply keeps_modify; steady_field
  | |- keeps _ (if ?c then _ else _) => destruct c
  | |- keeps _ (match ?x with _ => _ end) => destruct x
  | |- keeps _ _ => solve [auto with keeps]
  end.

Lemma keeps_shaOfInt (i : Z) : keeps steady (shaOfInt i).
Proof. unfold shaOfInt. repeat kstep. Qed.

Lemma keeps_WriteString (s : string) : keeps steady (WriteString s).
Proof. unfold WriteString. repeat kstep. Qed.

#[local] Hint Resolve keeps_shaOfInt keeps_WriteString : keeps.

Lemma keeps_out (s : string) : keeps steady (out s).
Proof. unfold out. repeat kstep. Qed.

Lemma keeps_straightOut (s : string) : keeps steady (straightOut s).
Proof. apply keeps_WriteString. Qed.

Lemma keeps_outObjRef (objID : Z) : keeps steady (outObjRef objID).
Proof. unfold outObjRef. repeat kstep. Qed.

Lemma keeps_newObj (objID : Z) (onlyNewObj : bool) : keeps steady (newObj objID onlyNewObj).
Proof.
  unfold newObj. kstep; [repeat kstep|]. kstep; [kstep|]. kstep; [kstep|].
  apply keeps_modify. intros pw. destruct pw. unfold steady, grows. cbn.
  split; [split; [eauto|auto]|split; reflexivity].
Qed.

Lemma keeps_endObj : keeps steady endObj.
Proof.
  unfold endObj.
  apply keeps_bind; [kstep|intros cur]. apply keeps_bind; [kstep|intros buf].
  apply keeps_bind; [kstep|intros p].
  apply keeps_modify. intros pw. destruct pw. unfold steady, grows. cbn.
  split; [split; [exists []; rewrite app_nil_r; reflexivity|]|split; reflexivity].
  intros q Hq. destruct (decide (q = p)) as [->|Hne];
    [rewrite lookup_insert_eq; eauto|rewrite lookup_insert_ne by congruence; exact Hq].
Qed.

#[local] Hint Resolve keeps_out keeps_straightOut keeps_outObjRef keeps_newObj keeps_endObj
  : keeps.

Lemma keeps_writeObjRef (value : PdfValue) : keeps steady (writeObjRef value).
Proof. unfold writeObjRef. repeat kstep. Qed.

Lemma keeps_writeValue (v : PdfValue) : keeps steady (writeValue v).
Proof.
  induction v as [ty str tok i re b dict arr id nid gen val strm bytes Hdict Harr Hval Hstrm]
    using PdfValue_nested_ind.
  cbn [writeValue].
  repeat match goal with
         | |- keeps _ (if ?c =? ?d then _ else _) => destruct (c =? d)
         end; repeat kstep.
  - induction Harr as [|x rest Hx Hrest IH]; [kstep|].
    apply keeps_bind; [apply Hx|intros ?; apply IH].
  - induction Hdict as [|[key x] rest Hx Hrest IH]; [kstep|].
    apply keeps_bind; [apply keeps_straightOut|intros ?].
    apply keeps_bind; [apply Hx|intros ?; apply IH].
  - apply keeps_writeObjRef.
Qed.

#[local] Hint Resolve keeps_writeValue : keeps.

Lemma keeps_scan (fuel : nat) (k : nat) :
  forall (i : Z) (b : bool), keeps steady (putImportedObjects_scan fuel k i b).
Proof.
  induction k as [|k IH]; intros i b; cbn [putImportedObjects_scan]; [kstep|].
  apply keeps_bind; [kstep|intros st]. destruct (default None (st !! i)); [|apply IH].
  kstep; [kstep|]. kstep; [kstep|]. kstep; [repeat kstep|]. kstep; [kstep|].
  kstep; [kstep|]. apply IH.
Qed.

Lemma keeps_putImportedObjects (fuel : nat) : keeps steady (putImportedObjects fuel).
Proof.
  induction fuel as [|fuel IH]; cbn [putImportedObjects]; [kstep|].
  apply keeps_bind; [apply keeps_scan|intros found]. destruct (negb found); [kstep|exact IH].
Qed.

#[local] Hint Resolve keeps_putImportedObjects : keeps.

(** A triple holds together with what its computation keeps. *)
Lemma triple_frame {A} (F : PdfWriter -> Prop) (P : PdfWriter -> Prop) (m : M PdfWriter A)
    (Q : A -> PdfWriter -> Prop) (E : PdfWriter -> Prop) :
  (forall pw pw', steady pw pw' -> F pw -> F pw') ->
  keeps steady m -> triple P m Q E ->
  triple (fun pw => P pw /\ F pw) m (fun a pw => Q a pw /\ F pw) E.
Proof.
  intros HF Hk Ht pw [HP HFpw]. specialize (Hk pw). specialize (Ht pw HP).
  destruct (m pw); eauto.
Qed.

(** The scan of [putImportedObjects]: every pending object that the scan
    meets is emitted under its new number and leaves the object stack.  When
    the scan reports that it found nothing, no object of its range is
    pending. *)
Lemma emit_scan (fuel : nat) (lo : Z) (k : nat) :
  forall (i : Z) (b : bool),
    triple (fun pw => closed_obj pw /\
                      (b = false -> forall j, lo <= j < i ->
                                              default None (objStack pw !! j) = None))
      (putImportedObjects_scan fuel k i b)
      (fun b' pw => closed_obj pw /\
                    (b' = false -> forall j, lo <= j < i + Z.of_nat k ->
                                             default None (objStack pw !! j) = None))
      emit_inv.
Proof.
  induction k as [|k IH]; intros i b; cbn [putImportedObjects_scan].
  - apply triple_ret. intros pw [Hc Hn]. split; [exact Hc|].
    intros Hb j Hj. apply Hn; [exact Hb|lia].
  - eapply (triple_bind _ _
              (fun st pw => (closed_obj pw /\
                             (b = false -> forall j, lo <= j < i ->
                                default None (objStack pw !! j) = None)) /\
                            st = objStack pw)).
    { apply triple_gets. intros pw Hpre. split; [exact Hpre|reflexivity]. }
    intros st. destruct (default None (st !! i)) as [v|] eqn:Hst.
    + set (c := if NewID v <? 0 then None else Some (NewID v)).
      eapply (triple_bind _ _ (fun _ pw => closed_obj pw /\ held pw (Some (i, v)))).
      { eapply triple_weaken.
        - apply (emit_onReader (fun pw => closed_obj pw /\ held pw (Some (i, v)))).
          intros pw x. apply closed_held_set_r.
        - intros pw [[Hc _] ->]. split; [exact Hc|]. cbn.
          destruct (objStack pw !! i) as [[w|]|]; cbn in Hst; congruence.
        - auto.
        - intros pw [Hc _]. apply closed_obj_emit_inv, Hc. }
      intros nObj.
      eapply (triple_bind _ _ (fun _ => open_obj c (Some (i, v)))).
      { eapply triple_weaken; [apply (emit_newObj_start (NewID v) (Some (i, v)) emit_inv)|auto| |auto].
        intros ? pw Hopen. unfold c.
        destruct (NewID v <? 0); [eapply open_obj_forget|]; exact Hopen. }
      intros _.
      eapply (triple_bind _ _ (fun _ => open_obj c (Some (i, v)))).
      { destruct (Type_ nObj =? PDFTypeStream); [apply emit_writeValue|].
        eapply (triple_bind _ _ (fun _ => open_obj c (Some (i, v))));
          [|intros ?; apply emit_writeValue].
        apply triple_deref. intros ? ? _ Hopen. exact Hopen. }
      intros _.
      eapply (triple_bind _ _ (fun _ pw => closed_obj pw /\ held pw (Some (i, v)) /\
                                           emitted_if pw c));
        [apply emit_endObj|intros _].
      eapply (triple_bind _ _ (fun _ pw => closed_obj pw /\
                                 (true = false -> forall j, lo <= j < i + 1 ->
                                    default None (objStack pw !! j) = None))).
      { apply triple_modify. intros pw (Hc & Hh & He).
        split; [exact (emit_drop_pending i v pw Hc Hh He)|discriminate]. }
      intros _. eapply triple_weaken; [apply (IH (i + 1) true)|auto| |auto].
      intros b' pw [Hc Hn]. split; [exact Hc|]. intros Hb j Hj. apply Hn; [exact Hb|lia].
    + eapply triple_weaken; [apply (IH (i + 1) b)| |  |auto].
      * intros pw [[Hc Hn] ->]. split; [exact Hc|]. intros Hb j Hj.
        destruct (Z.eq_dec j i) as [->|Hne]; [exact Hst|apply Hn; [exact Hb|lia]].
      * intros b' pw [Hc Hn]. split; [exact Hc|]. intros Hb j Hj. apply Hn; [exact Hb|lia].
Qed.

(** [putImportedObjects] returns when a scan found nothing: no source
    object with an id from 0 to 9998 is pending then. *)
Lemma emit_putImportedObjects (fuel : nat) :
  triple closed_obj (putImportedObjects fuel)
    (fun _ pw => closed_obj pw /\ none_pending pw) emit_inv.
Proof.
  induction fuel as [|fuel IH]; cbn [putImportedObjects]; [apply triple_diverge|].
  eapply triple_bind.
  { eapply triple_weaken; [apply (emit_scan fuel 0 (Z.to_nat 9999) 0 false)| | |auto].
    - intros pw Hc. split; [exact Hc|]. intros _ j Hj. lia.
    - intros b pw Hpost. exact Hpost. }
  intros b. destruct b; cbn [negb].
  - eapply triple_weaken; [exact IH| | |auto]; [intros pw [Hc _]; exact Hc|auto].
  - apply triple_ret. intros pw [Hc Hn]. split; [exact Hc|].
    intros j Hj. apply Hn; [reflexivity|lia].
Qed.

(** The emission of one template: the template is emitted under the
    number that the result gives to its name, and the objects it refers to
    follow.  [F] is any property that the emission keeps. *)
Lemma emit_putTemplate (F : PdfWriter -> Prop) (fuel : nat) (i : Z) (tpl : PdfTemplate)
    (result : gmap string PdfObjectID) :
  (forall pw pw', steady pw pw' -> F pw -> F pw') ->
  triple (fun pw => closed_obj pw /\ F pw) (putTemplate fuel i tpl result)
    (fun result' pw =>
       (closed_obj pw /\ none_pending pw) /\ F pw /\
       exists o, result' = <[template_name (tplIDOffset pw) i := o]> result /\
                 emitted pw (oid_id o))
    emit_inv.
Proof.
  intros HF. unfold putTemplate.
  eapply (triple_bind _ _ (fun _ pw => open_obj (Some (nextOjbID pw)) None pw /\ F pw)).
  { eapply triple_weaken;
      [apply (triple_frame F _ _ _ emit_inv HF (keeps_newObj (-1) false)
                (emit_newObj_start (-1) None emit_inv))| |auto|auto].
    intros pw [Hc HFpw]. split; [split; [exact Hc|exact I]|exact HFpw]. }
  intros ?.
  eapply (triple_bind _ _ (fun cN pw => open_obj (Some cN) None pw /\ F pw)).
  { apply triple_gets. auto. }
  intros cN.
  eapply (triple_bind _ _ (fun _ pw => open_obj (Some cN) None pw /\ F pw)).
  { apply (triple_frame F); [exact HF| |].
    - apply keeps_modify. intros pw. destruct pw. unfold steady, grows. cbn.
      split; [split; [exists []; rewrite app_nil_r; reflexivity|auto]|].
      split; [reflexivity|apply length_insert].
    - apply triple_modify. intros pw Hopen. eapply open_obj_core; [|exact Hopen].
      unfold same_core. cbn. repeat split; auto.
      + intros ->. reflexivity.
      + intros Ht. apply (f_equal (@List.length _)) in Ht.
        rewrite length_insert in Ht. destruct (tpls pw); [reflexivity|discriminate]. }
  intros ?.
  eapply (triple_bind _ _ (fun _ pw => open_obj (Some cN) None pw /\ F pw)).
  { intros pw Hpre. unfold shaOfInt, bind, gets, deref, ret.
    destruct (r pw); cbn; [exact Hpre|exact I]. }
  intros h.
  set (F2 := fun off pw => F pw /\ tplIDOffset pw = off).
  assert (HF2 : forall off pw pw', steady pw pw' -> F2 off pw -> F2 off pw').
  { intros off pw pw' Hs [HFpw Hoff]. split; [exact (HF _ _ Hs HFpw)|].
    destruct Hs as (_ & Ho & _). congruence. }
  eapply (triple_bind _ _ (fun off pw => open_obj (Some cN) None pw /\ F2 off pw)).
  { apply triple_gets. intros pw [Hopen HFpw]. split; [exact Hopen|]. split; auto. }
  intros off.
  assert (Hout : forall s, triple (fun pw => open_obj (Some cN) None pw /\ F2 off pw) (out s)
                             (fun _ pw => open_obj (Some cN) None pw /\ F2 off pw) emit_inv).
  { intros s. apply (triple_frame (F2 off)); [apply HF2|apply keeps_out|apply emit_out]. }
  do 4 (eapply triple_bind; [apply Hout|intros ?]).
  destruct (tplMatrix tpl) as [[[c s] tx] ty].
  eapply (triple_bind _ _ (fun _ pw => open_obj (Some cN) None pw /\ F2 off pw)).
  { destruct (fneq c 1 || fneq s 0 || fneq tx 0 || fneq ty 0); [apply Hout|].
    apply triple_ret. auto. }
  intros ?. eapply triple_bind; [apply Hout|intros ?].
  destruct (tpl_Resources tpl) as [res|];
    [|apply triple_fail; intros pw [Hopen _]; exact (open_obj_emit_inv _ _ _ Hopen)].
  eapply triple_bind;
    [apply (triple_frame (F2 off)); [apply HF2|apply keeps_writeValue|apply emit_writeValue]
    |intros ?].
  eapply (triple_bind _ _ (fun _ pw => open_obj (Some cN) None pw /\ F2 off pw));
    [apply triple_gets; auto|intros nN].
  eapply triple_bind;
    [apply (triple_frame (F2 off) (open_obj (Some cN) None) _
              (fun _ => open_obj (Some cN) None) emit_inv (HF2 off));
       [apply keeps_modify; steady_field|core_step]
    |intros ?].
  do 4 (eapply triple_bind; [apply Hout|intros ?]).
  set (F3 := fun pw => F2 off pw /\ emitted pw cN).
  assert (HF3 : forall pw pw', steady pw pw' -> F3 pw -> F3 pw').
  { intros pw pw' Hs [H2 He]. split; [exact (HF2 _ _ _ Hs H2)|].
    destruct Hs as (Hg & _). exact (emitted_grows _ _ _ Hg He). }
  eapply (triple_bind _ _ (fun _ pw => closed_obj pw /\ F3 pw)).
  { eapply triple_weaken;
      [apply (triple_frame (F2 off) _ _ _ emit_inv (HF2 off) keeps_endObj
                (emit_endObj (Some cN) None emit_inv))|auto| |auto].
    intros ? pw [(Hc & _ & He) H2]. split; [exact Hc|]. split; [exact H2|exact He]. }
  intros ?.
  eapply (triple_bind _ _ (fun _ pw => closed_obj pw /\ F3 pw)).
  { apply (triple_frame F3 closed_obj _ (fun _ => closed_obj) emit_inv HF3);
      [apply keeps_modify; steady_field|].
    apply triple_modify. intros pw [Hinv Ht]. split; [|exact Ht].
    eapply emit_inv_core; [|exact Hinv]. unfold same_core. cbn. tauto. }
  intros ?.
  eapply triple_bind;
    [apply (triple_frame F3 _ _ _ emit_inv HF3 (keeps_putImportedObjects fuel)
              (emit_putImportedObjects fuel))|intros ?].
  apply triple_ret. intros pw [Hc [[HFpw Hoff] He]].
  split; [exact Hc|]. split; [exact HFpw|].
  exists (mkPdfObjectID cN h). rewrite Hoff. split; [reflexivity|exact He].
Qed.

Lemma loop_inv_steady (off : Z) (n : nat) (hi : Z) (result : gmap string PdfObjectID)
    (pw pw' : PdfWriter) :
  steady pw pw' -> loop_inv off n hi result pw -> loop_inv off n hi result pw'.
Proof.
  intros (Hg & Ho & Ht) (Hoff & Hn & Hem & Hkeys).
  split; [congruence|]. split; [congruence|]. split; [|exact Hkeys].
  intros name o Hname. eapply emitted_grows; [exact Hg|]. eapply Hem. exact Hname.
Qed.

(** The loop over the templates. *)
Lemma emit_PutFormXobjects_loop (fuel : nat) (off : Z) (n : nat) (k : nat) :
  forall (i : Z) (result : gmap string PdfObjectID),
    0 <= i ->
    triple (fun pw => closed_obj pw /\ (k = O -> none_pending pw) /\
                      loop_inv off n i result pw)
      (PutFormXobjects_loop fuel k i result)
      (fun result' pw => closed_obj pw /\ none_pending pw /\
                         loop_inv off n (i + Z.of_nat k) result' pw)
      emit_inv.
Proof.
  induction k as [|k IH]; intros i result Hi; cbn [PutFormXobjects_loop].
  - apply triple_ret. intros pw (Hc & Hn & Hl). split; [exact Hc|]. split; [auto|].
    rewrite Z.add_0_r. exact Hl.
  - eapply (triple_bind _ _ (fun _ pw => closed_obj pw /\ loop_inv off n i result pw)).
    { apply triple_gets. intros pw (Hc & _ & Hl). auto. }
    intros ts. eapply (triple_bind _ _ (fun _ pw => closed_obj pw /\
                                                    loop_inv off n i result pw)).
    { apply triple_deref. intros ? ? _ Hc. exact Hc. }
    intros tpl. eapply triple_bind.
    { apply (emit_putTemplate (loop_inv off n i result)). apply loop_inv_steady. }
    intros result'. eapply triple_weaken; [apply (IH (i + 1) result'); lia| |  |auto].
    + intros pw ((Hc & Hn) & (Hoff & Hlen & Hem & Hkeys) & o & -> & Ho).
      split; [exact Hc|]. split; [auto|]. split; [exact Hoff|]. split; [exact Hlen|]. split.
      * intros name o' Hname. rewrite Hoff in Hname.
        destruct (decide (template_name off i = name)) as [<-|Hne].
        -- rewrite lookup_insert_eq in Hname. injection Hname as <-. exact Ho.
        -- rewrite lookup_insert_ne in Hname by exact Hne. eapply Hem. exact Hname.
      * intros j Hj. rewrite Hoff.
        destruct (decide (template_name off i = template_name off j)) as [<-|Hne].
        -- rewrite lookup_insert_eq. eauto.
        -- rewrite lookup_insert_ne by exact Hne. apply Hkeys.
           destruct (Z.eq_dec j i) as [->|Hji]; [contradiction|lia].
    + intros result'' pw (Hc & Hn & Hl). split; [exact Hc|]. split; [exact Hn|].
      replace (i + Z.of_nat (S k)) with (i + 1 + Z.of_nat k) by lia. exact Hl.
Qed.

Lemma emit_inv_set_r (pw : PdfWriter) (x : option PdfReader) :
  emit_inv pw -> emit_inv (set_r x pw).
Proof. apply emit_inv_core. unfold same_core. cbn. tauto. Qed.

(** [PutFormXobjects]: when it returns without error, no source object
    with an id from 0 to 9998 is pending if there is a template, every
    template has its name, and every name carries the identifier of an
    emitted object. *)
Lemma emit_PutFormXobjects (fuel : nat) (reader : PdfReader) (off : Z) (n : nat) :
  triple (fun pw => emit_inv pw /\ tplIDOffset pw = off /\ List.length (tpls pw) = n)
    (PutFormXobjects fuel reader)
    (fun names pw => emit_inv pw /\ (tpls pw <> [] -> none_pending pw) /\
                     names_ok off (Z.of_nat n) names pw)
    emit_inv.
Proof.
  unfold PutFormXobjects.
  eapply (triple_bind _ _ (fun _ pw => emit_inv pw /\ tplIDOffset pw = off /\
                                       List.length (tpls pw) = n)).
  { apply triple_modify. intros pw (Hinv & Hoff & Hlen).
    split; [apply emit_inv_set_r; exact Hinv|]. auto. }
  intros ?. eapply (triple_bind _ _ (fun ts pw => (emit_inv pw /\ tplIDOffset pw = off /\
                                                   List.length (tpls pw) = n) /\
                                                  ts = tpls pw)).
  { apply triple_gets. auto. }
  intros ts. destruct (decide (ts = [])) as [->|Hts].
  - apply triple_ret. intros pw [(Hinv & Hoff & Hlen) Ht]. split; [exact Hinv|].
    split; [congruence|]. rewrite <- Ht in Hlen. cbn in Hlen. subst n.
    split; [intros name o Hname; rewrite lookup_empty in Hname; discriminate|].
    intros j Hj. lia.
  - intros pw [(Hinv & Hoff & Hlen) Ht].
    assert (Hn : List.length ts = n) by congruence.
    assert (Hpre : closed_obj pw /\ (List.length ts = O -> none_pending pw) /\
                   loop_inv off n 0 ∅ pw).
    { split; [split; [exact Hinv|congruence]|].
      split; [intros Hk; destruct ts; [contradiction|discriminate]|].
      split; [exact Hoff|]. split; [exact Hlen|].
      split; [intros name o Hname; rewrite lookup_empty in Hname; discriminate|].
      intros j Hj. lia. }
    pose proof (emit_PutFormXobjects_loop fuel off n (List.length ts) 0 ∅ ltac:(lia) pw Hpre)
      as Hrun.
    destruct (PutFormXobjects_loop fuel (List.length ts) 0 ∅ pw) as [names pw'|e pw'| |];
      try exact Hrun.
    destruct Hrun as ([Hinv' Ht'] & Hnone & Hoff' & Hlen' & Hok).
    split; [exact Hinv'|]. split; [auto|]. rewrite Hn in Hok. exact Hok.
Qed.

(** A new template: the invariant does not look at the templates but for
    whether there is one. *)
Lemma emit_inv_more_tpls (pw : PdfWriter) (ts : list PdfTemplate) :
  ts <> [] -> emit_inv pw -> emit_inv (set_tpls ts pw).
Proof.
  intros Hts (H1 & H2 & H3 & H4 & H5 & H6).
  unfold emit_inv. cbn. split; [|split; [|split; [|split; [|split]]]]; auto.
  intros Ht. contradiction.
Qed.

Ltac istep :=
  lazymatch goal with
  | |- triple _ (bind _ _) _ _ => eapply (triple_bind _ _ (fun _ => emit_inv)); [|intros ?]
  | |- triple _ (onReader _) _ _ => apply (emit_onReader emit_inv); intros ? ?; apply emit_inv_set_r
  | |- triple _ (ret _) _ _ => apply triple_ret; intros ? Hinv; exact Hinv
  | |- triple _ (gets _) _ _ => apply triple_gets; intros ? Hinv; exact Hinv
  | |- triple _ (deref _) _ _ => apply triple_deref; intros ? ? _ Hinv; exact Hinv
  | |- triple _ (fail _) _ _ => apply triple_fail; intros ? Hinv; exact Hinv
  | |- triple _ (if ?c then _ else _) _ _ => destruct c
  end.

Lemma emit_GetPDFBoxDimensions (fuel : nat) (p : Z) (boxname : string) :
  triple emit_inv (GetPDFBoxDimensions fuel p boxname) (fun _ => emit_inv) emit_inv.
Proof. unfold GetPDFBoxDimensions. repeat istep. Qed.

(** [ImportPage] of the writer keeps the invariant, with or without error. *)
Lemma emit_ImportPage (fuel : nat) (rd : PdfReader) (pageno : Z) (boxName : string) :
  triple emit_inv (ImportPage fuel rd pageno boxName) (fun _ => emit_inv) emit_inv.
Proof.
  unfold ImportPage.
  istep; [apply triple_modify; intros pw; apply emit_inv_set_r|].
  istep; [istep|]. istep; [istep|]. istep; [apply emit_GetPDFBoxDimensions|].
  istep; [istep|]. istep; [istep|].
  istep; [|repeat istep].
  apply triple_modify. intros pw. apply emit_inv_more_tpls.
  destruct (tpls pw); discriminate.
Qed.

Lemma emit_inv_NewPdfWriter : emit_inv NewPdfWriter.
Proof.
  unfold emit_inv, NewPdfWriter. cbn.
  split; [|split; [|split; [|split; [|split]]]]; try discriminate; auto.
Qed.

(** What [PutFormXobjects] and [ImportPage] keep. *)
Lemma keeps_putTemplate (fuel : nat) (i : Z) (tpl : PdfTemplate)
    (result : gmap string PdfObjectID) :
  keeps steady (putTemplate fuel i tpl result).
Proof.
  unfold putTemplate. kstep; [kstep|]. kstep; [kstep|]. kstep.
  { apply keeps_modify. intros pw. destruct pw. unfold steady, grows. cbn.
    split; [split; [exists []; rewrite app_nil_r; reflexivity|auto]|].
    split; [reflexivity|apply length_insert]. }
  do 6 (kstep; [kstep|]).
  destruct (tplMatrix tpl) as [[[c s] tx] ty]. repeat kstep.
Qed.

Lemma keeps_PutFormXobjects_loop (fuel : nat) (k : nat) :
  forall (i : Z) (result : gmap string PdfObjectID),
    keeps steady (PutFormXobjects_loop fuel k i result).
Proof.
  induction k as [|k IH]; intros i result; cbn [PutFormXobjects_loop]; [kstep|].
  kstep; [kstep|]. kstep; [kstep|]. kstep; [apply keeps_putTemplate|apply IH].
Qed.

Lemma keeps_PutFormXobjects (fuel : nat) (reader : PdfReader) :
  keeps steady (PutFormXobjects fuel reader).
Proof.
  unfold PutFormXobjects. kstep; [kstep|]. kstep; [kstep|].
  apply keeps_PutFormXobjects_loop.
Qed.

Lemma keeps_steady_grows {A} (m : M PdfWriter A) : keeps steady m -> keeps grows m.
Proof.
  intros Hm pw. specialize (Hm pw). destruct (m pw); try exact I; apply Hm.
Qed.

Lemma keeps_bind_grows {A B} (m : M PdfWriter A) (k : A -> M PdfWriter B) :
  keeps grows m -> (forall a, keeps grows (k a)) -> keeps grows (bind m k).
Proof.
  intros Hm Hk s. unfold bind. specialize (Hm s).
  destruct (m s) as [a s1|e s1| |]; auto.
  specialize (Hk a s1). destruct (k a s1); auto; eapply grows_trans; eassumption.
Qed.

Lemma keeps_GetPDFBoxDimensions (fuel : nat) (p : Z) (boxname : string) :
  keeps steady (GetPDFBoxDimensions fuel p boxname).
Proof. unfold GetPDFBoxDimensions. repeat kstep. Qed.

Lemma keeps_ImportPage (fuel : nat) (rd : PdfReader) (pageno : Z) (boxName : string) :
  keeps grows (ImportPage fuel rd pageno boxName).
Proof.
  unfold ImportPage.
  apply keeps_bind_grows; [apply keeps_steady_grows; kstep|intros ?].
  do 2 (apply keeps_bind_grows; [apply keeps_steady_grows; kstep|intros ?]).
  apply keeps_bind_grows;
    [apply keeps_steady_grows, keeps_GetPDFBoxDimensions|intros ?].
  do 2 (apply keeps_bind_grows; [apply keeps_steady_grows; kstep|intros ?]).
  apply keeps_bind_grows; [|intros ?; apply keeps_steady_grows; repeat kstep].
  intros pw. cbn. split; [exists []; rewrite app_nil_r; reflexivity|auto].
Qed.

End Emission.
(** ** The emission invariant on the importer *)

Section ImporterEmission.
Context `{GoStd}.

Lemma emit_imp_onWriter {A} (m : M Writer.PdfWriter A) :
  triple emit_inv m (fun _ => emit_inv) emit_inv ->
  triple (fun imp => emit_inv (Importer.writer imp)) (Importer.onWriter m)
    (fun _ imp => emit_inv (Importer.writer imp))
    (fun imp => emit_inv (Importer.writer imp)).
Proof.
  intros Hm imp Hinv. unfold Importer.onWriter. specialize (Hm _ Hinv).
  destruct (m (Importer.writer imp)); exact Hm.
Qed.

Lemma emit_imp_onWriterWith {A} (m : PdfReader -> M Writer.PdfWriter A)
    (P : Writer.PdfWriter -> Prop) (Q : A -> Writer.PdfWriter -> Prop) :
  (forall rd, triple P (m rd) Q emit_inv) ->
  triple (fun imp => P (Importer.writer imp)) (Importer.onWriterWith m)
    (fun a imp => Q a (Importer.writer imp))
    (fun imp => emit_inv (Importer.writer imp)).
Proof.
  intros Hm imp HP. unfold Importer.onWriterWith.
  destruct (Importer.reader imp) as [rd|]; [|exact I].
  specialize (Hm rd _ HP).
  destruct (m rd (Importer.writer imp)); exact Hm.
Qed.

Lemma emit_imp_onReader {A} (m : M PdfReader A) :
  triple (fun imp => emit_inv (Importer.writer imp)) (Importer.onReader m)
    (fun _ imp => emit_inv (Importer.writer imp))
    (fun imp => emit_inv (Importer.writer imp)).
Proof.
  intros imp Hinv. unfold Importer.onReader.
  destruct (Importer.reader imp) as [rd|]; [|exact I].
  destruct (m rd); try exact I; exact Hinv.
Qed.

(** [PutFormXobjects] of the importer. *)
Lemma emit_imp_PutFormXobjects (fuel : nat) (imp : Importer.Importer) :
  emit_inv (Importer.writer imp) ->
  match Importer.PutFormXobjects fuel imp with
  | Ok names imp' =>
      emit_inv (Importer.writer imp') /\
      (Writer.tpls (Importer.writer imp') <> [] -> none_pending (Importer.writer imp')) /\
      exists ids,
        names = oid_id <$> ids /\
        names_ok (Writer.tplIDOffset (Importer.writer imp))
          (Z.of_nat (List.length (Writer.tpls (Importer.writer imp)))) ids
          (Importer.writer imp')
  | Err _ imp' => emit_inv (Importer.writer imp')
  | Panic => True
  | Diverge => True
  end.
Proof.
  intros Hinv. unfold Importer.PutFormXobjects, bind.
  pose proof (emit_imp_onWriterWith (fun rd => Writer.PutFormXobjects fuel rd) _ _
                (fun rd => emit_PutFormXobjects fuel rd
                             (Writer.tplIDOffset (Importer.writer imp))
                             (List.length (Writer.tpls (Importer.writer imp))))
                imp (conj Hinv (conj eq_refl eq_refl))) as Hrun.
  destruct (Importer.onWriterWith _ imp) as [ids imp'|e imp'| |]; try exact Hrun.
  cbn. destruct Hrun as (Hinv' & Hnone & Hok). eauto.
Qed.

(** Every method of the importer keeps the invariant, whether it returns
    an error or not. *)
Lemma emit_after_call (c : call) (imp imp' : Importer.Importer) :
  emit_inv (Importer.writer imp) -> after_call c imp = Some imp' ->
  emit_inv (Importer.writer imp').
Proof.
  intros Hinv Hc.
  assert (Hfinal : forall A (m : M Importer.Importer A),
            triple (fun imp => emit_inv (Importer.writer imp)) m
              (fun _ imp => emit_inv (Importer.writer imp))
              (fun imp => emit_inv (Importer.writer imp)) ->
            final (m imp) = Some imp' -> emit_inv (Importer.writer imp')).
  { intros A m Hm Hf. specialize (Hm imp Hinv).
    destruct (m imp); cbn in Hf; try discriminate; injection Hf as <-; exact Hm. }
  destruct c as [fuel rs| |fuel|fuel pageno box|objID|fuel]; cbn [after_call] in Hc;
    (eapply Hfinal; [|exact Hc]); clear Hc Hfinal.
  - intros imp0 Hinv0. unfold Importer.SetSourceStream.
    destruct (NewPdfReaderFromStream fuel rs) as [[] pr|e pr| |]; try exact I; [|exact Hinv0].
    apply (emit_imp_onWriter (Writer.SetTplIDOffset (Importer.tplN imp0))
             ltac:(apply triple_modify; intros pw; apply emit_inv_core;
                   unfold same_core; cbn; tauto)).
    exact Hinv0.
  - apply emit_imp_onReader.
  - apply emit_imp_onReader.
  - unfold Importer.ImportPage.
    eapply (triple_bind _ _ (fun _ imp => emit_inv (Importer.writer imp)));
      [apply triple_gets; auto|intros cache].
    destruct (cache !! pageno); [apply triple_ret; auto|].
    eapply (triple_bind _ _ (fun _ imp => emit_inv (Importer.writer imp))).
    { apply (emit_imp_onWriterWith (fun rd => Writer.ImportPage fuel rd pageno box)
               emit_inv (fun _ => emit_inv)).
      intros rd. apply emit_ImportPage. }
    intros res.
    eapply (triple_bind _ _ (fun _ imp => emit_inv (Importer.writer imp)));
      [apply triple_gets; auto|intros n].
    repeat (eapply (triple_bind _ _ (fun _ imp => emit_inv (Importer.writer imp)));
            [apply triple_modify; auto|intros _]).
    apply triple_ret; auto.
  - apply emit_imp_onWriter. apply triple_modify. intros pw. apply emit_inv_core.
    unfold same_core. cbn. tauto.
  - intros imp0 Hinv0. pose proof (emit_imp_PutFormXobjects fuel imp0 Hinv0) as Hrun.
    destruct (Importer.PutFormXobjects fuel imp0); try exact Hrun. apply Hrun.
Qed.

Lemma emit_after_calls (cs : list call) :
  forall imp imp',
    emit_inv (Importer.writer imp) -> after_calls cs imp = Some imp' ->
    emit_inv (Importer.writer imp').
Proof.
  induction cs as [|c cs IH]; intros imp imp' Hinv Hcs; cbn [after_calls] in Hcs.
  - injection Hcs as <-. exact Hinv.
  - destruct (after_call c imp) as [imp1|] eqn:Hc; [|discriminate].
    eapply IH; [|exact Hcs]. eapply emit_after_call; eassumption.
Qed.

(** An emitted object is among the objects that [GetImportedObjects] of
    the importer returns. *)
Lemma collect_keeps (pw : Writer.PdfWriter) (n : Z) (l : list nat) :
  forall acc : gmap Z (list ascii),
    is_Some (acc !! n) ->
    is_Some (fold_left
               (fun (res : gmap Z (list ascii)) (q : nat) =>
                  match Writer.objIDs pw !! q, Writer.GetImportedObjects pw !! q with
                  | Some o, Some bytes => <[oid_id o := bytes]> res
                  | _, _ => res
                  end) l acc !! n).
Proof.
  induction l as [|q l IH]; intros acc Hacc; cbn [fold_left]; [exact Hacc|].
  apply IH.
  destruct (Writer.objIDs pw !! q) as [o|]; [|exact Hacc].
  destruct (Writer.GetImportedObjects pw !! q) as [bytes|]; [|exact Hacc].
  destruct (decide (oid_id o = n)) as [->|Hne];
    [rewrite lookup_insert_eq; eauto|rewrite lookup_insert_ne by exact Hne; exact Hacc].
Qed.

Lemma collect_finds (pw : Writer.PdfWriter) (n : Z) (p : nat) (o : PdfObjectID)
    (bytes : list ascii) (l : list nat) :
  Writer.objIDs pw !! p = Some o -> oid_id o = n ->
  Writer.writtenObjs pw !! p = Some bytes ->
  forall acc : gmap Z (list ascii),
    In p l ->
    is_Some (fold_left
               (fun (res : gmap Z (list ascii)) (q : nat) =>
                  match Writer.objIDs pw !! q, Writer.GetImportedObjects pw !! q with
                  | Some o, Some bytes => <[oid_id o := bytes]> res
                  | _, _ => res
                  end) l acc !! n).
Proof.
  intros Ho Hn Hb. induction l as [|q l IH]; intros acc Hin; [destruct Hin|].
  cbn [fold_left]. destruct Hin as [->|Hin]; [|apply IH; exact Hin].
  apply collect_keeps. unfold Writer.GetImportedObjects. rewrite Ho, Hb, Hn.
  rewrite lookup_insert_eq. eauto.
Qed.

Lemma GetImportedObjects_emitted (imp : Importer.Importer) (n : Z) :
  emitted (Importer.writer imp) n -> is_Some (Importer.GetImportedObjects imp !! n).
Proof.
  intros (p & o & Ho & Hn & [bytes Hb]). unfold Importer.GetImportedObjects.
  eapply collect_finds; try eassumption.
  apply in_seq. apply lookup_lt_Some in Ho. lia.
Qed.

(** And every object that [GetImportedObjects] returns is emitted. *)
Lemma collect_found (pw : Writer.PdfWriter) (n : Z) (l : list nat) :
  forall acc : gmap Z (list ascii),
    is_Some (fold_left
               (fun (res : gmap Z (list ascii)) (q : nat) =>
                  match Writer.objIDs pw !! q, Writer.GetImportedObjects pw !! q with
                  | Some o, Some bytes => <[oid_id o := bytes]> res
                  | _, _ => res
                  end) l acc !! n) ->
    is_Some (acc !! n) \/ emitted pw n.
Proof.
  induction l as [|q l IH]; intros acc Hn; cbn [fold_left] in Hn; [left; exact Hn|].
  apply IH in Hn as [Hn|Hn]; [|right; exact Hn].
  destruct (Writer.objIDs pw !! q) as [o|] eqn:Ho; [|left; exact Hn].
  destruct (Writer.GetImportedObjects pw !! q) as [bytes|] eqn:Hb; [|left; exact Hn].
  destruct (decide (oid_id o = n)) as [Heq|Hne].
  - right. exists q, o. unfold Writer.GetImportedObjects in Hb. eauto.
  - rewrite lookup_insert_ne in Hn by exact Hne. left. exact Hn.
Qed.

Lemma emitted_GetImportedObjects (imp : Importer.Importer) (n : Z) :
  is_Some (Importer.GetImportedObjects imp !! n) -> emitted (Importer.writer imp) n.
Proof.
  intros Hn. apply collect_found in Hn as [Hn|Hn]; [|exact Hn].
  rewrite lookup_empty in Hn. destruct Hn as [x Hx]. discriminate.
Qed.

Lemma grows_fields (pw pw' : Writer.PdfWriter) :
  Writer.objIDs pw' = Writer.objIDs pw -> Writer.writtenObjs pw' = Writer.writtenObjs pw ->
  grows pw pw'.
Proof.
  intros Hids Hw. split; [exists []; rewrite app_nil_r; exact Hids|].
  intros p Hp. rewrite Hw. exact Hp.
Qed.

(** No method of the importer takes an identifier or an emitted object
    away. *)
Lemma grows_after_call (c : call) (imp imp' : Importer.Importer) :
  after_call c imp = Some imp' -> grows (Importer.writer imp) (Importer.writer imp').
Proof.
  intros Hc.
  assert (HonWriter : forall A (m : M Writer.PdfWriter A),
            keeps grows m -> final (Importer.onWriter m imp) = Some imp' ->
            grows (Importer.writer imp) (Importer.writer imp')).
  { intros A m Hm Hf. unfold Importer.onWriter in Hf. specialize (Hm (Importer.writer imp)).
    destruct (m (Importer.writer imp)); cbn in Hf; try discriminate;
      injection Hf as <-; exact Hm. }
  assert (HonWriterWith : forall A (m : PdfReader -> M Writer.PdfWriter A) imp1,
            (forall rd, keeps grows (m rd)) ->
            final (Importer.onWriterWith m imp) = Some imp1 ->
            grows (Importer.writer imp) (Importer.writer imp1)).
  { intros A m imp1 Hm Hf. unfold Importer.onWriterWith in Hf.
    destruct (Importer.reader imp) as [rd|]; [|discriminate].
    specialize (Hm rd (Importer.writer imp)).
    destruct (m rd (Importer.writer imp)); cbn in Hf; try discriminate;
      injection Hf as <-; exact Hm. }
  assert (HonReader : forall A (m : M PdfReader A),
            final (Importer.onReader m imp) = Some imp' ->
            grows (Importer.writer imp) (Importer.writer imp')).
  { intros A m Hf. unfold Importer.onReader in Hf.
    destruct (Importer.reader imp) as [rd|]; [|discriminate].
    destruct (m rd); cbn in Hf; try discriminate; injection Hf as <-; apply grows_refl. }
  destruct c as [fuel rs| |fuel|fuel pageno box|objID|fuel]; cbn [after_call] in Hc.
  - unfold Importer.SetSourceStream in Hc.
    destruct (NewPdfReaderFromStream fuel rs) as [[] pr|e pr| |]; try discriminate.
    + cbn in Hc. injection Hc as <-. apply grows_fields; reflexivity.
    + cbn in Hc. injection Hc as <-. apply grows_refl.
  - eapply HonReader. exact Hc.
  - eapply HonReader. exact Hc.
  - unfold Importer.ImportPage, bind, gets in Hc.
    destruct (Importer.importedPages imp !! pageno); [injection Hc as <-; apply grows_refl|].
    destruct (Importer.onWriterWith _ imp) as [res imp1|e imp1| |] eqn:Hrun;
      try discriminate.
    + cbn in Hc. injection Hc as <-. cbn.
      apply (HonWriterWith _ (fun rd => Writer.ImportPage fuel rd pageno box) imp1);
        [intros rd; apply keeps_ImportPage|rewrite Hrun; reflexivity].
    + cbn in Hc. injection Hc as <-.
      apply (HonWriterWith _ (fun rd => Writer.ImportPage fuel rd pageno box) imp1);
        [intros rd; apply keeps_ImportPage|rewrite Hrun; reflexivity].
  - unfold Importer.SetNextObjectID in Hc. cbn in Hc. injection Hc as <-.
    apply grows_fields; reflexivity.
  - unfold Importer.PutFormXobjects, bind in Hc.
    destruct (Importer.onWriterWith _ imp) as [res imp1|e imp1| |] eqn:Hrun;
      try discriminate; cbn in Hc; injection Hc as <-;
      (apply (HonWriterWith _ (fun rd => Writer.PutFormXobjects fuel rd) imp1);
        [intros rd; apply keeps_steady_grows, keeps_PutFormXobjects
        |rewrite Hrun; reflexivity]).
Qed.

Lemma grows_after_calls (cs : list call) :
  forall imp imp',
    after_calls cs imp = Some imp' -> grows (Importer.writer imp) (Importer.writer imp').
Proof.
  induction cs as [|c cs IH]; intros imp imp' Hcs; cbn [after_calls] in Hcs.
  - injection Hcs as <-. apply grows_refl.
  - destruct (after_call c imp) as [imp1|] eqn:Hc; [|discriminate].
    eapply grows_trans; [eapply grows_after_call; exact Hc|apply IH; exact Hcs].
Qed.

(** X15.  Position fidelity of the writer of writer.go, in every state
    that calls on a new importer lead to (whether the calls returned errors
    or not): for every emitted object and every entry [(off, ref)] of its
    map of positions, the emitted bytes hold at offset [off] the decimal
    digits of a number [n] followed by [ 0 R ], and [ref] is the hash that
    [shaOfInt] gives for [n]. *)
Theorem decimal_position_fidelity (cs : list call) (imp : Importer.Importer)
    (p : nat) (bytes : list ascii) (m : gmap Z string) (off : Z) (ref : string) :
  after_calls cs Importer.NewImporter = Some imp ->
  Writer.GetImportedObjects (Importer.writer imp) !! p = Some bytes ->
  Writer.writtenObjPos (Importer.writer imp) !! p = Some m ->
  m !! off = Some ref ->
  exists n src,
    0 <= off /\
    take (String.length (itoa n +:+ " 0 R ")) (drop (Z.to_nat off) bytes)
    = bytes_of_string (itoa n +:+ " 0 R ") /\
    ref = sha1_hex (itoa n +:+ "-" +:+ src).
Proof.
  intros Hcs Hbytes Hm Href.
  pose proof (emit_after_calls cs Importer.NewImporter _ emit_inv_NewPdfWriter Hcs) as (Hpos & _).
  destruct (Hpos p bytes m Hbytes Hm off ref Href) as (n & (Hoff & (src & Hsrc) & Htake) & _).
  exists n, src. auto.
Qed.

(** X16.  Emission closure below 9999.  After calls on a new importer,
    when [PutFormXobjects] returns without error, every reference recorded
    in an emitted object carries a number [n] that is a key of
    [GetImportedObjects], unless [n] is negative or [n] is the new number
    of a source object whose id is not in the range from 0 to 9998 of the
    loop of [putImportedObjects]. *)
Theorem PutFormXobjects_closure (cs : list call) (fuel : nat)
    (imp imp' : Importer.Importer) (names : gmap string Z)
    (p : nat) (bytes : list ascii) (m : gmap Z string) (off : Z) (ref : string) :
  after_calls cs Importer.NewImporter = Some imp ->
  Importer.PutFormXobjects fuel imp = Ok names imp' ->
  Writer.GetImportedObjects (Importer.writer imp') !! p = Some bytes ->
  Writer.writtenObjPos (Importer.writer imp') !! p = Some m ->
  m !! off = Some ref ->
  exists n,
    ref_at bytes off ref n /\
    (is_Some (Importer.GetImportedObjects imp' !! n) \/ n < 0 \/
     exists id v, Writer.doOobjStack (Importer.writer imp') !! id = Some v /\
                  NewID v = n /\ ~ 0 <= id < 9999).
Proof.
  intros Hcs Hput Hbytes Hm Href.
  pose proof (emit_after_calls cs Importer.NewImporter _ emit_inv_NewPdfWriter Hcs) as Hinv.
  pose proof (emit_imp_PutFormXobjects fuel imp Hinv) as Hpost. rewrite Hput in Hpost.
  destruct Hpost as ((H1 & H2 & H3 & H4 & H5 & H6) & Hnone & _).
  destruct (H1 p bytes m Hbytes Hm off ref Href) as (n & Hat & id & v & Hv & Hn).
  exists n. split; [exact Hat|].
  destruct (Z.ltb_spec n 0) as [Hneg|Hpos]; [auto|].
  destruct (decide (0 <= id < 9999)) as [Hid|Hid]; [|right; right; eauto].
  left. apply GetImportedObjects_emitted.
  destruct (H5 id v Hv) as [_ [Hp|[Hlt|He]]]; [|lia|rewrite <- Hn; exact He].
  assert (Ht : Writer.tpls (Importer.writer imp') <> []).
  { intros Ht. rewrite (H6 Ht), lookup_empty in Hv. discriminate. }
  specialize (Hnone Ht id Hid). rewrite Hp in Hnone. discriminate.
Qed.

(** X17.  No call on an importer takes an emitted object away: an id that
    is a key of [GetImportedObjects] before a sequence of calls (whether
    they return errors or not) is a key of it afterwards. *)
Theorem GetImportedObjects_keys_stay (cs : list call) (imp imp' : Importer.Importer)
    (n : Z) :
  after_calls cs imp = Some imp' ->
  is_Some (Importer.GetImportedObjects imp !! n) ->
  is_Some (Importer.GetImportedObjects imp' !! n).
Proof.
  intros Hcs Hn. apply GetImportedObjects_emitted.
  eapply emitted_grows; [eapply grows_after_calls; exact Hcs|].
  apply emitted_GetImportedObjects. exact Hn.
Qed.

(** X18.  After calls on a new importer, when [PutFormXobjects] returns
    without error, every template has its name in the result: the template
    of index [i] has the name [/GOFPDITPL] followed by [i] plus the offset
    of the writer, and the id under this name is a key of
    [GetImportedObjects]. *)
Theorem PutFormXobjects_names (cs : list call) (fuel : nat)
    (imp imp' : Importer.Importer) (names : gmap string Z) (i : Z) :
  after_calls cs Importer.NewImporter = Some imp ->
  Importer.PutFormXobjects fuel imp = Ok names imp' ->
  0 <= i < Z.of_nat (List.length (Writer.tpls (Importer.writer imp))) ->
  exists id,
    names !! template_name (Writer.tplIDOffset (Importer.writer imp)) i = Some id /\
    is_Some (Importer.GetImportedObjects imp' !! id).
Proof.
  intros Hcs Hput Hi.
  pose proof (emit_after_calls cs Importer.NewImporter _ emit_inv_NewPdfWriter Hcs) as Hinv.
  pose proof (emit_imp_PutFormXobjects fuel imp Hinv) as Hpost. rewrite Hput in Hpost.
  destruct Hpost as (_ & _ & ids & -> & Hem & Hkeys).
  destruct (Hkeys i Hi) as [o Ho]. exists (oid_id o).
  split; [rewrite lookup_fmap, Ho; reflexivity|].
  apply GetImportedObjects_emitted. eapply Hem. exact Ho.
Qed.

End ImporterEmission.

Lemma decimal_position_fidelity_witness :
  exists n src,
    0 <= 111 /\
    take (String.length (itoa n +:+ " 0 R ")) (drop (Z.to_nat 111) far_template)
    = bytes_of_string (itoa n +:+ " 0 R ") /\
    "0000000000000000000000000000000000074066"
    = @sha1_hex stdStub (itoa n +:+ "-" +:+ src).
Proof.
  assert (H1 : @after_calls stdStub far_run Importer.NewImporter = Some far_imp)
    by (vm_compute; reflexivity).
  assert (H2 : Writer.GetImportedObjects (Importer.writer far_imp) !! 0%nat
               = Some far_template) by (vm_compute; reflexivity).
  assert (H3 : Writer.writtenObjPos (Importer.writer far_imp) !! 0%nat = Some far_pos)
    by (vm_compute; reflexivity).
  assert (H4 : far_pos !! 111 = Some "0000000000000000000000000000000000074066")
    by (vm_compute; reflexivity).
  exact (@decimal_position_fidelity stdStub far_run far_imp 0%nat far_template far_pos 111 _
           H1 H2 H3 H4).
Defined.

Lemma PutFormXobjects_closure_witness :
  exists n,
    @ref_at stdStub sample_put_template 138 "0000000000000000000000000000000000074066" n /\
    (is_Some (Importer.GetImportedObjects sample_put_imp !! n) \/ n < 0 \/
     exists id v, Writer.doOobjStack (Importer.writer sample_put_imp) !! id = Some v /\
                  NewID v = n /\ ~ 0 <= id < 9999).
Proof.
  assert (H1 : @after_calls stdStub sample_setup Importer.NewImporter = Some sample_imp1)
    by (vm_compute; reflexivity).
  assert (H2 : @Importer.PutFormXobjects stdStub 100 sample_imp1
               = Ok sample_put_names sample_put_imp) by (vm_compute; reflexivity).
  assert (H3 : Writer.GetImportedObjects (Importer.writer sample_put_imp) !! 0%nat
               = Some sample_put_template) by (vm_compute; reflexivity).
  assert (H4 : Writer.writtenObjPos (Importer.writer sample_put_imp) !! 0%nat
               = Some sample_put_pos) by (vm_compute; reflexivity).
  assert (H5 : sample_put_pos !! 138 = Some "0000000000000000000000000000000000074066")
    by (vm_compute; reflexivity).
  exact (@PutFormXobjects_closure stdStub sample_setup 100 sample_imp1 sample_put_imp
           sample_put_names 0%nat sample_put_template sample_put_pos 138 _ H1 H2 H3 H4 H5).
Defined.

Lemma GetImportedObjects_keys_stay_witness :
  is_Some (Importer.GetImportedObjects sample_again_imp !! 1).
Proof.
  assert (H1 : @after_calls stdStub sample_again sample_put_imp = Some sample_again_imp)
    by (vm_compute; reflexivity).
  assert (H2 : is_Some (Importer.GetImportedObjects sample_put_imp !! 1))
    by (vm_compute; eauto).
  exact (@GetImportedObjects_keys_stay stdStub sample_again sample_put_imp sample_again_imp 1
           H1 H2).
Defined.

Lemma PutFormXobjects_names_witness :
  exists id,
    sample_put_names !! template_name (Writer.tplIDOffset (Importer.writer sample_imp1)) 0
    = Some id /\
    is_Some (Importer.GetImportedObjects sample_put_imp !! id).
Proof.
  assert (H1 : @after_calls stdStub sample_setup Importer.NewImporter = Some sample_imp1)
    by (vm_compute; reflexivity).
  assert (H2 : @Importer.PutFormXobjects stdStub 100 sample_imp1
               = Ok sample_put_names sample_put_imp) by (vm_compute; reflexivity).
  assert (H3 : 0 <= 0 < Z.of_nat (List.length (Writer.tpls (Importer.writer sample_imp1))))
    by (split; [lia|vm_compute; reflexivity]).
  exact (@PutFormXobjects_names stdStub sample_setup 100 sample_imp1 sample_put_imp
           sample_put_names 0 H1 H2 H3).
Defined.
(** ** The numbering of the templates *)

Lemma wrap64_succ (a : Z) : wrap64 (wrap64 a + 1) = wrap64 (a + 1).
Proof.
  unfold wrap64. f_equal.
  replace ((a + 2 ^ 63) mod 2 ^ 64 - 2 ^ 63 + 1 + 2 ^ 63)
    with ((a + 2 ^ 63) mod 2 ^ 64 + 1) by lia.
  rewrite Zplus_mod_idemp_l. f_equal. lia.
Qed.

Section Numbering.
Context `{GoStd}.

(** An import of a page that is not in the cache, when it returns without
    error: what it returns and what it leaves. *)
Lemma ImportPage_fresh (fuel : nat) (pageno : Z) (box : string)
    (imp imp' : Importer.Importer) (t : Z) :
  Importer.importedPages imp !! pageno = None ->
  Importer.ImportPage fuel pageno box imp = Ok t imp' ->
  t = Importer.tplN imp /\
  Importer.tplN imp' = wrap64 (t + 1) /\
  (exists tpl, Writer.tpls (Importer.writer imp')
               = Writer.tpls (Importer.writer imp) ++ [tpl]) /\
  Importer.tplMap imp'
  = <[t := Importer.mkTplInfo
             "" (Z.of_nat (List.length (Writer.tpls (Importer.writer imp))))]>
      (Importer.tplMap imp) /\
  Importer.importedPages imp' = <[pageno := t]> (Importer.importedPages imp).
Proof.
  intros Hnone Hrun. unfold Importer.ImportPage in Hrun.
  apply bind_Ok in Hrun as (cache & s1 & Hg & Hrun).
  apply gets_Ok in Hg as [Hc Hs]. subst cache s1. rewrite Hnone in Hrun.
  apply bind_Ok in Hrun as (res & imp1 & Hw & Hrun).
  unfold Importer.onWriterWith in Hw.
  destruct (Importer.reader imp) as [rd|]; [|discriminate].
  pose proof (tpls_ImportPage _ fuel rd pageno box (Importer.writer imp) eq_refl) as Ht.
  destruct (Writer.ImportPage fuel rd pageno box (Importer.writer imp)) as [res' pw| | |];
    try discriminate.
  injection Hw as -> <-. destruct Ht as [-> [tpl Htpl]].
  cbn in Hrun. injection Hrun as <- <-. cbn. eauto 10.
Qed.

(** Every method of the importer keeps the counter equal to the number
    of templates. *)
Lemma numbered_after_call (c : call) (imp imp' : Importer.Importer) :
  numbered imp -> after_call c imp = Some imp' -> numbered imp'.
Proof.
  unfold numbered. intros Hn Hc.
  destruct c as [fuel rs| |fuel|fuel pageno box|objID|fuel]; cbn [after_call] in Hc.
  - unfold Importer.SetSourceStream in Hc.
    destruct (NewPdfReaderFromStream fuel rs) as [[] pr|e pr| |]; try discriminate;
      cbn in Hc; injection Hc as <-; exact Hn.
  - unfold Importer.GetNumPages, Importer.onReader in Hc.
    destruct (Importer.reader imp) as [rd|]; [|discriminate].
    destruct (GetNumPages rd); cbn in Hc; try discriminate; injection Hc as <-; exact Hn.
  - unfold Importer.GetPageSizes, Importer.onReader in Hc.
    destruct (Importer.reader imp) as [rd|]; [|discriminate].
    destruct (GetAllPageBoxes fuel 1 rd); cbn in Hc; try discriminate;
      injection Hc as <-; exact Hn.
  - destruct (Importer.ImportPage fuel pageno box imp) as [t imp1|e imp1| |] eqn:Hrun;
      cbn in Hc; try discriminate; injection Hc as <-.
    + destruct (Importer.importedPages imp !! pageno) as [t'|] eqn:Hcache.
      * unfold Importer.ImportPage, bind, gets in Hrun. rewrite Hcache in Hrun.
        injection Hrun as _ <-. exact Hn.
      * destruct (ImportPage_fresh _ _ _ _ _ _ Hcache Hrun) as (-> & -> & [tpl ->] & _).
        rewrite Hn, wrap64_succ, length_app. cbn. f_equal. lia.
    + destruct (ImportPage_Err _ _ _ _ _ _ Hrun) as (_ & -> & _ & ->). exact Hn.
  - unfold Importer.SetNextObjectID in Hc. cbn in Hc. injection Hc as <-. exact Hn.
  - unfold Importer.PutFormXobjects, bind, Importer.onWriterWith in Hc.
    destruct (Importer.reader imp) as [rd|]; [|discriminate].
    pose proof (keeps_PutFormXobjects fuel rd (Importer.writer imp)) as Hk.
    destruct (Writer.PutFormXobjects fuel rd (Importer.writer imp)) as [ids pw|e pw| |];
      cbn in Hc; try discriminate; injection Hc as <-; cbn;
      destruct Hk as (_ & _ & ->); exact Hn.
Qed.

Lemma numbered_after_calls (cs : list call) :
  forall imp imp', numbered imp -> after_calls cs imp = Some imp' -> numbered imp'.
Proof.
  induction cs as [|c cs IH]; intros imp imp' Hn Hcs; cbn [after_calls] in Hcs.
  - injection Hcs as <-. exact Hn.
  - destruct (after_call c imp) as [imp1|] eqn:Hc; [|discriminate].
    eapply IH; [|exact Hcs]. eapply numbered_after_call; eassumption.
Qed.

(** X19.  The numbering of the templates.  After calls on a new importer,
    an import of a page that is not in the cache, when it returns without
    error, returns the number of templates that the writer had, adds
    exactly one template to the writer, enters the page in the cache under
    the returned id, and the template map gives for this id the index of
    the new template in the writer. *)
Theorem ImportPage_numbering (cs : list call) (fuel : nat) (pageno : Z) (box : string)
    (imp imp' : Importer.Importer) (t : Z) :
  after_calls cs Importer.NewImporter = Some imp ->
  Importer.importedPages imp !! pageno = None ->
  Importer.ImportPage fuel pageno box imp = Ok t imp' ->
  t = wrap64 (Z.of_nat (List.length (Writer.tpls (Importer.writer imp)))) /\
  List.length (Writer.tpls (Importer.writer imp'))
  = S (List.length (Writer.tpls (Importer.writer imp))) /\
  Importer.importedPages imp' !! pageno = Some t /\
  Importer.tplMap imp' !! t
  = Some (Importer.mkTplInfo
            "" (Z.of_nat (List.length (Writer.tpls (Importer.writer imp))))).
Proof.
  intros Hcs Hcache Hrun.
  assert (Hn : numbered imp).
  { eapply numbered_after_calls; [|exact Hcs]. reflexivity. }
  destruct (ImportPage_fresh _ _ _ _ _ _ Hcache Hrun) as (Ht & _ & [tpl Htpl] & Hmap & Hpages).
  split; [rewrite Ht; exact Hn|].
  split; [rewrite Htpl, length_app; cbn; lia|].
  split; [rewrite Hpages; apply lookup_insert_eq|].
  rewrite Hmap. apply lookup_insert_eq.
Qed.

End Numbering.

Lemma ImportPage_numbering_witness :
  0 = wrap64 (Z.of_nat (List.length (Writer.tpls (Importer.writer sample_imp0)))) /\
  List.length (Writer.tpls (Importer.writer sample_imp1))
  = S (List.length (Writer.tpls (Importer.writer sample_imp0))) /\
  Importer.importedPages sample_imp1 !! 1 = Some 0 /\
  Importer.tplMap sample_imp1 !! 0
  = Some (Importer.mkTplInfo
            "" (Z.of_nat (List.length (Writer.tpls (Importer.writer sample_imp0))))).
Proof.
  assert (H1 : @after_calls stdStub [CallSetSourceStream 1000 (bytes_of_string sample_pdf)]
                 Importer.NewImporter = Some sample_imp0) by (vm_compute; reflexivity).
  assert (H2 : Importer.importedPages sample_imp0 !! 1 = None) by (vm_compute; reflexivity).
  assert (H3 : @Importer.ImportPage stdStub 100 1 "/MediaBox" sample_imp0 = Ok 0 sample_imp1)
    by (vm_compute; reflexivity).
  exact (@ImportPage_numbering stdStub _ 100 1 "/MediaBox" sample_imp0 sample_imp1 0
           H1 H2 H3).
Defined.
(** ** The value parser: literal strings and hex strings *)

Lemma ReadByte_drop (st : list string) (data : list ascii) (pos : nat) (b : ascii)
    (t : list ascii) :
  drop pos data = b :: t ->
  ReadByte (lex_at st data pos) = Ok (Some b) (lex_at st data (S pos)) /\
  drop (S pos) data = t.
Proof.
  intros Hd. rewrite ReadByte_at.
  assert (Hb : data !! pos = Some b).
  { assert (Hl : drop pos data !! 0%nat = data !! pos)
      by (rewrite lookup_drop; f_equal; lia).
    rewrite <- Hl, Hd. reflexivity. }
  rewrite Hb. split; [reflexivity|].
  rewrite (drop_S _ _ _ Hb) in Hd. congruence.
Qed.

Lemma ReadByte_end (st : list string) (data : list ascii) (pos : nat) :
  drop pos data = [] -> ReadByte (lex_at st data pos) = Ok None (lex_at st data pos).
Proof.
  intros Hd. rewrite ReadByte_at.
  destruct (data !! pos) as [b|] eqn:Hb; [|reflexivity].
  rewrite (drop_S _ _ _ Hb) in Hd. discriminate.
Qed.

Lemma drop_after (data s post : list ascii) (pos : nat) :
  drop pos data = s ++ post -> drop (pos + List.length s) data = post.
Proof.
  intros Hd. rewrite <- drop_drop, Hd. apply drop_app_length.
Qed.

(** The loop of the literal-string case copies balanced bytes as they
    are, at any depth. *)
Lemma readString_loop_balanced (s : list ascii) :
  balanced s ->
  forall (st : list string) (data : list ascii) (pos : nat) (post : list ascii) (d : Z)
         (buf : list ascii),
    0 < d -> drop pos data = s ++ post ->
    exists c, (c <= List.length s)%nat /\
      forall fuel,
        readString_loop (c + fuel) d buf (lex_at st data pos)
        = readString_loop fuel d (buf ++ s) (lex_at st data (pos + List.length s)).
Proof.
  induction 1 as [|b s Hb1 Hb2 Hb3 Hs IH|nb s Hs IH|s1 s2 Hs1 IH1 Hs2 IH2];
    intros st data pos post d buf Hd Hdrop.
  - exists O. split; [reflexivity|]. intros fuel. cbn [List.length Nat.add].
    rewrite app_nil_r, Nat.add_0_r. reflexivity.
  - cbn [app] in Hdrop. destruct (ReadByte_drop st _ _ _ _ Hdrop) as [Hread Hrest].
    destruct (IH st data (S pos) post d (buf ++ [b]) Hd Hrest) as (c & Hc & Hrun).
    exists (S c). split; [cbn; lia|]. intros fuel. cbn [Nat.add readString_loop].
    destruct (Z.ltb_spec 0 d) as [_|Hbad]; [|lia]. cbn [negb].
    unfold bind at 1. rewrite Hread, Hb1, Hb2, Hb3.
    destruct (Z.ltb_spec 0 d) as [_|Hbad]; [|lia].
    rewrite Hrun, <- app_assoc. cbn [List.length app]. f_equal. f_equal. lia.
  - cbn [app] in Hdrop. destruct (ReadByte_drop st _ _ _ _ Hdrop) as [Hread Hrest].
    destruct (ReadByte_drop st _ _ _ _ Hrest) as [Hread2 Hrest2].
    destruct (IH st data (S (S pos)) post d (buf ++ ["\"%char; nb]) Hd Hrest2)
      as (c & Hc & Hrun).
    exists (S c). split; [cbn; lia|]. intros fuel. cbn [Nat.add readString_loop].
    destruct (Z.ltb_spec 0 d) as [_|Hbad]; [|lia]. cbn [negb].
    unfold bind at 1. rewrite Hread. cbn [beq Ascii.eqb Bool.eqb andb].
    unfold bind at 1. rewrite Hread2.
    rewrite Hrun, <- app_assoc. cbn [List.length app]. f_equal. f_equal. lia.
  - cbn [app] in Hdrop. rewrite <- app_assoc in Hdrop. cbn [app] in Hdrop.
    destruct (ReadByte_drop st _ _ _ _ Hdrop) as [Hread Hrest].
    destruct (IH1 st data (S pos) _ (d + 1) (buf ++ ["("%char]) ltac:(lia) Hrest)
      as (c1 & Hc1 & Hrun1).
    pose proof (drop_after _ _ _ _ Hrest) as Hrest1.
    destruct (ReadByte_drop st _ _ _ _ Hrest1) as [Hread2 Hrest2].
    destruct (IH2 st data (S (S pos + List.length s1)) post d
                ((buf ++ ["("%char]) ++ s1 ++ [")"%char]) Hd Hrest2)
      as (c2 & Hc2 & Hrun2).
    exists (S (c1 + S c2)). split; [rewrite length_cons, length_app, length_cons; lia|].
    intros fuel. cbn [Nat.add readString_loop].
    destruct (Z.ltb_spec 0 d) as [_|Hbad]; [|lia]. cbn [negb].
    unfold bind at 1. rewrite Hread. cbn [beq Ascii.eqb Bool.eqb andb].
    destruct (Z.ltb_spec 0 (d + 1)) as [_|Hbad]; [|lia].
    rewrite <- Nat.add_assoc, Hrun1.
    change (S c2 + fuel)%nat with (S (c2 + fuel)). cbn [readString_loop].
    destruct (Z.ltb_spec 0 (d + 1)) as [_|Hbad]; [|lia]. cbn [negb].
    unfold bind at 1. rewrite Hread2. cbn [beq Ascii.eqb Bool.eqb andb].
    replace (d + 1 - 1) with d by lia.
    destruct (Z.ltb_spec 0 d) as [_|Hbad]; [|lia].
    rewrite <- app_assoc. rewrite Hrun2.
    rewrite length_cons, length_app, length_cons.
    rewrite <- !app_assoc. cbn [app].
    f_equal. f_equal. lia.
Qed.

(** The loop of the hex-string case collects the bytes in front of the
    next [>]. *)
Lemma readHex_loop_bytes (st : list string) (data : list ascii) (h : list ascii) :
  forall (pos fuel : nat) (post : list ascii) (str : string),
    Forall (fun b => beq b ">" = false) h ->
    drop pos data = h ++ post ->
    readHex_loop (List.length h + fuel) str (lex_at st data pos)
    = readHex_loop fuel (token_text str h) (lex_at st data (pos + List.length h)).
Proof.
  induction h as [|b h IH]; intros pos fuel post str Hh Hdrop.
  - cbn [List.length Nat.add token_text fold_left]. rewrite Nat.add_0_r. reflexivity.
  - cbn [app] in Hdrop. destruct (ReadByte_drop st _ _ _ _ Hdrop) as [Hread Hrest].
    inversion Hh as [|? ? Hb Hh']; subst.
    cbn [List.length Nat.add readHex_loop]. unfold bind at 1. rewrite Hread, Hb.
    cbn [negb]. rewrite (IH (S pos) fuel post _ Hh' Hrest).
    cbn [token_text fold_left]. f_equal. f_equal. lia.
Qed.

Section Strings.
Context `{GoStd}.

(** X20.  A literal string is read verbatim: after the token [(], in
    front of balanced bytes [s] (bytes other than parentheses and
    backslashes, backslashes with the byte that follows, nested balanced
    parentheses) and the closing parenthesis, [readValue] returns a value of
    the type [PDFTypeString] whose string is [s] as it stands (escapes are
    kept, not decoded) and leaves the reader after the closing
    parenthesis; when the input ends before the closing parenthesis, it
    returns an error. *)
Theorem readValue_literal_string (fuel : nat) (st : list string)
    (pre s rest : list ascii) :
  balanced s ->
  (exists v,
     readValue (S fuel) "(" (lex_at st (pre ++ s ++ ")"%char :: rest) (List.length pre))
     = Ok v (lex_at st (pre ++ s ++ ")"%char :: rest)
               (List.length pre + List.length s + 1)) /\
     Type_ v = PDFTypeString /\ String_ v = string_of_bytes s) /\
  (exists e,
     readValue (S fuel) "(" (lex_at st (pre ++ s) (List.length pre))
     = Err e (lex_at st (pre ++ s) (List.length pre + List.length s))).
Proof.
  intros Hs. split.
  - set (data := pre ++ s ++ ")"%char :: rest).
    assert (Hdrop : drop (List.length pre) data = s ++ ")"%char :: rest)
      by (unfold data; apply drop_app_length).
    destruct (readString_loop_balanced s Hs st data (List.length pre) _ 1 [] ltac:(lia) Hdrop)
      as (c & Hc & Hrun).
    pose proof (drop_after _ _ _ _ Hdrop) as Hrest.
    destruct (ReadByte_drop st _ _ _ _ Hrest) as [Hread _].
    cbn [readValue]. cbn [String.eqb Ascii.eqb Bool.eqb]. unfold bind at 1. unfold get.
    rewrite fuel_of_at.
    assert (Hlen : List.length data
                   = (List.length pre + List.length s + 1 + List.length rest)%nat).
    { unfold data. rewrite !length_app. cbn [List.length]. lia. }
    replace (S (S (List.length data - List.length pre)))
      with (c + S (S (List.length data - List.length pre - c)))%nat by lia.
    unfold bind. rewrite Hrun. cbn [readString_loop Z.ltb Z.compare negb].
    unfold bind. rewrite Hread. cbn [beq Ascii.eqb Bool.eqb andb Z.sub Z.add Z.pos_sub Z.opp].
    cbn [Z.ltb Z.compare negb ret app].
    eexists. split; [unfold ret; f_equal; f_equal; lia|].
    split; reflexivity.
  - set (data := pre ++ s).
    assert (Hdrop : drop (List.length pre) data = s ++ [])
      by (unfold data; rewrite app_nil_r; apply drop_app_length).
    destruct (readString_loop_balanced s Hs st data (List.length pre) _ 1 [] ltac:(lia) Hdrop)
      as (c & Hc & Hrun).
    pose proof (drop_after _ _ _ _ Hdrop) as Hrest.
    pose proof (ReadByte_end st _ _ Hrest) as Hread.
    cbn [readValue]. cbn [String.eqb Ascii.eqb Bool.eqb]. unfold bind at 1. unfold get.
    rewrite fuel_of_at.
    assert (Hlen : List.length data = (List.length pre + List.length s)%nat).
    { unfold data. rewrite !length_app. lia. }
    replace (S (S (List.length data - List.length pre)))
      with (c + S (S (List.length data - List.length pre - c)))%nat by lia.
    unfold bind. rewrite Hrun. cbn [readString_loop Z.ltb Z.compare negb].
    unfold bind. rewrite Hread. eexists. reflexivity.
Qed.

(** X21.  A hex string is read up to the next [>]: after the token [<],
    in front of bytes [h] without [>] and a [>], [readValue] returns a value
    of the type [PDFTypeHex] whose string collects the bytes of [h] (each
    byte appended as [string(b)]) and leaves the reader after the [>]; when
    the input ends before a [>], it returns an error. *)
Theorem readValue_hex_string (fuel : nat) (st : list string) (pre h rest : list ascii) :
  Forall (fun b => beq b ">" = false) h ->
  (exists v,
     readValue (S fuel) "<" (lex_at st (pre ++ h ++ ">"%char :: rest) (List.length pre))
     = Ok v (lex_at st (pre ++ h ++ ">"%char :: rest)
               (List.length pre + List.length h + 1)) /\
     Type_ v = PDFTypeHex /\ String_ v = token_text "" h) /\
  (exists e,
     readValue (S fuel) "<" (lex_at st (pre ++ h) (List.length pre))
     = Err e (lex_at st (pre ++ h) (List.length pre + List.length h))).
Proof.
  intros Hh. split.
  - set (data := pre ++ h ++ ">"%char :: rest).
    assert (Hdrop : drop (List.length pre) data = h ++ ">"%char :: rest)
      by (unfold data; apply drop_app_length).
    pose proof (drop_after _ _ _ _ Hdrop) as Hrest.
    destruct (ReadByte_drop st _ _ _ _ Hrest) as [Hread _].
    cbn [readValue]. cbn [String.eqb Ascii.eqb Bool.eqb]. unfold bind at 1. unfold get.
    rewrite fuel_of_at.
    assert (Hlen : List.length data
                   = (List.length pre + List.length h + 1 + List.length rest)%nat).
    { unfold data. rewrite !length_app. cbn [List.length]. lia. }
    replace (S (List.length data - List.length pre))
      with (List.length h + S (S (List.length rest)))%nat by lia.
    unfold bind. rewrite (readHex_loop_bytes st data h _ _ _ _ Hh Hdrop).
    cbn [readHex_loop]. unfold bind. rewrite Hread.
    cbn [beq Ascii.eqb Bool.eqb andb negb ret].
    eexists. split; [unfold ret; f_equal; f_equal; lia|].
    split; reflexivity.
  - set (data := pre ++ h).
    assert (Hdrop : drop (List.length pre) data = h ++ [])
      by (unfold data; rewrite app_nil_r; apply drop_app_length).
    pose proof (drop_after _ _ _ _ Hdrop) as Hrest.
    pose proof (ReadByte_end st _ _ Hrest) as Hread.
    cbn [readValue]. cbn [String.eqb Ascii.eqb Bool.eqb]. unfold bind at 1. unfold get.
    rewrite fuel_of_at.
    assert (Hlen : List.length data = (List.length pre + List.length h)%nat).
    { unfold data. rewrite !length_app. lia. }
    replace (S (List.length data - List.length pre))
      with (List.length h + 1)%nat by lia.
    unfold bind. rewrite (readHex_loop_bytes st data h _ _ _ _ Hh Hdrop).
    cbn [readHex_loop]. unfold bind. rewrite Hread. eexists. reflexivity.
Qed.

End Strings.

Lemma readValue_literal_string_witness :
  (exists v,
     @readValue stdStub 1 "(" (lex_at [] (bytes_of_string "(a\)(b)c) Tj") 1)
     = Ok v (lex_at [] (bytes_of_string "(a\)(b)c) Tj") 9) /\
     Type_ v = PDFTypeString /\ String_ v = "a\)(b)c") /\
  (exists e,
     @readValue stdStub 1 "(" (lex_at [] (bytes_of_string "(a\)(b)c") 1)
     = Err e (lex_at [] (bytes_of_string "(a\)(b)c") 8)).
Proof.
  assert (Hs : balanced (bytes_of_string "a\)(b)c")).
  { cbn. apply balanced_byte; try reflexivity. apply balanced_escape.
    apply (balanced_nested ["b"%char] ["c"%char]);
      repeat (apply balanced_byte; try reflexivity); apply balanced_nil. }
  exact (@readValue_literal_string stdStub 0 [] ["("%char] _ (bytes_of_string " Tj") Hs).
Defined.

Lemma readValue_hex_string_witness :
  (exists v,
     @readValue stdStub 1 "<" (lex_at [] (bytes_of_string "<4E6F> Tj") 1)
     = Ok v (lex_at [] (bytes_of_string "<4E6F> Tj") 6) /\
     Type_ v = PDFTypeHex /\ String_ v = token_text "" (bytes_of_string "4E6F")) /\
  (exists e,
     @readValue stdStub 1 "<" (lex_at [] (bytes_of_string "<4E6F") 1)
     = Err e (lex_at [] (bytes_of_string "<4E6F") 5)).
Proof.
  assert (Hh : Forall (fun b => beq b ">" = false) (bytes_of_string "4E6F"))
    by (repeat constructor).
  exact (@readValue_hex_string stdStub 0 [] ["<"%char] _ (bytes_of_string " Tj") Hh).
Defined.
(** ** The search for [startxref] *)

Section FindXref.
Context `{GoStd}.

(** With only white space left and an empty pushback stack, the loop of
    [findXref] reads the empty token again and again. *)
Lemma findXref_loop_blank (fuel : nat) :
  forall (pr : PdfReader) (n : nat),
    stack pr = [] -> f_pos pr = Z.of_nat n -> (n <= List.length (f pr))%nat ->
    Forall (fun b => is_space b = true) (drop n (f pr)) ->
    findXref_loop fuel pr = Diverge.
Proof.
  induction fuel as [|fuel IH]; intros pr n Hst Hpos Hn Hws; [reflexivity|].
  cbn [findXref_loop]. unfold bind at 1. unfold onFile. rewrite Hst, Hpos.
  change (mkLex [] (f pr) (Z.of_nat n)) with (lex_at [] (f pr) n).
  assert (Hread : readToken (lex_at [] (f pr) n)
                  = Ok "" (lex_at [] (f pr) (List.length (f pr)))).
  { pose proof (readToken_blank_tail (take n (f pr)) (drop n (f pr)) Hws) as Hr.
    rewrite take_drop, length_take, length_drop in Hr.
    replace (n `min` List.length (f pr))%nat with n in Hr by lia.
    replace (n + (List.length (f pr) - n))%nat with (List.length (f pr)) in Hr by lia.
    exact Hr. }
  rewrite Hread. cbn [String.eqb].
  apply (IH _ (List.length (f pr))).
  - destruct pr; reflexivity.
  - destruct pr; reflexivity.
  - destruct pr; cbn; lia.
  - destruct pr; cbn. rewrite drop_all. constructor.
Qed.

(** X22.  A stream that holds only white space (the empty stream, for
    instance) makes [NewPdfReaderFromStream] loop for ever: at the end of
    the input [readToken] returns the empty token with a nil error, and the
    loop of [findXref] goes on until it meets the token [startxref].  (In the
    model the loop runs out of fuel, whatever the fuel.) *)
Theorem NewPdfReaderFromStream_blank_diverges (fuel : nat) (rs : list ascii) :
  Forall (fun b => is_space b = true) rs ->
  NewPdfReaderFromStream fuel rs = Diverge.
Proof.
  intros Hrs. unfold NewPdfReaderFromStream, init, read, findXref.
  set (len := Z.of_nat (List.length rs)).
  set (toRead := if len <? 1500 then len else 1500).
  assert (Hto : 0 <= toRead <= len).
  { unfold toRead. destruct (Z.ltb_spec len 1500); unfold len; lia. }
  unfold bind, modify, gets, SeekEnd, bind, gets, Seek. cbn.
  fold len. fold toRead.
  destruct (Z.ltb_spec (len + - toRead) 0) as [Hneg|_]; [lia|].
  rewrite (findXref_loop_blank fuel _ (Z.to_nat (len - toRead))); try reflexivity.
  - cbn. lia.
  - cbn. unfold len in *. lia.
  - cbn. apply Forall_drop. exact Hrs.
Qed.

End FindXref.

Lemma NewPdfReaderFromStream_blank_diverges_witness :
  @NewPdfReaderFromStream stdStub 1000 [] = Diverge /\
  @NewPdfReaderFromStream stdStub 1000 [" "%char; ch 10] = Diverge.
Proof.
  split.
  - apply (@NewPdfReaderFromStream_blank_diverges stdStub 1000 []). constructor.
  - apply (@NewPdfReaderFromStream_blank_diverges stdStub 1000 [" "%char; ch 10]).
    repeat constructor.
Defined.

(** ** C4: the rotation stored by [ImportPage] *)

Section RotationRun.
Context `{GoStd}.
Import Writer.

Lemma onReader_Ok {A} (m : M PdfReader A) pw a pw' :
  onReader m pw = Ok a pw' ->
  exists rd rd', r pw = Some rd /\ m rd = Ok a rd' /\ pw' = set_r (Some rd') pw.
Proof.
  unfold onReader. destruct (r pw) as [rd|]; [|discriminate].
  destruct (m rd) as [a' rd'| | |] eqn:Hm; try discriminate.
  intros [= <- <-]. eauto.
Qed.

Lemma frame_onReader {A} (rd0 : PdfReader) (m : M PdfReader A) :
  triple (reader_frame rd0) m (fun _ => reader_frame rd0) (reader_frame rd0) ->
  triple (holds_frame rd0) (onReader m) (fun _ => holds_frame rd0) (holds_frame rd0).
Proof.
  intros Hm pw (rd & Hr & Hfr). unfold onReader. rewrite Hr.
  specialize (Hm rd Hfr). destruct (m rd); try exact I;
    (eexists; split; [reflexivity|exact Hm]).
Qed.

Lemma frame_GetPDFBoxDimensions (rd0 : PdfReader) fuel p boxname :
  triple (holds_frame rd0) (GetPDFBoxDimensions fuel p boxname)
    (fun _ => holds_frame rd0) (holds_frame rd0).
Proof.
  unfold GetPDFBoxDimensions.
  repeat (fstep (holds_frame rd0));
    auto using frame_onReader, frame_GetNumPages, frame_GetAllPageBoxes.
Qed.

(** The calls that a successful [ImportPage] makes, in their order, and
    the template it appends. *)
Lemma ImportPage_run fuel rd pageno boxName pw n pw' :
  ImportPage fuel rd pageno boxName pw = Ok n pw' ->
  exists res rd1 content rd2 bx pw3 rd3 rot rd4,
    GetPageResources fuel pageno rd = Ok res rd1 /\
    GetContent fuel pageno rd1 = Ok content rd2 /\
    GetPDFBoxDimensions fuel pageno boxName (set_r (Some rd2) pw) = Ok bx pw3 /\
    r pw3 = Some rd3 /\
    reader_frame rd rd3 /\
    GetPageRotation fuel pageno rd3 = Ok (Some rot) rd4 /\
    r pw' = Some rd4 /\
    tpls pw' = tpls pw ++
      [setRotation (Int rot)
         (mkPdfTemplate 0 res content bx 0 0 (bget bx "w") (bget bx "h") 0 0)].
Proof.
  unfold ImportPage. intros Hrun.
  inv_ok_step Hrun. inv_ok_step Hm.
  inv_ok_step Hrun. apply onReader_Ok in Hm as (rd0 & rd1 & Hr0 & Hres & ->).
  cbn [r set_r] in Hr0. injection Hr0 as <-.
  inv_ok_step Hrun. apply onReader_Ok in Hm as (rd1' & rd2 & Hr1 & Hcont & ->).
  cbn [r set_r] in Hr1. injection Hr1 as <-.
  inv_ok_step Hrun. rename Hm into Hbox.
  inv_ok_step Hrun. apply onReader_Ok in Hm as (rd3 & rd4 & Hr3 & Hrot & ->).
  inv_ok.
  change (set_r (Some rd2) (set_r (Some rd1) (set_r (Some rd) pw)))
    with (set_r (Some rd2) pw) in Hbox.
  assert (Hf1 : reader_frame rd rd1).
  { pose proof (frame_GetPageResources rd fuel pageno rd (reader_frame_refl rd)) as Hf.
    rewrite Hres in Hf. exact Hf. }
  assert (Hf2 : reader_frame rd rd2).
  { pose proof (frame_GetContent rd fuel pageno rd1 Hf1) as Hf.
    rewrite Hcont in Hf. exact Hf. }
  assert (Hf3 : holds_frame rd s).
  { pose proof (frame_GetPDFBoxDimensions rd fuel pageno boxName (set_r (Some rd2) pw)
                  (ex_intro _ rd2 (conj eq_refl Hf2))) as Hf.
    rewrite Hbox in Hf. exact Hf. }
  destruct Hf3 as (rd3' & Hr3' & Hf3). rewrite Hr3 in Hr3'. injection Hr3' as <-.
  eexists _, rd1, _, rd2, _, s, rd3, _, rd4.
  split; [exact Hres|]. split; [exact Hcont|]. split; [exact Hbox|].
  split; [exact Hr3|]. split; [exact Hf3|]. split; [exact Hrot|].
  split; [reflexivity|].
  cbn [tpls set_tpls set_r].
  rewrite (GetPDFBoxDimensions_tpls _ _ _ _ _ _ Hbox). reflexivity.
Qed.

(** C4, as the code has it.  A successful [ImportPage] of page [pageno]
    from the reader [rd] makes four calls in this order: [GetPageResources]
    on [rd], [GetContent] on the reader that call left, [GetPDFBoxDimensions]
    on the writer holding the reader after that, and [GetPageRotation] on the
    reader [rd3] that the writer holds then, which is [rd] up to the offset
    in the byte stream and the pushback stack.  With [rot] the [/Rotate]
    value this last call returns for the page, the writer gains exactly one
    template, whose box is the one [GetPDFBoxDimensions] returned and whose
    stored rotation is [-(rot mod 360)].  The stored rotation is one of 0,
    -90, -180, -270 exactly when [rot] is a multiple of 90; for the values
    0, 90, 180, 270, -90, 450, 720 of [rot] it is 0, -90, -180, -270, -270,
    -90, 0; and width and height of the box are exchanged exactly when the
    number of 90-degree steps [(rot rem 360) quot 90] is odd. *)
Theorem ImportPage_rotation :
  forall (fuel : nat) (rd : PdfReader) (pageno : Z) (boxName : string)
         (pw : PdfWriter) (n : Z) (pw' : PdfWriter),
    ImportPage fuel rd pageno boxName pw = Ok n pw' ->
    exists (res : option PdfValue) (rd1 : PdfReader) (content : string)
           (rd2 : PdfReader) (bx : option Box) (pw3 : PdfWriter)
           (rd3 : PdfReader) (rot : PdfValue) (rd4 : PdfReader)
           (tpl : PdfTemplate),
      GetPageResources fuel pageno rd = Ok res rd1 /\
      GetContent fuel pageno rd1 = Ok content rd2 /\
      GetPDFBoxDimensions fuel pageno boxName (set_r (Some rd2) pw) = Ok bx pw3 /\
      r pw3 = Some rd3 /\
      reader_frame rd rd3 /\
      GetPageRotation fuel pageno rd3 = Ok (Some rot) rd4 /\
      r pw' = Some rd4 /\
      tpls pw' = tpls pw ++ [tpl] /\
      tpl_Box tpl = bx /\
      tpl_Rotation tpl = - (Int rot mod 360) /\
      (In (tpl_Rotation tpl) [0; -90; -180; -270] <-> Int rot mod 90 = 0) /\
      (forall r stored,
          In (r, stored) [(0, 0); (90, -90); (180, -180); (270, -270);
                          (-90, -270); (450, -90); (720, 0)] ->
          Int rot = r -> tpl_Rotation tpl = stored) /\
      (tpl_W tpl, tpl_H tpl) =
        (if Z.odd (Z.quot (Z.rem (Int rot) 360) 90)
         then (bget bx "h", bget bx "w")
         else (bget bx "w", bget bx "h")).
Proof.
  intros fuel rd pageno boxName pw n pw' Hrun.
  apply ImportPage_run in Hrun
    as (res & rd1 & content & rd2 & bx & pw3 & rd3 & rot & rd4 &
        Hres & Hcont & Hbox & Hr3 & Hfr & Hrot & Hr4 & Htpls).
  exists res, rd1, content, rd2, bx, pw3, rd3, rot, rd4.
  eexists. split; [exact Hres|]. split; [exact Hcont|]. split; [exact Hbox|].
  split; [exact Hr3|]. split; [exact Hfr|]. split; [exact Hrot|].
  split; [exact Hr4|]. split; [exact Htpls|].
  assert (Hr : tpl_Rotation (setRotation (Int rot)
                (mkPdfTemplate 0 res content bx 0 0 (bget bx "w") (bget bx "h") 0 0))
               = - (Int rot mod 360))
    by (apply setRotation_Rotation; reflexivity).
  split; [apply setRotation_Box|].
  split; [exact Hr|]. split; [|split].
  - rewrite Hr. cbn [In]. split.
    + intros Hin. Z.to_euclidean_division_equations; lia.
    + intros H90.
      assert (Hc : Int rot mod 360 = 0 \/ Int rot mod 360 = 90 \/
                   Int rot mod 360 = 180 \/ Int rot mod 360 = 270)
        by (Z.to_euclidean_division_equations; lia).
      lia.
  - intros r0 stored Hin Heq. rewrite Hr, Heq. cbn [In] in Hin.
    repeat (destruct Hin as [[= <- <-]|Hin]; [reflexivity|]). destruct Hin.
  - rewrite setRotation_size. reflexivity.
Qed.

End RotationRun.

Lemma ImportPage_rotation_witness :
  @Writer.ImportPage stdStub 100 sample_reader 1 "/MediaBox" Writer.NewPdfWriter
    = Ok 0 sample_pw1 /\
  exists (res : option PdfValue) (rd1 : PdfReader) (content : string)
         (rd2 : PdfReader) (bx : option Box) (pw3 : Writer.PdfWriter)
         (rd3 : PdfReader) (rot : PdfValue) (rd4 : PdfReader)
         (tpl : Writer.PdfTemplate),
    @GetPageResources stdStub 100 1 sample_reader = Ok res rd1 /\
    @GetContent stdStub 100 1 rd1 = Ok content rd2 /\
    @Writer.GetPDFBoxDimensions stdStub 100 1 "/MediaBox"
      (Writer.set_r (Some rd2) Writer.NewPdfWriter) = Ok bx pw3 /\
    Writer.r pw3 = Some rd3 /\
    reader_frame sample_reader rd3 /\
    @GetPageRotation stdStub 100 1 rd3 = Ok (Some rot) rd4 /\
    Writer.r sample_pw1 = Some rd4 /\
    Writer.tpls sample_pw1 = Writer.tpls Writer.NewPdfWriter ++ [tpl] /\
    Writer.tpl_Box tpl = bx /\
    Writer.tpl_Rotation tpl = - (Int rot mod 360) /\
    (In (Writer.tpl_Rotation tpl) [0; -90; -180; -270] <-> Int rot mod 90 = 0) /\
    (forall r stored,
        In (r, stored) [(0, 0); (90, -90); (180, -180); (270, -270);
                        (-90, -270); (450, -90); (720, 0)] ->
        Int rot = r -> Writer.tpl_Rotation tpl = stored) /\
    (Writer.tpl_W tpl, Writer.tpl_H tpl) =
      (if Z.odd (Z.quot (Z.rem (Int rot) 360) 90)
       then (Writer.bget bx "h", Writer.bget bx "w")
       else (Writer.bget bx "w", Writer.bget bx "h")).
Proof.
  assert (H1 : @Writer.ImportPage stdStub 100 sample_reader 1 "/MediaBox" Writer.NewPdfWriter
               = Ok 0 sample_pw1) by (vm_compute; reflexivity).
  split; [exact H1|].
  exact (@ImportPage_rotation stdStub 100 sample_reader 1 "/MediaBox" Writer.NewPdfWriter
           0 sample_pw1 H1).
Defined.

(** C4 as stated fails twice.  The page of the sample document has
    [/Rotate 90]; the import succeeds and the rotation stored is -90, not
    the -270 listed for the input 90.  The page of [skew_pdf] has
    [/Rotate 45]; the import succeeds and the rotation stored is -45, which
    is none of 0, -90, -180, -270. *)
Lemma ImportPage_rotation_counterexample :
  (rotate_of 100 1 sample_reader = 90 /\
   @Writer.ImportPage stdStub 100 sample_reader 1 "/MediaBox" Writer.NewPdfWriter
     = Ok 0 sample_pw1 /\
   map Writer.tpl_Rotation (Writer.tpls sample_pw1) = [-90] /\
   ~ (forall tpl, In tpl (Writer.tpls sample_pw1) -> Writer.tpl_Rotation tpl = -270)) /\
  (@NewPdfReaderFromStream stdStub 1000 (bytes_of_string skew_pdf) = Ok tt skew_reader /\
   rotate_of 100 1 skew_reader = 45 /\
   @Writer.ImportPage stdStub 100 skew_reader 1 "/MediaBox" Writer.NewPdfWriter
     = Ok 0 skew_pw1 /\
   map Writer.tpl_Rotation (Writer.tpls skew_pw1) = [-45] /\
   ~ (forall tpl, In tpl (Writer.tpls skew_pw1) ->
                  In (Writer.tpl_Rotation tpl) [0; -90; -180; -270])).
Proof.
  split.
  - split; [vm_compute; reflexivity|].
    split; [vm_compute; reflexivity|].
    split; [vm_compute; reflexivity|].
    intros Hall.
    specialize (Hall (nth 0 (Writer.tpls sample_pw1)
                        (Writer.mkPdfTemplate 0 None "" None 0 0 0 0 0 0))
                  (or_introl eq_refl)).
    vm_compute in Hall. discriminate Hall.
  - split; [vm_compute; reflexivity|].
    split; [vm_compute; reflexivity|].
    split; [vm_compute; reflexivity|].
    split; [vm_compute; reflexivity|].
    intros Hall.
    specialize (Hall (nth 0 (Writer.tpls skew_pw1)
                        (Writer.mkPdfTemplate 0 None "" None 0 0 0 0 0 0))
                  (or_introl eq_refl)).
    vm_compute in Hall.
    repeat (destruct Hall as [Hall|Hall]; [discriminate Hall|]). exact Hall.
Qed.
